(** * CL_OPDS_OfflineTest: the asset-mirroring pipeline of
      [download_and_rewrite.py], embedded and verified.

    The development follows the source file function by function:
    [is_blocked], [collect_urls_from_manifest], [url_to_local_path],
    [download_one], [download_urls], [rewrite_manifest] and the summary
    that [main] computes, over models of
    the Python values and of the standard-library calls they make
    ([str] methods, [urllib.parse], [hashlib.sha1], [os.path.splitext],
    [pathlib.PurePosixPath]).

    Conventions.
    - A Python [str] is a [string] holding its UTF-8 encoding; every [str]
      method used by the program works on ASCII delimiters, for which the
      byte-wise and the code-point-wise readings coincide.
    - A JSON document is a [json] tree.  A Python [dict] keeps insertion
      order, so an object is an association list; [json.load] never yields
      a repeated key, which is the predicate [wf].
    - Python [None] is JSON [null]: [JNull].
    - An uncaught Python exception is [Raise]: [TypeError] where the
      program iterates a value that is not iterable, [ValueError] where
      [urlparse] refuses a netloc. *)

From Stdlib Require Import ZArith NArith Ascii String Permutation.
From Stdlib Require QArith.
From stdpp Require Import base tactics option list gmap strings.

#[local] Set Warnings "-register-all,-clear-no-such-hyp".

(** ** Python results *)

Inductive exn : Type :=
| TypeError
| UnboundLocalError
| ValueError
| OSError
| RequestException (response : option Z).

Inductive res (A : Type) : Type :=
| Ok (a : A)
| Raise (e : exn).
Arguments Ok {A} a.
Arguments Raise {A} e.

Definition res_bind {A B} (m : res A) (f : A → res B) : res B :=
  match m with
  | Ok a => f a
  | Raise e => Raise e
  end.

(** [x ← m; k] runs [k] on the value of [m] and lets its exception through *)
#[export] Instance res_mbind : MBind res := λ A B f m, res_bind m f.

(** ** Python [str] methods *)

Module Str.

Definition eqb (a b : string) : bool := bool_decide (a = b).

(** [s.startswith(p)] *)
Fixpoint startswith (s p : string) {struct p} : bool :=
  match p with
  | EmptyString => true
  | String a p' =>
      match s with
      | EmptyString => false
      | String b s' => Ascii.eqb a b && startswith s' p'
      end
  end.

(** [sub in s] *)
Fixpoint contains (s sub : string) : bool :=
  startswith s sub ||
  match s with
  | EmptyString => false
  | String _ s' => contains s' sub
  end.

(** [c in s] for a single character *)
Fixpoint mem (c : ascii) (s : string) : bool :=
  match s with
  | EmptyString => false
  | String b s' => Ascii.eqb c b || mem c s'
  end.

(** [s.endswith(c)] for a single character *)
Fixpoint endswith_char (s : string) (c : ascii) : bool :=
  match s with
  | EmptyString => false
  | String b EmptyString => Ascii.eqb b c
  | String _ s' => endswith_char s' c
  end.

(** [s.lstrip(chars)], the set [chars] given by its membership test *)
Fixpoint lstrip (p : ascii → bool) (s : string) : string :=
  match s with
  | EmptyString => EmptyString
  | String b s' => if p b then lstrip p s' else s
  end.

(** [s.replace(c, EmptyString)] for every character [c] satisfying [p] *)
Fixpoint remove (p : ascii → bool) (s : string) : string :=
  match s with
  | EmptyString => EmptyString
  | String b s' => if p b then remove p s' else String b (remove p s')
  end.

(** [s.split(c)]: never empty, [n] separators give [n + 1] fields *)
Fixpoint split (c : ascii) (s : string) : list string :=
  match s with
  | EmptyString => [EmptyString]
  | String b s' =>
      if Ascii.eqb b c then EmptyString :: split c s'
      else match split c s' with
           | [] => [String b EmptyString]
           | f :: fs => String b f :: fs
           end
  end.

(** [sep.join(l)] *)
Fixpoint join (sep : string) (l : list string) : string :=
  match l with
  | [] => EmptyString
  | [x] => x
  | x :: l' => x +:+ sep +:+ join sep l'
  end.

(** [s.split(c, 1)] when [c in s]: the text before and after the first [c] *)
Fixpoint partition (c : ascii) (s : string) : option (string * string) :=
  match s with
  | EmptyString => None
  | String b s' =>
      if Ascii.eqb b c then Some (EmptyString, s')
      else match partition c s' with
           | Some (x, y) => Some (String b x, y)
           | None => None
           end
  end.

(** [s[:i], s[i:]] where [i] is the first position holding one of [delims],
    or [len(s)] when there is none *)
Fixpoint break (delims : string) (s : string) : string * string :=
  match s with
  | EmptyString => (EmptyString, EmptyString)
  | String b s' =>
      if mem b delims then (EmptyString, s)
      else let '(x, y) := break delims s' in (String b x, y)
  end.

(** [s[:i], s[i+1:]] where [i = s.rfind(c)]; [None] when [c not in s] *)
Fixpoint rpartition (c : ascii) (s : string) : option (string * string) :=
  match s with
  | EmptyString => None
  | String b s' =>
      match rpartition c s' with
      | Some (x, y) => Some (String b x, y)
      | None => if Ascii.eqb b c then Some (EmptyString, s') else None
      end
  end.

Definition is_upper (c : ascii) : bool :=
  let n := N_of_ascii c in ((65 <=? n) && (n <=? 90))%N.
Definition is_lower (c : ascii) : bool :=
  let n := N_of_ascii c in ((97 <=? n) && (n <=? 122))%N.
Definition is_digit (c : ascii) : bool :=
  let n := N_of_ascii c in ((48 <=? n) && (n <=? 57))%N.
Definition is_ascii (c : ascii) : bool := (N_of_ascii c <? 128)%N.

(** [s.lower()] on ASCII letters *)
Fixpoint lower (s : string) : string :=
  match s with
  | EmptyString => EmptyString
  | String b s' =>
      String (if is_upper b then ascii_of_N (N_of_ascii b + 32) else b)
             (lower s')
  end.

Fixpoint forallb (p : ascii → bool) (s : string) : bool :=
  match s with
  | EmptyString => true
  | String b s' => p b && forallb p s'
  end.

(** Iterating a [str] yields its characters, each a [str] of length one:
    here the UTF-8 chunks of one code point each. *)
Definition utf8_trail (c : ascii) : nat :=
  let n := N_of_ascii c in
  if (n <? 192)%N then 0%nat
  else if (n <? 224)%N then 1%nat
  else if (n <? 240)%N then 2%nat
  else 3%nat.

Fixpoint chars_go (s : string) (cur : string) (need : nat) : list string :=
  match s with
  | EmptyString =>
      match cur with EmptyString => [] | _ => [cur] end
  | String b s' =>
      match need with
      | S n => chars_go s' (cur +:+ String b EmptyString) n
      | O =>
          let rest := chars_go s' (String b EmptyString) (utf8_trail b) in
          match cur with EmptyString => rest | _ => cur :: rest end
      end
  end.

Definition chars (s : string) : list string := chars_go s EmptyString 0.

End Str.

(** ** JSON values, as [json.load] builds them *)

Inductive json : Type :=
| JNull
| JBool (b : bool)
| JInt (n : Z)
| JFloat (mantissa exponent : Z)
| JStr (s : string)
| JArr (items : list json)
| JObj (fields : list (string * json)).

Abbreviation dict := (list (string * json)).

(** Python truthiness, as used by [x or y] and [not x] *)
Definition truthy (v : json) : bool :=
  match v with
  | JNull => false
  | JBool b => b
  | JInt n => negb (n =? 0)%Z
  | JFloat m _ => negb (m =? 0)%Z
  | JStr s => negb (Str.eqb s EmptyString)
  | JArr l => match l with [] => false | _ => true end
  | JObj kvs => match kvs with [] => false | _ => true end
  end.

(** [for x in v]: a list yields its elements, a dict its keys, a str its
    characters; anything else is not iterable. *)
Definition iterate (v : json) : res (list json) :=
  match v with
  | JArr l => Ok l
  | JObj kvs => Ok (map (λ kv, JStr kv.1) kvs)
  | JStr s => Ok (map JStr (Str.chars s))
  | _ => Raise TypeError
  end.

Definition is_none (v : json) : bool :=
  match v with JNull => true | _ => false end.

Definition isinstance_str (v : json) : bool :=
  match v with JStr _ => true | _ => false end.

(** [d.get(k)] (which also answers [k in d]), [d[k] = v], [d.pop(k, None)] *)
Fixpoint dict_get (k : string) (d : dict) : option json :=
  match d with
  | [] => None
  | (k', v) :: d' => if Str.eqb k' k then Some v else dict_get k d'
  end.

Fixpoint dict_set (k : string) (v : json) (d : dict) : dict :=
  match d with
  | [] => [(k, v)]
  | (k', v') :: d' =>
      if Str.eqb k' k then (k', v) :: d' else (k', v') :: dict_set k v d'
  end.

Fixpoint dict_pop (k : string) (d : dict) : dict :=
  match d with
  | [] => []
  | (k', v') :: d' =>
      if Str.eqb k' k then d' else (k', v') :: dict_pop k d'
  end.

(** [d.get(k, default)] *)
Definition dict_get_default (k : string) (default : json) (d : dict) : json :=
  match dict_get k d with Some v => v | None => default end.

(** [d.get(k)], which is [None] when the key is missing *)
Definition dict_get_none (k : string) (d : dict) : json :=
  dict_get_default k JNull d.

(** Keys are unique at every level, as in every value [json.load] returns. *)
Fixpoint wf (v : json) : Prop :=
  match v with
  | JArr l => (fix all (l : list json) : Prop :=
                 match l with [] => True | x :: l' => wf x ∧ all l' end) l
  | JObj kvs =>
      NoDup (map fst kvs) ∧
      (fix all (kvs : dict) : Prop :=
         match kvs with [] => True | kv :: kvs' => wf kv.2 ∧ all kvs' end) kvs
  | _ => True
  end.
Arguments wf : simpl never.

(** [wf], decided. *)
Fixpoint wfb (v : json) : bool :=
  match v with
  | JArr l => forallb wfb l
  | JObj kvs =>
      bool_decide (NoDup (map fst kvs)) && forallb (λ kv, wfb kv.2) kvs
  | _ => true
  end.

(** ** [hashlib.sha1]

    FIPS 180-4 SHA-1 over 32-bit words, held in [N] with the wrap-around
    written out. *)

Module Sha1.
#[local] Open Scope N_scope.

Definition mask32 : N := 4294967295.
Definition add32 (a b : N) : N := (a + b) mod 4294967296.
Definition rotl (n x : N) : N :=
  N.land (N.lor (N.shiftl x n) (N.shiftr x (32 - n))) mask32.
Definition not32 (x : N) : N := N.lxor x mask32.

Definition bytes_of (s : string) : list N :=
  map N_of_ascii (list_ascii_of_string s).

(** big-endian bytes of [x], [n] of them *)
Fixpoint be_bytes (n : nat) (x : N) : list N :=
  match n with
  | O => []
  | S n' => N.land (N.shiftr x (8 * N.of_nat n')) 255 :: be_bytes n' x
  end.

Definition pad (msg : list N) : list N :=
  let len := N.of_nat (length msg) in
  let zeros := N.to_nat ((119 - len mod 64) mod 64) in
  msg ++ [128] ++ replicate zeros 0 ++ be_bytes 8 (8 * len).

Fixpoint words (bs : list N) : list N :=
  match bs with
  | a :: b :: c :: d :: bs' =>
      N.lor (N.shiftl a 24) (N.lor (N.shiftl b 16) (N.lor (N.shiftl c 8) d))
      :: words bs'
  | _ => []
  end.

Fixpoint blocks (fuel : nat) (ws : list N) : list (list N) :=
  match fuel with
  | O => []
  | S fuel' =>
      match ws with
      | [] => []
      | _ => take 16 ws :: blocks fuel' (drop 16 ws)
      end
  end.

(** message schedule, most recent word first *)
Fixpoint schedule (n : nat) (rev_w : list N) : list N :=
  match n with
  | O => rev_w
  | S n' =>
      let w := rotl 1 (N.lxor (N.lxor (nth 2 rev_w 0) (nth 7 rev_w 0))
                              (N.lxor (nth 13 rev_w 0) (nth 15 rev_w 0))) in
      schedule n' (w :: rev_w)
  end.

Definition state : Type := N * N * N * N * N.

Definition round (t : nat) (w : N) (st : state) : state :=
  let '(a, b, c, d, e) := st in
  let '(f, k) :=
    if (t <? 20)%nat then
      (N.lor (N.land b c) (N.land (not32 b) d), 1518500249)
    else if (t <? 40)%nat then
      (N.lxor (N.lxor b c) d, 1859775393)
    else if (t <? 60)%nat then
      (N.lor (N.lor (N.land b c) (N.land b d)) (N.land c d), 2400959708)
    else
      (N.lxor (N.lxor b c) d, 3395469782) in
  let temp := add32 (add32 (add32 (add32 (rotl 5 a) f) e) k) w in
  (temp, a, rotl 30 b, c, d).

Fixpoint rounds (t : nat) (ws : list N) (st : state) : state :=
  match ws with
  | [] => st
  | w :: ws' => rounds (S t) ws' (round t w st)
  end.

Definition compress (h : state) (block : list N) : state :=
  let w := rev (schedule 64 (rev block)) in
  let '(a, b, c, d, e) := rounds 0 w h in
  let '(h0, h1, h2, h3, h4) := h in
  (add32 h0 a, add32 h1 b, add32 h2 c, add32 h3 d, add32 h4 e).

Definition init : state :=
  (1732584193, 4023233417, 2562383102, 271733878, 3285377520).

Definition hex_digit (n : N) : ascii :=
  if n <? 10 then ascii_of_N (48 + n) else ascii_of_N (87 + n).

Fixpoint hex (n : nat) (x : N) : string :=
  match n with
  | O => EmptyString
  | S n' => String (hex_digit (N.land (N.shiftr x (4 * N.of_nat n')) 15))
                   (hex n' x)
  end.

(** [hashlib.sha1(s.encode("utf-8")).hexdigest()] *)
Definition hexdigest (s : string) : string :=
  let ws := words (pad (bytes_of s)) in
  let '(h0, h1, h2, h3, h4) :=
    fold_left compress (blocks (length ws) ws) init in
  hex 8 h0 +:+ hex 8 h1 +:+ hex 8 h2 +:+ hex 8 h3 +:+ hex 8 h4.

End Sha1.

(** [s[:n]] *)
Fixpoint str_take (n : nat) (s : string) : string :=
  match n, s with
  | S n', String b s' => String b (str_take n' s')
  | _, _ => EmptyString
  end.

(** [s[n:]] *)
Fixpoint str_drop (n : nat) (s : string) : string :=
  match n, s with
  | S n', String _ s' => str_drop n' s'
  | _, _ => s
  end.

(** ** [urllib.parse]

    [urlparse] and [unquote] follow CPython 3.11 with its security fixes
    (leading control characters stripped, bracketed hosts checked).
    [urlparse] raises [ValueError] on a netloc it refuses. *)

Module Urllib.

Record ParseResult : Type := {
  scheme : string;
  netloc : string;
  path : string;
  params : string;
  query : string;
  fragment : string
}.

Definition scheme_char (c : ascii) : bool :=
  Str.is_lower c || Str.is_upper c || Str.is_digit c ||
  Str.mem c "+-.".

Definition c0_control_or_space (c : ascii) : bool := (N_of_ascii c <=? 32)%N.

Definition unsafe_byte (c : ascii) : bool :=
  let n := N_of_ascii c in ((n =? 9) || (n =? 13) || (n =? 10))%N.

(** the scheme and what follows its colon *)
Definition split_scheme (url : string) : string * string :=
  match Str.partition ":" url with
  | Some (String c0 rest as pre, post) =>
      if (Str.is_lower c0 || Str.is_upper c0) && Str.forallb scheme_char pre
      then (Str.lower pre, post)
      else (EmptyString, url)
  | _ => (EmptyString, url)
  end.

Definition uses_params : list string :=
  [EmptyString; "ftp"; "hdl"; "prospero"; "http"; "imap"; "https"; "shttp";
   "rtsp"; "rtspu"; "sip"; "sips"; "mms"; "sftp"; "tel"].

Definition splitparams (url : string) : string * string :=
  match Str.rpartition "/" url with
  | Some (dir, file) =>
      match Str.partition ";" file with
      | Some (x, y) => (dir +:+ "/" +:+ x, y)
      | None => (url, EmptyString)
      end
  | None =>
      match Str.partition ";" url with
      | Some (x, y) => (x, y)
      | None => (url, EmptyString)
      end
  end.

Definition hex_value (c : ascii) : option N :=
  let n := N_of_ascii c in
  if Str.is_digit c then Some (n - 48)%N
  else if ((97 <=? n) && (n <=? 102))%N then Some (n - 87)%N
  else if ((65 <=? n) && (n <=? 70))%N then Some (n - 55)%N
  else None.

Definition is_hex (c : ascii) : bool :=
  match hex_value c with Some _ => true | None => false end.

(** *** The host checks of [urlsplit]

    [ipaddress]: what [IPv4Address] and [IPv6Address] accept. *)

(** [int(s, 10)] of a string of decimal digits *)
Definition decimal (s : string) : N :=
  fold_left (λ n c, 10 * n + (N_of_ascii c - 48))%N (list_ascii_of_string s) 0%N.

Definition parse_octet (s : string) : bool :=
  negb (Str.eqb s EmptyString) &&
  Str.forallb Str.is_digit s &&
  (String.length s <=? 3)%nat &&
  negb (negb (Str.eqb s "0") && Str.startswith s "0") &&
  (decimal s <=? 255)%N.

Definition ipv4_address (s : string) : bool :=
  negb (Str.mem "/" s) && negb (Str.eqb s EmptyString) &&
  match Str.split "." s with
  | [a; b; c; d] => parse_octet a && parse_octet b && parse_octet c && parse_octet d
  | _ => false
  end.

(** [int(s, 16)] needs a digit *)
Definition parse_hextet (s : string) : bool :=
  Str.forallb is_hex s && (String.length s <=? 4)%nat &&
  negb (Str.eqb s EmptyString).

(** the positions [1 .. len(parts) - 2] that hold an empty part *)
Definition skip_indices (parts : list string) : list nat :=
  filter (λ i, parts !! i = Some EmptyString) (seq 1 (length parts - 2)).

Definition first_empty (parts : list string) : bool :=
  bool_decide (head parts = Some EmptyString).

Definition last_empty (parts : list string) : bool :=
  bool_decide (last parts = Some EmptyString).

(** an IPv4-style suffix is replaced by the two hextets it stands for,
    whose value is not observed here *)
Definition ipv4_suffix (parts : list string) : option (list string) :=
  match last parts with
  | Some p =>
      if Str.mem "." p then
        if ipv4_address p then Some (removelast parts ++ ["0"; "0"]) else None
      else Some parts
  | None => Some parts
  end.

Definition ip_int_from_string (ip_str : string) : bool :=
  negb (Str.eqb ip_str EmptyString) &&
  let parts := Str.split ":" ip_str in
  (3 <=? length parts)%nat &&
  match ipv4_suffix parts with
  | None => false
  | Some parts =>
      (length parts <=? 9)%nat &&
      match skip_indices parts with
      | [] =>
          (length parts =? 8)%nat && negb (first_empty parts) &&
          negb (last_empty parts) && forallb parse_hextet parts
      | [skip_index] =>
          let parts_hi := skip_index in
          let parts_lo := (length parts - skip_index - 1)%nat in
          let parts_hi := if first_empty parts then (parts_hi - 1)%nat else parts_hi in
          let parts_lo := if last_empty parts then (parts_lo - 1)%nat else parts_lo in
          (if first_empty parts then (parts_hi =? 0)%nat else true) &&
          (if last_empty parts then (parts_lo =? 0)%nat else true) &&
          (parts_hi + parts_lo <=? 7)%nat &&
          forallb parse_hextet (take parts_hi parts) &&
          forallb parse_hextet (drop (length parts - parts_lo) parts)
      | _ => false
      end
  end.

Definition ipv6_address (s : string) : bool :=
  negb (Str.mem "/" s) &&
  match Str.partition "%" s with
  | None => ip_int_from_string s
  | Some (addr, scope_id) =>
      negb (Str.eqb scope_id EmptyString) && negb (Str.mem "%" scope_id) &&
      ip_int_from_string addr
  end.

(** [re.match(r"\Av[a-fA-F0-9]+\..+\Z", hostname)]: the digits after the
    [v] run up to a dot, and something follows the dot *)
Definition ipvfuture (hostname : string) : bool :=
  match hostname with
  | String "v" rest =>
      let digits := Str.lstrip is_hex rest in
      negb (Str.startswith rest ".") &&
      match digits with
      | String "." (String _ _) => true
      | _ => false
      end
  | _ => false
  end.

(** [_check_bracketed_host]: [ip_address] tries IPv4 first, and an IPv4
    address in brackets is refused *)
Definition check_bracketed_host (hostname : string) : bool :=
  if Str.startswith hostname "v" then ipvfuture hostname
  else if ipv4_address hostname then false
  else ipv6_address hostname.

(** the text after the last [c], all of [s] when there is none *)
Definition after_last (c : ascii) (s : string) : string :=
  match Str.rpartition c s with Some (_, y) => y | None => s end.

Definition check_bracketed_netloc (netloc : string) : bool :=
  let hostname_and_port := after_last "@" netloc in
  match Str.partition "[" hostname_and_port with
  | Some (before_bracket, bracketed) =>
      Str.eqb before_bracket EmptyString &&
      match Str.partition "]" bracketed with
      | Some (hostname, port) =>
          (Str.eqb port EmptyString || Str.startswith port ":") &&
          check_bracketed_host hostname
      | None => check_bracketed_host bracketed
      end
  | None =>
      match Str.partition ":" hostname_and_port with
      | Some (hostname, _) => check_bracketed_host hostname
      | None => check_bracketed_host hostname_and_port
      end
  end.

(** [_checknetloc]: a netloc that is not ASCII is refused when its NFKC
    form holds one of [/?#@:] that the netloc itself does not: when it holds
    one of the code points whose compatibility form has one (Unicode 14). *)
Definition confusable : list N :=
  [8263; 8264; 8265; 8448; 8449; 8453; 8454; 10868; 65043; 65046; 65109;
   65110; 65119; 65131; 65283; 65295; 65306; 65311; 65312]%N.

(** the UTF-8 encoding of a code point of three bytes *)
Definition utf8_3 (cp : N) : string :=
  String (ascii_of_N (224 + N.shiftr cp 12))
    (String (ascii_of_N (128 + N.land (N.shiftr cp 6) 63))
       (String (ascii_of_N (128 + N.land cp 63)) EmptyString)).

Definition checknetloc (netloc : string) : bool :=
  Str.forallb Str.is_ascii netloc ||
  negb (existsb (λ cp, Str.contains netloc (utf8_3 cp)) confusable).

Definition urlparse (url : string) : res ParseResult :=
  let url := Str.lstrip c0_control_or_space url in
  let url := Str.remove unsafe_byte url in
  let '(scheme, url) := split_scheme url in
  let '(netloc, url) :=
    if Str.startswith url "//"
    then Str.break "/?#" (str_drop 2 url)
    else (EmptyString, url) in
  if (Str.mem "[" netloc && negb (Str.mem "]" netloc)) ||
     (Str.mem "]" netloc && negb (Str.mem "[" netloc))
  then Raise ValueError
  else if Str.mem "[" netloc && Str.mem "]" netloc &&
          negb (check_bracketed_netloc netloc)
  then Raise ValueError
  else
  let '(url, fragment) :=
    match Str.partition "#" url with
    | Some (x, y) => (x, y)
    | None => (url, EmptyString)
    end in
  let '(url, query) :=
    match Str.partition "?" url with
    | Some (x, y) => (x, y)
    | None => (url, EmptyString)
    end in
  if negb (checknetloc netloc) then Raise ValueError
  else
  let '(url, params) :=
    if bool_decide (scheme ∈ uses_params) && Str.mem ";" url
    then splitparams url
    else (url, EmptyString) in
  Ok {| scheme := scheme; netloc := netloc; path := url; params := params;
        query := query; fragment := fragment |}.

(** *** [unquote] *)

(** [unquote_to_bytes]: a percent sign followed by two hex digits is the
    byte they spell; any other percent sign stays. *)
Fixpoint unquote_to_bytes (s : string) : string :=
  match s with
  | EmptyString => EmptyString
  | String c s' =>
      if Ascii.eqb c "%" then
        match s' with
        | String a (String b rest) =>
            match hex_value a, hex_value b with
            | Some x, Some y =>
                String (ascii_of_N (16 * x + y)) (unquote_to_bytes rest)
            | _, _ => String c (unquote_to_bytes s')
            end
        | _ => String c (unquote_to_bytes s')
        end
      else String c (unquote_to_bytes s')
  end.

(** [bytes.decode("utf-8", "replace")], its result again in UTF-8: every
    maximal ill-formed run becomes U+FFFD (bytes EF BF BD).  The decoder
    state is the bytes of the sequence being read, the number of
    continuation bytes still due and the bounds of the next one. *)
Definition replacement : string :=
  String (ascii_of_N 239) (String (ascii_of_N 191)
    (String (ascii_of_N 189) EmptyString)).

Record decoder : Type := {
  pending : string;
  due : nat;
  lo : N;
  hi : N
}.

Definition idle : decoder :=
  {| pending := EmptyString; due := 0; lo := 128; hi := 191 |}.

(** a byte met with no sequence pending: what is emitted and the state *)
Definition start (c : ascii) : string * decoder :=
  let n := N_of_ascii c in
  let one := String c EmptyString in
  let lead (k : nat) (l h : N) :=
    (EmptyString, {| pending := one; due := k; lo := l; hi := h |}) in
  if (n <? 128)%N then (one, idle)
  else if (n <? 194)%N then (replacement, idle)
  else if (n <? 224)%N then lead 1%nat 128%N 191%N
  else if (n =? 224)%N then lead 2%nat 160%N 191%N
  else if (n =? 237)%N then lead 2%nat 128%N 159%N
  else if (n <? 240)%N then lead 2%nat 128%N 191%N
  else if (n =? 240)%N then lead 3%nat 144%N 191%N
  else if (n <? 244)%N then lead 3%nat 128%N 191%N
  else if (n =? 244)%N then lead 3%nat 128%N 143%N
  else (replacement, idle).

Definition step (d : decoder) (c : ascii) : string * decoder :=
  match due d with
  | O => start c
  | S k =>
      let n := N_of_ascii c in
      if ((lo d <=? n) && (n <=? hi d))%N then
        let seq := pending d +:+ String c EmptyString in
        match k with
        | O => (seq, idle)
        | S _ => (EmptyString,
                  {| pending := seq; due := k; lo := 128; hi := 191 |})
        end
      else
        let '(out, d') := start c in (replacement +:+ out, d')
  end.

Fixpoint decode_go (s : string) (d : decoder) : string :=
  match s with
  | EmptyString =>
      match due d with O => EmptyString | S _ => replacement end
  | String c s' =>
      let '(out, d') := step d c in out +:+ decode_go s' d'
  end.

Definition decode_replace (s : string) : string := decode_go s idle.

(** the ASCII runs are unquoted and decoded, the rest is kept *)
Fixpoint unquote_runs (s : string) (run : string) : string :=
  match s with
  | EmptyString => decode_replace (unquote_to_bytes run)
  | String c s' =>
      if Str.is_ascii c then unquote_runs s' (run +:+ String c EmptyString)
      else decode_replace (unquote_to_bytes run) +:+
           String c (unquote_runs s' EmptyString)
  end.

Definition unquote (s : string) : string :=
  if Str.mem "%" s then unquote_runs s EmptyString else s.

End Urllib.

(** ** [os.path.splitext] (posixpath) *)

Definition all_dots (s : string) : bool :=
  Str.forallb (λ c, Ascii.eqb c ".") s.

Definition splitext (p : string) : string * string :=
  let '(dir, file) :=
    match Str.rpartition "/" p with
    | Some (d, f) => (d +:+ "/", f)
    | None => (EmptyString, p)
    end in
  match Str.rpartition "." file with
  | Some (stem, ext) =>
      if all_dots stem then (p, EmptyString)
      else (dir +:+ stem, String "." ext)
  | None => (p, EmptyString)
  end.

(** ** [pathlib.PurePosixPath]

    A path is its root (empty, one slash, or two) and its parts; parsing
    drops empty and single-dot segments; two paths are equal when root and
    parts are. *)

Module Pathlib.

Record Path : Type := { root : string; parts : list string }.

#[export] Instance Path_eq_dec : EqDecision Path.
Proof. solve_decision. Defined.

Definition is_sep (c : ascii) : bool := Ascii.eqb c "/".

Definition keep_part (x : string) : bool :=
  negb (Str.eqb x EmptyString) && negb (Str.eqb x ".").

Definition splitroot (part : string) : string * string :=
  if Str.startswith part "/" then
    let stripped := Str.lstrip is_sep part in
    if (String.length part - String.length stripped =? 2)%nat
    then ("//", stripped)
    else ("/", stripped)
  else (EmptyString, part).

(** [PurePosixPath(s)] *)
Definition parse (s : string) : Path :=
  let '(r, rel) := splitroot s in
  {| root := r; parts := filter (λ x, keep_part x = true) (Str.split "/" rel) |}.

(** [p / s] *)
Definition joinpath (p : Path) (s : string) : Path :=
  let q := parse s in
  if Str.eqb (root q) EmptyString
  then {| root := root p; parts := parts p ++ parts q |}
  else q.

(** [str(p)], which is also [p.as_posix()] *)
Definition to_str (p : Path) : string :=
  let s := root p +:+ Str.join "/" (parts p) in
  if Str.eqb s EmptyString then "." else s.

End Pathlib.

Infix "//" := Pathlib.joinpath (at level 40, left associativity).

(** * The program *)

(** ** URL filter *)

Definition ANALYTICS_BLOCKLIST : list string :=
  [ "googletagmanager.com";
    "google-analytics.com";
    "connect.facebook.net";
    "firebaseinstallations.googleapis.com";
    "firebase.googleapis.com";
    "storage.googleapis.com";
    "analytics." ].

Definition is_blocked_with (blocklist : list string) (url : json) : bool :=
  if negb (truthy url) || negb (isinstance_str url) then false
  else
    match url with
    | JStr s => existsb (λ bad, Str.contains s bad) blocklist
    | _ => false
    end.

Definition is_blocked (url : json) : bool :=
  is_blocked_with ANALYTICS_BLOCKLIST url.

(** [s.startswith("http://") or s.startswith("https://")] *)
Definition is_http (s : string) : bool :=
  Str.startswith s "http://" || Str.startswith s "https://".

(** ** Discovery *)

Definition add_if_http (s : json) (urls : gset string) : gset string :=
  match s with
  | JStr u =>
      if is_http u && negb (is_blocked s) then {[u]} ∪ urls else urls
  | _ => urls
  end.

Fixpoint deep (o : json) (urls : gset string) {struct o} : gset string :=
  match o with
  | JObj kvs =>
      (fix values (kvs : dict) (urls : gset string) : gset string :=
         match kvs with
         | [] => urls
         | (_, v) :: kvs' => values kvs' (deep v urls)
         end) kvs urls
  | JArr l =>
      (fix elements (l : list json) (urls : gset string) : gset string :=
         match l with
         | [] => urls
         | x :: l' => elements l' (deep x urls)
         end) l urls
  | JStr s => if is_http s then add_if_http o urls else urls
  | _ => urls
  end.

(** one element of a recognised top-level list *)
Definition collect_item (item : json) (urls : gset string) : gset string :=
  match item with
  | JObj d => add_if_http (dict_get_none "href" d) urls
  | JStr _ => add_if_http item urls
  | _ => urls
  end.

(** [for item in manifest.get(key, []) or []] *)
Definition collect_key (manifest : dict) (key : string) (urls : gset string)
  : res (gset string) :=
  let v := dict_get_default key (JArr []) manifest in
  let v := if truthy v then v else JArr [] in
  items ← iterate v;
  Ok (fold_left (λ urls item, collect_item item urls) items urls).

Fixpoint collect_keys (manifest : dict) (keys : list string)
    (urls : gset string) : res (gset string) :=
  match keys with
  | [] => Ok urls
  | key :: keys' =>
      urls ← collect_key manifest key urls;
      collect_keys manifest keys' urls
  end.

Definition collect_urls_from_manifest (manifest : dict) : res (gset string) :=
  urls ← collect_keys manifest ["links"; "images"; "readingOrder"; "resources"] ∅;
  let meta := dict_get_default "metadata" (JObj []) manifest in
  let urls :=
    match meta with
    | JObj md => add_if_http (dict_get_none "identifier" md) urls
    | _ => urls
    end in
  Ok (deep (JObj manifest) urls).

(** ** Path mapper *)

Definition url_to_local_path (url : string) (out_root : Pathlib.Path)
  : res (Pathlib.Path * string) :=
  p ← Urllib.urlparse url;
  let host := Urllib.netloc p in
  let path :=
    Urllib.unquote
      (if Str.eqb (Urllib.path p) EmptyString then "/" else Urllib.path p) in
  let path := if Str.endswith_char path "/" then path +:+ "index.html" else path in
  let path := if Str.eqb path EmptyString then "/index.html" else path in
  let local_rel :=
    if negb (Str.eqb (Urllib.query p) EmptyString) then
      let qhash := str_take 8 (Sha1.hexdigest (Urllib.query p)) in
      let '(base, ext) := splitext path in
      let ext := if Str.eqb ext EmptyString then ".html" else ext in
      Pathlib.to_str (Pathlib.parse base) +:+ "__q_" +:+ qhash +:+ ext
    else path in
  let local_rel_norm := Str.lstrip Pathlib.is_sep local_rel in
  let local_path := out_root // host // local_rel_norm in
  let manifest_href :=
    "/" +:+ Str.join "/" (host :: Str.split "/" local_rel_norm) in
  Ok (local_path, manifest_href).

(** ** Rewrite *)

(** The two lists the rewrite appends to. *)
Record log : Type := {
  changed : list (string * string * string);
  removed : list string
}.

Definition log_changed (e : string * string * string) (st : log) : log :=
  {| changed := changed st ++ [e]; removed := removed st |}.

Definition log_removed (s : string) (st : log) : log :=
  {| changed := changed st; removed := removed st ++ [s] |}.

Section Rewrite.
Variable out_root : Pathlib.Path.

Definition rewrite_string (s : json) (st : log) : res (json * log) :=
  match s with
  | JStr u =>
      if is_http u then
        if is_blocked s then Ok (JNull, log_removed u st)
        else
          '(local_path, manifest_href) ← url_to_local_path u out_root;
          Ok (JStr manifest_href,
              log_changed (u, manifest_href, Pathlib.to_str local_path) st)
      else Ok (s, st)
  | _ => Ok (s, st)
  end.

(** one element [it] of [links], [images] or [readingOrder] *)
Definition rewrite_item (it : json) (st : log) : res (json * log) :=
  match it with
  | JObj d =>
      match dict_get "href" d with
      | Some href =>
          '(new, st) ← rewrite_string href st;
          if is_none new then Ok (JObj (dict_pop "href" d), st)
          else Ok (JObj (dict_set "href" new d), st)
      | None => Ok (it, st)
      end
  | _ => Ok (it, st)
  end.

Fixpoint rewrite_items (items : list json) (st : log)
  : res (list json * log) :=
  match items with
  | [] => Ok ([], st)
  | it :: items' =>
      '(it', st) ← rewrite_item it st;
      '(items'', st) ← rewrite_items items' st;
      Ok (it' :: items'', st)
  end.

(** the list under [key] is mutated in place, so the manifest sees it *)
Definition rewrite_known (key : string) (ms : dict * log) : res (dict * log) :=
  let '(manifest, st) := ms in
  match dict_get key manifest with
  | Some (JArr items) =>
      '(items', st) ← rewrite_items items st;
      Ok (dict_set key (JArr items') manifest, st)
  | _ => Ok (manifest, st)
  end.

(** [for key in ("links", "images", "readingOrder")] *)
Fixpoint rewrite_known_arrays (keys : list string) (ms : dict * log)
  : res (dict * log) :=
  match keys with
  | [] => Ok ms
  | key :: keys' =>
      ms ← rewrite_known key ms;
      rewrite_known_arrays keys' ms
  end.

(** one element [r] of [resources]: what is appended to [new_resources] *)
Definition rewrite_resource (r : json) (st : log) : res (option json * log) :=
  match r with
  | JObj d =>
      match dict_get_none "href" d with
      | JStr h as href =>
          if is_blocked href then Ok (None, log_removed h st)
          else
            '(new, st) ← rewrite_string href st;
            if is_none new then Ok (None, st)
            else Ok (Some (JObj (dict_set "href" new d)), st)
      | _ => Ok (Some r, st)
      end
  | _ => Ok (Some r, st)
  end.

Fixpoint rewrite_resources (rs : list json) (new_resources : list json)
    (st : log) : res (list json * log) :=
  match rs with
  | [] => Ok (new_resources, st)
  | r :: rs' =>
      '(kept, st) ← rewrite_resource r st;
      rewrite_resources rs'
        (match kept with Some r' => new_resources ++ [r'] | None => new_resources end)
        st
  end.

Definition rewrite_metadata (ms : dict * log) : res (dict * log) :=
  let '(manifest, st) := ms in
  match dict_get_none "metadata" manifest with
  | JObj md =>
      match dict_get_none "identifier" md with
      | JStr _ as ident =>
          '(new, st) ← rewrite_string ident st;
          let md' := if is_none new then dict_pop "identifier" md
                     else dict_set "identifier" new md in
          Ok (dict_set "metadata" (JObj md') manifest, st)
      | _ => Ok (manifest, st)
      end
  | _ => Ok (manifest, st)
  end.

(** [deep_replace] works on the object itself: each loop runs over a
    snapshot ([list(o.items())], [list(o)]) while [o] is updated by key
    or by index; a nested value is updated in place, so [o] sees it.
    [rec] is the recursive call. *)
Section Loops.
Variable rec : json → log → res (json * log).

Fixpoint replace_fields (snapshot : dict) (o : dict) (st : log)
  : res (dict * log) :=
  match snapshot with
  | [] => Ok (o, st)
  | (k, v) :: snapshot' =>
      match v with
      | JStr s =>
          if is_http s then
            '(new, st) ← rewrite_string v st;
            if is_none new then replace_fields snapshot' (dict_pop k o) st
            else replace_fields snapshot' (dict_set k new o) st
          else replace_fields snapshot' o st
      | _ =>
          '(v', st) ← rec v st;
          replace_fields snapshot' (dict_set k v' o) st
      end
  end.

Fixpoint replace_items (snapshot : list json) (idx : nat) (o : list json)
    (st : log) : res (list json * log) :=
  match snapshot with
  | [] => Ok (o, st)
  | item :: snapshot' =>
      match item with
      | JStr s =>
          if is_http s then
            '(new, st) ← rewrite_string item st;
            if is_none new
            then replace_items snapshot' (S idx) (<[idx := JNull]> o) st
            else replace_items snapshot' (S idx) (<[idx := new]> o) st
          else replace_items snapshot' (S idx) o st
      | _ =>
          '(item', st) ← rec item st;
          replace_items snapshot' (S idx) (<[idx := item']> o) st
      end
  end.
End Loops.

Fixpoint deep_replace (o : json) (st : log) {struct o} : res (json * log) :=
  match o with
  | JObj kvs =>
      '(d, st) ← replace_fields deep_replace kvs kvs st;
      Ok (JObj d, st)
  | JArr l =>
      '(l', st) ← replace_items deep_replace l 0 l st;
      (* remove None introduced *)
      Ok (JArr (filter (λ x, is_none x = false) l'), st)
  | _ => Ok (o, st)
  end.

(** [deep_replace] hands back the object it was given, updated *)
Definition as_dict (o : json) : dict :=
  match o with JObj d => d | _ => [] end.

Definition rewrite_manifest (manifest : dict)
  : res (dict * list (string * string * string) * list string) :=
  let st := {| changed := []; removed := [] |} in
  '(manifest, st) ←
    rewrite_known_arrays ["links"; "images"; "readingOrder"] (manifest, st);
  rs ← iterate (dict_get_default "resources" (JArr []) manifest);
  '(new_resources, st) ← rewrite_resources rs [] st;
  let manifest := dict_set "resources" (JArr new_resources) manifest in
  '(manifest, st) ← rewrite_metadata (manifest, st);
  '(o, st) ← deep_replace (JObj manifest) st;
  Ok (as_dict o, changed st, removed st).

End Rewrite.

(** ** Fetcher

    The network and the file system are the environment.  One pass through
    the [try] body of [download_one] either raises or gets a response whose
    body arrives in chunks; [session.get] is one call of the environment,
    and what the transport adapter mounted on the session does inside that
    call is described under the session below. *)

Inductive attempt : Type :=
| Fault (e : exn)
| Response (status_code : Z) (chunks : list string).

Inductive event : Type :=
| Attempt (tries : nat)
| Sleep (seconds : QArith_base.Q).

(** [requests.Response.__bool__] is [ok]: the status is not a 4xx or 5xx *)
Definition response_ok (status : Z) : bool :=
  negb ((400 <=? status)%Z && (status <? 600)%Z).

(** [getattr(last_exc, "response", None) and last_exc.response.status_code
    or None] *)
Definition last_status (e : exn) : option Z :=
  match e with
  | RequestException (Some status) =>
      if response_ok status && negb (status =? 0)%Z then Some status else None
  | _ => None
  end.

Definition BASE_DELAY : QArith_base.Q := QArith_base.Qmake 1 2.

Definition backoff (tries : nat) : QArith_base.Q :=
  QArith_base.Qmult BASE_DELAY (QArith_base.inject_Z (Z.of_nat tries)).

Definition body_length (chunks : list string) : Z :=
  fold_left (λ total chunk,
               if Str.eqb chunk EmptyString then total
               else (total + Z.of_nat (String.length chunk))%Z)
            chunks 0%Z.

Record outcome : Type := {
  ok : bool;
  status : option Z;
  bytes : Z;
  local : string;
  href : string
}.

Record fetched : Type := {
  results : list (string * outcome);
  total_bytes : Z;
  failed : list string
}.

(** *** The session

    [download_urls] sends every request through an
    [HTTPAdapter(max_retries=2)] mounted on its session.  Inside one
    [session.get] the adapter opens a connection; when that breaks before a
    response has arrived (refused, reset or timed out) it opens another one
    at once, [max_retries] times at most, and once these are used up the
    call raises a [RequestException] that carries no response.  Whatever
    else a connection brings is what the call returns or raises. *)

Inductive connection : Type :=
| Broken
| Done (a : attempt).

Record HTTPAdapter : Type := { max_retries : nat }.

Definition adapter : HTTPAdapter := {| max_retries := 2 |}.

(** [adapter.send]: the outcome of the call and the number of the last
    connection it opened, the first being [n] *)
Fixpoint send (wire : nat → connection) (retries : nat) (n : nat)
  : attempt * nat :=
  match wire n with
  | Done a => (a, n)
  | Broken =>
      match retries with
      | O => (Fault (RequestException None), n)
      | S retries' => send wire retries' (S n)
      end
  end.

(** [session.get(url, stream=True, timeout=timeout)] on the [tries]-th pass
    of [download_one], over a network that brings [wire url tries n] on the
    [n]-th connection of that call *)
Definition session_get (wire : string → nat → nat → connection)
    (url : string) (tries : nat) : attempt :=
  (send (wire url tries) (max_retries adapter) 1).1.

(** the connections that call opens *)
Definition connections (wire : string → nat → nat → connection)
    (url : string) (tries : nat) : nat :=
  (send (wire url tries) (max_retries adapter) 1).2.

Section Fetch.
(** what the [tries]-th pass through the [try] body meets *)
Variable net : string → nat → attempt.

(** [fuel] is [max_retries - tries], the iterations the [while] has left *)
Fixpoint download_loop (url : string) (fuel : nat) (tries : nat)
    (last_exc : option exn) (trace : list event)
  : res (bool * option Z * Z) * list event :=
  match fuel with
  | O =>
      (match last_exc with
       | Some e => Ok (false, last_status e, 0%Z)
       | None => Raise UnboundLocalError
       end, trace)
  | S fuel' =>
      let tries := S tries in
      let trace := trace ++ [Attempt tries] in
      match net url tries with
      | Response status chunks =>
          if negb (status =? 200)%Z then (Ok (false, Some status, 0%Z), trace)
          else (Ok (true, Some status, body_length chunks), trace)
      | Fault (RequestException _ as e) =>
          download_loop url fuel' tries (Some e)
                        (trace ++ [Sleep (backoff tries)])
      | Fault e => (Raise e, trace)
      end
  end.

Definition download_one (url : string) (max_retries : nat)
  : res (bool * option Z * Z) * list event :=
  download_loop url max_retries 0 None [].

(** [local_path.exists()] and [local_path.stat().st_size] *)
Variable file_size : Pathlib.Path → option Z.
Variable out_root : Pathlib.Path.

Definition record_outcome (url : string) (o : outcome) (acc : fetched)
  : fetched :=
  {| results := results acc ++ [(url, o)];
     total_bytes := if ok o then (total_bytes acc + bytes o)%Z
                    else total_bytes acc;
     failed := if ok o then failed acc else failed acc ++ [url] |}.

(** the first loop of [download_urls]: a file already there is recorded,
    any other URL is handed to the pool; [url_to_local_path] is called
    outside every [try] *)
Fixpoint submit (urls : list string) (skip_existing : bool) (acc : fetched)
    (future_to_url : list (string * Pathlib.Path * string))
  : res (fetched * list (string * Pathlib.Path * string)) :=
  match urls with
  | [] => Ok (acc, future_to_url)
  | url :: urls' =>
      '(local_path, manifest_href) ← url_to_local_path url out_root;
      match (if skip_existing then file_size local_path else None) with
      | Some size =>
          let o := {| ok := true; status := Some 200%Z; bytes := size;
                      local := Pathlib.to_str local_path;
                      href := manifest_href |} in
          submit urls' skip_existing (record_outcome url o acc) future_to_url
      | None =>
          submit urls' skip_existing acc
                 (future_to_url ++ [(url, local_path, manifest_href)])
      end
  end.

(** [fut.result()] under its [try]: the pool has run [download_one] with
    its default [max_retries=3]; what the worker returned, or
    [(False, None, 0)] if it raised, and the passes and sleeps it made *)
Definition fut_result (url : string) : bool * option Z * Z * list event :=
  let run := download_one url 3 in
  (match run.1 with
   | Ok r => r
   | Raise _ => (false, None, 0%Z)
   end, run.2).

(** the second loop: what is recorded for one future, whatever it raised *)
Definition completed (future : string * Pathlib.Path * string) : outcome :=
  let '(url, local_path, manifest_href) := future in
  let '(ok, status, bts) := (fut_result url).1 in
  {| ok := ok; status := status; bytes := bts;
     local := Pathlib.to_str local_path; href := manifest_href |}.

(** [urls] in the order the set is iterated; the futures are taken in the
    order they were submitted, which fixes the order of [results] and
    [failed] but none of their entries. *)
Definition download_urls (urls : list string) (skip_existing : bool)
  : res fetched :=
  '(acc, future_to_url) ←
    submit urls skip_existing
           {| results := []; total_bytes := 0%Z; failed := [] |} [];
  Ok (fold_left (λ acc future, record_outcome future.1.1 (completed future) acc)
                future_to_url acc).

(** What the workers of the pool do meanwhile: for every URL handed to the
    pool, the passes of [download_one] and the sleeps between them. *)
Definition pool_trace (urls : list string) (skip_existing : bool)
  : res (list (string * list event)) :=
  '(_, future_to_url) ←
    submit urls skip_existing
           {| results := []; total_bytes := 0%Z; failed := [] |} [];
  Ok (map (λ future, (future.1.1, (fut_result future.1.1).2)) future_to_url).

(** ** The summary [main] writes to [verify.json] *)

Record verify : Type := {
  found_urls_count : nat;
  downloads_total_bytes : Z;
  download_failures : list string;
  rewritten_count : nat;
  removed_blocked : nat
}.

(** [main] from the manifest it has loaded to the summary; the set of URLs
    is iterated in the order of [elements]. *)
Definition verify_summary (manifest : dict) (skip_existing : bool)
  : res verify :=
  urls ← collect_urls_from_manifest manifest;
  fetched ← download_urls (elements urls) skip_existing;
  '(_, changed, removed) ← rewrite_manifest out_root manifest;
  Ok {| found_urls_count := size urls;
        downloads_total_bytes := total_bytes fetched;
        download_failures := failed fetched;
        rewritten_count := length changed;
        removed_blocked := length removed |}.

End Fetch.

(** * Notions the statements use *)

(** [s] contains a fragment of the denylist. *)
Definition denylisted (s : string) : Prop :=
  ∃ bad pre post, bad ∈ ANALYTICS_BLOCKLIST ∧ s = pre +:+ bad +:+ post.

(** The filter as the specification words it: blocked when empty, when
    not a string, or when denylisted. *)
Definition blocked_per_spec (url : json) : Prop :=
  url = JStr EmptyString ∨ isinstance_str url = false ∨
  ∃ s, url = JStr s ∧ denylisted s.

(** The variables of [url_to_local_path], as functions of the parsed URL. *)
Definition decoded_path (p : Urllib.ParseResult) : string :=
  let path :=
    Urllib.unquote
      (if Str.eqb (Urllib.path p) EmptyString then "/" else Urllib.path p) in
  let path := if Str.endswith_char path "/" then path +:+ "index.html" else path in
  if Str.eqb path EmptyString then "/index.html" else path.

Definition fingerprint (query : string) : string :=
  str_take 8 (Sha1.hexdigest query).

Definition local_rel (p : Urllib.ParseResult) : string :=
  if negb (Str.eqb (Urllib.query p) EmptyString) then
    let '(base, ext) := splitext (decoded_path p) in
    let ext := if Str.eqb ext EmptyString then ".html" else ext in
    Pathlib.to_str (Pathlib.parse base) +:+ "__q_" +:+
    fingerprint (Urllib.query p) +:+ ext
  else decoded_path p.

(** The parts [url_to_local_path] puts under the output root. *)
Definition mapped_parts (p : Urllib.ParseResult) : list string :=
  filter (λ x, Pathlib.keep_part x = true) (Str.split "/" (Urllib.netloc p)) ++
  filter (λ x, Pathlib.keep_part x = true)
         (Str.split "/" (Str.lstrip Pathlib.is_sep (local_rel p))).

(** Every string value of a document, in the order a traversal meets them;
    object keys are not values. *)
Fixpoint strings_of (v : json) : list string :=
  match v with
  | JStr s => [s]
  | JArr l => flat_map strings_of l
  | JObj kvs => flat_map (λ kv, strings_of kv.2) kvs
  | _ => []
  end.

(** Every object key of a document, in the same order. *)
Fixpoint keys_of (v : json) : list string :=
  match v with
  | JArr l => flat_map keys_of l
  | JObj kvs => flat_map (λ kv, kv.1 :: keys_of kv.2) kvs
  | _ => []
  end.

(** What one field gives to the keys the rewrite keeps: a field whose value
    is a blocked reference goes, key and value; [below] are the keys kept
    inside the value. *)
Definition field_kept (k : string) (v : json) (below : list string) :
    list string :=
  match v with
  | JStr s => if is_http s && is_blocked (JStr s) then [] else [k]
  | _ => k :: below
  end.

(** The object keys of a document outside the fields whose value is a
    blocked reference, in the same order. *)
Fixpoint kept_keys (v : json) : list string :=
  match v with
  | JArr l => flat_map kept_keys l
  | JObj kvs => flat_map (λ kv, field_kept kv.1 kv.2 (kept_keys kv.2)) kvs
  | _ => []
  end.

(** [urlparse] accepts [u]. *)
Definition accepted (u : string) : bool :=
  match Urllib.urlparse u with Ok _ => true | Raise _ => false end.

(** A reference is in scope when the filter lets it through. *)
Definition in_scope (u : string) : bool :=
  is_http u && negb (is_blocked (JStr u)).

Definition blocked_url (u : string) : bool :=
  is_http u && is_blocked (JStr u).

(** The references of a document, with multiplicity. *)
Definition in_scope_urls (v : json) : list string :=
  filter (λ u, in_scope u = true) (strings_of v).

Definition blocked_urls (v : json) : list string :=
  filter (λ u, blocked_url u = true) (strings_of v).

(** Every reference in scope is one [urlparse] accepts. *)
Definition mappable (v : json) : bool :=
  forallb accepted (in_scope_urls v).

(** A [resources] element the rewrite drops: an object whose [href] is a
    blocked string. *)
Definition dropped (r : json) : bool :=
  match r with
  | JObj d =>
      match dict_get_none "href" d with
      | JStr _ as href => is_blocked href
      | _ => false
      end
  | _ => false
  end.

Definition dropped_href (r : json) : list string :=
  match r with
  | JObj d =>
      match dict_get_none "href" d with
      | JStr h as href => if is_blocked href then [h] else []
      | _ => []
      end
  | _ => []
  end.

(** The [resources] list of a manifest; none counts as empty. *)
Definition resources_of (manifest : dict) : list json :=
  match dict_get "resources" manifest with
  | Some (JArr rs) => rs
  | _ => []
  end.

(** The manifest once the dropped [resources] elements are gone. *)
Definition pruned (manifest : dict) : dict :=
  dict_set "resources"
    (JArr (filter (λ r, dropped r = false) (resources_of manifest))) manifest.

(** The recognised list fields are lists where present, as the data model
    requires. *)
Definition list_or_absent (key : string) (manifest : dict) : Prop :=
  dict_get key manifest = None ∨ ∃ l, dict_get key manifest = Some (JArr l).

Definition recognised_lists (manifest : dict) : Prop :=
  Forall (λ key, list_or_absent key manifest)
         ["links"; "images"; "readingOrder"; "resources"].

Section Spec.
Variable out_root : Pathlib.Path.

(** the href written for [u], where [urlparse] accepts [u] *)
Definition href_of (u : string) : string :=
  match url_to_local_path u out_root with
  | Ok (_, manifest_href) => manifest_href
  | Raise _ => EmptyString
  end.

(** what [rewrite_string] appends to [changed] for [u] *)
Definition entry (u : string) : string * string * string :=
  match url_to_local_path u out_root with
  | Ok (local_path, manifest_href) =>
      (u, manifest_href, Pathlib.to_str local_path)
  | Raise _ => (u, EmptyString, EmptyString)
  end.

(** the log once [rewrite_string] has met the references among [l] *)
Definition logged (l : list string) (st : log) : log :=
  {| changed := changed st ++ map entry (filter (λ u, in_scope u = true) l);
     removed := removed st ++ filter (λ u, blocked_url u = true) l |}.

(** What the deep pass leaves of a document: a reference in scope becomes
    its href, a blocked one goes with its field or element, and so does
    every [null] element of a sequence. *)
Definition field_replaced (rec : json → json) (kv : string * json) : dict :=
  match kv.2 with
  | JStr s =>
      if is_http s then
        if is_blocked (JStr s) then [] else [(kv.1, JStr (href_of s))]
      else [kv]
  | _ => [(kv.1, rec kv.2)]
  end.

Definition item_replaced (rec : json → json) (x : json) : json :=
  match x with
  | JStr s =>
      if is_http s then
        if is_blocked (JStr s) then JNull else JStr (href_of s)
      else x
  | _ => rec x
  end.

Fixpoint replaced (v : json) : json :=
  match v with
  | JObj kvs => JObj (flat_map (field_replaced replaced) kvs)
  | JArr l =>
      JArr (filter (λ x, is_none x = false) (map (item_replaced replaced) l))
  | _ => v
  end.

(** The rewritten manifest as the specification words it: a reference in
    scope is replaced by its href, a blocked one is removed from the object
    or sequence that holds it, every other value stays in place. *)
Definition item_mirrored (rec : json → json) (x : json) : list json :=
  match x with
  | JStr s =>
      if is_http s then
        if is_blocked (JStr s) then [] else [JStr (href_of s)]
      else [x]
  | _ => [rec x]
  end.

Fixpoint mirrored (v : json) : json :=
  match v with
  | JObj kvs => JObj (flat_map (field_replaced mirrored) kvs)
  | JArr l => JArr (flat_map (item_mirrored mirrored) l)
  | _ => v
  end.

End Spec.

(** No string value is an absolute http(s) URL. *)
Definition no_http_value (v : json) : Prop :=
  Forall (λ s, is_http s = false) (strings_of v).

(** No sequence of the document holds [null]. *)
Fixpoint no_null_item (v : json) : bool :=
  match v with
  | JArr l => forallb (λ x, negb (is_none x) && no_null_item x) l
  | JObj kvs => forallb (λ kv, no_null_item kv.2) kvs
  | _ => true
  end.

(** The keys of the object fields whose value is [null], in the order a
    traversal meets them. *)
Fixpoint null_fields (v : json) : list string :=
  match v with
  | JArr l => flat_map null_fields l
  | JObj kvs =>
      flat_map (λ kv, (if is_none kv.2 then [kv.1] else []) ++ null_fields kv.2)
               kvs
  | _ => []
  end.

(** [x'] is [x] with some of its references already dealt with: [cs] are
    those in scope that were replaced, [rs] the blocked ones that were
    removed; no key was added or renamed. *)
Record accounted (x x' : json) (cs rs : list string) : Prop := {
  acc_in : in_scope_urls x ≡ₚ cs ++ in_scope_urls x';
  acc_bl : blocked_urls x ≡ₚ rs ++ blocked_urls x';
  acc_keys : keys_of x' `sublist_of` keys_of x;
  acc_url_keys : filter (λ k, is_http k = true) (keys_of x') =
                 filter (λ k, is_http k = true) (keys_of x);
  acc_kept : ∀ k, filter (λ k, is_http k = true)
                         (field_kept k x' (kept_keys x')) =
                  filter (λ k, is_http k = true)
                         (field_kept k x (kept_keys x))
}.

(** [st'] is [st] once [cs] were logged as changed and [rs] as removed. *)
Definition logs (out_root : Pathlib.Path) (st st' : log)
    (cs rs : list string) : Prop :=
  changed st' = changed st ++ map (entry out_root) cs ∧
  removed st' = removed st ++ rs.

(** The original URL of an entry of [changed]. *)
Definition original (e : string * string * string) : string := e.1.1.

(** [recognised_lists], decided. *)
Definition list_or_absentb (key : string) (manifest : dict) : bool :=
  match dict_get key manifest with
  | None | Some (JArr _) => true
  | _ => false
  end.

Definition recognised_listsb (manifest : dict) : bool :=
  forallb (λ key, list_or_absentb key manifest)
          ["links"; "images"; "readingOrder"; "resources"].

(** An element of [links], [images] or [readingOrder] whose [href] is
    [null]. *)
Definition null_href (it : json) : bool :=
  match it with
  | JObj d => match dict_get "href" d with Some JNull => true | _ => false end
  | _ => false
  end.

Definition no_null_href_under (key : string) (manifest : dict) : bool :=
  match dict_get key manifest with
  | Some (JArr items) => forallb (λ it, negb (null_href it)) items
  | _ => true
  end.

Definition no_null_href (manifest : dict) : bool :=
  forallb (λ key, no_null_href_under key manifest)
          ["links"; "images"; "readingOrder"].

(** [x'] stands for [x] as far as the deep pass can tell. *)
Definition same_replaced (out_root : Pathlib.Path) (x x' : json) : Prop :=
  item_replaced out_root (replaced out_root) x' =
    item_replaced out_root (replaced out_root) x ∧
  ∀ k, field_replaced out_root (replaced out_root) (k, x') =
       field_replaced out_root (replaced out_root) (k, x).

(** * More of the program

    The rest of [download_and_rewrite.py] that can be told apart from its
    environment: the name [save_rewritten_manifest] gives to its file,
    the phases of [main] in their order, and the two functions of the
    companion tool [har_to_assets_json.py]. *)

(** ** [pathlib]: the final component and its suffix *)

Module PurePath.

(** [p.name] *)
Definition name (p : Pathlib.Path) : string :=
  default EmptyString (last (Pathlib.parts p)).

(** the name cut at its last dot, unless that dot is its first or its
    last character: [i = name.rfind('.')] and [0 < i < len(name) - 1] *)
Definition cut (name : string) : string * string :=
  match Str.rpartition "." name with
  | Some (x, y) =>
      if Str.eqb x EmptyString || Str.eqb y EmptyString
      then (name, EmptyString)
      else (x, String "." y)
  | None => (name, EmptyString)
  end.

(** [p.stem] and [p.suffix] *)
Definition stem (p : Pathlib.Path) : string := (cut (name p)).1.
Definition suffix (p : Pathlib.Path) : string := (cut (name p)).2.

End PurePath.

(** ** Saving the rewritten manifest

    What [save_rewritten_manifest] asks of the file system, in order: the
    directory is made with its parents, the manifest is dumped as JSON.
    The file system is taken to grant both. *)

Inductive fs_event : Type :=
| Mkdir (p : Pathlib.Path)
| Dump (p : Pathlib.Path) (v : json).

Definition save_rewritten_manifest (manifest : json)
    (out_root source_manifest_path : Pathlib.Path)
  : Pathlib.Path * list fs_event :=
  let out_dir := out_root // "rewritten-manifests" in
  let out_name :=
    PurePath.stem source_manifest_path +:+ "_local" +:+
    PurePath.suffix source_manifest_path in
  let out_path := out_dir // out_name in
  (out_path, [Mkdir out_dir; Dump out_path manifest]).

(** ** [main]: from the manifest it has loaded to what it reports *)

Record run : Type := {
  found : gset string;
  fetch : fetched;
  rewritten : dict;
  changes : list (string * string * string);
  removals : list string;
  out_manifest_path : Pathlib.Path;
  written : list fs_event
}.

Definition main (net : string → nat → attempt)
    (file_size : Pathlib.Path → option Z)
    (out_root manifest_path : Pathlib.Path) (manifest : dict)
    (skip_existing : bool) : res run :=
  urls ← collect_urls_from_manifest manifest;
  fetched ← download_urls net file_size out_root (elements urls) skip_existing;
  '(rewritten_manifest, changed, removed) ← rewrite_manifest out_root manifest;
  let '(out_manifest_path, written) :=
    save_rewritten_manifest (JObj rewritten_manifest) out_root manifest_path in
  Ok {| found := urls; fetch := fetched; rewritten := rewritten_manifest;
        changes := changed; removals := removed;
        out_manifest_path := out_manifest_path; written := written |}.

(** ** The HAR tool ([har_to_assets_json.py])

    The two files are read by the caller: the functions are modelled from
    the values [json.load] returned.  [mimetypes.guess_type] is a table of
    the library, taken as a parameter. *)

Module Har.

Inductive error : Type := AttributeError | TypeError.

Inductive result (A : Type) : Type :=
| Return (a : A)
| Throw (e : error).
Arguments Return {A} a.
Arguments Throw {A} e.

#[export] Instance result_mbind : MBind result := λ A B f m,
  match m with
  | Return a => f a
  | Throw e => Throw e
  end.

(** [v.get(k, default)]: only a dict has a [get] *)
Definition get (v : json) (k : string) (default : json) : result json :=
  match v with
  | JObj d => Return (dict_get_default k default d)
  | _ => Throw AttributeError
  end.

Section Extract.
(** [mimetypes.guess_type(url)[0]] *)
Variable guess_type : string → option string.

Definition guessed (url : string) : string :=
  match guess_type url with
  | Some t => if Str.eqb t EmptyString then "application/octet-stream" else t
  | None => "application/octet-stream"
  end.

(** one pass through the loop: what is appended, if anything *)
Definition extract_entry (entry : json) : result (option json) :=
  request ← get entry "request" (JObj []);
  response ← get entry "response" (JObj []);
  url ← get request "url" JNull;
  if negb (truthy url) then Return None
  else
    match url with
    | JStr u =>
        if negb (Str.startswith u "http") then Return None
        else
          content ← get response "content" (JObj []);
          content_type ← get content "mimeType" (JStr EmptyString);
          let content_type :=
            if negb (truthy content_type) then JStr (guessed u)
            else content_type in
          Return (Some (JObj [("href", url); ("type", content_type)]))
    | _ => Throw AttributeError
    end.

Fixpoint extract_entries (entries : list json) (resources : list json)
  : result (list json) :=
  match entries with
  | [] => Return resources
  | entry :: entries' =>
      r ← extract_entry entry;
      extract_entries entries'
        (match r with Some x => resources ++ [x] | None => resources end)
  end.

Definition extract_resources_from_har (har_data : json) : result (list json) :=
  log ← get har_data "log" (JObj []);
  entries ← get log "entries" (JArr []);
  match iterate entries with
  | Ok entries => extract_entries entries []
  | Raise _ => Throw TypeError
  end.

(** [update_resources], from the two loaded values to the file written
    and the value dumped into it; [data["resources"] = ...] needs a dict *)
Definition update_resources (data har_data : json) (existing_json : string)
    (output_file : option string) : result (string * json) :=
  new_resources ← extract_resources_from_har har_data;
  match data with
  | JObj d =>
      let data := JObj (dict_set "resources" (JArr new_resources) d) in
      let out_file :=
        match output_file with
        | Some f => if Str.eqb f EmptyString then existing_json else f
        | None => existing_json
        end in
      Return (out_file, data)
  | _ => Throw TypeError
  end.

End Extract.

End Har.

(** * Further notions

    The vocabulary of the properties of the fetcher, the mapper, the
    rewrite and the HAR tool proved in the second half of the
    verification. *)

(** The requests a trace of [download_one] holds. *)
Definition is_attempt (e : event) : bool :=
  match e with Attempt _ => true | Sleep _ => false end.

Definition attempts (trace : list event) : nat :=
  length (filter (λ e, is_attempt e = true) trace).

(** [k] failed passes: a request and the sleep that follows it, each. *)
Definition retried (k : nat) : list event :=
  flat_map (λ i, [Attempt i; Sleep (backoff i)]) (seq 1 k).

(** The bytes of a response body. *)
Definition content_length (chunks : list string) : Z :=
  Z.of_nat (sum_list (map String.length chunks)).

(** What the fetcher reports when the last exception carries [resp]. *)
Definition reported_status (resp : option Z) : option Z :=
  match resp with
  | Some s =>
      if decide ((400 ≤ s)%Z ∧ (s < 600)%Z ∨ s = 0%Z) then None else Some s
  | None => None
  end.

(** The bytes of the outcomes marked as fetched. *)
Definition fetched_bytes (rs : list (string * outcome)) : Z :=
  foldr (λ r acc, if ok r.2 then (bytes r.2 + acc)%Z else acc) 0%Z rs.

(** The URLs of the outcomes not marked as fetched. *)
Definition failed_urls (rs : list (string * outcome)) : list string :=
  map fst (filter (λ r, ok r.2 = false) rs).

(** The totals agree with the outcomes recorded so far. *)
Definition settled (acc : fetched) : Prop :=
  failed acc = failed_urls (results acc) ∧
  total_bytes acc = fetched_bytes (results acc).

(** The outcome names the place the mapper gives to the URL. *)
Definition placed (out_root : Pathlib.Path) (r : string * outcome) : Prop :=
  ∃ local_path,
    url_to_local_path r.1 out_root = Ok (local_path, href r.2) ∧
    local r.2 = Pathlib.to_str local_path.

(** A network that answers the third request, after two transport faults
    whose exception carries a 503. *)
Definition flaky (url : string) (tries : nat) : attempt :=
  match tries with
  | 1 | 2 => Fault (RequestException (Some 503%Z))
  | _ => Response 200 ["ab"; EmptyString; "cde"]
  end.


(** What [download_urls] records for one URL mapped to [local_path] and
    [manifest_href]: the file already there, or what the pool's worker
    returned. *)
Definition recorded (net : string → nat → attempt)
    (file_size : Pathlib.Path → option Z) (skip_existing : bool)
    (url : string) (local_path : Pathlib.Path) (manifest_href : string)
  : outcome :=
  match (if skip_existing then file_size local_path else None) with
  | Some size =>
      {| ok := true; status := Some 200%Z; bytes := size;
         local := Pathlib.to_str local_path; href := manifest_href |}
  | None => completed net (url, local_path, manifest_href)
  end.

(** A path as [pathlib] builds it: one of the three roots, and parts that
    are neither empty nor a lone dot and hold no separator. *)
Definition normal (p : Pathlib.Path) : Prop :=
  Pathlib.root p ∈ [EmptyString; "/"; "//"] ∧
  Forall (λ x, Pathlib.keep_part x = true ∧ Str.mem "/" x = false)
         (Pathlib.parts p).

(** An entry of [changed] as [rewrite_string] writes it: a reference in
    scope, with the link and the path the mapper gives it. *)
Definition mapped (out_root : Pathlib.Path) (e : string * string * string)
  : Prop :=
  in_scope (original e) = true ∧
  ∃ local_path,
    url_to_local_path (original e) out_root = Ok (local_path, e.1.2) ∧
    e.2 = Pathlib.to_str local_path.

(** A log whose entries are all of that kind, the removed strings being
    blocked. *)
Definition sound (out_root : Pathlib.Path) (st : log) : Prop :=
  Forall (mapped out_root) (changed st) ∧
  Forall (λ u, is_blocked (JStr u) = true) (removed st).

(** The keys of the recognised top-level fields that hold an object: what
    iterating such a field yields. *)
Definition iterated_keys (manifest : dict) (keys : list string) : list string :=
  flat_map (λ key, match dict_get key manifest with
                   | Some (JObj kvs) => kvs.*1
                   | _ => []
                   end) keys.

(** A recognised field that cannot be iterated and does not count as
    empty. *)
Definition not_iterable (manifest : dict) (key : string) : Prop :=
  ∃ v, dict_get key manifest = Some v ∧ truthy v = true ∧
       iterate v = Raise TypeError.

(** The URL of a HAR entry that the HAR tool keeps: a string that starts
    with [http], under [request.url]. *)
Definition entry_url (entry : json) : option string :=
  match entry with
  | JObj e =>
      match dict_get_default "request" (JObj []) e with
      | JObj request =>
          match dict_get_default "url" JNull request with
          | JStr u => if Str.startswith u "http" then Some u else None
          | _ => None
          end
      | _ => None
      end
  | _ => None
  end.

(** A HAR entry of the expected shape: an object whose request is an
    object with a string, [null] or no URL, and whose response is an
    object with an object, or nothing, as content. *)
Definition entry_shaped (entry : json) : bool :=
  match entry with
  | JObj e =>
      match dict_get_default "request" (JObj []) e,
            dict_get_default "response" (JObj []) e with
      | JObj request, JObj response =>
          match dict_get_default "url" JNull request with
          | JStr _ | JNull => true
          | _ => false
          end &&
          match dict_get_default "content" (JObj []) response with
          | JObj _ => true
          | _ => false
          end
      | _, _ => false
      end
  | _ => false
  end.

(** A resource as the HAR tool writes it. *)
Definition har_resource (r : json) : Prop :=
  ∃ u t, r = JObj [("href", JStr u); ("type", t)] ∧
         Str.startswith u "http" = true ∧ truthy t = true.

Definition resource_href (r : json) : option string :=
  match r with
  | JObj d => match dict_get "href" d with Some (JStr u) => Some u | _ => None end
  | _ => None
  end.

(** The segments [url_to_local_path] keeps of the percent-decoded path. *)
Definition path_segments (p : Urllib.ParseResult) : list string :=
  filter (λ x, Pathlib.keep_part x = true) (Str.split "/" (decoded_path p)).

(** A URL path the mapper takes as it is: one leading slash, no percent
    sign, no trailing slash, no empty and no single-dot segment. *)
Definition plain (path : string) : bool :=
  negb (Str.mem "%" path) && negb (Str.endswith_char path "/") &&
  match path with
  | String "/" rest => forallb Pathlib.keep_part (Str.split "/" rest)
  | _ => false
  end.

(** One step along the parts of a path: [..] goes back to the parent
    directory; above the start of a relative path it is kept, above the
    root it has no effect. *)
Definition walk (rooted : bool) (stack : list string) (x : string) :
    list string :=
  if Str.eqb x ".." then
    match stack with
    | [] => if rooted then [] else [x]
    | y :: above => if Str.eqb y ".." then x :: stack else above
    end
  else x :: stack.

(** The file a path names when no directory on its way is a symbolic
    link. *)
Definition file_of (p : Pathlib.Path) : Pathlib.Path :=
  {| Pathlib.root := Pathlib.root p;
     Pathlib.parts :=
       rev (fold_left (walk (negb (Str.eqb (Pathlib.root p) EmptyString)))
                      (Pathlib.parts p) []) |}.

(** * Verification *)

(** One step of a computation in [res]: the bind of a result is run. *)
Tactic Notation "unbind" := cbn [mbind res_mbind res_bind].
Tactic Notation "unbind" "in" "*" := cbn [mbind res_mbind res_bind] in *.

(** ** Strings *)

Lemma str_app_nil_l (s : string) : EmptyString +:+ s = s.
Proof. reflexivity. Qed.

Lemma str_app_cons (a : ascii) (s t : string) :
  String a s +:+ t = String a (s +:+ t).
Proof. reflexivity. Qed.

Lemma str_app_nil_r (s : string) : s +:+ EmptyString = s.
Proof. induction s as [|a s IH]; [done|]. by rewrite str_app_cons, IH. Qed.

Lemma str_app_assoc (s t u : string) : (s +:+ t) +:+ u = s +:+ (t +:+ u).
Proof. induction s as [|a s IH]; [done|]. by rewrite !str_app_cons, IH. Qed.

Lemma str_length_app (s t : string) :
  String.length (s +:+ t) = String.length s + String.length t.
Proof. induction s as [|a s IH]; [done|]. rewrite str_app_cons. simpl. by rewrite IH. Qed.

Lemma str_app_inv_tail (s t u : string) : s +:+ u = t +:+ u → s = t.
Proof.
  revert t. induction s as [|a s IH]; intros [|b t] H.
  - done.
  - apply (f_equal String.length) in H. rewrite !str_length_app in H.
    simpl in H. lia.
  - apply (f_equal String.length) in H. rewrite !str_length_app in H.
    simpl in H. lia.
  - rewrite !str_app_cons in H. injection H as -> H. f_equal. by apply IH.
Qed.

Lemma startswith_spec (s p : string) :
  Str.startswith s p = true ↔ ∃ t, s = p +:+ t.
Proof.
  revert s. induction p as [|a p IH]; intros s; simpl.
  - split; [intros _; exists s; reflexivity|reflexivity].
  - destruct s as [|b s].
    + split; [done|]. intros [t Ht]. by rewrite str_app_cons in Ht.
    + rewrite andb_true_iff, Ascii.eqb_eq, IH. split.
      * intros [-> [t ->]]. by exists t.
      * intros [t Ht]. rewrite str_app_cons in Ht. injection Ht as -> ->. eauto.
Qed.

Lemma contains_spec (s sub : string) :
  Str.contains s sub = true ↔ ∃ pre post, s = pre +:+ sub +:+ post.
Proof.
  induction s as [|b s IH]; simpl.
  - rewrite orb_false_r, startswith_spec. split.
    + intros [t Ht]. by exists EmptyString, t.
    + intros [[|c pre] [post H]]; [by exists post|by rewrite str_app_cons in H].
  - rewrite orb_true_iff, startswith_spec, IH. split.
    + intros [[t Ht]|[pre [post Ht]]].
      * by exists EmptyString, t.
      * exists (String b pre), post. by rewrite str_app_cons, Ht.
    + intros [[|c pre] [post H]].
      * left. by exists post.
      * right. rewrite str_app_cons in H. injection H as -> ->. eauto.
Qed.

(** ** The library models on known values *)

Example sha1_abc :
  Sha1.hexdigest "abc" = "a9993e364706816aba3e25717850c26c9cd0d89d".
Proof. vm_compute. reflexivity. Qed.

Example sha1_empty :
  Sha1.hexdigest EmptyString = "da39a3ee5e6b4b0d3255bfef95601890afd80709".
Proof. vm_compute. reflexivity. Qed.

Example sha1_two_blocks :
  Sha1.hexdigest "abcdbcdecdefdefgefghfghighijhijkijkljklmklmnlmnomnopnopq" =
  "84983e441c3bd26ebaae4aa1f95129e5e54670f1".
Proof. vm_compute. reflexivity. Qed.

Example urlparse_components :
  Urllib.urlparse "HTTP://www.Example.org:80/a/b;v=1?q=1&r=2#top" =
  Ok {| Urllib.scheme := "http"; Urllib.netloc := "www.Example.org:80";
        Urllib.path := "/a/b"; Urllib.params := "v=1";
        Urllib.query := "q=1&r=2"; Urllib.fragment := "top" |}.
Proof. vm_compute. reflexivity. Qed.

Example urlparse_no_scheme :
  Urllib.urlparse "//cdn.example.org/x.js" =
  Ok {| Urllib.scheme := EmptyString; Urllib.netloc := "cdn.example.org";
        Urllib.path := "/x.js"; Urllib.params := EmptyString;
        Urllib.query := EmptyString; Urllib.fragment := EmptyString |}.
Proof. vm_compute. reflexivity. Qed.

Example urlparse_bracketed_host :
  Urllib.urlparse "http://[2001:db8::1.2.3.4%eth0]:8080/x" =
  Ok {| Urllib.scheme := "http";
        Urllib.netloc := "[2001:db8::1.2.3.4%eth0]:8080";
        Urllib.path := "/x"; Urllib.params := EmptyString;
        Urllib.query := EmptyString; Urllib.fragment := EmptyString |}.
Proof. vm_compute. reflexivity. Qed.

Example urlparse_refused :
  Urllib.urlparse "http://[::1/x" = Raise ValueError ∧
  Urllib.urlparse "http://[example.org]/x" = Raise ValueError ∧
  Urllib.urlparse "http://[1.2.3.4]/x" = Raise ValueError ∧
  Urllib.urlparse "http://a.com[::1]/x" = Raise ValueError ∧
  Urllib.urlparse "http://exam℀ple.org/x" = Raise ValueError.
Proof. vm_compute. repeat split. Qed.

Example unquote_utf8 :
  Urllib.unquote "/El%20Ni%C3%B1o/%e2%82%ac" = "/El Niño/€".
Proof. vm_compute. reflexivity. Qed.

Example unquote_ill_formed :
  Urllib.unquote "a%FFb%C3" =
  "a" +:+ Urllib.replacement +:+ "b" +:+ Urllib.replacement ∧
  Urllib.unquote "100%" = "100%" ∧ Urllib.unquote "%zz" = "%zz".
Proof. vm_compute. repeat split. Qed.

Example splitext_known :
  splitext "/a/b.tar.gz" = ("/a/b.tar", ".gz") ∧
  splitext "/a.d/c" = ("/a.d/c", EmptyString) ∧
  splitext "/a/.bashrc" = ("/a/.bashrc", EmptyString) ∧
  splitext "/a/..b.c" = ("/a/..b", ".c").
Proof. vm_compute. repeat split. Qed.

Example path_known :
  Pathlib.to_str (Pathlib.parse "./local_www" // "a.com" // "x/./y//z") =
    "local_www/a.com/x/y/z" ∧
  Pathlib.to_str (Pathlib.parse "out" // "a.com" // "/etc/passwd") =
    "/etc/passwd" ∧
  Pathlib.to_str (Pathlib.parse "out" // ".." // "x") = "out/../x" ∧
  Pathlib.to_str (Pathlib.parse "//a//b") = "//a/b" ∧
  Pathlib.to_str (Pathlib.parse "///a") = "/a" ∧
  Pathlib.to_str (Pathlib.parse EmptyString) = ".".
Proof. vm_compute. repeat split. Qed.

(** The mapper on the shapes the specification lists. *)
Example url_to_local_path_known :
  url_to_local_path "https://good.com/a?x=1" (Pathlib.parse "./local_www") =
    Ok (Pathlib.parse "local_www/good.com/a__q_7caf6056.html",
        "/good.com/a__q_7caf6056.html") ∧
  url_to_local_path "https://good.com/dir/" (Pathlib.parse "./local_www") =
    Ok (Pathlib.parse "local_www/good.com/dir/index.html",
        "/good.com/dir/index.html") ∧
  url_to_local_path "https://good.com" (Pathlib.parse "./local_www") =
    Ok (Pathlib.parse "local_www/good.com/index.html",
        "/good.com/index.html") ∧
  url_to_local_path "https://good.com/a%20b.css?v=2" (Pathlib.parse "./local_www") =
    Ok (Pathlib.parse "local_www/good.com/a b__q_f67bbdbf.css",
        "/good.com/a b__q_f67bbdbf.css") ∧
  url_to_local_path "http://[::1/x" (Pathlib.parse "./local_www") =
    Raise ValueError.
Proof. vm_compute. repeat split. Qed.

(** ** The URL filter (C3) *)

Lemma existsb_denylisted (s : string) :
  existsb (λ bad, Str.contains s bad) ANALYTICS_BLOCKLIST = true ↔ denylisted s.
Proof.
  rewrite existsb_exists. unfold denylisted. split.
  - intros [bad [Hin Hc]]. apply contains_spec in Hc as [pre [post ->]].
    exists bad, pre, post. split; [by apply list_elem_of_In|done].
  - intros [bad [pre [post [Hin ->]]]]. exists bad.
    split; [by apply list_elem_of_In|]. apply contains_spec. eauto.
Qed.

Lemma is_blocked_str (s : string) :
  is_blocked (JStr s) =
  negb (Str.eqb s EmptyString) &&
  existsb (λ bad, Str.contains s bad) ANALYTICS_BLOCKLIST.
Proof.
  unfold is_blocked, is_blocked_with.
  cbn [truthy isinstance_str negb]. rewrite orb_false_r.
  by destruct (Str.eqb s EmptyString).
Qed.

Lemma is_blocked_not_str (url : json) :
  isinstance_str url = false → is_blocked url = false.
Proof.
  intros H. unfold is_blocked, is_blocked_with. rewrite H. simpl.
  by rewrite orb_true_r.
Qed.

(** C3, as the code has it: [is_blocked] holds exactly of the non-empty
    strings that contain a fragment of the denylist; an empty or
    non-string input is not blocked. *)
Theorem C3_is_blocked_iff (url : json) :
  is_blocked url = true ↔
  ∃ s, url = JStr s ∧ s ≠ EmptyString ∧ denylisted s.
Proof.
  destruct (isinstance_str url) eqn:Hstr.
  - destruct url as [| | | |s| |]; try discriminate.
    rewrite is_blocked_str, andb_true_iff, negb_true_iff, existsb_denylisted.
    unfold Str.eqb. rewrite bool_decide_eq_false. split.
    + intros [Hne Hd]. by exists s.
    + intros [s' [[= <-] [Hne Hd]]]. done.
  - rewrite is_blocked_not_str by done. split; [done|].
    intros [s [-> _]]. done.
Qed.

(** C3 as stated fails on the empty string and on [None]: the
    specification calls both blocked, the code answers [False]. *)
Lemma C3_counterexample :
  blocked_per_spec (JStr EmptyString) ∧ is_blocked (JStr EmptyString) = false ∧
  blocked_per_spec JNull ∧ is_blocked JNull = false.
Proof.
  repeat split; try reflexivity.
  - by left.
  - right; by left.
Qed.

(** ** The fetcher (C5, C6) *)

Lemma backoff_lt (i j : nat) :
  i < j → QArith_base.Qlt (backoff i) (backoff j).
Proof.
  intros Hij. unfold QArith_base.Qlt, backoff, BASE_DELAY. simpl. lia.
Qed.

(** When every pass meets a transport fault the loop uses all its fuel:
    one attempt and one sleep per remaining try. *)
Lemma download_loop_all_faults (net : string → nat → attempt) (url : string)
    (fuel tries : nat) (last_exc : option exn) (trace : list event) :
  (∀ k, net url k = Fault (RequestException None)) →
  download_loop net url fuel tries last_exc trace =
  (match fuel, last_exc with
   | O, None => Raise UnboundLocalError
   | O, Some e => Ok (false, last_status e, 0%Z)
   | S _, _ => Ok (false, None, 0%Z)
   end,
   trace ++ flat_map (λ k, [Attempt k; Sleep (backoff k)]) (seq (S tries) fuel)).
Proof.
  intros Hnet. revert tries last_exc trace.
  induction fuel as [|fuel IH]; intros tries last_exc trace; simpl.
  - by rewrite List.app_nil_r.
  - rewrite Hnet, IH. f_equal.
    + by destruct fuel.
    + by rewrite <- !List.app_assoc.
Qed.

(** One URL whose file is not skipped: the first loop submits it, the
    second records what [download_one] returned. *)
Lemma download_urls_one (net : string → nat → attempt)
    (file_size : Pathlib.Path → option Z) (out_root : Pathlib.Path)
    (url : string) (skip_existing : bool)
    (local_path : Pathlib.Path) (manifest_href : string)
    (ok : bool) (status : option Z) (bts : Z) :
  url_to_local_path url out_root = Ok (local_path, manifest_href) →
  (skip_existing = true → file_size local_path = None) →
  (download_one net url 3).1 = Ok (ok, status, bts) →
  download_urls net file_size out_root [url] skip_existing =
  Ok (record_outcome url
        {| ok := ok; status := status; bytes := bts;
           local := Pathlib.to_str local_path; href := manifest_href |}
        {| results := []; total_bytes := 0%Z; failed := [] |}).
Proof.
  intros Hpath Hfs Hone. unfold download_urls. cbn [submit].
  rewrite Hpath. unbind.
  assert ((if skip_existing then file_size local_path else None) = None) as ->.
  { destruct skip_existing; [by apply Hfs|done]. }
  cbn [mbind res_mbind res_bind app fold_left completed fut_result fst].
  by rewrite Hone.
Qed.

(** The trace of the pool for one URL whose file is not skipped. *)
Lemma pool_trace_one (net : string → nat → attempt)
    (file_size : Pathlib.Path → option Z) (out_root : Pathlib.Path)
    (url : string) (skip_existing : bool)
    (local_path : Pathlib.Path) (manifest_href : string) :
  url_to_local_path url out_root = Ok (local_path, manifest_href) →
  (skip_existing = true → file_size local_path = None) →
  pool_trace net file_size out_root [url] skip_existing =
  Ok [(url, (download_one net url 3).2)].
Proof.
  intros Hpath Hfs. unfold pool_trace. cbn [submit].
  rewrite Hpath. unbind.
  assert ((if skip_existing then file_size local_path else None) = None) as ->.
  { destruct skip_existing; [by apply Hfs|done]. }
  done.
Qed.

(** The adapter opens at least one connection and at most one more than
    its retries. *)
Lemma send_bounds (wire : nat → connection) (retries n : nat) :
  n ≤ (send wire retries n).2 ≤ n + retries.
Proof.
  revert n. induction retries as [|retries IH]; intros n; cbn [send].
  - destruct (wire n); cbn [snd]; lia.
  - destruct (wire n); cbn [snd]; [|lia]. specialize (IH (S n)). lia.
Qed.

(** C5: when each of the three calls of [session.get] raises a transport
    fault (a [RequestException] without response), the worker the pool runs
    for the URL makes exactly three passes, sleeps after pass [k] for [k]
    times half a second, hence strictly longer each time, and the URL is
    recorded as failed, with no status and no bytes.  Inside one pass the
    mounted adapter opens between one and three connections, without
    delay: three when every connection breaks, which is one way for the
    call to raise that fault. *)
Theorem C5_transport_fault_three_attempts
    (wire : string → nat → nat → connection)
    (file_size : Pathlib.Path → option Z)
    (out_root : Pathlib.Path) (url : string) (skip_existing : bool)
    (local_path : Pathlib.Path) (manifest_href : string) :
  (∀ tries, 1 ≤ tries ≤ 3 →
     session_get wire url tries = Fault (RequestException None)) →
  url_to_local_path url out_root = Ok (local_path, manifest_href) →
  (skip_existing = true → file_size local_path = None) →
  pool_trace (session_get wire) file_size out_root [url] skip_existing =
    Ok [(url, [Attempt 1; Sleep (QArith_base.Qmake 1 2);
               Attempt 2; Sleep (QArith_base.Qmake 2 2);
               Attempt 3; Sleep (QArith_base.Qmake 3 2)])] ∧
  (∀ k, 1 ≤ k ≤ 3 →
     QArith_base.Qeq (QArith_base.Qmake (Z.of_nat k) 2)
       (QArith_base.Qmult (QArith_base.inject_Z (Z.of_nat k))
                          (QArith_base.Qmake 1 2))) ∧
  QArith_base.Qlt (QArith_base.Qmake 1 2) (QArith_base.Qmake 2 2) ∧
  QArith_base.Qlt (QArith_base.Qmake 2 2) (QArith_base.Qmake 3 2) ∧
  download_urls (session_get wire) file_size out_root [url] skip_existing =
    Ok {| results := [(url, {| ok := false; status := None; bytes := 0%Z;
                               local := Pathlib.to_str local_path;
                               href := manifest_href |})];
          total_bytes := 0%Z;
          failed := [url] |} ∧
  (∀ tries, 1 ≤ connections wire url tries ≤ 1 + max_retries adapter) ∧
  max_retries adapter = 2 ∧
  ((∀ tries n, wire url tries n = Broken) →
   ∀ tries, session_get wire url tries = Fault (RequestException None) ∧
            connections wire url tries = 3).
Proof.
  intros Hnet Hpath Hfs.
  assert (Hone : download_one (session_get wire) url 3 =
    (Ok (false, None, 0%Z),
     [Attempt 1; Sleep (QArith_base.Qmake 1 2);
      Attempt 2; Sleep (QArith_base.Qmake 2 2);
      Attempt 3; Sleep (QArith_base.Qmake 3 2)])).
  { unfold download_one. cbn [download_loop].
    rewrite !Hnet by lia. reflexivity. }
  split_and!.
  - rewrite (pool_trace_one _ _ _ _ _ _ _ Hpath Hfs). by rewrite Hone.
  - intros k Hk. unfold QArith_base.Qeq. cbn. lia.
  - reflexivity.
  - reflexivity.
  - by rewrite (download_urls_one _ file_size out_root url skip_existing
                  local_path manifest_href false None 0%Z Hpath Hfs)
      by (by rewrite Hone).
  - intros tries. apply (send_bounds (wire url tries) (max_retries adapter) 1).
  - reflexivity.
  - intros Hwire tries. unfold session_get, connections.
    cbn [send max_retries adapter]. rewrite !Hwire. done.
Qed.

Lemma C5_witness :
  let wire : string → nat → nat → connection := λ _ _ _, Broken in
  pool_trace (session_get wire) (λ _, None) (Pathlib.parse "./local_www")
             ["http://a.com/x"] true =
    Ok [("http://a.com/x",
         [Attempt 1; Sleep (QArith_base.Qmake 1 2);
          Attempt 2; Sleep (QArith_base.Qmake 2 2);
          Attempt 3; Sleep (QArith_base.Qmake 3 2)])] ∧
  (∀ k, 1 ≤ k ≤ 3 →
     QArith_base.Qeq (QArith_base.Qmake (Z.of_nat k) 2)
       (QArith_base.Qmult (QArith_base.inject_Z (Z.of_nat k))
                          (QArith_base.Qmake 1 2))) ∧
  QArith_base.Qlt (QArith_base.Qmake 1 2) (QArith_base.Qmake 2 2) ∧
  QArith_base.Qlt (QArith_base.Qmake 2 2) (QArith_base.Qmake 3 2) ∧
  download_urls (session_get wire) (λ _, None) (Pathlib.parse "./local_www")
                ["http://a.com/x"] true =
    Ok {| results := [("http://a.com/x",
                       {| ok := false; status := None; bytes := 0%Z;
                          local := "local_www/a.com/x"; href := "/a.com/x" |})];
          total_bytes := 0%Z;
          failed := ["http://a.com/x"] |} ∧
  (∀ tries, 1 ≤ connections wire "http://a.com/x" tries ≤ 1 + max_retries adapter) ∧
  max_retries adapter = 2 ∧
  ((∀ tries n, wire "http://a.com/x" tries n = Broken) →
   ∀ tries,
     session_get wire "http://a.com/x" tries = Fault (RequestException None) ∧
     connections wire "http://a.com/x" tries = 3).
Proof.
  apply (C5_transport_fault_three_attempts
           (λ _ _ _, Broken) (λ _, None)
           (Pathlib.parse "./local_www") "http://a.com/x" true
           (Pathlib.parse "local_www/a.com/x") "/a.com/x");
    reflexivity.
Defined.

(** C6: a response whose status is not 200 ends the fetch at once: one
    attempt, no sleep, and the URL recorded as failed with that status and
    no bytes. *)
Theorem C6_bad_status_not_retried
    (net : string → nat → attempt) (file_size : Pathlib.Path → option Z)
    (out_root : Pathlib.Path) (url : string) (skip_existing : bool)
    (local_path : Pathlib.Path) (manifest_href : string)
    (status_code : Z) (chunks : list string) :
  net url 1 = Response status_code chunks →
  status_code ≠ 200%Z →
  url_to_local_path url out_root = Ok (local_path, manifest_href) →
  (skip_existing = true → file_size local_path = None) →
  download_one net url 3 = (Ok (false, Some status_code, 0%Z), [Attempt 1]) ∧
  download_urls net file_size out_root [url] skip_existing =
    Ok {| results := [(url, {| ok := false; status := Some status_code;
                               bytes := 0%Z;
                               local := Pathlib.to_str local_path;
                               href := manifest_href |})];
          total_bytes := 0%Z;
          failed := [url] |}.
Proof.
  intros Hnet Hne Hpath Hfs.
  assert (Hone : download_one net url 3 =
                 (Ok (false, Some status_code, 0%Z), [Attempt 1])).
  { unfold download_one. simpl. rewrite Hnet.
    by apply Z.eqb_neq in Hne as ->. }
  split; [done|].
  by rewrite (download_urls_one net file_size out_root url skip_existing
                local_path manifest_href false (Some status_code) 0%Z Hpath Hfs)
    by (by rewrite Hone).
Qed.

Lemma C6_witness :
  let net : string → nat → attempt := λ _ _, Response 404 ["Not Found"] in
  download_one net "http://a.com/x" 3 =
    (Ok (false, Some 404%Z, 0%Z), [Attempt 1]) ∧
  download_urls net (λ _, None) (Pathlib.parse "./local_www")
                ["http://a.com/x"] true =
    Ok {| results := [("http://a.com/x",
                       {| ok := false; status := Some 404%Z; bytes := 0%Z;
                          local := "local_www/a.com/x"; href := "/a.com/x" |})];
          total_bytes := 0%Z;
          failed := ["http://a.com/x"] |}.
Proof.
  apply (C6_bad_status_not_retried
           (λ _ _, Response 404 ["Not Found"]) (λ _, None)
           (Pathlib.parse "./local_www") "http://a.com/x" true
           (Pathlib.parse "local_www/a.com/x") "/a.com/x" 404%Z ["Not Found"]);
    [reflexivity|lia|reflexivity|reflexivity].
Defined.

(** ** The path mapper *)

Lemma mem_app (c : ascii) (s t : string) :
  Str.mem c (s +:+ t) = Str.mem c s || Str.mem c t.
Proof.
  induction s as [|b s IH]; [done|].
  rewrite str_app_cons. simpl. by rewrite IH, orb_assoc.
Qed.

Lemma mem_take (c : ascii) (n : nat) (s : string) :
  Str.mem c s = false → Str.mem c (str_take n s) = false.
Proof.
  revert s. induction n as [|n IH]; intros [|b s]; simpl; try done.
  intros [H1 H2]%orb_false_iff. by rewrite H1, IH.
Qed.

Lemma split_no_sep (c : ascii) (s : string) :
  Str.mem c s = false → Str.split c s = [s].
Proof.
  induction s as [|b s IH]; [done|]. simpl.
  intros [H1 H2]%orb_false_iff. rewrite Ascii.eqb_sym, H1, IH; done.
Qed.

(** Text without a separator joins the last field. *)
Lemma split_app_no_sep (c : ascii) (x t : string) :
  Str.mem c t = false →
  ∃ fs f, Str.split c x = fs ++ [f] ∧ Str.split c (x +:+ t) = fs ++ [f +:+ t].
Proof.
  intros Ht. induction x as [|b x (fs & f & E1 & E2)].
  - exists [], EmptyString. rewrite str_app_nil_l.
    split; [done|by apply split_no_sep].
  - rewrite str_app_cons. simpl. rewrite E1, E2.
    destruct (Ascii.eqb b c).
    + by exists (EmptyString :: fs), f.
    + destruct fs as [|g fs]; simpl.
      * by exists [], (String b f).
      * by exists (String b g :: fs), f.
Qed.

Lemma lstrip_app (p : ascii → bool) (x : string) (b : ascii) (t : string) :
  p b = false →
  Str.lstrip p (x +:+ String b t) = Str.lstrip p x +:+ String b t.
Proof.
  intros Hb. induction x as [|a x IH].
  - rewrite str_app_nil_l. simpl. by rewrite Hb.
  - rewrite str_app_cons. simpl. by destruct (p a).
Qed.

Lemma lstrip_not_startswith (s : string) :
  Str.startswith (Str.lstrip Pathlib.is_sep s) "/" = false.
Proof.
  induction s as [|a s IH]; [done|]. cbn [Str.lstrip].
  destruct (Pathlib.is_sep a) eqn:E; [done|].
  cbn [Str.startswith]. unfold Pathlib.is_sep in E. by rewrite Ascii.eqb_sym, E.
Qed.

Lemma startswith_sep_mem (s : string) :
  Str.mem "/" s = false → Str.startswith s "/" = false.
Proof.
  destruct s as [|a s]; [done|]. cbn [Str.mem Str.startswith].
  intros [H _]%orb_false_iff. by rewrite H.
Qed.

(** A relative segment is appended. *)
Lemma joinpath_relative (p : Pathlib.Path) (s : string) :
  Str.startswith s "/" = false →
  p // s = {| Pathlib.root := Pathlib.root p;
              Pathlib.parts := Pathlib.parts p ++
                               filter (λ x, Pathlib.keep_part x = true)
                                      (Str.split "/" s) |}.
Proof.
  intros H. unfold Pathlib.joinpath, Pathlib.parse, Pathlib.splitroot.
  by rewrite H.
Qed.

Lemma break_fst_no_delim (c : ascii) (delims s : string) :
  Str.mem c delims = true → Str.mem c (Str.break delims s).1 = false.
Proof.
  intros Hc. induction s as [|b s IH]; [done|]. simpl.
  destruct (Str.mem b delims) eqn:Hb; [done|].
  destruct (Str.break delims s) as [x y]. simpl in *. rewrite IH, orb_false_r.
  destruct (Ascii.eqb_spec c b) as [->|]; [congruence|done].
Qed.

Lemma netloc_no_sep (url : string) (p : Urllib.ParseResult) :
  Urllib.urlparse url = Ok p → Str.mem "/" (Urllib.netloc p) = false.
Proof.
  unfold Urllib.urlparse.
  destruct (Urllib.split_scheme _) as [sch u1].
  destruct (Str.startswith u1 "//").
  - pose proof (break_fst_no_delim "/" "/?#" (str_drop 2 u1) eq_refl) as H.
    destruct (Str.break "/?#" (str_drop 2 u1)) as [nl u2]. simpl in H.
    repeat case_match; intros; simplify_eq; done.
  - repeat case_match; intros; simplify_eq; done.
Qed.

Lemma rpartition_Some (c : ascii) (s x y : string) :
  Str.rpartition c s = Some (x, y) →
  s = x +:+ String c y ∧ Str.mem c y = false.
Proof.
  revert x y. induction s as [|b s IH]; intros x y; [done|]. simpl.
  destruct (Str.rpartition c s) as [[x' y']|] eqn:E.
  - intros [= <- <-]. destruct (IH _ _ eq_refl) as [-> H]. done.
  - destruct (Ascii.eqb_spec b c) as [->|]; [|done].
    intros [= <- <-]. split; [done|].
    clear IH. induction s as [|a s IH]; [done|]. simpl in *.
    destruct (Str.rpartition c s) as [[? ?]|]; [done|].
    destruct (Ascii.eqb_spec a c) as [->|Hne]; [done|].
    rewrite IH by done. rewrite orb_false_r. by apply Ascii.eqb_neq.
Qed.

Lemma rpartition_None (c : ascii) (s : string) :
  Str.rpartition c s = None → Str.mem c s = false.
Proof.
  induction s as [|a s IH]; [done|]. simpl.
  destruct (Str.rpartition c s) as [[? ?]|]; [done|].
  destruct (Ascii.eqb_spec a c) as [->|Hne]; [done|].
  intros _. rewrite IH by done. rewrite orb_false_r. by apply Ascii.eqb_neq.
Qed.

(** The extension [splitext] returns holds no separator. *)
Lemma splitext_ext_no_sep (p : string) :
  Str.mem "/" (splitext p).2 = false.
Proof.
  unfold splitext.
  assert (∃ dir file, match Str.rpartition "/" p with
                      | Some (d, f) => (d +:+ "/", f)
                      | None => (EmptyString, p)
                      end = (dir, file) ∧ Str.mem "/" file = false)
    as (dir & file & -> & Hfile).
  { destruct (Str.rpartition "/" p) as [[d f]|] eqn:E.
    - apply rpartition_Some in E as [_ H]. eauto.
    - apply rpartition_None in E. eauto. }
  destruct (Str.rpartition "." file) as [[stem ext]|] eqn:E; [|done].
  destruct (all_dots stem); [done|]. simpl.
  apply rpartition_Some in E as [-> _].
  rewrite mem_app in Hfile. apply orb_false_iff in Hfile as [_ H]. done.
Qed.

Lemma hex_digit_not_sep (d : N) :
  Ascii.eqb "/" (Sha1.hex_digit (N.land d 15)) = false.
Proof.
  assert (N.land d 15 < 16)%N as H.
  { change 15%N with (N.ones 4). rewrite N.land_ones.
    by apply N.mod_lt. }
  revert H. generalize (N.land d 15). intros n H.
  repeat (destruct n as [|n _] using N.peano_ind; [reflexivity|]). lia.
Qed.

Lemma hex_no_sep (n : nat) (x : N) : Str.mem "/" (Sha1.hex n x) = false.
Proof.
  induction n as [|n IH]; [done|].
  cbn [Sha1.hex Str.mem]. by rewrite hex_digit_not_sep, IH.
Qed.

Lemma hexdigest_no_sep (s : string) : Str.mem "/" (Sha1.hexdigest s) = false.
Proof.
  unfold Sha1.hexdigest.
  destruct (fold_left _ _ _) as [[[[h0 h1] h2] h3] h4].
  by rewrite !mem_app, !hex_no_sep.
Qed.

Lemma url_to_local_path_unfold (url : string) (out_root : Pathlib.Path) :
  url_to_local_path url out_root =
  p ← Urllib.urlparse url;
  let norm := Str.lstrip Pathlib.is_sep (local_rel p) in
  Ok (out_root // Urllib.netloc p // norm,
      "/" +:+ Str.join "/" (Urllib.netloc p :: Str.split "/" norm)).
Proof. reflexivity. Qed.

(** What an accepted URL is mapped to. *)
Lemma url_to_local_path_accepted (url : string) (out_root : Pathlib.Path)
    (p : Urllib.ParseResult) :
  Urllib.urlparse url = Ok p →
  url_to_local_path url out_root =
  Ok ({| Pathlib.root := Pathlib.root out_root;
         Pathlib.parts := Pathlib.parts out_root ++ mapped_parts p |},
      "/" +:+ Str.join "/" (Urllib.netloc p ::
                Str.split "/" (Str.lstrip Pathlib.is_sep (local_rel p)))).
Proof.
  intros Hp. rewrite url_to_local_path_unfold, Hp.
  unbind. cbn zeta.
  rewrite (joinpath_relative out_root)
    by (eapply startswith_sep_mem, netloc_no_sep, Hp).
  rewrite joinpath_relative by apply lstrip_not_startswith.
  cbn [Pathlib.root Pathlib.parts]. unfold mapped_parts.
  by rewrite <- List.app_assoc.
Qed.

(** A URL that [urlparse] refuses is not mapped. *)
Lemma url_to_local_path_Raise (url : string) (out_root : Pathlib.Path) :
  accepted url = false → url_to_local_path url out_root = Raise ValueError.
Proof.
  unfold accepted. rewrite url_to_local_path_unfold.
  destruct (Urllib.urlparse url) as [p|e] eqn:E; [done|]. intros _.
  unbind. f_equal.
  unfold Urllib.urlparse in E. repeat case_match; simplify_eq; done.
Qed.

Lemma keep_part_single (h : string) :
  Str.mem "/" h = false → Pathlib.keep_part h = true →
  filter (λ x, Pathlib.keep_part x = true) (Str.split "/" h) = [h].
Proof.
  intros Hsep Hkeep. rewrite split_no_sep by done.
  rewrite filter_cons_True by done. done.
Qed.

Lemma keep_part_long (s : string) :
  2 ≤ String.length s → Pathlib.keep_part s = true.
Proof.
  intros H. unfold Pathlib.keep_part, Str.eqb.
  rewrite !bool_decide_eq_false_2; [done| |]; intros ->; simpl in H; lia.
Qed.

(** With a query, the mapped relative path ends in the fingerprint tail,
    which no normalisation touches. *)
Lemma query_parts (x fp ext : string) :
  Str.mem "/" fp = false → Str.mem "/" ext = false →
  ∃ fs f, Str.split "/" (Str.lstrip Pathlib.is_sep x) = fs ++ [f] ∧
    filter (λ x, Pathlib.keep_part x = true)
      (Str.split "/" (Str.lstrip Pathlib.is_sep (x +:+ "__q_" +:+ fp +:+ ext))) =
    filter (λ x, Pathlib.keep_part x = true) fs ++ [f +:+ "__q_" +:+ fp +:+ ext].
Proof.
  intros Hfp Hext.
  change ("__q_" +:+ fp +:+ ext) with (String "_" ("_q_" +:+ fp +:+ ext)).
  rewrite lstrip_app by done.
  destruct (split_app_no_sep "/" (Str.lstrip Pathlib.is_sep x)
              (String "_" ("_q_" +:+ fp +:+ ext))) as (fs & f & E1 & E2).
  { change (String "_" ("_q_" +:+ fp +:+ ext)) with ("__q_" +:+ fp +:+ ext).
    by rewrite !mem_app, Hfp, Hext. }
  exists fs, f. split; [done|]. rewrite E2, filter_app.
  rewrite filter_cons_True; [done|].
  apply keep_part_long. rewrite str_length_app. simpl. lia.
Qed.

(** What tells two queries apart: two URLs with the same host and path
    and non-empty queries get different local paths exactly when the eight
    hex digits kept of the SHA-1 of their queries differ. *)
Theorem query_fingerprint_decides (out_root : Pathlib.Path) (u1 u2 : string)
    (p1 p2 : Urllib.ParseResult) :
  Urllib.urlparse u1 = Ok p1 → Urllib.urlparse u2 = Ok p2 →
  Urllib.netloc p1 = Urllib.netloc p2 →
  Urllib.path p1 = Urllib.path p2 →
  Urllib.query p1 ≠ EmptyString →
  Urllib.query p2 ≠ EmptyString →
  ∃ l1 h1 l2 h2,
    url_to_local_path u1 out_root = Ok (l1, h1) ∧
    url_to_local_path u2 out_root = Ok (l2, h2) ∧
    (l1 ≠ l2 ↔ fingerprint (Urllib.query p1) ≠ fingerprint (Urllib.query p2)).
Proof.
  intros Hp1 Hp2 Hn Hp Hq1 Hq2.
  rewrite (url_to_local_path_accepted u1 out_root p1 Hp1).
  rewrite (url_to_local_path_accepted u2 out_root p2 Hp2).
  do 4 eexists. split; [done|]. split; [done|].
  assert (∀ a b : list string,
            {| Pathlib.root := Pathlib.root out_root;
               Pathlib.parts := Pathlib.parts out_root ++ a |} =
            {| Pathlib.root := Pathlib.root out_root;
               Pathlib.parts := Pathlib.parts out_root ++ b |} ↔ a = b) as ->.
  { intros a b. split; [|by intros ->]. intros [= H]. by apply app_inv_head in H. }
  unfold mapped_parts. rewrite Hn.
  assert (Hrel : ∀ p, Urllib.query p ≠ EmptyString →
            local_rel p =
            Pathlib.to_str (Pathlib.parse (splitext (decoded_path p)).1)
            +:+ "__q_" +:+ fingerprint (Urllib.query p) +:+
            (if Str.eqb (splitext (decoded_path p)).2 EmptyString
             then ".html" else (splitext (decoded_path p)).2)).
  { intros p Hq. unfold local_rel, Str.eqb at 1.
    rewrite bool_decide_eq_false_2 by done. cbn [negb].
    by destruct (splitext _). }
  rewrite !Hrel by done.
  assert (decoded_path p1 = decoded_path p2)
    as <- by (unfold decoded_path; by rewrite Hp).
  set (base := (splitext (decoded_path p1)).1).
  set (ext := if Str.eqb _ _ then _ else _).
  assert (Hext : Str.mem "/" ext = false).
  { unfold ext. destruct (Str.eqb _ _); [done|apply splitext_ext_no_sep]. }
  assert (Hfp : ∀ q, Str.mem "/" (fingerprint q) = false).
  { intros q. apply mem_take, hexdigest_no_sep. }
  destruct (query_parts (Pathlib.to_str (Pathlib.parse base))
              (fingerprint (Urllib.query p1)) ext)
    as (fs1 & f1 & E1 & ->); [done..|].
  destruct (query_parts (Pathlib.to_str (Pathlib.parse base))
              (fingerprint (Urllib.query p2)) ext)
    as (fs2 & f2 & E2 & ->); [done..|].
  rewrite E1 in E2. apply app_inj_tail in E2 as [<- <-].
  split.
  - intros Hne Hfpeq. apply Hne. by rewrite Hfpeq.
  - intros Hne Heq. apply Hne.
    apply app_inv_head in Heq. apply app_inv_head in Heq.
    injection Heq as Heq.
    apply (inj (String.append f1)) in Heq.
    apply (inj (String.append "__q_")) in Heq.
    by apply str_app_inv_tail in Heq.
Qed.

Example query_fingerprint_decides_known :
  ∃ l1 h1 l2 h2,
    url_to_local_path "https://good.com/a?x=1" (Pathlib.parse "./local_www") =
      Ok (l1, h1) ∧
    url_to_local_path "https://good.com/a?x=2" (Pathlib.parse "./local_www") =
      Ok (l2, h2) ∧
    (l1 ≠ l2 ↔ fingerprint "x=1" ≠ fingerprint "x=2").
Proof.
  apply (query_fingerprint_decides (Pathlib.parse "./local_www")
           "https://good.com/a?x=1" "https://good.com/a?x=2"
           {| Urllib.scheme := "https"; Urllib.netloc := "good.com";
              Urllib.path := "/a"; Urllib.params := EmptyString;
              Urllib.query := "x=1"; Urllib.fragment := EmptyString |}
           {| Urllib.scheme := "https"; Urllib.netloc := "good.com";
              Urllib.path := "/a"; Urllib.params := EmptyString;
              Urllib.query := "x=2"; Urllib.fragment := EmptyString |});
    try reflexivity; discriminate.
Qed.

(** C8: the code at the failing input.  The module's docstring promises
    that query strings produce a unique filename suffix; the suffix is
    the first eight hex digits of the SHA-1 of the query, and these two
    URLs, which differ in their query only, get the same one: the SHA-1
    of [v=7141] and of [v=137874] both begin [712f4a68], and both URLs
    are mapped to the file [local_www/a.com/x__q_712f4a68.html]. *)
Theorem C8_suffix_not_unique :
  ∃ p1 p2,
    Urllib.urlparse "https://a.com/x?v=7141" = Ok p1 ∧
    Urllib.urlparse "https://a.com/x?v=137874" = Ok p2 ∧
    Urllib.scheme p1 = Urllib.scheme p2 ∧ Urllib.netloc p1 = Urllib.netloc p2 ∧
    Urllib.path p1 = Urllib.path p2 ∧ Urllib.params p1 = Urllib.params p2 ∧
    Urllib.fragment p1 = Urllib.fragment p2 ∧
    Urllib.query p1 = "v=7141" ∧ Urllib.query p2 = "v=137874" ∧
    str_take 8 (Sha1.hexdigest "v=7141") = "712f4a68" ∧
    str_take 8 (Sha1.hexdigest "v=137874") = "712f4a68" ∧
    let local_path :=
      {| Pathlib.root := EmptyString;
         Pathlib.parts := ["local_www"; "a.com"; "x__q_712f4a68.html"] |} in
    url_to_local_path "https://a.com/x?v=7141" (Pathlib.parse "./local_www") =
      Ok (local_path, "/a.com/x__q_712f4a68.html") ∧
    url_to_local_path "https://a.com/x?v=137874" (Pathlib.parse "./local_www") =
      Ok (local_path, "/a.com/x__q_712f4a68.html") ∧
    Pathlib.to_str local_path = "local_www/a.com/x__q_712f4a68.html".
Proof. do 2 eexists. vm_compute. repeat split. Qed.

(** ** Documents *)

Lemma json_induction (P : json → Prop) :
  P JNull → (∀ b, P (JBool b)) → (∀ n, P (JInt n)) →
  (∀ m e, P (JFloat m e)) → (∀ s, P (JStr s)) →
  (∀ l, Forall P l → P (JArr l)) →
  (∀ kvs, Forall (λ kv, P kv.2) kvs → P (JObj kvs)) →
  ∀ v, P v.
Proof.
  intros Hnull Hbool Hint Hfloat Hstr Harr Hobj.
  fix IH 1. intros [| b | n | m e | s | l | kvs].
  - exact Hnull.
  - apply Hbool.
  - apply Hint.
  - apply Hfloat.
  - apply Hstr.
  - apply Harr. induction l as [|x l IHl]; constructor; [apply IH|exact IHl].
  - apply Hobj.
    induction kvs as [|[k x] kvs IHl]; constructor; [apply IH|exact IHl].
Qed.

Lemma wf_arr (l : list json) : wf (JArr l) ↔ Forall wf l.
Proof.
  unfold wf; fold wf. induction l as [|x l IH]; [by split|].
  rewrite Forall_cons, <- IH. done.
Qed.

Lemma wf_obj (kvs : dict) :
  wf (JObj kvs) ↔ NoDup (kvs.*1) ∧ Forall (λ kv, wf kv.2) kvs.
Proof.
  unfold wf; fold wf. apply and_iff_compat_l.
  induction kvs as [|kv kvs IH]; [by split|].
  rewrite Forall_cons, <- IH. done.
Qed.

Lemma eqb_true (a b : string) : Str.eqb a b = true ↔ a = b.
Proof. apply bool_decide_eq_true. Qed.

Lemma eqb_false (a b : string) : Str.eqb a b = false ↔ a ≠ b.
Proof. apply bool_decide_eq_false. Qed.

Lemma dict_get_None (k : string) (d : dict) :
  dict_get k d = None ↔ k ∉ d.*1.
Proof.
  induction d as [|[k' v] d IH]; simpl.
  - split; [intros _; apply not_elem_of_nil|done].
  - rewrite not_elem_of_cons. destruct (Str.eqb k' k) eqn:E.
    + apply eqb_true in E as ->. split; [done|]. by intros [? _].
    + apply eqb_false in E. rewrite IH.
      split; [intros ?; split; [by intros ->|done]|by intros [_ ?]].
Qed.

Lemma dict_get_Some (k : string) (d : dict) (v : json) :
  dict_get k d = Some v →
  ∃ pre post, d = pre ++ (k, v) :: post ∧ k ∉ pre.*1.
Proof.
  induction d as [|[k' v'] d IH]; simpl; [done|].
  destruct (Str.eqb k' k) eqn:E.
  - apply eqb_true in E as ->. intros [= ->].
    exists [], d. split; [done|apply not_elem_of_nil].
  - apply eqb_false in E. intros H.
    destruct (IH H) as (pre & post & -> & Hpre).
    exists ((k', v') :: pre), post. split; [done|].
    simpl. rewrite not_elem_of_cons. done.
Qed.

Lemma dict_get_app (k : string) (pre post : dict) (v : json) :
  k ∉ pre.*1 → dict_get k (pre ++ (k, v) :: post) = Some v.
Proof.
  induction pre as [|[k' v'] pre IH]; simpl.
  - intros _. by rewrite (proj2 (eqb_true k k)).
  - rewrite not_elem_of_cons. intros [Hne Hpre].
    rewrite (proj2 (eqb_false k' k)) by done. by apply IH.
Qed.

Lemma dict_set_app (k : string) (pre post : dict) (v w : json) :
  k ∉ pre.*1 →
  dict_set k w (pre ++ (k, v) :: post) = pre ++ (k, w) :: post.
Proof.
  induction pre as [|[k' v'] pre IH]; simpl.
  - intros _. by rewrite (proj2 (eqb_true k k)).
  - rewrite not_elem_of_cons. intros [Hne Hpre].
    rewrite (proj2 (eqb_false k' k)) by done. by rewrite IH.
Qed.

Lemma dict_pop_app (k : string) (pre post : dict) (v : json) :
  k ∉ pre.*1 → dict_pop k (pre ++ (k, v) :: post) = pre ++ post.
Proof.
  induction pre as [|[k' v'] pre IH]; simpl.
  - intros _. by rewrite (proj2 (eqb_true k k)).
  - rewrite not_elem_of_cons. intros [Hne Hpre].
    rewrite (proj2 (eqb_false k' k)) by done. by rewrite IH.
Qed.

Lemma dict_set_absent (k : string) (d : dict) (w : json) :
  k ∉ d.*1 → dict_set k w d = d ++ [(k, w)].
Proof.
  induction d as [|[k' v'] d IH]; simpl; [done|].
  rewrite not_elem_of_cons. intros [Hne Hd].
  rewrite (proj2 (eqb_false k' k)) by done. by rewrite IH.
Qed.

(** ** The strings and the keys of a document *)

Lemma strings_of_obj_cons (k : string) (v : json) (d : dict) :
  strings_of (JObj ((k, v) :: d)) = strings_of v ++ strings_of (JObj d).
Proof. reflexivity. Qed.

Lemma strings_of_obj_app (d1 d2 : dict) :
  strings_of (JObj (d1 ++ d2)) = strings_of (JObj d1) ++ strings_of (JObj d2).
Proof. cbn [strings_of]. apply flat_map_app. Qed.

Lemma strings_of_arr_cons (x : json) (l : list json) :
  strings_of (JArr (x :: l)) = strings_of x ++ strings_of (JArr l).
Proof. reflexivity. Qed.

Lemma strings_of_arr_app (l1 l2 : list json) :
  strings_of (JArr (l1 ++ l2)) = strings_of (JArr l1) ++ strings_of (JArr l2).
Proof. cbn [strings_of]. apply flat_map_app. Qed.

Lemma strings_of_dict_get (k : string) (d : dict) (v : json) (s : string) :
  dict_get k d = Some v → s ∈ strings_of v → s ∈ strings_of (JObj d).
Proof.
  intros (pre & post & -> & _)%dict_get_Some Hs.
  rewrite strings_of_obj_app, strings_of_obj_cons, !elem_of_app. auto.
Qed.

Lemma strings_of_item (x : json) (l : list json) (s : string) :
  x ∈ l → s ∈ strings_of x → s ∈ strings_of (JArr l).
Proof.
  intros (l1 & l2 & ->)%list_elem_of_split Hs.
  rewrite strings_of_arr_app, strings_of_arr_cons, !elem_of_app. auto.
Qed.

Lemma elem_of_in_scope_urls (v : json) (u : string) :
  u ∈ in_scope_urls v ↔ in_scope u = true ∧ u ∈ strings_of v.
Proof. unfold in_scope_urls. by rewrite list_elem_of_filter. Qed.

Lemma elem_of_blocked_urls (v : json) (u : string) :
  u ∈ blocked_urls v ↔ blocked_url u = true ∧ u ∈ strings_of v.
Proof. unfold blocked_urls. by rewrite list_elem_of_filter. Qed.

Lemma in_scope_urls_obj_app (d1 d2 : dict) :
  in_scope_urls (JObj (d1 ++ d2)) =
  in_scope_urls (JObj d1) ++ in_scope_urls (JObj d2).
Proof. unfold in_scope_urls. by rewrite strings_of_obj_app, filter_app. Qed.

Lemma in_scope_urls_obj_cons (k : string) (v : json) (d : dict) :
  in_scope_urls (JObj ((k, v) :: d)) = in_scope_urls v ++ in_scope_urls (JObj d).
Proof. unfold in_scope_urls. by rewrite strings_of_obj_cons, filter_app. Qed.

Lemma in_scope_urls_arr_app (l1 l2 : list json) :
  in_scope_urls (JArr (l1 ++ l2)) =
  in_scope_urls (JArr l1) ++ in_scope_urls (JArr l2).
Proof. unfold in_scope_urls. by rewrite strings_of_arr_app, filter_app. Qed.

Lemma in_scope_urls_arr_cons (x : json) (l : list json) :
  in_scope_urls (JArr (x :: l)) = in_scope_urls x ++ in_scope_urls (JArr l).
Proof. unfold in_scope_urls. by rewrite strings_of_arr_cons, filter_app. Qed.

Lemma blocked_urls_obj_app (d1 d2 : dict) :
  blocked_urls (JObj (d1 ++ d2)) =
  blocked_urls (JObj d1) ++ blocked_urls (JObj d2).
Proof. unfold blocked_urls. by rewrite strings_of_obj_app, filter_app. Qed.

Lemma blocked_urls_obj_cons (k : string) (v : json) (d : dict) :
  blocked_urls (JObj ((k, v) :: d)) = blocked_urls v ++ blocked_urls (JObj d).
Proof. unfold blocked_urls. by rewrite strings_of_obj_cons, filter_app. Qed.

Lemma blocked_urls_arr_app (l1 l2 : list json) :
  blocked_urls (JArr (l1 ++ l2)) =
  blocked_urls (JArr l1) ++ blocked_urls (JArr l2).
Proof. unfold blocked_urls. by rewrite strings_of_arr_app, filter_app. Qed.

Lemma blocked_urls_arr_cons (x : json) (l : list json) :
  blocked_urls (JArr (x :: l)) = blocked_urls x ++ blocked_urls (JArr l).
Proof. unfold blocked_urls. by rewrite strings_of_arr_cons, filter_app. Qed.

Lemma keys_of_obj_app (d1 d2 : dict) :
  keys_of (JObj (d1 ++ d2)) = keys_of (JObj d1) ++ keys_of (JObj d2).
Proof. cbn [keys_of]. apply flat_map_app. Qed.

Lemma keys_of_obj_cons (k : string) (v : json) (d : dict) :
  keys_of (JObj ((k, v) :: d)) = k :: keys_of v ++ keys_of (JObj d).
Proof. reflexivity. Qed.

Lemma keys_of_arr_app (l1 l2 : list json) :
  keys_of (JArr (l1 ++ l2)) = keys_of (JArr l1) ++ keys_of (JArr l2).
Proof. cbn [keys_of]. apply flat_map_app. Qed.

Lemma keys_of_arr_cons (x : json) (l : list json) :
  keys_of (JArr (x :: l)) = keys_of x ++ keys_of (JArr l).
Proof. reflexivity. Qed.

Lemma kept_keys_obj_app (d1 d2 : dict) :
  kept_keys (JObj (d1 ++ d2)) = kept_keys (JObj d1) ++ kept_keys (JObj d2).
Proof. cbn [kept_keys]. apply flat_map_app. Qed.

Lemma kept_keys_obj_cons (k : string) (v : json) (d : dict) :
  kept_keys (JObj ((k, v) :: d)) =
  field_kept k v (kept_keys v) ++ kept_keys (JObj d).
Proof. reflexivity. Qed.

Lemma kept_keys_arr_cons (x : json) (l : list json) :
  kept_keys (JArr (x :: l)) = kept_keys x ++ kept_keys (JArr l).
Proof. reflexivity. Qed.

(** Under a key that is no URL, a field keeps the URL keys its value
    keeps. *)
Lemma field_kept_below (k : string) (v : json) :
  is_http k = false →
  filter (λ k, is_http k = true) (field_kept k v (kept_keys v)) =
  filter (λ k, is_http k = true) (kept_keys v).
Proof.
  intros Hk. destruct v as [| | | |s| |]; cbn [field_kept kept_keys];
    try (rewrite filter_cons_False by (by rewrite Hk); done).
  destruct (is_http s && is_blocked (JStr s)); [done|].
  rewrite filter_cons_False by (by rewrite Hk). done.
Qed.

(** A value that has no key keeps none. *)
Lemma kept_keys_nil (v : json) : keys_of v = [] → kept_keys v = [].
Proof.
  destruct v as [| | | | |l|kvs]; try done.
  - induction l as [|x l IH]; [done|].
    rewrite keys_of_arr_cons, kept_keys_arr_cons.
    intros [Hx Hl]%app_eq_nil. rewrite (IH Hl), List.app_nil_r.
    clear IH Hl. revert Hx.
    induction x as [| b | n | m e | s | l' IH | kvs IH] using json_induction;
      try done.
    + induction IH as [|y l' Hy _ IHl]; [done|].
      rewrite keys_of_arr_cons, kept_keys_arr_cons.
      intros [H1 H2]%app_eq_nil. by rewrite Hy, IHl.
    + destruct kvs as [|[k y] kvs]; [done|]. by rewrite keys_of_obj_cons.
  - destruct kvs as [|[k y] kvs]; [done|]. by rewrite keys_of_obj_cons.
Qed.

Lemma mappable_obj_cons (k : string) (v : json) (d : dict) :
  mappable (JObj ((k, v) :: d)) = mappable v && mappable (JObj d).
Proof. unfold mappable. by rewrite in_scope_urls_obj_cons, forallb_app. Qed.

Lemma mappable_arr_cons (x : json) (l : list json) :
  mappable (JArr (x :: l)) = mappable x && mappable (JArr l).
Proof. unfold mappable. by rewrite in_scope_urls_arr_cons, forallb_app. Qed.

Lemma mappable_str (u : string) :
  mappable (JStr u) = if in_scope u then accepted u else true.
Proof.
  unfold mappable, in_scope_urls. cbn [strings_of].
  destruct (in_scope u) eqn:E.
  - rewrite filter_cons_True by done. cbn. by rewrite andb_true_r.
  - rewrite filter_cons_False; [done|by rewrite E].
Qed.

Lemma mappable_spec (v : json) :
  mappable v = true ↔ ∀ u, u ∈ in_scope_urls v → accepted u = true.
Proof.
  unfold mappable. rewrite forallb_forall. split.
  - intros H u Hu. by apply H, list_elem_of_In.
  - intros H u Hu. by apply H, list_elem_of_In.
Qed.

(** ** The deep pass, as a function of the document *)

Section Deep.
Variable out_root : Pathlib.Path.

Lemma logged_nil (st : log) : logged out_root [] st = st.
Proof. destruct st. unfold logged. simpl. by rewrite !List.app_nil_r. Qed.

Lemma logged_app (l1 l2 : list string) (st : log) :
  logged out_root (l1 ++ l2) st = logged out_root l2 (logged out_root l1 st).
Proof.
  unfold logged. simpl. rewrite !filter_app, map_app, !List.app_assoc. done.
Qed.

Lemma accepted_mapped (u : string) :
  accepted u = true →
  ∃ local_path manifest_href,
    url_to_local_path u out_root = Ok (local_path, manifest_href) ∧
    href_of out_root u = manifest_href ∧
    entry out_root u = (u, manifest_href, Pathlib.to_str local_path).
Proof.
  unfold accepted, href_of, entry. rewrite url_to_local_path_unfold.
  destruct (Urllib.urlparse u) as [p|e]; [|done]. intros _.
  unbind. cbn zeta. eauto.
Qed.

(** A reference: blocked, it is logged as removed; in scope, it is mapped
    and logged as changed, unless [urlparse] refuses it. *)
Lemma rewrite_string_http (s : string) (st : log) :
  is_http s = true →
  rewrite_string out_root (JStr s) st =
  if mappable (JStr s)
  then Ok (if is_blocked (JStr s) then JNull else JStr (href_of out_root s),
           logged out_root [s] st)
  else Raise ValueError.
Proof.
  intros Hs. rewrite mappable_str. unfold rewrite_string, logged, in_scope.
  rewrite Hs. cbn [andb].
  destruct (is_blocked (JStr s)) eqn:Hb; cbn [negb].
  - unfold log_removed. f_equal. f_equal. f_equal.
    + rewrite filter_cons_False; [by rewrite filter_nil, List.app_nil_r|].
      unfold in_scope. rewrite Hs, Hb. done.
    + rewrite filter_cons_True; [done|]. unfold blocked_url. by rewrite Hs, Hb.
  - destruct (accepted s) eqn:Ha.
    + destruct (accepted_mapped s Ha) as (lp & h & -> & -> & He).
      unbind. unfold log_changed. f_equal. f_equal.
      f_equal.
      * rewrite filter_cons_True by (unfold in_scope; by rewrite Hs, Hb).
        simpl. by rewrite He.
      * rewrite filter_cons_False; [by rewrite filter_nil, List.app_nil_r|].
        unfold blocked_url. rewrite Hs, Hb. done.
    + by rewrite url_to_local_path_Raise.
Qed.

Lemma logged_not_http (s : string) (st : log) :
  is_http s = false → logged out_root [s] st = st.
Proof.
  intros Hs. rewrite <- (logged_nil st) at 2. unfold logged.
  rewrite !filter_cons_False, !filter_nil; try done.
  - unfold blocked_url. by rewrite Hs.
  - unfold in_scope. by rewrite Hs.
Qed.

Lemma mappable_not_http (s : string) :
  is_http s = false → mappable (JStr s) = true.
Proof. intros Hs. rewrite mappable_str. unfold in_scope. by rewrite Hs. Qed.

(** The field loop leaves the object with every field replaced, or raises
    at the first reference [urlparse] refuses. *)
Lemma replace_fields_spec (rec : json → log → res (json * log))
    (suf pre : dict) (st : log) :
  Forall (λ kv, ∀ st, isinstance_str kv.2 = false →
            rec kv.2 st =
            if mappable kv.2
            then Ok (replaced out_root kv.2,
                     logged out_root (strings_of kv.2) st)
            else Raise ValueError) suf →
  NoDup (suf.*1) → (∀ k, k ∈ suf.*1 → k ∉ pre.*1) →
  replace_fields out_root rec suf (pre ++ suf) st =
  if mappable (JObj suf)
  then Ok (pre ++ flat_map (field_replaced out_root (replaced out_root)) suf,
           logged out_root (flat_map (λ kv, strings_of kv.2) suf) st)
  else Raise ValueError.
Proof.
  revert pre st. induction suf as [|[k v] suf IH]; intros pre st Hrec Hnd Hpre.
  - simpl. by rewrite logged_nil.
  - apply Forall_cons in Hrec as [Hv Hrec]. simpl in Hv.
    simpl in Hnd. apply NoDup_cons in Hnd as [Hk Hnd].
    assert (Hkpre : k ∉ pre.*1) by (apply Hpre; simpl; left).
    assert (Hnext : ∀ w, ∀ k', k' ∈ suf.*1 → k' ∉ (pre ++ [(k, w)]).*1).
    { intros w k' Hk'. rewrite fmap_app, not_elem_of_app. split.
      - apply Hpre. simpl. by right.
      - simpl. rewrite list_elem_of_singleton. by intros ->. }
    assert (Hpre' : ∀ k', k' ∈ suf.*1 → k' ∉ pre.*1).
    { intros k' Hk'. apply Hpre. simpl. by right. }
    assert (Hcons : ∀ w, pre ++ (k, w) :: suf = (pre ++ [(k, w)]) ++ suf)
      by (intros w; by rewrite <- List.app_assoc).
    rewrite mappable_obj_cons.
    assert (Hother : isinstance_str v = false →
      ('(v', st) ← rec v st;
       replace_fields out_root rec suf
         (dict_set k v' (pre ++ (k, v) :: suf)) st) =
      if mappable v && mappable (JObj suf)
      then Ok (pre ++ (k, replaced out_root v) ::
                 flat_map (field_replaced out_root (replaced out_root)) suf,
               logged out_root
                 (strings_of v ++ flat_map (λ kv, strings_of kv.2) suf) st)
      else Raise ValueError).
    { intros Hns. rewrite (Hv st Hns).
      destruct (mappable v); cbn [mbind res_mbind res_bind andb]; [|done].
      rewrite dict_set_app, Hcons, IH by auto.
      by rewrite <- List.app_assoc, logged_app. }
    destruct v as [| b | n | m e | s | l | kvs]; try (by apply Hother).
    cbn [replace_fields flat_map field_replaced fst snd strings_of].
    destruct (is_http s) eqn:Hs.
    + rewrite rewrite_string_http by done.
      destruct (mappable (JStr s)); cbn [mbind res_mbind res_bind andb];
        [|done].
      rewrite (logged_app [s]).
      destruct (is_blocked (JStr s)); cbn [is_none].
      * rewrite dict_pop_app by done. by rewrite IH.
      * rewrite dict_set_app, Hcons, IH by auto.
        by rewrite <- List.app_assoc.
    + rewrite mappable_not_http by done. cbn [andb].
      rewrite Hcons, IH by auto.
      rewrite (logged_app [s]), logged_not_http by done.
      by rewrite <- List.app_assoc.
Qed.

Lemma list_insert_middle {A} (pre suf : list A) (x w : A) :
  <[length pre := w]> (pre ++ x :: suf) = pre ++ w :: suf.
Proof. induction pre as [|a pre IH]; simpl; [done|]. by rewrite IH. Qed.

(** The item loop leaves the sequence with every item replaced, a blocked
    reference by [None], or raises at the first reference [urlparse]
    refuses. *)
Lemma replace_items_spec (rec : json → log → res (json * log))
    (suf pre : list json) (st : log) :
  Forall (λ x, ∀ st, isinstance_str x = false →
            rec x st =
            if mappable x
            then Ok (replaced out_root x, logged out_root (strings_of x) st)
            else Raise ValueError) suf →
  replace_items out_root rec suf (length pre) (pre ++ suf) st =
  if mappable (JArr suf)
  then Ok (pre ++ map (item_replaced out_root (replaced out_root)) suf,
           logged out_root (flat_map strings_of suf) st)
  else Raise ValueError.
Proof.
  revert pre st. induction suf as [|x suf IH]; intros pre st Hrec.
  - simpl. by rewrite logged_nil.
  - apply Forall_cons in Hrec as [Hx Hrec].
    assert (Hcons : ∀ w, pre ++ w :: suf = (pre ++ [w]) ++ suf)
      by (intros w; by rewrite <- List.app_assoc).
    assert (Hlen : ∀ w, S (length pre) = length (pre ++ [w])).
    { intros w. rewrite length_app. simpl. lia. }
    rewrite mappable_arr_cons.
    assert (Hother : isinstance_str x = false →
      ('(item', st) ← rec x st;
       replace_items out_root rec suf (S (length pre))
         (<[length pre := item']> (pre ++ x :: suf)) st) =
      if mappable x && mappable (JArr suf)
      then Ok (pre ++ replaced out_root x ::
                 map (item_replaced out_root (replaced out_root)) suf,
               logged out_root (strings_of x ++ flat_map strings_of suf) st)
      else Raise ValueError).
    { intros Hns. rewrite (Hx st Hns).
      destruct (mappable x); cbn [mbind res_mbind res_bind andb]; [|done].
      rewrite list_insert_middle, Hcons, (Hlen (replaced out_root x)), IH by done.
      by rewrite <- List.app_assoc, logged_app. }
    destruct x as [| b | n | m e | s | l | kvs]; try (by apply Hother).
    cbn [replace_items flat_map map item_replaced strings_of].
    destruct (is_http s) eqn:Hs.
    + rewrite rewrite_string_http by done.
      destruct (mappable (JStr s)); cbn [mbind res_mbind res_bind andb];
        [|done].
      rewrite (logged_app [s]).
      destruct (is_blocked (JStr s)); cbn [is_none].
      * rewrite list_insert_middle, Hcons, (Hlen JNull), IH by done.
        by rewrite <- List.app_assoc.
      * rewrite list_insert_middle, Hcons, (Hlen (JStr (href_of out_root s))), IH
          by done.
        by rewrite <- List.app_assoc.
    + rewrite mappable_not_http by done. cbn [andb].
      rewrite Hcons, (Hlen (JStr s)), IH by done.
      rewrite (logged_app [s]), logged_not_http by done.
      by rewrite <- List.app_assoc.
Qed.

(** The deep pass on a well-formed object or sequence: the document is
    [replaced] and the log grows by its references in traversal order,
    unless [urlparse] refuses one of those in scope. *)
Lemma deep_replace_spec (v : json) (st : log) :
  wf v → isinstance_str v = false →
  deep_replace out_root v st =
  if mappable v
  then Ok (replaced out_root v, logged out_root (strings_of v) st)
  else Raise ValueError.
Proof.
  revert st. induction v as [| b | n | m e | s | l IH | kvs IH]
    using json_induction; intros st Hwf Hns; try done;
    try (simpl; by rewrite logged_nil).
  - cbn [deep_replace replaced strings_of].
    apply wf_arr in Hwf.
    pose proof (replace_items_spec (deep_replace out_root) l [] st) as H.
    simpl in H. rewrite H.
    + by destruct (mappable (JArr l)).
    + apply Forall_forall. intros x Hx st' Hxs.
      rewrite Forall_forall in IH. rewrite Forall_forall in Hwf.
      apply IH; auto.
  - cbn [deep_replace replaced strings_of].
    apply wf_obj in Hwf as [Hnd Hwf].
    pose proof (replace_fields_spec (deep_replace out_root) kvs [] st) as H.
    simpl in H. rewrite H.
    + by destruct (mappable (JObj kvs)).
    + apply Forall_forall. intros x Hx st' Hxs.
      rewrite Forall_forall in IH. rewrite Forall_forall in Hwf.
      apply IH; auto.
    + done.
    + intros k _. apply not_elem_of_nil.
Qed.
End Deep.

(** ** Well-formedness is kept by every step *)

Lemma dict_set_keys (k : string) (v : json) (d : dict) :
  (dict_set k v d).*1 = if bool_decide (k ∈ d.*1) then d.*1 else d.*1 ++ [k].
Proof.
  induction d as [|[k' v'] d IH]; [done|].
  cbn [dict_set]. rewrite (fmap_cons fst _ d). cbn [fst].
  destruct (Str.eqb k' k) eqn:E.
  - apply eqb_true in E as ->. rewrite fmap_cons. cbn [fst].
    rewrite bool_decide_eq_true_2; [done|by left].
  - apply eqb_false in E. rewrite fmap_cons, IH. cbn [fst].
    destruct (bool_decide (k ∈ d.*1)) eqn:Hin.
    + apply bool_decide_eq_true in Hin.
      rewrite bool_decide_eq_true_2; [done|by right].
    + apply bool_decide_eq_false in Hin.
      rewrite bool_decide_eq_false_2; [done|].
      rewrite elem_of_cons. intros [->|?]; done.
Qed.

Lemma dict_set_values (P : json → Prop) (k : string) (v : json) (d : dict) :
  P v → Forall (λ kv, P kv.2) d → Forall (λ kv, P kv.2) (dict_set k v d).
Proof.
  intros Hv. induction 1 as [|[k' v'] d Hkv Hd IH]; simpl.
  - by repeat constructor.
  - destruct (Str.eqb k' k); constructor; auto.
Qed.

Lemma dict_pop_sublist (k : string) (d : dict) : dict_pop k d `sublist_of` d.
Proof.
  induction d as [|[k' v'] d IH]; simpl; [done|].
  destruct (Str.eqb k' k).
  - by apply sublist_cons.
  - by apply sublist_skip.
Qed.

Lemma wf_dict_set (k : string) (v : json) (d : dict) :
  wf (JObj d) → wf v → wf (JObj (dict_set k v d)).
Proof.
  rewrite !wf_obj. intros [Hnd Hd] Hv. split.
  - rewrite dict_set_keys. case_bool_decide as Hin; [done|].
    apply NoDup_app. split_and!; [done| |apply NoDup_singleton].
    intros x Hx ->%list_elem_of_singleton. done.
  - by apply dict_set_values.
Qed.

Lemma wf_dict_pop (k : string) (d : dict) :
  wf (JObj d) → wf (JObj (dict_pop k d)).
Proof.
  rewrite !wf_obj. intros [Hnd Hd]. split.
  - eapply sublist_NoDup; [done|]. apply fmap_sublist, dict_pop_sublist.
  - apply Forall_forall. intros x Hx. rewrite Forall_forall in Hd.
    apply Hd. eapply elem_of_sublist; [done|apply dict_pop_sublist].
Qed.

Lemma wf_dict_get (k : string) (d : dict) (v : json) :
  wf (JObj d) → dict_get k d = Some v → wf v.
Proof.
  rewrite wf_obj. intros [_ Hd] (pre & post & -> & _)%dict_get_Some.
  apply Forall_app in Hd as [_ Hd]. by apply Forall_cons in Hd as [Hv _].
Qed.

Section Wf.
Variable out_root : Pathlib.Path.

Lemma wf_rewrite_string (s : json) (st : log) (new : json) (st' : log) :
  wf s → rewrite_string out_root s st = Ok (new, st') → wf new.
Proof.
  intros Hs. unfold rewrite_string.
  destruct s; try (by intros [= <- _]).
  repeat case_match; try (by intros [= <- _]).
  destruct (url_to_local_path _ _) as [[lp h]|e]; [|done].
  by intros [= <- _].
Qed.

Lemma wf_rewrite_item (it : json) (st : log) (it' : json) (st' : log) :
  wf it → rewrite_item out_root it st = Ok (it', st') → wf it'.
Proof.
  intros Hit. unfold rewrite_item.
  destruct it as [| | | | | |d]; try (by intros [= <- _]).
  destruct (dict_get "href" d) as [href|] eqn:E; [|by intros [= <- _]].
  destruct (rewrite_string out_root href st) as [[new st1]|e] eqn:E1; [|done].
  pose proof (wf_rewrite_string _ _ _ _ (wf_dict_get _ _ _ Hit E) E1) as Hnew.
  unbind.
  destruct (is_none new); intros [= <- _].
  - by apply wf_dict_pop.
  - by apply wf_dict_set.
Qed.

Lemma wf_rewrite_items (items : list json) (st : log)
    (items' : list json) (st' : log) :
  Forall wf items → rewrite_items out_root items st = Ok (items', st') →
  Forall wf items'.
Proof.
  revert st items'. induction items as [|it items IH]; intros st items' Hwf.
  - by intros [= <- _].
  - apply Forall_cons in Hwf as [Hit Hwf]. cbn [rewrite_items].
    destruct (rewrite_item out_root it st) as [[it1 st1]|e] eqn:E1; [|done].
    unbind.
    destruct (rewrite_items out_root items st1) as [[items1 st2]|e] eqn:E2;
      [|done].
    unbind. intros [= <- <-]. constructor.
    + by eapply wf_rewrite_item.
    + by eapply IH.
Qed.

Lemma wf_rewrite_known (key : string) (manifest : dict) (st : log)
    (m' : dict) (st' : log) :
  wf (JObj manifest) → rewrite_known out_root key (manifest, st) = Ok (m', st') →
  wf (JObj m').
Proof.
  intros Hwf. unfold rewrite_known.
  destruct (dict_get key manifest) as [[| | | | |items|]|] eqn:E;
    try (by intros [= <- _]).
  destruct (rewrite_items out_root items st) as [[items' st1]|e] eqn:E1; [|done].
  unbind. intros [= <- _].
  apply wf_dict_set; [done|].
  eapply wf_arr, wf_rewrite_items; [|done]. by eapply wf_arr, wf_dict_get.
Qed.

Lemma wf_rewrite_known_arrays (keys : list string) (manifest : dict) (st : log)
    (m' : dict) (st' : log) :
  wf (JObj manifest) →
  rewrite_known_arrays out_root keys (manifest, st) = Ok (m', st') →
  wf (JObj m').
Proof.
  revert manifest st. induction keys as [|key keys IH]; intros m st Hwf.
  - by intros [= <- _].
  - cbn [rewrite_known_arrays].
    destruct (rewrite_known out_root key (m, st)) as [[m1 st1]|e] eqn:E1; [|done].
    unbind. apply IH. by eapply wf_rewrite_known.
Qed.

Lemma wf_rewrite_resource (r : json) (st : log) (kept : option json)
    (st' : log) :
  wf r → rewrite_resource out_root r st = Ok (kept, st') →
  from_option wf True kept.
Proof.
  intros Hr. unfold rewrite_resource.
  destruct r as [| | | | | |d]; try (by intros [= <- _]).
  destruct (dict_get_none "href" d) as [| | | |h| |] eqn:E;
    try (by intros [= <- _]).
  destruct (is_blocked (JStr h)); [by intros [= <- _]|].
  destruct (rewrite_string out_root (JStr h) st) as [[new st1]|e] eqn:E1; [|done].
  unbind.
  destruct (is_none new); intros [= <- _]; [done|]. cbn [from_option].
  apply wf_dict_set; [done|]. by eapply (wf_rewrite_string (JStr h)).
Qed.

Lemma wf_rewrite_resources (rs acc : list json) (st : log)
    (new_resources : list json) (st' : log) :
  Forall wf rs → Forall wf acc →
  rewrite_resources out_root rs acc st = Ok (new_resources, st') →
  Forall wf new_resources.
Proof.
  revert acc st. induction rs as [|r rs IH]; intros acc st Hrs Hacc.
  - by intros [= <- _].
  - apply Forall_cons in Hrs as [Hr Hrs]. cbn [rewrite_resources].
    destruct (rewrite_resource out_root r st) as [[kept st1]|e] eqn:E1; [|done].
    unbind.
    pose proof (wf_rewrite_resource _ _ _ _ Hr E1) as H.
    destruct kept as [r'|]; apply IH; try done.
    apply Forall_app. split; [done|]. by constructor.
Qed.

Lemma wf_iterate (v : json) (l : list json) :
  wf v → iterate v = Ok l → Forall wf l.
Proof.
  destruct v as [| | | |s|items|kvs]; simpl; intros Hwf [= <-].
  - apply Forall_forall. by intros x (y & -> & _)%list_elem_of_fmap.
  - by apply wf_arr.
  - apply Forall_forall. by intros x (y & -> & _)%list_elem_of_fmap.
Qed.

Lemma wf_dict_get_default (k : string) (d : dict) (default : json) :
  wf (JObj d) → wf default → wf (dict_get_default k default d).
Proof.
  intros Hd Hdef. unfold dict_get_default.
  destruct (dict_get k d) eqn:E; [by eapply wf_dict_get|done].
Qed.

Lemma wf_rewrite_metadata (manifest : dict) (st : log) (m' : dict)
    (st' : log) :
  wf (JObj manifest) → rewrite_metadata out_root (manifest, st) = Ok (m', st') →
  wf (JObj m').
Proof.
  intros Hwf. unfold rewrite_metadata.
  pose proof (wf_dict_get_default "metadata" manifest JNull Hwf I) as Hmd.
  unfold dict_get_none.
  destruct (dict_get_default "metadata" JNull manifest)
    as [| | | | | |md]; try (by intros [= <- _]).
  pose proof (wf_dict_get_default "identifier" md JNull Hmd I) as Hid.
  destruct (dict_get_default "identifier" JNull md) as [| | | |ident| |];
    try (by intros [= <- _]).
  destruct (rewrite_string out_root (JStr ident) st) as [[new st1]|e] eqn:E1;
    [|done].
  unbind. intros [= <- _].
  apply wf_dict_set; [done|].
  pose proof (wf_rewrite_string (JStr ident) _ _ _ I E1) as Hnew.
  destruct (is_none new); [by apply wf_dict_pop|by apply wf_dict_set].
Qed.

End Wf.

(** ** No placeholder is put in the place of a reference *)

Lemma null_fields_obj_cons (k : string) (v : json) (d : dict) :
  null_fields (JObj ((k, v) :: d)) =
  (if is_none v then [k] else []) ++ null_fields v ++ null_fields (JObj d).
Proof. cbn [null_fields flat_map fst snd]. by rewrite <- List.app_assoc. Qed.

Lemma null_fields_arr_cons (x : json) (l : list json) :
  null_fields (JArr (x :: l)) = null_fields x ++ null_fields (JArr l).
Proof. reflexivity. Qed.

Lemma null_fields_arr_app (l1 l2 : list json) :
  null_fields (JArr (l1 ++ l2)) = null_fields (JArr l1) ++ null_fields (JArr l2).
Proof. cbn [null_fields]. apply flat_map_app. Qed.

Lemma null_fields_dict_pop (k : string) (d : dict) :
  null_fields (JObj (dict_pop k d)) `sublist_of` null_fields (JObj d).
Proof.
  induction d as [|[k' v'] d IH]; [done|]. cbn [dict_pop].
  destruct (Str.eqb k' k).
  - rewrite null_fields_obj_cons. by do 2 apply sublist_inserts_l.
  - rewrite !null_fields_obj_cons. by do 2 (apply sublist_app; [done|]).
Qed.

(** Setting a field to a value that is not [null] and holds no [null]
    field the old value did not. *)
Lemma null_fields_dict_set (k : string) (v' : json) (d : dict) :
  is_none v' = false →
  null_fields v' `sublist_of` null_fields (dict_get_none k d) →
  null_fields (JObj (dict_set k v' d)) `sublist_of` null_fields (JObj d).
Proof.
  intros Hn. unfold dict_get_none, dict_get_default.
  induction d as [|[k' v0] d IH]; cbn [dict_set dict_get].
  - intros H. rewrite null_fields_obj_cons, Hn. cbn [app].
    by rewrite List.app_nil_r.
  - destruct (Str.eqb k' k).
    + intros H. rewrite !null_fields_obj_cons, Hn. cbn [app].
      apply sublist_inserts_l. by apply sublist_app.
    + intros H. rewrite !null_fields_obj_cons.
      by do 2 (apply sublist_app; [done|]); apply IH.
Qed.

Lemma null_fields_iterate (v : json) (l : list json) :
  iterate v = Ok l → null_fields (JArr l) `sublist_of` null_fields v.
Proof.
  destruct v as [| | | |s|items|kvs]; cbn [iterate]; intros [= <-]; [|done|].
  - induction (Str.chars s) as [|c cs IH]; [done|]. apply IH.
  - assert (null_fields (JArr (map (λ kv : string * json, JStr kv.1) kvs)) = [])
      as -> by (induction kvs as [|kv kvs IH]; [done|apply IH]).
    apply sublist_nil_l.
Qed.

Section Nulls.
Variable out_root : Pathlib.Path.

Lemma nulls_rewrite_string (s : json) (st : log) (new : json) (st' : log) :
  rewrite_string out_root s st = Ok (new, st') →
  null_fields new `sublist_of` null_fields s.
Proof.
  unfold rewrite_string. destruct s; try (by intros [= <- _]).
  repeat case_match; try (by intros [= <- _]).
  destruct (url_to_local_path _ _) as [[lp h]|e]; [|done].
  by intros [= <- _].
Qed.

Lemma nulls_rewrite_item (it : json) (st : log) (it' : json) (st' : log) :
  rewrite_item out_root it st = Ok (it', st') →
  null_fields it' `sublist_of` null_fields it.
Proof.
  unfold rewrite_item. destruct it as [| | | | | |d]; try (by intros [= <- _]).
  destruct (dict_get "href" d) as [href|] eqn:E; [|by intros [= <- _]].
  destruct (rewrite_string out_root href st) as [[new st1]|e] eqn:E1; [|done].
  unbind.
  destruct (is_none new) eqn:Hn; intros [= <- _].
  - apply null_fields_dict_pop.
  - apply null_fields_dict_set; [done|].
    unfold dict_get_none, dict_get_default. rewrite E.
    by eapply nulls_rewrite_string.
Qed.

Lemma nulls_rewrite_items (items : list json) (st : log)
    (items' : list json) (st' : log) :
  rewrite_items out_root items st = Ok (items', st') →
  null_fields (JArr items') `sublist_of` null_fields (JArr items).
Proof.
  revert st items'. induction items as [|it items IH]; intros st items'.
  - by intros [= <- _].
  - cbn [rewrite_items].
    destruct (rewrite_item out_root it st) as [[it1 st1]|e] eqn:E1; [|done].
    unbind.
    destruct (rewrite_items out_root items st1) as [[items1 st2]|e] eqn:E2;
      [|done].
    unbind. intros [= <- <-].
    rewrite !null_fields_arr_cons. apply sublist_app.
    + by eapply nulls_rewrite_item.
    + by eapply IH.
Qed.

Lemma nulls_rewrite_known (key : string) (manifest : dict) (st : log)
    (m' : dict) (st' : log) :
  rewrite_known out_root key (manifest, st) = Ok (m', st') →
  null_fields (JObj m') `sublist_of` null_fields (JObj manifest).
Proof.
  unfold rewrite_known.
  destruct (dict_get key manifest) as [[| | | | |items|]|] eqn:E;
    try (by intros [= <- _]).
  destruct (rewrite_items out_root items st) as [[items' st1]|e] eqn:E1; [|done].
  unbind. intros [= <- _].
  apply null_fields_dict_set; [done|].
  unfold dict_get_none, dict_get_default. rewrite E.
  by eapply nulls_rewrite_items.
Qed.

Lemma nulls_rewrite_known_arrays (keys : list string) (manifest : dict)
    (st : log) (m' : dict) (st' : log) :
  rewrite_known_arrays out_root keys (manifest, st) = Ok (m', st') →
  null_fields (JObj m') `sublist_of` null_fields (JObj manifest).
Proof.
  revert manifest st. induction keys as [|key keys IH]; intros m st.
  - by intros [= <- _].
  - cbn [rewrite_known_arrays].
    destruct (rewrite_known out_root key (m, st)) as [[m1 st1]|e] eqn:E1; [|done].
    unbind. intros E2.
    etrans; [by eapply IH|by eapply nulls_rewrite_known].
Qed.

Lemma nulls_rewrite_resource (r : json) (st : log) (r' : json) (st' : log) :
  rewrite_resource out_root r st = Ok (Some r', st') →
  null_fields r' `sublist_of` null_fields r.
Proof.
  unfold rewrite_resource.
  destruct r as [| | | | | |d]; try (by intros [= <- _]).
  destruct (dict_get_none "href" d) as [| | | |h| |] eqn:E;
    try (by intros [= <- _]).
  destruct (is_blocked (JStr h)); [done|].
  destruct (rewrite_string out_root (JStr h) st) as [[new st1]|e] eqn:E1; [|done].
  unbind.
  destruct (is_none new) eqn:Hn; intros [= <- _].
  apply null_fields_dict_set; [done|]. rewrite E.
  by eapply nulls_rewrite_string.
Qed.

Lemma nulls_rewrite_resources (rs acc : list json) (st : log)
    (new_resources : list json) (st' : log) :
  rewrite_resources out_root rs acc st = Ok (new_resources, st') →
  null_fields (JArr new_resources) `sublist_of`
  null_fields (JArr acc) ++ null_fields (JArr rs).
Proof.
  revert acc st. induction rs as [|r rs IH]; intros acc st.
  - intros [= <- _]. by rewrite List.app_nil_r.
  - cbn [rewrite_resources].
    destruct (rewrite_resource out_root r st) as [[kept st1]|e] eqn:E1; [|done].
    unbind. intros E2. apply IH in E2.
    rewrite null_fields_arr_cons. etrans; [done|].
    destruct kept as [r'|].
    + rewrite null_fields_arr_app, <- List.app_assoc.
      apply sublist_app; [done|]. apply sublist_app; [|done].
      rewrite null_fields_arr_cons, List.app_nil_r.
      by eapply nulls_rewrite_resource.
    + apply sublist_app; [done|]. by apply sublist_inserts_l.
Qed.

Lemma nulls_rewrite_metadata (manifest : dict) (st : log) (m' : dict)
    (st' : log) :
  rewrite_metadata out_root (manifest, st) = Ok (m', st') →
  null_fields (JObj m') `sublist_of` null_fields (JObj manifest).
Proof.
  unfold rewrite_metadata.
  destruct (dict_get_none "metadata" manifest) as [| | | | | |md] eqn:Emd;
    try (by intros [= <- _]).
  destruct (dict_get_none "identifier" md) as [| | | |ident| |] eqn:Eid;
    try (by intros [= <- _]).
  destruct (rewrite_string out_root (JStr ident) st) as [[new st1]|e] eqn:E1;
    [|done].
  unbind. intros [= <- _].
  apply null_fields_dict_set; [done|]. rewrite Emd.
  destruct (is_none new) eqn:Hn.
  - apply null_fields_dict_pop.
  - apply null_fields_dict_set; [done|]. rewrite Eid.
    by eapply nulls_rewrite_string.
Qed.

Lemma nulls_replaced (v : json) :
  null_fields (replaced out_root v) `sublist_of` null_fields v.
Proof.
  induction v as [| b | n | m e | s | l IH | kvs IH] using json_induction;
    try done.
  - cbn [replaced]. induction IH as [|x l Hx _ IHl]; [done|].
    cbn [map]. rewrite null_fields_arr_cons.
    destruct (decide (is_none (item_replaced out_root (replaced out_root) x) = false))
      as [Hn|Hn].
    + rewrite filter_cons_True by done. rewrite null_fields_arr_cons.
      apply sublist_app; [|done].
      destruct x as [| | | |s| |]; try done.
      cbn [item_replaced]. by repeat case_match.
    + rewrite filter_cons_False by done. by apply sublist_inserts_l.
  - cbn [replaced]. induction IH as [|[k x] l Hx _ IHl]; [done|].
    cbn [flat_map]. rewrite null_fields_obj_cons, List.app_assoc.
    change (null_fields (JObj (?a ++ ?b)))
      with (flat_map (λ kv, (if is_none kv.2 then [kv.1] else []) ++
                            null_fields kv.2) (a ++ b)).
    rewrite flat_map_app. apply sublist_app; [|done]. cbn [snd] in Hx.
    unfold field_replaced. cbn [fst snd].
    destruct x as [| | | |s| |];
      try (cbn [flat_map fst snd is_none app]; rewrite List.app_nil_r;
           first [done|by apply Hx]).
    repeat case_match; try done; apply sublist_nil_l.
Qed.
End Nulls.

Section Staged.
Variable out_root : Pathlib.Path.

(** What [rewrite_manifest] returns is the deep pass of a well-formed
    intermediate manifest, which holds no [null] field the input did
    not. *)
Lemma rewrite_manifest_deep (manifest m' : dict)
    (c : list (string * string * string)) (r : list string) :
  wf (JObj manifest) →
  rewrite_manifest out_root manifest = Ok (m', c, r) →
  ∃ m3 st3, wf (JObj m3) ∧
    null_fields (JObj m3) `sublist_of` null_fields (JObj manifest) ∧
    JObj m' = replaced out_root (JObj m3) ∧
    c = changed (logged out_root (strings_of (JObj m3)) st3) ∧
    r = removed (logged out_root (strings_of (JObj m3)) st3).
Proof.
  intros Hwf. unfold rewrite_manifest.
  destruct (rewrite_known_arrays _ _ _) as [[m1 st1]|e] eqn:E1; [|done].
  unbind.
  pose proof (wf_rewrite_known_arrays _ _ _ _ _ _ Hwf E1) as H1.
  pose proof (nulls_rewrite_known_arrays _ _ _ _ _ _ E1) as N1.
  pose proof (wf_dict_get_default "resources" m1 (JArr []) H1 I) as Hres.
  destruct (iterate (dict_get_default "resources" (JArr []) m1)) as [rs|e] eqn:E;
    [|done].
  unbind.
  destruct (rewrite_resources out_root rs [] st1) as [[new st2]|e] eqn:E2;
    [|done].
  unbind.
  pose proof (wf_rewrite_resources _ _ _ _ _ _ (wf_iterate _ _ Hres E)
                (Forall_nil_2 _) E2) as H2.
  pose proof (nulls_rewrite_resources _ _ _ _ _ _ E2) as N2. cbn [app] in N2.
  destruct (rewrite_metadata out_root _) as [[m3 st3]|e] eqn:E3; [|done].
  unbind.
  assert (Hm3 : wf (JObj m3)).
  { eapply wf_rewrite_metadata; [|done]. apply wf_dict_set; [done|].
    by apply wf_arr. }
  assert (N3 : null_fields (JObj m3) `sublist_of` null_fields (JObj manifest)).
  { etrans; [by eapply nulls_rewrite_metadata|]. etrans; [|done].
    apply null_fields_dict_set; [done|]. etrans; [done|].
    unfold dict_get_none, dict_get_default in *.
    destruct (dict_get "resources" m1) as [v|]; [by apply null_fields_iterate|].
    by injection E as <-. }
  rewrite deep_replace_spec by done.
  destruct (mappable (JObj m3)); [|done].
  unbind.
  intros [= <- <- <-]. exists m3, st3. done.
Qed.
End Staged.

Lemma wfb_wf (v : json) : wfb v = true → wf v.
Proof.
  induction v as [| b | n | m e | s | l IH | kvs IH] using json_induction;
    try done.
  - cbn [wfb]. rewrite forallb_forall. intros H. apply wf_arr.
    rewrite Forall_forall in IH. apply Forall_forall.
    intros x Hx. apply IH; [done|]. by apply H, list_elem_of_In.
  - cbn [wfb]. rewrite andb_true_iff, bool_decide_eq_true, forallb_forall.
    intros [Hnd H]. apply wf_obj. split; [done|].
    rewrite Forall_forall in IH. apply Forall_forall.
    intros x Hx. apply IH; [done|]. by apply H, list_elem_of_In.
Qed.

(** ** No reference is left (C2) *)

Section NoUrl.
Variable out_root : Pathlib.Path.

Lemma href_not_http (u : string) : is_http (href_of out_root u) = false.
Proof.
  unfold href_of. rewrite url_to_local_path_unfold.
  by destruct (Urllib.urlparse u).
Qed.

Lemma replaced_no_http (v : json) :
  isinstance_str v = false → no_http_value (replaced out_root v).
Proof.
  unfold no_http_value.
  induction v as [| b | n | m e | s | l IH | kvs IH] using json_induction;
    intros Hns; try done; try (by constructor).
  - cbn [replaced strings_of]. apply Forall_flat_map, Forall_forall.
    intros x [_ Hx]%list_elem_of_filter.
    apply list_elem_of_fmap in Hx as (y & -> & Hy).
    rewrite Forall_forall in IH. specialize (IH y Hy).
    destruct y as [| | | |s| |]; try (by apply IH); try (by constructor).
    cbn [item_replaced]. destruct (is_http s) eqn:Hs.
    + destruct (is_blocked (JStr s)); [by constructor|].
      cbn [strings_of]. constructor; [apply href_not_http|constructor].
    + cbn [strings_of]. by repeat constructor.
  - cbn [replaced strings_of]. apply Forall_flat_map, Forall_forall.
    intros [k x] Hx. apply list_elem_of_In, in_flat_map in Hx as ([k' y] & Hy & Hx).
    apply list_elem_of_In in Hy.
    rewrite Forall_forall in IH. specialize (IH _ Hy). cbn [snd] in IH.
    unfold field_replaced in Hx. cbn [fst snd] in Hx.
    assert (Hother : isinstance_str y = false → x = replaced out_root y →
                     Forall (λ s, is_http s = false) (strings_of x)).
    { intros Hy' ->. by apply IH. }
    destruct y as [| | | |s| |];
      try (apply Hother; [done|]; by apply list_elem_of_In,
             list_elem_of_singleton in Hx as [= _ ->]).
    cbn [snd]. destruct (is_http s) eqn:Hs.
    + destruct (is_blocked (JStr s)); [done|].
      apply list_elem_of_In, list_elem_of_singleton in Hx as [= _ ->].
      cbn [strings_of]. constructor; [apply href_not_http|constructor].
    + apply list_elem_of_In, list_elem_of_singleton in Hx as [= _ ->].
      cbn [strings_of]. by repeat constructor.
Qed.

Lemma replaced_no_null_item (v : json) :
  no_null_item (replaced out_root v) = true.
Proof.
  induction v as [| b | n | m e | s | l IH | kvs IH] using json_induction;
    try done.
  - cbn [replaced no_null_item]. apply forallb_forall. intros x Hx.
    apply list_elem_of_In, list_elem_of_filter in Hx as [Hnn Hx].
    rewrite Hnn. cbn [negb andb].
    apply list_elem_of_fmap in Hx as (y & -> & Hy).
    rewrite Forall_forall in IH. specialize (IH y Hy).
    destruct y as [| | | |s| |]; try done.
    cbn [item_replaced]. by repeat case_match.
  - cbn [replaced no_null_item]. apply forallb_forall. intros [k x] Hx.
    apply in_flat_map in Hx as ([k' y] & Hy & Hx).
    apply list_elem_of_In in Hy.
    rewrite Forall_forall in IH. specialize (IH _ Hy). cbn [snd] in *.
    unfold field_replaced in Hx. cbn [fst snd] in Hx.
    destruct y as [| | | |s| |];
      try (by apply list_elem_of_In, list_elem_of_singleton in Hx as [= _ ->]).
    repeat case_match; try done;
      by apply list_elem_of_In, list_elem_of_singleton in Hx as [= _ ->].
Qed.

(** C2: once [rewrite_manifest] has returned, no string value of the
    manifest starts with [http://] or [https://], so no blocked reference
    is left in it, and none was replaced by a placeholder: no sequence
    holds a [null], and the fields whose value is [null] are fields the
    input had with that value. *)
Theorem C2_no_absolute_url_remains (manifest m' : dict)
    (c : list (string * string * string)) (r : list string) :
  wf (JObj manifest) →
  rewrite_manifest out_root manifest = Ok (m', c, r) →
  no_http_value (JObj m') ∧ no_null_item (JObj m') = true ∧
  null_fields (JObj m') `sublist_of` null_fields (JObj manifest).
Proof.
  intros Hwf Hrw.
  destruct (rewrite_manifest_deep out_root _ _ _ _ Hwf Hrw)
    as (m3 & st3 & Hwf3 & Hnull & -> & _).
  split; [by apply replaced_no_http|]. split; [apply replaced_no_null_item|].
  etrans; [apply nulls_replaced|done].
Qed.
End NoUrl.

Lemma C2_witness :
  let manifest : dict :=
    [("links", JArr [JObj [("href", JStr "https://good.com/a?x=1")]]);
     ("metadata", JObj [("identifier", JStr "https://connect.facebook.net/id");
                        ("title", JNull)]);
     ("resources",
      JArr [JObj [("href", JStr "https://googletagmanager.com/gtm.js")]])] in
  let m' : dict :=
    [("links", JArr [JObj [("href", JStr "/good.com/a__q_7caf6056.html")]]);
     ("metadata", JObj [("title", JNull)]);
     ("resources", JArr [])] in
  no_http_value (JObj m') ∧ no_null_item (JObj m') = true ∧
  null_fields (JObj m') `sublist_of` null_fields (JObj manifest).
Proof.
  apply (C2_no_absolute_url_remains (Pathlib.parse "./local_www") _ _
    [("https://good.com/a?x=1", "/good.com/a__q_7caf6056.html",
      "local_www/good.com/a__q_7caf6056.html")]
    ["https://googletagmanager.com/gtm.js"; "https://connect.facebook.net/id"]).
  - apply wfb_wf. reflexivity.
  - vm_compute. reflexivity.
Defined.

(** ** Discovery, as a function of the document *)

Lemma add_if_http_str (u : string) (urls : gset string) :
  add_if_http (JStr u) urls = if in_scope u then {[u]} ∪ urls else urls.
Proof. reflexivity. Qed.

Lemma deep_spec (v : json) (urls : gset string) :
  deep v urls = urls ∪ list_to_set (in_scope_urls v).
Proof.
  revert urls. unfold in_scope_urls.
  induction v as [| b | n | m e | s | l IH | kvs IH] using json_induction;
    intros urls; try (cbn [deep strings_of]; rewrite filter_nil; set_solver).
  - cbn [deep strings_of]. rewrite add_if_http_str. unfold in_scope.
    destruct (is_http s) eqn:Hs; cbn [andb].
    + destruct (negb (is_blocked (JStr s))) eqn:Hb.
      * rewrite filter_cons_True by (by rewrite Hs, Hb). set_solver.
      * rewrite filter_cons_False by (by rewrite Hs, Hb). set_solver.
    + rewrite filter_cons_False by (by rewrite Hs). set_solver.
  - cbn [deep strings_of]. revert urls.
    induction IH as [|x l Hx _ IHl]; intros urls.
    + cbn [flat_map]. rewrite filter_nil. set_solver.
    + rewrite IHl, Hx. cbn [flat_map]. rewrite filter_app, list_to_set_app_L.
      set_solver.
  - cbn [deep strings_of]. revert urls.
    induction IH as [|[k x] l Hx _ IHl]; intros urls.
    + cbn [flat_map]. rewrite filter_nil. set_solver.
    + rewrite IHl. cbn [snd] in Hx. rewrite Hx. cbn [flat_map snd].
      rewrite filter_app, list_to_set_app_L. set_solver.
Qed.

(** An element of a recognised list adds nothing the deep pass will not. *)
Lemma collect_item_sub (item : json) (l : list json) (urls : gset string) :
  item ∈ l →
  urls ⊆ collect_item item urls ∧
  collect_item item urls ⊆ urls ∪ list_to_set (in_scope_urls (JArr l)).
Proof.
  intros Hitem. destruct item as [| | | |u| |d]; cbn [collect_item];
    try set_solver.
  - rewrite add_if_http_str. destruct (in_scope u) eqn:E; [|set_solver].
    assert (u ∈ in_scope_urls (JArr l)).
    { apply elem_of_in_scope_urls. split; [done|].
      eapply strings_of_item; [done|]. cbn [strings_of]. by left. }
    set_solver.
  - unfold dict_get_none, dict_get_default.
    destruct (dict_get "href" d) as [[| | | |u| |]|] eqn:Hd;
      cbn [add_if_http]; try set_solver.
    fold (in_scope u). destruct (in_scope u) eqn:E; [|set_solver].
    assert (u ∈ in_scope_urls (JArr l)).
    { apply elem_of_in_scope_urls. split; [done|].
      eapply strings_of_item; [done|].
      eapply strings_of_dict_get; [done|]. cbn [strings_of]. by left. }
    set_solver.
Qed.

Lemma collect_items_sub (items l : list json) (urls : gset string) :
  items ⊆ l →
  urls ⊆ fold_left (λ urls item, collect_item item urls) items urls ∧
  fold_left (λ urls item, collect_item item urls) items urls ⊆
    urls ∪ list_to_set (in_scope_urls (JArr l)).
Proof.
  revert urls. induction items as [|item items IH]; intros urls Hsub.
  - cbn [fold_left]. set_solver.
  - cbn [fold_left].
    destruct (collect_item_sub item l urls) as [H1 H2]; [set_solver|].
    destruct (IH (collect_item item urls)) as [H3 H4]; [set_solver|].
    set_solver.
Qed.

Lemma collect_key_sub (manifest : dict) (key : string) (urls : gset string) :
  list_or_absent key manifest →
  ∃ urls', collect_key manifest key urls = Ok urls' ∧ urls ⊆ urls' ∧
    urls' ⊆ urls ∪ list_to_set (in_scope_urls (JObj manifest)).
Proof.
  unfold collect_key, dict_get_default. intros [->|[l Hl]].
  - exists urls. cbn. set_solver.
  - rewrite Hl.
    assert (Hsub : list_to_set (in_scope_urls (JArr l)) ⊆@{gset string}
                   list_to_set (in_scope_urls (JObj manifest))).
    { intros u. rewrite !elem_of_list_to_set, !elem_of_in_scope_urls.
      intros [? ?]. split; [done|]. by eapply strings_of_dict_get. }
    destruct (collect_items_sub l l urls) as [H1 H2]; [done|].
    destruct l as [|x l'].
    + exists urls. cbn. set_solver.
    + cbn [truthy iterate mbind res_mbind res_bind]. eexists. split; [done|]. set_solver.
Qed.

Lemma collect_keys_sub (manifest : dict) (keys : list string)
    (urls : gset string) :
  Forall (λ key, list_or_absent key manifest) keys →
  ∃ urls', collect_keys manifest keys urls = Ok urls' ∧ urls ⊆ urls' ∧
    urls' ⊆ urls ∪ list_to_set (in_scope_urls (JObj manifest)).
Proof.
  revert urls. induction keys as [|key keys IH]; intros urls Hkeys.
  - exists urls. cbn. set_solver.
  - apply Forall_cons in Hkeys as [Hkey Hkeys]. cbn [collect_keys].
    destruct (collect_key_sub manifest key urls Hkey) as (u1 & -> & ? & ?).
    unbind.
    destruct (IH u1 Hkeys) as (u2 & -> & ? & ?).
    exists u2. set_solver.
Qed.

(** On a manifest whose recognised fields are lists, discovery returns the
    references in scope among the string values, and nothing else. *)
Lemma collect_urls_spec (manifest : dict) :
  recognised_lists manifest →
  collect_urls_from_manifest manifest =
  Ok (list_to_set (in_scope_urls (JObj manifest))).
Proof.
  intros Hrec. unfold collect_urls_from_manifest.
  destruct (collect_keys_sub manifest _ ∅ Hrec) as (u1 & -> & _ & H1).
  unbind. f_equal. rewrite deep_spec.
  assert (Hmeta : ∀ md, dict_get "metadata" manifest = Some (JObj md) →
            add_if_http (dict_get_none "identifier" md) u1 ⊆
            u1 ∪ list_to_set (in_scope_urls (JObj manifest))).
  { intros md Hmd. unfold dict_get_none, dict_get_default.
    destruct (dict_get "identifier" md) as [[| | | |u| |]|] eqn:Hid;
      cbn [add_if_http]; try set_solver.
    fold (in_scope u). destruct (in_scope u) eqn:E; [|set_solver].
    assert (u ∈ in_scope_urls (JObj manifest)).
    { apply elem_of_in_scope_urls. split; [done|].
      eapply strings_of_dict_get; [done|].
      eapply strings_of_dict_get; [done|]. cbn [strings_of]. by left. }
    set_solver. }
  unfold dict_get_default.
  destruct (dict_get "metadata" manifest) as [[| | | | | |md]|] eqn:Hmd;
    set_solver.
Qed.

(** ** Accounting for the references the structural pass rewrites *)

Lemma acc_refl (x : json) : accounted x x [] [].
Proof. by split. Qed.

Lemma acc_trans (x y z : json) (cs rs cs' rs' : list string) :
  accounted x y cs rs → accounted y z cs' rs' →
  accounted x z (cs ++ cs') (rs ++ rs').
Proof.
  intros [H1 H2 H3 H4 H5] [H1' H2' H3' H4' H5']. split.
  - rewrite H1, H1'. solve_Permutation.
  - rewrite H2, H2'. solve_Permutation.
  - by etrans.
  - by rewrite H4'.
  - intros k. by rewrite H5'.
Qed.

(** Dealing with the value of one field deals with the object. *)
Lemma acc_field (k : string) (d : dict) (v v' : json) (cs rs : list string) :
  dict_get k d = Some v → accounted v v' cs rs →
  accounted (JObj d) (JObj (dict_set k v' d)) cs rs.
Proof.
  intros (pre & post & -> & Hk)%dict_get_Some [H1 H2 H3 H4 H5].
  rewrite dict_set_app by done. split.
  - rewrite !in_scope_urls_obj_app, !in_scope_urls_obj_cons, H1.
    solve_Permutation.
  - rewrite !blocked_urls_obj_app, !blocked_urls_obj_cons, H2.
    solve_Permutation.
  - rewrite !keys_of_obj_app, !keys_of_obj_cons.
    apply sublist_app; [done|]. apply sublist_skip. by apply sublist_app.
  - rewrite !keys_of_obj_app, !keys_of_obj_cons, !filter_app.
    f_equal. rewrite !(filter_cons _ k), !filter_app, H4. done.
  - intros k0. cbn [field_kept]. rewrite !(filter_cons _ k0). f_equal.
    rewrite !kept_keys_obj_app, !kept_keys_obj_cons, !filter_app.
    by rewrite H5.
Qed.

(** Removing a field accounts for the references of its value. *)
Lemma acc_pop (k : string) (d : dict) (v : json) :
  dict_get k d = Some v → is_http k = false → keys_of v = [] →
  accounted (JObj d) (JObj (dict_pop k d)) (in_scope_urls v) (blocked_urls v).
Proof.
  intros (pre & post & -> & Hk)%dict_get_Some Hhttp Hv.
  rewrite dict_pop_app by done. split.
  - rewrite !in_scope_urls_obj_app, !in_scope_urls_obj_cons.
    solve_Permutation.
  - rewrite !blocked_urls_obj_app, !blocked_urls_obj_cons.
    solve_Permutation.
  - rewrite !keys_of_obj_app, !keys_of_obj_cons.
    apply sublist_app; [done|]. apply sublist_cons. by apply sublist_inserts_l.
  - rewrite !keys_of_obj_app, !keys_of_obj_cons, Hv, !filter_app.
    cbn [app]. rewrite filter_cons_False by (by rewrite Hhttp). done.
  - intros k0. cbn [field_kept]. rewrite !(filter_cons _ k0). f_equal.
    rewrite !kept_keys_obj_app, !kept_keys_obj_cons, !filter_app.
    rewrite (field_kept_below k v Hhttp), (kept_keys_nil v Hv). done.
Qed.

Lemma acc_cons (x x' : json) (l l' : list json) (cs rs cs' rs' : list string) :
  accounted x x' cs rs → accounted (JArr l) (JArr l') cs' rs' →
  accounted (JArr (x :: l)) (JArr (x' :: l')) (cs ++ cs') (rs ++ rs').
Proof.
  intros [H1 H2 H3 H4 H5] [H1' H2' H3' H4' H5']. split.
  - rewrite !in_scope_urls_arr_cons, H1, H1'. solve_Permutation.
  - rewrite !blocked_urls_arr_cons, H2, H2'. solve_Permutation.
  - rewrite !keys_of_arr_cons. by apply sublist_app.
  - rewrite !keys_of_arr_cons, !filter_app. by rewrite H4, H4'.
  - intros k0. cbn [field_kept]. rewrite !(filter_cons _ k0). f_equal.
    rewrite !kept_keys_arr_cons, !filter_app.
    specialize (H5 EmptyString). specialize (H5' EmptyString).
    rewrite !field_kept_below in H5, H5' by done. by rewrite H5, H5'.
Qed.

Lemma dict_set_same (k : string) (d : dict) (v : json) :
  dict_get k d = Some v → dict_set k v d = d.
Proof.
  intros (pre & post & -> & Hk)%dict_get_Some. by rewrite dict_set_app.
Qed.

Lemma acc_mappable (x x' : json) (cs rs : list string) :
  accounted x x' cs rs → mappable x = true → mappable x' = true.
Proof.
  intros [H _ _ _ _]. rewrite !mappable_spec. intros Hm u Hu.
  apply Hm. rewrite H. apply elem_of_app. by right.
Qed.

Lemma acc_not_mappable (x x' : json) (cs rs : list string) :
  accounted x x' cs rs → mappable x' = false → mappable x = false.
Proof.
  intros Ha Hx'. destruct (mappable x) eqn:E; [|done].
  by rewrite (acc_mappable _ _ _ _ Ha E) in Hx'.
Qed.

Lemma mappable_field (k : string) (d : dict) (v : json) :
  dict_get k d = Some v → mappable (JObj d) = true → mappable v = true.
Proof.
  rewrite !mappable_spec. intros Hd Hm u [? ?]%elem_of_in_scope_urls.
  apply Hm, elem_of_in_scope_urls. split; [done|].
  by eapply strings_of_dict_get.
Qed.

Lemma not_mappable_field (k : string) (d : dict) (v : json) :
  dict_get k d = Some v → mappable v = false → mappable (JObj d) = false.
Proof.
  intros Hd Hv. destruct (mappable (JObj d)) eqn:E; [|done].
  by rewrite (mappable_field _ _ _ Hd E) in Hv.
Qed.

Section Account.
Variable out_root : Pathlib.Path.

Lemma logs_refl (st : log) : logs out_root st st [] [].
Proof. split; simpl; by rewrite List.app_nil_r. Qed.

Lemma logs_trans (st1 st2 st3 : log) (cs rs cs' rs' : list string) :
  logs out_root st1 st2 cs rs → logs out_root st2 st3 cs' rs' →
  logs out_root st1 st3 (cs ++ cs') (rs ++ rs').
Proof.
  intros [H1 H2] [H1' H2']. split.
  - by rewrite H1', H1, map_app, List.app_assoc.
  - by rewrite H2', H2, List.app_assoc.
Qed.

Lemma in_scope_href (u : string) : in_scope (href_of out_root u) = false.
Proof. unfold in_scope. by rewrite href_not_http. Qed.

Lemma blocked_url_href (u : string) : blocked_url (href_of out_root u) = false.
Proof. unfold blocked_url. by rewrite href_not_http. Qed.

Lemma in_scope_urls_str (u : string) :
  in_scope_urls (JStr u) = if in_scope u then [u] else [].
Proof.
  unfold in_scope_urls. cbn [strings_of]. destruct (in_scope u) eqn:E.
  - by rewrite filter_cons_True.
  - rewrite filter_cons_False; [done|by rewrite E].
Qed.

Lemma blocked_urls_str (u : string) :
  blocked_urls (JStr u) = if blocked_url u then [u] else [].
Proof.
  unfold blocked_urls. cbn [strings_of]. destruct (blocked_url u) eqn:E.
  - by rewrite filter_cons_True.
  - rewrite filter_cons_False; [done|by rewrite E].
Qed.

Lemma logs_logged (l : list string) (st : log) :
  logs out_root st (logged out_root l st)
       (filter (λ u, in_scope u = true) l)
       (filter (λ u, blocked_url u = true) l).
Proof. by split. Qed.

(** What is logged for one reference. *)
Lemma logs_blocked (u : string) (st : log) :
  is_http u = true → is_blocked (JStr u) = true →
  logs out_root st (logged out_root [u] st) [] [u].
Proof.
  intros Hu Hb. pose proof (logs_logged [u] st) as Hlog.
  rewrite filter_cons_False, filter_cons_True, !filter_nil in Hlog;
    [done| |]; unfold in_scope, blocked_url; by rewrite Hu, Hb.
Qed.

Lemma logs_in_scope (u : string) (st : log) :
  is_http u = true → is_blocked (JStr u) = false →
  logs out_root st (logged out_root [u] st) [u] [].
Proof.
  intros Hu Hb. pose proof (logs_logged [u] st) as Hlog.
  rewrite filter_cons_True, filter_cons_False, !filter_nil in Hlog;
    [done| |]; unfold in_scope, blocked_url; by rewrite Hu, Hb.
Qed.

(** Replacing a reference in scope by its href accounts for it. *)
Lemma acc_href (u : string) :
  in_scope u = true →
  accounted (JStr u) (JStr (href_of out_root u)) [u] [].
Proof.
  intros Hu. split.
  - by rewrite !in_scope_urls_str, Hu, in_scope_href.
  - rewrite !blocked_urls_str, blocked_url_href.
    unfold in_scope in Hu. unfold blocked_url.
    apply andb_true_iff in Hu as [-> Hb]. apply negb_true_iff in Hb.
    by rewrite Hb.
  - done.
  - done.
  - intros k. cbn [field_kept]. rewrite href_not_http.
    unfold in_scope in Hu. apply andb_true_iff in Hu as [-> Hb].
    apply negb_true_iff in Hb. by rewrite Hb.
Qed.

(** An element of a known array: its href is dealt with, or [urlparse]
    refuses it. *)
Lemma rewrite_item_acc (it : json) (st : log) :
  match rewrite_item out_root it st with
  | Ok (it', st') =>
      ∃ cs rs, accounted it it' cs rs ∧ logs out_root st st' cs rs
  | Raise e => e = ValueError ∧ mappable it = false
  end.
Proof.
  assert (Hsame : ∃ cs rs, accounted it it cs rs ∧ logs out_root st st cs rs)
    by (exists [], []; split; [apply acc_refl|apply logs_refl]).
  unfold rewrite_item. destruct it as [| | | | | |d]; try done.
  destruct (dict_get "href" d) as [href|] eqn:Hd; [|done].
  destruct href as [| b | n | m e | u | l | kvs];
    try (cbn [rewrite_string is_none mbind res_mbind res_bind];
         by rewrite (dict_set_same _ _ _ Hd)).
  - (* [href] is [None]: the field goes *)
    cbn [rewrite_string is_none mbind res_mbind res_bind].
    exists [], []. split; [|apply logs_refl].
    by apply (acc_pop _ _ _ Hd).
  - destruct (is_http u) eqn:Hu.
    + rewrite rewrite_string_http by done.
      destruct (mappable (JStr u)) eqn:Hm; unbind;
        [|split; [done|by eapply not_mappable_field]].
      destruct (is_blocked (JStr u)) eqn:Hb; cbn [is_none].
      * exists [], [u]. split; [|by apply logs_blocked].
        pose proof (acc_pop _ _ _ Hd eq_refl eq_refl) as H.
        rewrite in_scope_urls_str, blocked_urls_str in H.
        unfold in_scope, blocked_url in H. by rewrite Hu, Hb in H.
      * exists [u], []. split; [|by apply logs_in_scope].
        apply (acc_field _ _ _ _ _ _ Hd), acc_href.
        unfold in_scope. by rewrite Hu, Hb.
    + unfold rewrite_string. rewrite Hu.
      cbn [is_none mbind res_mbind res_bind].
      by rewrite (dict_set_same _ _ _ Hd).
Qed.

Lemma rewrite_items_acc (items : list json) (st : log) :
  match rewrite_items out_root items st with
  | Ok (items', st') =>
      ∃ cs rs, accounted (JArr items) (JArr items') cs rs ∧
               logs out_root st st' cs rs
  | Raise e => e = ValueError ∧ mappable (JArr items) = false
  end.
Proof.
  revert st. induction items as [|it items IH]; intros st.
  - exists [], []. split; [apply acc_refl|apply logs_refl].
  - cbn [rewrite_items]. rewrite mappable_arr_cons.
    pose proof (rewrite_item_acc it st) as H1.
    destruct (rewrite_item out_root it st) as [[it' st1]|e];
      unbind;
      [|destruct H1 as [-> ->]; done].
    destruct H1 as (cs1 & rs1 & Ha1 & Hl1).
    pose proof (IH st1) as H2.
    destruct (rewrite_items out_root items st1) as [[items' st2]|e];
      unbind;
      [|destruct H2 as [-> ->]; by rewrite andb_false_r].
    destruct H2 as (cs2 & rs2 & Ha2 & Hl2).
    exists (cs1 ++ cs2), (rs1 ++ rs2). split.
    + by apply acc_cons.
    + by eapply logs_trans.
Qed.

Lemma rewrite_known_acc (key : string) (manifest : dict) (st : log) :
  match rewrite_known out_root key (manifest, st) with
  | Ok (m', st') =>
      ∃ cs rs, accounted (JObj manifest) (JObj m') cs rs ∧
               logs out_root st st' cs rs
  | Raise e => e = ValueError ∧ mappable (JObj manifest) = false
  end.
Proof.
  assert (Hsame : ∃ cs rs, accounted (JObj manifest) (JObj manifest) cs rs ∧
                           logs out_root st st cs rs)
    by (exists [], []; split; [apply acc_refl|apply logs_refl]).
  unfold rewrite_known.
  destruct (dict_get key manifest) as [[| | | | |items|]|] eqn:Hd; try done.
  pose proof (rewrite_items_acc items st) as H.
  destruct (rewrite_items out_root items st) as [[items' st']|e];
    unbind.
  - destruct H as (cs & rs & Ha & Hl).
    exists cs, rs. split; [|done]. by eapply acc_field.
  - destruct H as [-> H]. split; [done|]. by eapply not_mappable_field.
Qed.
End Account.

Lemma dict_get_set_eq (k : string) (v : json) (d : dict) :
  dict_get k (dict_set k v d) = Some v.
Proof.
  induction d as [|[k' v'] d IH]; cbn [dict_set dict_get].
  - by rewrite (proj2 (eqb_true k k)).
  - destruct (Str.eqb k' k) eqn:E; cbn [dict_get]; by rewrite E.
Qed.

Lemma dict_get_set_ne (k k' : string) (v : json) (d : dict) :
  k ≠ k' → dict_get k' (dict_set k v d) = dict_get k' d.
Proof.
  intros Hne. induction d as [|[k0 v0] d IH]; cbn [dict_set dict_get].
  - by rewrite (proj2 (eqb_false k k')).
  - destruct (Str.eqb k0 k) eqn:E; cbn [dict_get].
    + apply eqb_true in E as ->. by rewrite (proj2 (eqb_false k k')).
    + by rewrite IH.
Qed.

Lemma dict_set_set (k : string) (v w : json) (d : dict) :
  dict_set k v (dict_set k w d) = dict_set k v d.
Proof.
  induction d as [|[k0 v0] d IH]; cbn [dict_set].
  - by rewrite (proj2 (eqb_true k k)).
  - destruct (Str.eqb k0 k) eqn:E; cbn [dict_set]; rewrite E; [done|].
    by rewrite IH.
Qed.

Lemma dict_set_comm (k k' : string) (v w u : json) (d : dict) :
  k ≠ k' → dict_get k d = Some u →
  dict_set k v (dict_set k' w d) = dict_set k' w (dict_set k v d).
Proof.
  intros Hne. induction d as [|[k0 v0] d IH]; cbn [dict_set dict_get]; [done|].
  destruct (Str.eqb k0 k) eqn:E.
  - apply eqb_true in E as ->. intros _.
    rewrite (proj2 (eqb_false k k')) by done. cbn [dict_set].
    rewrite (proj2 (eqb_true k k)) by done.
    by rewrite (proj2 (eqb_false k k')).
  - intros Hd. destruct (Str.eqb k0 k') eqn:E'; cbn [dict_set]; rewrite E, ?E'.
    + done.
    + by rewrite IH.
Qed.

Section Structural.
Variable out_root : Pathlib.Path.

Lemma rewrite_known_get_ne (key k' : string) (manifest : dict) (st : log)
    (m' : dict) (st' : log) :
  key ≠ k' → rewrite_known out_root key (manifest, st) = Ok (m', st') →
  dict_get k' m' = dict_get k' manifest.
Proof.
  intros Hne. unfold rewrite_known.
  destruct (dict_get key manifest) as [[| | | | |items|]|];
    try (by intros [= <- _]).
  destruct (rewrite_items out_root items st) as [[items' st1]|e]; [|done].
  unbind. intros [= <- _].
  by apply dict_get_set_ne.
Qed.

(** The passes over the known arrays do not depend on another field. *)
Lemma rewrite_known_set_comm (key k' : string) (w : json) (manifest : dict)
    (st : log) :
  key ≠ k' →
  rewrite_known out_root key (dict_set k' w manifest, st) =
  '(m, st') ← rewrite_known out_root key (manifest, st);
  Ok (dict_set k' w m, st').
Proof.
  intros Hne. unfold rewrite_known.
  rewrite dict_get_set_ne by done.
  destruct (dict_get key manifest) as [[| | | | |items|]|] eqn:Hd; try done.
  destruct (rewrite_items out_root items st) as [[items' st']|e]; [|done].
  unbind. do 2 f_equal. by eapply dict_set_comm.
Qed.

Lemma rewrite_known_arrays_acc (keys : list string) (manifest : dict)
    (st : log) :
  match rewrite_known_arrays out_root keys (manifest, st) with
  | Ok (m', st') =>
      ∃ cs rs, accounted (JObj manifest) (JObj m') cs rs ∧
               logs out_root st st' cs rs
  | Raise e => e = ValueError ∧ mappable (JObj manifest) = false
  end.
Proof.
  revert manifest st. induction keys as [|key keys IH]; intros m st.
  - exists [], []. split; [apply acc_refl|apply logs_refl].
  - cbn [rewrite_known_arrays].
    pose proof (rewrite_known_acc out_root key m st) as H1.
    destruct (rewrite_known out_root key (m, st)) as [[m1 st1]|e];
      unbind; [|done].
    destruct H1 as (cs1 & rs1 & Ha1 & Hl1).
    pose proof (IH m1 st1) as H2.
    destruct (rewrite_known_arrays out_root keys (m1, st1)) as [[m2 st2]|e].
    + destruct H2 as (cs2 & rs2 & Ha2 & Hl2).
      exists (cs1 ++ cs2), (rs1 ++ rs2). split.
      * by eapply acc_trans.
      * by eapply logs_trans.
    + destruct H2 as [-> H2]. split; [done|]. by eapply acc_not_mappable.
Qed.

Lemma rewrite_known_arrays_get_ne (keys : list string) (k' : string)
    (manifest : dict) (st : log) (m' : dict) (st' : log) :
  k' ∉ keys →
  rewrite_known_arrays out_root keys (manifest, st) = Ok (m', st') →
  dict_get k' m' = dict_get k' manifest.
Proof.
  revert manifest st. induction keys as [|key keys IH]; intros m st Hk.
  - by intros [= <- _].
  - apply not_elem_of_cons in Hk as [Hne Hk]. cbn [rewrite_known_arrays].
    destruct (rewrite_known out_root key (m, st)) as [[m1 st1]|e] eqn:E1;
      [|done].
    unbind. intros H.
    rewrite (IH _ _ Hk H).
    by eapply rewrite_known_get_ne.
Qed.

Lemma rewrite_known_arrays_set_comm (keys : list string) (k' : string)
    (w : json) (manifest : dict) (st : log) :
  k' ∉ keys →
  rewrite_known_arrays out_root keys (dict_set k' w manifest, st) =
  '(m, st') ← rewrite_known_arrays out_root keys (manifest, st);
  Ok (dict_set k' w m, st').
Proof.
  revert manifest st. induction keys as [|key keys IH]; intros m st Hk; [done|].
  apply not_elem_of_cons in Hk as [Hne Hk]. cbn [rewrite_known_arrays].
  rewrite rewrite_known_set_comm by done.
  destruct (rewrite_known out_root key (m, st)) as [[m1 st1]|e]; [|done].
  unbind. by apply IH.
Qed.

(** A [resources] element is either dropped, its href logged as removed,
    or kept, its href dealt with, unless [urlparse] refuses it. *)
Lemma rewrite_resource_acc (r : json) (st : log) :
  match rewrite_resource out_root r st with
  | Ok (kept, st') =>
      (dropped r = true ∧ kept = None ∧
       logs out_root st st' [] (dropped_href r)) ∨
      (dropped r = false ∧ dropped_href r = [] ∧
       ∃ r' cs, kept = Some r' ∧ accounted r r' cs [] ∧
                logs out_root st st' cs [])
  | Raise e => e = ValueError ∧ dropped r = false ∧ mappable r = false
  end.
Proof.
  assert (Hkeep : ∃ r' cs, Some r = Some r' ∧ accounted r r' cs [] ∧
                            logs out_root st st cs []).
  { exists r, []. split; [done|]. split; [apply acc_refl|apply logs_refl]. }
  unfold rewrite_resource, dropped, dropped_href.
  destruct r as [| | | | | |d]; try (right; by split_and!).
  unfold dict_get_none, dict_get_default.
  destruct (dict_get "href" d) as [href|] eqn:Hd; [|right; by split_and!].
  destruct href as [| b | n | m e | h | l | kvs]; try (right; by split_and!).
  destruct (is_blocked (JStr h)) eqn:Hb.
  - left. split_and!; [done..|]. split; cbn; [by rewrite List.app_nil_r|done].
  - destruct (is_http h) eqn:Hh.
    + rewrite rewrite_string_http by done. rewrite Hb.
      destruct (mappable (JStr h)) eqn:Hm; unbind.
      * cbn [is_none]. right. split_and!; [done..|].
        exists (JObj (dict_set "href" (JStr (href_of out_root h)) d)), [h].
        split; [done|]. split; [|by apply logs_in_scope].
        apply (acc_field _ _ _ _ _ _ Hd), acc_href.
        unfold in_scope. by rewrite Hh, Hb.
      * split_and!; [done..|]. by eapply not_mappable_field.
    + unfold rewrite_string. rewrite Hh.
      cbn [is_none mbind res_mbind res_bind].
      right. split_and!; [done..|].
      rewrite (dict_set_same _ _ _ Hd). exists (JObj d), [].
      split; [done|]. split; [apply acc_refl|apply logs_refl].
Qed.

Lemma rewrite_resources_acc (rs acc : list json) (st : log) :
  match rewrite_resources out_root rs acc st with
  | Ok (all, st') =>
      ∃ new cs, all = acc ++ new ∧
        accounted (JArr (filter (λ r, dropped r = false) rs)) (JArr new) cs [] ∧
        logs out_root st st' cs (flat_map dropped_href rs)
  | Raise e =>
      e = ValueError ∧
      mappable (JArr (filter (λ r, dropped r = false) rs)) = false
  end.
Proof.
  revert acc st. induction rs as [|r rs IH]; intros acc st.
  - exists [], []. cbn. rewrite List.app_nil_r.
    split; [done|]. split; [apply acc_refl|apply logs_refl].
  - cbn [rewrite_resources flat_map].
    pose proof (rewrite_resource_acc r st) as H1.
    destruct (rewrite_resource out_root r st) as [[kept st1]|e];
      unbind.
    + destruct H1
        as [(Hdrop & -> & Hlog)|(Hkeep & Hhref & r' & cs & -> & Hacc & Hlog)].
      * rewrite filter_cons_False by (by rewrite Hdrop).
        pose proof (IH acc st1) as H2.
        destruct (rewrite_resources out_root rs acc st1) as [[all st2]|e];
          [|done].
        destruct H2 as (new & cs & Hnew & Hacc & Hlog2).
        exists new, cs. split; [done|]. split; [done|].
        by apply (logs_trans _ _ _ _ [] _ cs _ Hlog Hlog2).
      * rewrite filter_cons_True by done.
        pose proof (IH (acc ++ [r']) st1) as H2.
        destruct (rewrite_resources out_root rs (acc ++ [r']) st1)
          as [[all st2]|e].
        -- destruct H2 as (new & cs2 & Hnew & Hacc2 & Hlog2).
           exists (r' :: new), (cs ++ cs2). split.
           ++ rewrite Hnew. by rewrite <- List.app_assoc.
           ++ split.
              ** by apply (acc_cons _ _ _ _ cs [] cs2 []).
              ** rewrite Hhref.
                 by apply (logs_trans _ _ _ _ cs [] cs2 _ Hlog Hlog2).
        -- destruct H2 as [-> H2]. split; [done|].
           rewrite mappable_arr_cons, H2. apply andb_false_r.
    + destruct H1 as (-> & Hkeep & Hm). split; [done|].
      rewrite filter_cons_True by done.
      by rewrite mappable_arr_cons, Hm.
Qed.

Lemma rewrite_metadata_acc (manifest : dict) (st : log) :
  match rewrite_metadata out_root (manifest, st) with
  | Ok (m', st') =>
      ∃ cs rs, accounted (JObj manifest) (JObj m') cs rs ∧
               logs out_root st st' cs rs
  | Raise e => e = ValueError ∧ mappable (JObj manifest) = false
  end.
Proof.
  assert (Hsame : ∃ cs rs, accounted (JObj manifest) (JObj manifest) cs rs ∧
                           logs out_root st st cs rs)
    by (exists [], []; split; [apply acc_refl|apply logs_refl]).
  unfold rewrite_metadata, dict_get_none, dict_get_default.
  destruct (dict_get "metadata" manifest) as [[| | | | | |md]|] eqn:Hmd;
    try done.
  destruct (dict_get "identifier" md) as [[| | | |u| |]|] eqn:Hid;
    try done.
  destruct (is_http u) eqn:Hu.
  - rewrite rewrite_string_http by done.
    destruct (mappable (JStr u)) eqn:Hm; unbind.
    + destruct (is_blocked (JStr u)) eqn:Hb; cbn [is_none].
      * exists [], [u]. split; [|by apply logs_blocked].
        apply (acc_field _ _ _ _ _ _ Hmd).
        pose proof (acc_pop _ _ _ Hid eq_refl eq_refl) as H.
        rewrite in_scope_urls_str, blocked_urls_str in H.
        unfold in_scope, blocked_url in H. by rewrite Hu, Hb in H.
      * exists [u], []. split; [|by apply logs_in_scope].
        apply (acc_field _ _ _ _ _ _ Hmd), (acc_field _ _ _ _ _ _ Hid), acc_href.
        unfold in_scope. by rewrite Hu, Hb.
    + split; [done|]. eapply not_mappable_field; [done|].
      by eapply not_mappable_field.
  - unfold rewrite_string. rewrite Hu. cbn [is_none mbind res_mbind res_bind].
    by rewrite (dict_set_same _ _ _ Hid), (dict_set_same _ _ _ Hmd).
Qed.
End Structural.

(** ** The rewrite, as a function of the manifest *)

Section Whole.
Variable out_root : Pathlib.Path.

Lemma original_entry (u : string) : original (entry out_root u) = u.
Proof.
  unfold original, entry.
  by destruct (url_to_local_path u out_root) as [[lp h]|e].
Qed.

Lemma map_orig_entry (l : list string) :
  map original (map (entry out_root) l) = l.
Proof.
  induction l as [|u l IH]; [done|]. cbn [map].
  by rewrite original_entry, IH.
Qed.

Lemma resources_default (manifest : dict) :
  list_or_absent "resources" manifest →
  dict_get_default "resources" (JArr []) manifest = JArr (resources_of manifest).
Proof.
  unfold dict_get_default, resources_of. by intros [->|[l ->]].
Qed.

(** On a well-formed manifest whose [resources] is a list or absent, the
    rewrite raises only where [urlparse] refuses a reference in scope of
    the pruned manifest; what it returns is the deep pass of a manifest [m3]
    that accounts for the pruned input, and its two lists hold the
    references dealt with, one entry per occurrence. *)
Lemma rewrite_manifest_acc (manifest : dict) :
  wf (JObj manifest) → list_or_absent "resources" manifest →
  match rewrite_manifest out_root manifest with
  | Ok (m', c, r) =>
      ∃ m3 cs rs,
        wf (JObj m3) ∧
        JObj m' = replaced out_root (JObj m3) ∧
        accounted (JObj (pruned manifest)) (JObj m3) cs rs ∧
        map original c = cs ++ in_scope_urls (JObj m3) ∧
        r ≡ₚ rs ++ flat_map dropped_href (resources_of manifest) ++
             blocked_urls (JObj m3)
  | Raise e => e = ValueError ∧ mappable (JObj (pruned manifest)) = false
  end.
Proof.
  intros Hwf Hres.
  set (keys := ["links"; "images"; "readingOrder"]).
  set (st0 := {| changed := []; removed := [] |}).
  set (kept0 := filter (λ r, dropped r = false) (resources_of manifest)).
  assert (Hnotin : "resources" ∉ keys) by (unfold keys; set_solver).
  (* the passes over the known arrays, on the manifest and on the pruned one *)
  pose proof (rewrite_known_arrays_acc out_root keys (pruned manifest) st0)
    as H1.
  unfold pruned in H1 at 1. fold kept0 in H1.
  rewrite rewrite_known_arrays_set_comm in H1 by done.
  unfold rewrite_manifest. fold keys st0.
  destruct (rewrite_known_arrays out_root keys (manifest, st0))
    as [[m1 st1]|e] eqn:E1; unbind in *; [|done].
  destruct H1 as (cs1 & rs1 & Ha1 & Hl1).
  pose proof (rewrite_known_arrays_get_ne out_root keys "resources" manifest st0
                _ _ Hnotin E1) as Hget.
  pose proof (wf_rewrite_known_arrays out_root keys manifest st0 _ _ Hwf E1)
    as Hwf1.
  (* the resources *)
  assert (Hres1 : list_or_absent "resources" m1)
    by (unfold list_or_absent; by rewrite Hget).
  rewrite (resources_default m1 Hres1).
  assert (resources_of m1 = resources_of manifest) as ->
    by (unfold resources_of; by rewrite Hget).
  cbn [iterate mbind res_mbind res_bind].
  pose proof (rewrite_resources_acc out_root (resources_of manifest) [] st1)
    as H2.
  destruct (rewrite_resources out_root (resources_of manifest) [] st1)
    as [[new' st2]|e] eqn:E2; unbind.
  2: { destruct H2 as [-> H2]. split; [done|].
       apply (acc_not_mappable _ _ _ _ Ha1).
       eapply not_mappable_field; [apply dict_get_set_eq|done]. }
  destruct H2 as (new & cs2 & Hnew & Ha2 & Hl2). cbn [app] in Hnew. subst new'.
  assert (Hwfnew : Forall wf new).
  { eapply wf_rewrite_resources; [|done|exact E2]. unfold resources_of.
    destruct (dict_get "resources" manifest) as [[| | | | |l|]|] eqn:E;
      try done.
    apply wf_arr. by eapply wf_dict_get. }
  assert (Ha2' : accounted (JObj (dict_set "resources" (JArr kept0) m1))
                           (JObj (dict_set "resources" (JArr new) m1)) cs2 []).
  { rewrite <- (dict_set_set "resources" (JArr new) (JArr kept0) m1).
    eapply acc_field; [apply dict_get_set_eq|done]. }
  (* the metadata *)
  pose proof (rewrite_metadata_acc out_root
                (dict_set "resources" (JArr new) m1) st2) as H3.
  destruct (rewrite_metadata out_root _) as [[m3 st3]|e] eqn:E3;
    unbind.
  2: { destruct H3 as [-> H3]. split; [done|].
       apply (acc_not_mappable _ _ _ _ Ha1), (acc_not_mappable _ _ _ _ Ha2').
       done. }
  destruct H3 as (cs3 & rs3 & Ha3 & Hl3).
  assert (Hm3 : wf (JObj m3)).
  { eapply wf_rewrite_metadata; [|exact E3]. apply wf_dict_set; [done|].
    by apply wf_arr. }
  (* the deep pass *)
  rewrite deep_replace_spec by done.
  destruct (mappable (JObj m3)) eqn:Hmap; unbind.
  2: { split; [done|].
       apply (acc_not_mappable _ _ _ _ Ha1), (acc_not_mappable _ _ _ _ Ha2'),
             (acc_not_mappable _ _ _ _ Ha3). done. }
  exists m3, (cs1 ++ cs2 ++ cs3), (rs1 ++ rs3).
  split; [done|]. split; [done|].
  destruct Hl1 as [Hc1 Hr1], Hl2 as [Hc2 Hr2], Hl3 as [Hc3 Hr3].
  split; [|split].
  - exact (acc_trans _ _ _ _ _ _ _ Ha1 (acc_trans _ _ _ _ _ _ _ Ha2' Ha3)).
  - cbn [changed logged]. rewrite Hc3, Hc2, Hc1. cbn [changed st0 app].
    rewrite !map_app, !map_orig_entry. fold (in_scope_urls (JObj m3)).
    by rewrite <- !List.app_assoc.
  - cbn [removed logged]. rewrite Hr3, Hr2, Hr1. cbn [removed st0 app].
    fold (blocked_urls (JObj m3)). solve_Permutation.
Qed.

End Whole.

(** ** What the passes do to keys *)

Section Keys.
Variable out_root : Pathlib.Path.

Lemma keys_of_replaced_sublist (x : json) :
  keys_of (replaced out_root x) `sublist_of` keys_of x.
Proof.
  induction x as [| b | n | m e | s | l IH | kvs IH] using json_induction;
    try done.
  - cbn [replaced]. induction IH as [|x l Hx _ IHl]; [done|].
    cbn [map]. rewrite keys_of_arr_cons.
    destruct (decide (is_none (item_replaced out_root (replaced out_root) x) = false))
      as [Hn|Hn].
    + rewrite filter_cons_True by done. rewrite keys_of_arr_cons.
      apply sublist_app; [|done].
      destruct x as [| | | |s| |]; try done.
      cbn [item_replaced]. by repeat case_match.
    + rewrite filter_cons_False by done. by apply sublist_inserts_l.
  - cbn [replaced]. induction IH as [|[k x] l Hx _ IHl]; [done|].
    cbn [flat_map]. rewrite keys_of_obj_app, keys_of_obj_cons.
    apply (sublist_app _ (k :: keys_of x)); [|done]. cbn [snd] in Hx.
    unfold field_replaced. cbn [fst snd].
    destruct x as [| | | |s| |];
      try (rewrite keys_of_obj_cons, List.app_nil_r; by apply sublist_skip).
    repeat case_match; try done; by apply sublist_cons.
Qed.

Lemma keys_of_replaced_eq (x : json) :
  blocked_urls x = [] → keys_of (replaced out_root x) = keys_of x.
Proof.
  induction x as [| b | n | m e | s | l IH | kvs IH] using json_induction;
    try done.
  - cbn [replaced]. induction IH as [|x l Hx _ IHl]; [done|].
    rewrite blocked_urls_arr_cons. intros [Hbx Hbl]%app_eq_nil.
    cbn [map]. rewrite keys_of_arr_cons.
    destruct (decide (is_none (item_replaced out_root (replaced out_root) x) = false))
      as [Hn|Hn].
    + rewrite filter_cons_True by done. rewrite keys_of_arr_cons.
      rewrite IHl by done. f_equal.
      destruct x as [| | | |s| |]; try (by apply Hx).
      cbn [item_replaced]. by repeat case_match.
    + rewrite filter_cons_False by done. rewrite IHl by done.
      destruct x as [| | | |s| |]; done.
  - cbn [replaced]. induction IH as [|[k x] l Hx _ IHl]; [done|].
    rewrite blocked_urls_obj_cons. intros [Hbx Hbl]%app_eq_nil.
    cbn [flat_map]. rewrite keys_of_obj_app, keys_of_obj_cons.
    rewrite IHl by done. cbn [snd] in Hx.
    change (k :: keys_of x ++ keys_of (JObj l))
      with ((k :: keys_of x) ++ keys_of (JObj l)).
    f_equal. unfold field_replaced. cbn [fst snd].
    destruct x as [| | | |s| |];
      try (rewrite keys_of_obj_cons, List.app_nil_r, Hx by done; done).
    rewrite blocked_urls_str in Hbx. unfold blocked_url in Hbx.
    destruct (is_http s); [|done]. destruct (is_blocked (JStr s)); done.
Qed.

(** The deep pass keeps every key but those of the fields whose value is a
    blocked reference. *)
Lemma keys_of_replaced_kept (x : json) :
  keys_of (replaced out_root x) = kept_keys x.
Proof.
  induction x as [| b | n | m e | s | l IH | kvs IH] using json_induction;
    try done.
  - cbn [replaced]. induction IH as [|x l Hx _ IHl]; [done|].
    cbn [map]. rewrite kept_keys_arr_cons.
    destruct (decide (is_none (item_replaced out_root (replaced out_root) x) = false))
      as [Hn|Hn].
    + rewrite filter_cons_True by done. rewrite keys_of_arr_cons, IHl.
      f_equal. destruct x as [| | | |s| |]; try (by apply Hx).
      cbn [item_replaced]. by repeat case_match.
    + rewrite filter_cons_False by done. rewrite IHl.
      destruct x as [| | | |s| |]; done.
  - cbn [replaced]. induction IH as [|[k x] l Hx _ IHl]; [done|].
    cbn [flat_map]. rewrite keys_of_obj_app, kept_keys_obj_cons, IHl.
    f_equal. cbn [snd] in Hx. unfold field_replaced. cbn [fst snd].
    destruct x as [| | | |s| |];
      try (rewrite keys_of_obj_cons, List.app_nil_r, Hx; done).
    cbn [field_kept]. destruct (is_http s); [|done].
    by destruct (is_blocked (JStr s)).
Qed.
End Keys.

(** ** The pruned manifest *)

Lemma flat_map_filter_sublist {A B} (f : A → list B) (P : A → Prop)
    `{∀ x, Decision (P x)} (l : list A) :
  flat_map f (filter P l) `sublist_of` flat_map f l.
Proof.
  induction l as [|x l IH]; [done|]. cbn [flat_map].
  destruct (decide (P x)).
  - rewrite filter_cons_True by done. cbn [flat_map]. by apply sublist_app.
  - rewrite filter_cons_False by done. by apply sublist_inserts_l.
Qed.

Lemma resources_of_get (manifest : dict) (v : json) :
  dict_get "resources" manifest = Some v →
  (∃ rs, v = JArr rs ∧ resources_of manifest = rs) ∨
  resources_of manifest = [].
Proof.
  intros H. unfold resources_of. rewrite H.
  destruct v; eauto.
Qed.

Lemma pruned_strings_sublist (manifest : dict) :
  strings_of (JObj (pruned manifest)) `sublist_of` strings_of (JObj manifest).
Proof.
  unfold pruned. destruct (dict_get "resources" manifest) as [v|] eqn:E.
  - destruct (resources_of_get _ _ E) as [(rs & -> & ->)| ->];
      apply dict_get_Some in E as (pre & post & -> & Hk);
      rewrite dict_set_app by done;
      rewrite !strings_of_obj_app, !strings_of_obj_cons;
      apply sublist_app; try done; apply sublist_app; try done.
    + apply flat_map_filter_sublist.
    + rewrite filter_nil. apply sublist_nil_l.
  - unfold resources_of. rewrite E, filter_nil.
    apply dict_get_None in E. rewrite dict_set_absent by done.
    rewrite strings_of_obj_app. cbn. by rewrite List.app_nil_r.
Qed.

Lemma pruned_keys_sublist (manifest : dict) :
  keys_of (JObj (pruned manifest)) `sublist_of`
  keys_of (JObj manifest) ++ ["resources"].
Proof.
  unfold pruned. destruct (dict_get "resources" manifest) as [v|] eqn:E.
  - apply sublist_inserts_r.
    destruct (resources_of_get _ _ E) as [(rs & -> & ->)| ->];
      apply dict_get_Some in E as (pre & post & -> & Hk);
      rewrite dict_set_app by done;
      rewrite !keys_of_obj_app, !keys_of_obj_cons;
      apply sublist_app; try done; apply sublist_skip;
      apply sublist_app; try done.
    + apply flat_map_filter_sublist.
    + rewrite filter_nil. apply sublist_nil_l.
  - unfold resources_of. rewrite E, filter_nil.
    apply dict_get_None in E. rewrite dict_set_absent by done.
    rewrite keys_of_obj_app. cbn. done.
Qed.

Lemma filter_all {A} (P : A → Prop) `{∀ x, Decision (P x)} (l : list A) :
  Forall P l → filter P l = l.
Proof.
  induction 1 as [|x l Hx _ IH]; [done|].
  by rewrite filter_cons_True, IH.
Qed.

(** When no element is dropped, pruning changes no value and no URL key. *)
Lemma pruned_nothing_dropped (manifest : dict) :
  list_or_absent "resources" manifest →
  Forall (λ r, dropped r = false) (resources_of manifest) →
  strings_of (JObj (pruned manifest)) = strings_of (JObj manifest) ∧
  filter (λ k, is_http k = true) (keys_of (JObj (pruned manifest))) =
  filter (λ k, is_http k = true) (keys_of (JObj manifest)).
Proof.
  intros Hres Hkeep. unfold pruned. rewrite (filter_all _ _ Hkeep).
  unfold resources_of. destruct Hres as [Habs|[l Hl]].
  - rewrite Habs. apply dict_get_None in Habs.
    rewrite dict_set_absent by done.
    rewrite strings_of_obj_app, keys_of_obj_app, filter_app. cbn.
    by rewrite !List.app_nil_r.
  - rewrite Hl. by rewrite (dict_set_same _ _ _ Hl).
Qed.

(** ** Counting *)

Lemma size_list_to_set_le (l : list string) :
  size (list_to_set l : gset string) ≤ length l.
Proof.
  induction l as [|x l IH]; [done|]. cbn [list_to_set length].
  rewrite size_union_alt, size_singleton.
  assert (size (list_to_set l ∖ {[x]} : gset string) ≤ size (list_to_set l : gset string)).
  { apply subseteq_size. set_solver. }
  lia.
Qed.

Lemma size_list_to_set_lt (l : list string) :
  ¬ NoDup l → size (list_to_set l : gset string) < length l.
Proof.
  induction l as [|x l IH]; intros Hdup.
  - destruct Hdup. constructor.
  - cbn [list_to_set length]. destruct (decide (x ∈ l)) as [Hin|Hnin].
    + assert ({[x]} ∪ list_to_set l = (list_to_set l : gset string)) as ->.
      { assert (x ∈ (list_to_set l : gset string))
          by (by apply elem_of_list_to_set).
        set_solver. }
      pose proof (size_list_to_set_le l). lia.
    + assert (¬ NoDup l) as Hl.
      { intros Hl. apply Hdup. by constructor. }
      specialize (IH Hl).
      rewrite size_union_alt, size_singleton.
      assert (size (list_to_set l ∖ {[x]} : gset string) ≤ size (list_to_set l : gset string)).
      { apply subseteq_size. set_solver. }
      lia.
Qed.

(** ** Discovery against rewrite (C1, C9, C10) *)

Lemma recognised_listsb_spec (manifest : dict) :
  recognised_listsb manifest = true → recognised_lists manifest.
Proof.
  unfold recognised_listsb, recognised_lists. rewrite forallb_forall.
  intros H. apply Forall_forall. intros key Hkey%list_elem_of_In.
  specialize (H key Hkey). unfold list_or_absentb, list_or_absent in *.
  destruct (dict_get key manifest) as [[| | | | |l|]|]; try done; eauto.
Qed.

Lemma recognised_resources (manifest : dict) :
  recognised_lists manifest → list_or_absent "resources" manifest.
Proof.
  unfold recognised_lists. rewrite Forall_forall. intros H. apply H.
  set_solver.
Qed.

Lemma dropped_href_nil (rs : list json) :
  flat_map dropped_href rs = [] → Forall (λ r, dropped r = false) rs.
Proof.
  induction rs as [|r rs IH]; [done|]. cbn [flat_map].
  intros [Hr Hrs]%app_eq_nil. constructor; [|by apply IH].
  unfold dropped_href, dropped in *.
  destruct r as [| | | | | |d]; try done.
  destruct (dict_get_none "href" d) as [| | | |h| |]; try done.
  by destruct (is_blocked (JStr h)).
Qed.

Lemma dropped_href_blocked (rs : list json) (u : string) :
  u ∈ flat_map dropped_href rs → is_blocked (JStr u) = true.
Proof.
  intros (r & _ & Hu)%list_elem_of_In%in_flat_map.
  apply list_elem_of_In in Hu. unfold dropped_href in Hu.
  destruct r as [| | | | | |d]; try by apply elem_of_nil in Hu.
  destruct (dict_get_none "href" d) as [| | | |h| |];
    try by apply elem_of_nil in Hu.
  destruct (is_blocked (JStr h)) eqn:E; [|by apply elem_of_nil in Hu].
  by apply list_elem_of_singleton in Hu as ->.
Qed.

Lemma dropped_href_strings (manifest : dict) (u : string) :
  u ∈ flat_map dropped_href (resources_of manifest) →
  u ∈ strings_of (JObj manifest).
Proof.
  intros (r & Hr & Hu)%list_elem_of_In%in_flat_map.
  apply list_elem_of_In in Hu, Hr. unfold resources_of in Hr.
  destruct (dict_get "resources" manifest) as [[| | | | |rs|]|] eqn:E;
    try by apply elem_of_nil in Hr.
  eapply strings_of_dict_get; [done|]. eapply strings_of_item; [done|].
  unfold dropped_href in Hu.
  destruct r as [| | | | | |d]; try by apply elem_of_nil in Hu.
  unfold dict_get_none, dict_get_default in Hu.
  destruct (dict_get "href" d) as [[| | | |h| |]|] eqn:Hd;
    try by apply elem_of_nil in Hu.
  destruct (is_blocked (JStr h)); [|by apply elem_of_nil in Hu].
  apply list_elem_of_singleton in Hu as ->.
  eapply strings_of_dict_get; [done|]. cbn. by left.
Qed.

Section Summary.
Variable out_root : Pathlib.Path.

(** What the rewrite returns, against the pruned input. *)
Lemma rewrite_manifest_summary (manifest : dict) :
  wf (JObj manifest) → list_or_absent "resources" manifest →
  match rewrite_manifest out_root manifest with
  | Ok (m', c, r) =>
      map original c ≡ₚ in_scope_urls (JObj (pruned manifest)) ∧
      r ≡ₚ flat_map dropped_href (resources_of manifest) ++
           blocked_urls (JObj (pruned manifest)) ∧
      keys_of (JObj m') `sublist_of` keys_of (JObj manifest) ++ ["resources"] ∧
      (r = [] →
       filter (λ k, is_http k = true) (keys_of (JObj m')) =
       filter (λ k, is_http k = true) (keys_of (JObj manifest)))
  | Raise e => e = ValueError ∧ mappable (JObj (pruned manifest)) = false
  end.
Proof.
  intros Hwf Hres.
  pose proof (rewrite_manifest_acc out_root manifest Hwf Hres) as H.
  destruct (rewrite_manifest out_root manifest) as [[[m' c] r]|e]; [|done].
  destruct H as (m3 & cs & rs & Hwf3 & Hm' & [H1 H2 H3 H4 _] & Hc & Hr).
  split_and!.
  - by rewrite Hc, H1.
  - rewrite Hr, H2. solve_Permutation.
  - rewrite Hm'. etrans; [apply keys_of_replaced_sublist|].
    etrans; [done|]. apply pruned_keys_sublist.
  - intros ->. symmetry in Hr. apply Permutation_nil_r in Hr.
    apply app_eq_nil in Hr as [-> [Hdrop Hbl]%app_eq_nil].
    rewrite Hm', keys_of_replaced_eq, H4 by done.
    by apply pruned_nothing_dropped, dropped_href_nil.
Qed.

(** C1, as the code has it.  On a well-formed manifest whose recognised
    fields are lists: every URL of [changed] was discovered; nothing in
    [removed] was, since [removed] holds blocked strings and discovery
    filters those out; and every discovered URL is in [changed] when no
    [resources] element is dropped. *)
Theorem C1_changed_within_discovery (manifest m' : dict)
    (c : list (string * string * string)) (r : list string)
    (urls : gset string) :
  wf (JObj manifest) → recognised_lists manifest →
  collect_urls_from_manifest manifest = Ok urls →
  rewrite_manifest out_root manifest = Ok (m', c, r) →
  (∀ u, u ∈ map original c → u ∈ urls) ∧
  (∀ u, u ∈ r → is_blocked (JStr u) = true ∧ u ∉ urls) ∧
  (Forall (λ x, dropped x = false) (resources_of manifest) →
   ∀ u, u ∈ urls → u ∈ map original c).
Proof.
  intros Hwf Hrec Hurls Hrw.
  rewrite collect_urls_spec in Hurls by done. injection Hurls as <-.
  pose proof (recognised_resources _ Hrec) as Hres.
  pose proof (rewrite_manifest_summary manifest Hwf Hres) as H.
  rewrite Hrw in H. destruct H as (Hc & Hr & _).
  split_and!.
  - intros u Hu. rewrite Hc in Hu. apply elem_of_list_to_set.
    apply elem_of_in_scope_urls in Hu as [? Hu].
    apply elem_of_in_scope_urls. split; [done|].
    eapply elem_of_sublist; [done|apply pruned_strings_sublist].
  - intros u Hu. rewrite Hr in Hu.
    assert (Hb : is_blocked (JStr u) = true).
    { apply elem_of_app in Hu as [Hu|Hu].
      - by eapply dropped_href_blocked.
      - apply elem_of_blocked_urls in Hu as [Hu _].
        unfold blocked_url in Hu. by apply andb_true_iff in Hu as [_ ?]. }
    split; [done|]. rewrite elem_of_list_to_set, elem_of_in_scope_urls.
    intros [Hin _]. unfold in_scope in Hin. rewrite Hb in Hin.
    by rewrite andb_false_r in Hin.
  - intros Hkeep u Hu. rewrite Hc.
    apply elem_of_list_to_set, elem_of_in_scope_urls in Hu as [? Hu].
    apply elem_of_in_scope_urls. split; [done|].
    destruct (pruned_nothing_dropped manifest Hres Hkeep) as [-> _]. done.
Qed.
End Summary.

Lemma C1_witness :
  (∀ u, u ∈ map original
              [("https://good.com/a?x=1", "/good.com/a__q_7caf6056.html",
                "local_www/good.com/a__q_7caf6056.html")] →
        u ∈ ({["https://good.com/a?x=1"]} : gset string)) ∧
  (∀ u, u ∈ ["https://googletagmanager.com/gtm.js"] →
        is_blocked (JStr u) = true ∧
        u ∉ ({["https://good.com/a?x=1"]} : gset string)) ∧
  (Forall (λ x, dropped x = false)
     (resources_of
        [("links", JArr [JObj [("href", JStr "https://good.com/a?x=1")]]);
         ("resources",
          JArr [JObj [("href", JStr "https://googletagmanager.com/gtm.js")]])]) →
   ∀ u, u ∈ ({["https://good.com/a?x=1"]} : gset string) →
        u ∈ map original
              [("https://good.com/a?x=1", "/good.com/a__q_7caf6056.html",
                "local_www/good.com/a__q_7caf6056.html")]).
Proof.
  apply (C1_changed_within_discovery (Pathlib.parse "./local_www")
    [("links", JArr [JObj [("href", JStr "https://good.com/a?x=1")]]);
     ("resources",
      JArr [JObj [("href", JStr "https://googletagmanager.com/gtm.js")]])]
    [("links", JArr [JObj [("href", JStr "/good.com/a__q_7caf6056.html")]]);
     ("resources", JArr [])]).
  - apply wfb_wf. reflexivity.
  - apply recognised_listsb_spec. reflexivity.
  - vm_compute. reflexivity.
  - vm_compute. reflexivity.
Defined.

(** C1 as stated fails on the scenario of the specification itself: the
    blocked URL is in [removed] and not in the discovered set, so
    [changed] and [removed] together are not the discovered set. *)
Lemma C1_counterexample :
  let manifest : dict :=
    [("links", JArr [JObj [("href", JStr "https://good.com/a?x=1")]]);
     ("resources",
      JArr [JObj [("href", JStr "https://googletagmanager.com/gtm.js")]])] in
  ∃ urls m' c r,
    collect_urls_from_manifest manifest = Ok urls ∧
    rewrite_manifest (Pathlib.parse "./local_www") manifest = Ok (m', c, r) ∧
    "https://googletagmanager.com/gtm.js" ∈ r ∧
    ("https://googletagmanager.com/gtm.js" ∉ urls) ∧
    list_to_set (map original c ++ r) ≠@{gset string} urls.
Proof.
  cbv zeta.
  exists (list_to_set ["https://good.com/a?x=1"]),
    [("links", JArr [JObj [("href", JStr "/good.com/a__q_7caf6056.html")]]);
     ("resources", JArr [])],
    [("https://good.com/a?x=1", "/good.com/a__q_7caf6056.html",
      "local_www/good.com/a__q_7caf6056.html")],
    ["https://googletagmanager.com/gtm.js"].
  split; [by rewrite collect_urls_spec by (by apply recognised_listsb_spec)|].
  split; [vm_compute; reflexivity|].
  assert (Hnot : "https://googletagmanager.com/gtm.js" ∉
                 (list_to_set ["https://good.com/a?x=1"] : gset string)).
  { rewrite elem_of_list_to_set, list_elem_of_singleton. discriminate. }
  split; [by left|]. split; [exact Hnot|].
  intros Heq. apply Hnot. rewrite <- Heq. set_solver.
Qed.

(** ** Keys are not values (C9) *)

Section KeysNotValues.
Variable out_root : Pathlib.Path.

(** The URL keys of the rewritten manifest are those the pruned manifest
    keeps, in order. *)
Lemma rewrite_manifest_url_keys (manifest m' : dict)
    (c : list (string * string * string)) (r : list string) :
  wf (JObj manifest) → list_or_absent "resources" manifest →
  rewrite_manifest out_root manifest = Ok (m', c, r) →
  filter (λ k, is_http k = true) (keys_of (JObj m')) =
  filter (λ k, is_http k = true) (kept_keys (JObj (pruned manifest))).
Proof.
  intros Hwf Hres Hrw.
  pose proof (rewrite_manifest_acc out_root manifest Hwf Hres) as H.
  rewrite Hrw in H.
  destruct H as (m3 & cs & rs & _ & -> & [_ _ _ _ H5] & _).
  rewrite keys_of_replaced_kept. specialize (H5 EmptyString).
  by rewrite !field_kept_below in H5.
Qed.

(** C9, as the code has it.  On a well-formed manifest whose recognised
    fields are lists, a URL that is no string value (it occurs as a key at
    most) is not discovered and is logged neither as changed nor as
    removed; the rewrite renames and adds no key (it only sets
    [resources]): the keys of the result are keys of the input, in order;
    when nothing is removed every URL key is left in place; and in every
    case the URL keys of the result are, in order, those of the input
    outside the [resources] elements dropped for their blocked href
    ([pruned]) and outside the fields whose value is a blocked reference
    ([kept_keys]): a URL key goes only together with the field or the
    element that is removed. *)
Theorem C9_keys_are_not_visited (manifest : dict) (u : string) :
  wf (JObj manifest) → recognised_lists manifest →
  u ∉ strings_of (JObj manifest) →
  (∀ urls, collect_urls_from_manifest manifest = Ok urls → u ∉ urls) ∧
  (∀ m' c r, rewrite_manifest out_root manifest = Ok (m', c, r) →
     (u ∉ map original c) ∧ (u ∉ r) ∧
     keys_of (JObj m') `sublist_of` keys_of (JObj manifest) ++ ["resources"] ∧
     (r = [] →
      filter (λ k, is_http k = true) (keys_of (JObj m')) =
      filter (λ k, is_http k = true) (keys_of (JObj manifest))) ∧
     filter (λ k, is_http k = true) (keys_of (JObj m')) =
     filter (λ k, is_http k = true) (kept_keys (JObj (pruned manifest)))).
Proof.
  intros Hwf Hrec Hu. split.
  - intros urls Hurls. rewrite collect_urls_spec in Hurls by done.
    injection Hurls as <-.
    rewrite elem_of_list_to_set, elem_of_in_scope_urls. by intros [_ ?].
  - intros m' c r Hrw.
    pose proof (recognised_resources _ Hrec) as Hres.
    pose proof (rewrite_manifest_summary out_root manifest Hwf Hres) as H.
    pose proof (rewrite_manifest_url_keys _ _ _ _ Hwf Hres Hrw) as Hurl.
    rewrite Hrw in H. destruct H as (Hc & Hr & Hkeys & Hkept).
    split_and!; [| |done..].
    + rewrite Hc, elem_of_in_scope_urls. intros [_ Hin]. apply Hu.
      eapply elem_of_sublist; [done|apply pruned_strings_sublist].
    + rewrite Hr, elem_of_app, elem_of_blocked_urls.
      intros [Hin|[_ Hin]]; apply Hu.
      * by apply dropped_href_strings.
      * eapply elem_of_sublist; [done|apply pruned_strings_sublist].
Qed.
End KeysNotValues.

Lemma C9_witness :
  let m' : dict := [("https://a.com/k", JStr "x"); ("resources", JArr [])] in
  let manifest : dict :=
    [("https://a.com/k", JStr "x");
     ("https://c.com/k", JStr "https://googletagmanager.com/c.js");
     ("resources",
      JArr [JObj [("href", JStr "https://googletagmanager.com/gtm.js");
                  ("https://b.com/k", JInt 1)]])] in
  let r := ["https://googletagmanager.com/gtm.js";
            "https://googletagmanager.com/c.js"] in
  filter (λ k, is_http k = true) (kept_keys (JObj (pruned manifest))) =
    ["https://a.com/k"] ∧
  ("https://a.com/k" ∉ map original []) ∧
  ("https://a.com/k" ∉ r) ∧
  keys_of (JObj m') `sublist_of` keys_of (JObj manifest) ++ ["resources"] ∧
  (r = [] →
   filter (λ k, is_http k = true) (keys_of (JObj m')) =
   filter (λ k, is_http k = true) (keys_of (JObj manifest))) ∧
  filter (λ k, is_http k = true) (keys_of (JObj m')) =
  filter (λ k, is_http k = true) (kept_keys (JObj (pruned manifest))).
Proof.
  cbv zeta. split; [vm_compute; reflexivity|].
  apply (C9_keys_are_not_visited (Pathlib.parse "./local_www")
           [("https://a.com/k", JStr "x");
            ("https://c.com/k", JStr "https://googletagmanager.com/c.js");
            ("resources",
             JArr [JObj [("href", JStr "https://googletagmanager.com/gtm.js");
                         ("https://b.com/k", JInt 1)]])] "https://a.com/k").
  - apply wfb_wf. reflexivity.
  - apply recognised_listsb_spec. reflexivity.
  - apply (bool_decide_unpack _). vm_compute. exact I.
  - vm_compute. reflexivity.
Defined.

(** C9 as stated fails: here the URL occurs as a key only, and the rewrite
    does not leave the key in place; it goes with the blocked value it
    names. *)
Lemma C9_counterexample :
  let manifest : dict :=
    [("https://a.com/k", JStr "https://googletagmanager.com/gtm.js")] in
  "https://a.com/k" ∈ keys_of (JObj manifest) ∧
  ("https://a.com/k" ∉ strings_of (JObj manifest)) ∧
  ∃ m' c r,
    rewrite_manifest (Pathlib.parse "./local_www") manifest = Ok (m', c, r) ∧
    "https://a.com/k" ∉ keys_of (JObj m').
Proof.
  cbv zeta. split; [by left|]. split.
  - cbn. rewrite list_elem_of_singleton. discriminate.
  - exists [("resources", JArr [])], [], ["https://googletagmanager.com/gtm.js"].
    split; [vm_compute; reflexivity|].
    cbn. rewrite list_elem_of_singleton. discriminate.
Qed.

(** ** One entry per occurrence (C10) *)

Section Counts.
Variable net : string → nat → attempt.
Variable file_size : Pathlib.Path → option Z.
Variable out_root : Pathlib.Path.

(** The downloader returns when [urlparse] accepts every URL. *)
Lemma submit_accepted (urls : list string) (skip_existing : bool)
    (acc : fetched) (futures : list (string * Pathlib.Path * string)) :
  Forall (λ u, accepted u = true) urls →
  ∃ r, submit file_size out_root urls skip_existing acc futures = Ok r.
Proof.
  revert acc futures. induction urls as [|u urls IH]; intros acc futures Hacc.
  - by eexists.
  - apply Forall_cons in Hacc as [Hu Hacc]. cbn [submit].
    destruct (accepted_mapped out_root u Hu) as (lp & h & -> & _).
    unbind.
    destruct (if skip_existing then file_size lp else None); by apply IH.
Qed.

Lemma download_urls_accepted (urls : list string) (skip_existing : bool) :
  Forall (λ u, accepted u = true) urls →
  ∃ f, download_urls net file_size out_root urls skip_existing = Ok f.
Proof.
  intros Hacc. unfold download_urls.
  destruct (submit_accepted urls skip_existing
              {| results := []; total_bytes := 0%Z; failed := [] |} [] Hacc)
    as [[acc futures] ->].
  unbind. by eexists.
Qed.

Lemma mappable_pruned (manifest : dict) :
  mappable (JObj manifest) = true → mappable (JObj (pruned manifest)) = true.
Proof.
  rewrite !mappable_spec. intros H u [? Hu]%elem_of_in_scope_urls.
  apply H, elem_of_in_scope_urls. split; [done|].
  eapply elem_of_sublist; [done|apply pruned_strings_sublist].
Qed.

(** C10, as the code has it.  On a well-formed manifest whose recognised
    fields are lists and whose references in scope [urlparse] accepts, the
    run reaches the summary; [changed] has one entry per occurrence of a
    reference in scope outside the dropped [resources] elements, and
    [found_urls_count] is the number of distinct references in scope.
    When no [resources] element is dropped, [rewritten_count] is the
    number of occurrences, and exceeds [found_urls_count] as soon as one
    reference occurs at two places. *)
Theorem C10_one_entry_per_occurrence (manifest : dict) (skip_existing : bool) :
  wf (JObj manifest) → recognised_lists manifest →
  mappable (JObj manifest) = true →
  ∃ v, verify_summary net file_size out_root manifest skip_existing = Ok v ∧
    rewritten_count v = length (in_scope_urls (JObj (pruned manifest))) ∧
    found_urls_count v =
      size (list_to_set (in_scope_urls (JObj manifest)) : gset string) ∧
    (Forall (λ x, dropped x = false) (resources_of manifest) →
     rewritten_count v = length (in_scope_urls (JObj manifest)) ∧
     found_urls_count v ≤ rewritten_count v ∧
     ∀ i j u, i ≠ j →
       in_scope_urls (JObj manifest) !! i = Some u →
       in_scope_urls (JObj manifest) !! j = Some u →
       found_urls_count v < rewritten_count v).
Proof.
  intros Hwf Hrec Hmap.
  pose proof (recognised_resources _ Hrec) as Hres.
  unfold verify_summary. rewrite collect_urls_spec by done.
  unbind.
  destruct (download_urls_accepted
              (elements (list_to_set (in_scope_urls (JObj manifest))
                         : gset string)) skip_existing) as [f ->].
  { apply Forall_forall. intros u Hu%elem_of_elements%elem_of_list_to_set.
    by apply (proj1 (mappable_spec _) Hmap). }
  unbind.
  pose proof (rewrite_manifest_summary out_root manifest Hwf Hres) as H.
  destruct (rewrite_manifest out_root manifest) as [[[m' c] r]|e].
  2: { destruct H as [_ H]. by rewrite mappable_pruned in H. }
  destruct H as (Hc & _).
  unbind. eexists. split; [done|].
  cbn [rewritten_count found_urls_count].
  assert (Hlen : length c = length (in_scope_urls (JObj (pruned manifest))))
    by (by rewrite <- (length_map original c), Hc).
  split; [done|]. split; [done|]. intros Hkeep.
  destruct (pruned_nothing_dropped manifest Hres Hkeep) as [Hstr _].
  unfold in_scope_urls in Hlen. rewrite Hstr in Hlen.
  fold (in_scope_urls (JObj manifest)) in Hlen. rewrite Hlen.
  split_and!; [done|apply size_list_to_set_le|].
  intros i j u Hij Hi Hj. apply size_list_to_set_lt.
  intros Hnd. apply Hij. by eapply NoDup_lookup.
Qed.
End Counts.

Lemma C10_witness :
  ∃ v, verify_summary (λ _ _, Response 200 []) (λ _, None)
         (Pathlib.parse "./local_www")
         [("links", JArr [JObj [("href", JStr "https://good.com/a")]]);
          ("images", JArr [JObj [("href", JStr "https://good.com/a")]])]
         false = Ok v ∧
       found_urls_count v < rewritten_count v.
Proof.
  destruct (C10_one_entry_per_occurrence (λ _ _, Response 200 []) (λ _, None)
    (Pathlib.parse "./local_www")
    [("links", JArr [JObj [("href", JStr "https://good.com/a")]]);
     ("images", JArr [JObj [("href", JStr "https://good.com/a")]])] false)
    as (v & Hv & _ & _ & Hkeep).
  - apply wfb_wf. reflexivity.
  - apply recognised_listsb_spec. reflexivity.
  - reflexivity.
  - exists v. split; [done|].
    destruct Hkeep as (_ & _ & Hlt); [vm_compute; constructor|].
    apply (Hlt 0 1 "https://good.com/a"); [lia|reflexivity|reflexivity].
Defined.

(** C10 as stated fails: this manifest holds one reference in scope at two
    places, both inside a [resources] element that is dropped for its
    blocked href; discovery finds the reference, the rewrite never meets
    it, and [rewritten_count] is 0 against a [found_urls_count] of 1. *)
Lemma C10_counterexample :
  let manifest : dict :=
    [("resources",
      JArr [JObj [("href", JStr "https://googletagmanager.com/gtm.js");
                  ("poster", JStr "https://good.com/a.png");
                  ("thumbnail", JStr "https://good.com/a.png")]])] in
  in_scope_urls (JObj manifest) =
    ["https://good.com/a.png"; "https://good.com/a.png"] ∧
  verify_summary (λ _ _, Response 200 []) (λ _, None)
                 (Pathlib.parse "./local_www") manifest false =
    Ok {| found_urls_count := 1;
          downloads_total_bytes := 0;
          download_failures := [];
          rewritten_count := 0;
          removed_blocked := 1 |}.
Proof. cbv zeta. split; vm_compute; reflexivity. Qed.

(** ** The frame *)

Section Frame.
Variable out_root : Pathlib.Path.

Lemma same_replaced_refl (x : json) : same_replaced out_root x x.
Proof. by split. Qed.

Lemma same_replaced_obj (d d' : dict) :
  replaced out_root (JObj d') = replaced out_root (JObj d) →
  same_replaced out_root (JObj d) (JObj d').
Proof.
  intros H. split; [done|]. intros k. unfold field_replaced. cbn [fst snd].
  by rewrite H.
Qed.

Lemma same_replaced_arr (l l' : list json) :
  replaced out_root (JArr l') = replaced out_root (JArr l) →
  same_replaced out_root (JArr l) (JArr l').
Proof.
  intros H. split; [done|]. intros k. unfold field_replaced. cbn [fst snd].
  by rewrite H.
Qed.

Lemma same_replaced_href (u : string) :
  in_scope u = true →
  same_replaced out_root (JStr u) (JStr (href_of out_root u)).
Proof.
  intros Hu. unfold in_scope in Hu. apply andb_true_iff in Hu as [Hh Hb].
  apply negb_true_iff in Hb.
  split; [|intros k]; unfold item_replaced, field_replaced; cbn [fst snd];
    by rewrite href_not_http, Hh, Hb.
Qed.

Lemma replaced_obj_app (d1 d2 : dict) :
  replaced out_root (JObj (d1 ++ d2)) =
  JObj (as_dict (replaced out_root (JObj d1)) ++
        as_dict (replaced out_root (JObj d2))).
Proof. cbn [replaced as_dict]. by rewrite flat_map_app. Qed.

Lemma replaced_obj_cons (kv : string * json) (d : dict) :
  replaced out_root (JObj (kv :: d)) =
  JObj (field_replaced out_root (replaced out_root) kv ++
        as_dict (replaced out_root (JObj d))).
Proof. reflexivity. Qed.

Lemma rep_field (k : string) (d : dict) (v v' : json) :
  dict_get k d = Some v → same_replaced out_root v v' →
  replaced out_root (JObj (dict_set k v' d)) = replaced out_root (JObj d).
Proof.
  intros (pre & post & -> & Hk)%dict_get_Some [_ H].
  rewrite dict_set_app by done.
  by rewrite !replaced_obj_app, !replaced_obj_cons, H.
Qed.

Lemma rep_pop (k : string) (d : dict) (v : json) :
  dict_get k d = Some v →
  field_replaced out_root (replaced out_root) (k, v) = [] →
  replaced out_root (JObj (dict_pop k d)) = replaced out_root (JObj d).
Proof.
  intros (pre & post & -> & Hk)%dict_get_Some H.
  rewrite dict_pop_app by done.
  by rewrite !replaced_obj_app, !replaced_obj_cons, H.
Qed.

Lemma rewrite_item_rep (it : json) (st : log) (it' : json) (st' : log) :
  null_href it = false →
  rewrite_item out_root it st = Ok (it', st') →
  same_replaced out_root it it'.
Proof.
  unfold rewrite_item, null_href.
  destruct it as [| | | | | |d];
    try (intros _ [= <- _]; apply same_replaced_refl).
  destruct (dict_get "href" d) as [href|] eqn:Hd;
    [|intros _ [= <- _]; apply same_replaced_refl].
  destruct href as [| b | n | m e | u | l | kvs]; try done; intros _;
    try (cbn [rewrite_string is_none mbind res_mbind res_bind];
         rewrite (dict_set_same _ _ _ Hd); intros [= <- _];
         apply same_replaced_refl).
  destruct (is_http u) eqn:Hu.
  - rewrite rewrite_string_http by done.
    destruct (mappable (JStr u)); [|done]. unbind.
    destruct (is_blocked (JStr u)) eqn:Hb; cbn [is_none]; intros [= <- _];
      apply same_replaced_obj.
    + apply (rep_pop _ _ _ Hd). unfold field_replaced. cbn [fst snd].
      by rewrite Hu, Hb.
    + apply (rep_field _ _ _ _ Hd), same_replaced_href.
      unfold in_scope. by rewrite Hu, Hb.
  - unfold rewrite_string. rewrite Hu. cbn [is_none mbind res_mbind res_bind].
    rewrite (dict_set_same _ _ _ Hd). intros [= <- _].
    apply same_replaced_refl.
Qed.

Lemma rewrite_items_rep (items : list json) (st : log)
    (items' : list json) (st' : log) :
  forallb (λ it, negb (null_href it)) items = true →
  rewrite_items out_root items st = Ok (items', st') →
  map (item_replaced out_root (replaced out_root)) items' =
  map (item_replaced out_root (replaced out_root)) items.
Proof.
  revert st items'. induction items as [|it items IH]; intros st items'.
  - by intros _ [= <- _].
  - cbn [forallb rewrite_items]. intros [Hit Hitems]%andb_true_iff.
    apply negb_true_iff in Hit.
    destruct (rewrite_item out_root it st) as [[it1 st1]|e] eqn:E1; [|done].
    unbind.
    destruct (rewrite_items out_root items st1) as [[items1 st2]|e] eqn:E2;
      [|done].
    unbind. intros [= <- <-].
    destruct (rewrite_item_rep _ _ _ _ Hit E1) as [H1 _].
    cbn [map]. by rewrite H1, (IH _ _ Hitems E2).
Qed.

Lemma rewrite_known_rep (key : string) (manifest : dict) (st : log)
    (m' : dict) (st' : log) :
  no_null_href_under key manifest = true →
  rewrite_known out_root key (manifest, st) = Ok (m', st') →
  replaced out_root (JObj m') = replaced out_root (JObj manifest).
Proof.
  unfold rewrite_known, no_null_href_under.
  destruct (dict_get key manifest) as [[| | | | |items|]|] eqn:Hd;
    try (by intros _ [= <- _]).
  intros Hitems.
  destruct (rewrite_items out_root items st) as [[items' st1]|e] eqn:E1; [|done].
  unbind. intros [= <- _].
  apply (rep_field _ _ _ _ Hd), same_replaced_arr. cbn [replaced].
  by rewrite (rewrite_items_rep _ _ _ _ Hitems E1).
Qed.

Lemma rewrite_known_arrays_rep (keys : list string) (manifest : dict)
    (st : log) (m' : dict) (st' : log) :
  NoDup keys →
  forallb (λ key, no_null_href_under key manifest) keys = true →
  rewrite_known_arrays out_root keys (manifest, st) = Ok (m', st') →
  replaced out_root (JObj m') = replaced out_root (JObj manifest).
Proof.
  revert manifest st. induction keys as [|key keys IH]; intros m st Hnd.
  - by intros _ [= <- _].
  - apply NoDup_cons in Hnd as [Hkey Hnd].
    cbn [forallb rewrite_known_arrays]. intros [Hk Hks]%andb_true_iff.
    destruct (rewrite_known out_root key (m, st)) as [[m1 st1]|e] eqn:E1;
      [|done].
    unbind. intros E2.
    rewrite (IH m1 st1 Hnd); [by eapply rewrite_known_rep| |done].
    rewrite forallb_forall in Hks. apply forallb_forall. intros k' Hk'.
    specialize (Hks k' Hk'). unfold no_null_href_under in *.
    rewrite (rewrite_known_get_ne out_root key k' m st m1 st1); [done| |done].
    intros ->. by apply Hkey, list_elem_of_In.
Qed.

Lemma rewrite_resource_rep (r r' : json) (st st' : log) :
  rewrite_resource out_root r st = Ok (Some r', st') →
  same_replaced out_root r r'.
Proof.
  unfold rewrite_resource.
  destruct r as [| | | | | |d];
    try (intros [= <- _]; apply same_replaced_refl).
  unfold dict_get_none, dict_get_default.
  destruct (dict_get "href" d) as [href|] eqn:Hd;
    [|intros [= <- _]; apply same_replaced_refl].
  destruct href as [| b | n | m e | h | l | kvs];
    try (intros [= <- _]; apply same_replaced_refl).
  destruct (is_blocked (JStr h)) eqn:Hb; [done|].
  destruct (is_http h) eqn:Hh.
  - rewrite rewrite_string_http by done. rewrite Hb.
    destruct (mappable (JStr h)); [|done].
    cbn [is_none mbind res_mbind res_bind].
    intros [= <- _]. apply same_replaced_obj, (rep_field _ _ _ _ Hd).
    apply same_replaced_href. unfold in_scope. by rewrite Hh, Hb.
  - unfold rewrite_string. rewrite Hh. cbn [is_none mbind res_mbind res_bind].
    intros [= <- _]. rewrite (dict_set_same _ _ _ Hd).
    apply same_replaced_refl.
Qed.

Lemma rewrite_resources_rep (rs acc new : list json) (st st' : log) :
  rewrite_resources out_root rs acc st = Ok (acc ++ new, st') →
  map (item_replaced out_root (replaced out_root)) new =
  map (item_replaced out_root (replaced out_root))
      (filter (λ r, dropped r = false) rs).
Proof.
  revert acc new st. induction rs as [|r rs IH]; intros acc new st.
  - cbn. intros [= H _]. rewrite <- (List.app_nil_r acc) in H at 1.
    by apply app_inv_head in H as <-.
  - cbn [rewrite_resources].
    pose proof (rewrite_resource_acc out_root r st) as H1.
    destruct (rewrite_resource out_root r st) as [[kept st1]|e] eqn:E1;
      [|done].
    unbind.
    destruct H1 as [(Hdrop & -> & _)|(Hkeep & _ & r' & cs & -> & _)].
    + intros H. rewrite filter_cons_False by (by rewrite Hdrop). by eapply IH.
    + destruct (rewrite_resource_rep _ _ _ _ E1) as [Hrep _].
      intros H. rewrite filter_cons_True by done.
      pose proof (rewrite_resources_acc out_root rs (acc ++ [r']) st1) as H2.
      rewrite H in H2. destruct H2 as (new' & _ & Hnew' & _).
      rewrite <- List.app_assoc in Hnew'. apply app_inv_head in Hnew' as ->.
      cbn [map app]. rewrite Hrep. f_equal. eapply IH.
      by rewrite <- List.app_assoc.
Qed.

Lemma rewrite_metadata_rep (manifest : dict) (st : log) (m' : dict)
    (st' : log) :
  rewrite_metadata out_root (manifest, st) = Ok (m', st') →
  replaced out_root (JObj m') = replaced out_root (JObj manifest).
Proof.
  unfold rewrite_metadata, dict_get_none, dict_get_default.
  destruct (dict_get "metadata" manifest) as [[| | | | | |md]|] eqn:Hmd;
    try (by intros [= <- _]).
  destruct (dict_get "identifier" md) as [[| | | |u| |]|] eqn:Hid;
    try (by intros [= <- _]).
  destruct (is_http u) eqn:Hu.
  - rewrite rewrite_string_http by done.
    destruct (mappable (JStr u)); [|done]. unbind.
    destruct (is_blocked (JStr u)) eqn:Hb; cbn [is_none]; intros [= <- _];
      apply (rep_field _ _ _ _ Hmd), same_replaced_obj.
    + apply (rep_pop _ _ _ Hid). unfold field_replaced. cbn [fst snd].
      by rewrite Hu, Hb.
    + apply (rep_field _ _ _ _ Hid), same_replaced_href.
      unfold in_scope. by rewrite Hu, Hb.
  - unfold rewrite_string. rewrite Hu. cbn [is_none mbind res_mbind res_bind].
    intros [= <- _].
    by rewrite (dict_set_same _ _ _ Hid), (dict_set_same _ _ _ Hmd).
Qed.
End Frame.

Section FrameWhole.
Variable out_root : Pathlib.Path.

(** Without a [null] href under the known arrays, the structural passes
    hand the deep pass a manifest it cannot tell from the pruned input. *)
Lemma rewrite_manifest_rep (manifest m' : dict)
    (c : list (string * string * string)) (r : list string) :
  wf (JObj manifest) → list_or_absent "resources" manifest →
  no_null_href manifest = true →
  rewrite_manifest out_root manifest = Ok (m', c, r) →
  JObj m' = replaced out_root (JObj (pruned manifest)).
Proof.
  intros Hwf Hres Hnull.
  set (keys := ["links"; "images"; "readingOrder"]).
  set (st0 := {| changed := []; removed := [] |}).
  set (kept0 := filter (λ r, dropped r = false) (resources_of manifest)).
  assert (Hnotin : "resources" ∉ keys) by (unfold keys; set_solver).
  assert (Hnd : NoDup keys).
  { unfold keys. apply (bool_decide_unpack _). by vm_compute. }
  assert (Hnull' : forallb (λ key, no_null_href_under key (pruned manifest))
                     keys = true).
  { unfold no_null_href in Hnull. fold keys in Hnull.
    rewrite forallb_forall in Hnull. apply forallb_forall. intros k Hk.
    specialize (Hnull k Hk). unfold no_null_href_under, pruned in *.
    rewrite dict_get_set_ne; [done|].
    intros <-. by apply Hnotin, list_elem_of_In. }
  unfold rewrite_manifest. fold keys st0.
  destruct (rewrite_known_arrays out_root keys (manifest, st0))
    as [[m1 st1]|e] eqn:E1; [|done].
  unbind.
  assert (H1 : replaced out_root (JObj (dict_set "resources" (JArr kept0) m1)) =
               replaced out_root (JObj (pruned manifest))).
  { apply (rewrite_known_arrays_rep out_root keys (pruned manifest) st0 _ st1
             Hnd Hnull').
    unfold pruned. fold kept0.
    rewrite rewrite_known_arrays_set_comm by done. by rewrite E1. }
  pose proof (rewrite_known_arrays_get_ne out_root keys "resources" manifest st0
                _ _ Hnotin E1) as Hget.
  pose proof (wf_rewrite_known_arrays out_root keys manifest st0 _ _ Hwf E1)
    as Hwf1.
  assert (Hres1 : list_or_absent "resources" m1)
    by (unfold list_or_absent; by rewrite Hget).
  rewrite (resources_default m1 Hres1).
  assert (resources_of m1 = resources_of manifest) as ->
    by (unfold resources_of; by rewrite Hget).
  cbn [iterate mbind res_mbind res_bind].
  destruct (rewrite_resources out_root (resources_of manifest) [] st1)
    as [[new st2]|e] eqn:E2; [|done].
  unbind.
  pose proof (rewrite_resources_rep out_root (resources_of manifest) [] new
                st1 st2 E2) as H2.
  assert (Hwfnew : Forall wf new).
  { eapply wf_rewrite_resources; [|done|exact E2]. unfold resources_of.
    destruct (dict_get "resources" manifest) as [[| | | | |l|]|] eqn:E;
      try done.
    apply wf_arr. by eapply wf_dict_get. }
  assert (H2' : replaced out_root (JObj (dict_set "resources" (JArr new) m1)) =
                replaced out_root (JObj (dict_set "resources" (JArr kept0) m1))).
  { rewrite <- (dict_set_set "resources" (JArr new) (JArr kept0) m1).
    eapply rep_field; [apply dict_get_set_eq|].
    apply same_replaced_arr. cbn [replaced]. by rewrite H2. }
  destruct (rewrite_metadata out_root _) as [[m3 st3]|e] eqn:E3; [|done].
  unbind.
  pose proof (rewrite_metadata_rep out_root _ _ _ _ E3) as H3.
  assert (Hm3 : wf (JObj m3)).
  { eapply wf_rewrite_metadata; [|exact E3]. apply wf_dict_set; [done|].
    by apply wf_arr. }
  rewrite deep_replace_spec by done.
  destruct (mappable (JObj m3)); [|done]. unbind.
  intros [= <- _ _].
  rewrite <- H1, <- H2', <- H3. reflexivity.
Qed.

(** Where no sequence holds [null], the deep pass does what the
    specification says. *)
Lemma replaced_mirrored (x : json) :
  no_null_item x = true → replaced out_root x = mirrored out_root x.
Proof.
  induction x as [| b | n | m e | s | l IH | kvs IH] using json_induction;
    try done.
  - cbn [no_null_item replaced mirrored]. intros Hl. f_equal.
    induction IH as [|x l Hx _ IHl]; [done|].
    cbn [forallb] in Hl.
    apply andb_true_iff in Hl as [[Hnn Hxn]%andb_true_iff Hl].
    apply negb_true_iff in Hnn. cbn [map flat_map].
    rewrite <- IHl by done. specialize (Hx Hxn).
    destruct x as [| | | |s| |]; try done;
      try (rewrite filter_cons_True by done; cbn; by rewrite <- ?Hx).
    + cbn [item_replaced item_mirrored].
      destruct (is_http s); [|by rewrite filter_cons_True].
      destruct (is_blocked (JStr s)).
      * by rewrite filter_cons_False.
      * by rewrite filter_cons_True.
    + cbn [item_replaced item_mirrored]. rewrite <- Hx.
      by rewrite filter_cons_True by (by cbn).
    + cbn [item_replaced item_mirrored]. rewrite <- Hx.
      by rewrite filter_cons_True by (by cbn).
  - cbn [no_null_item replaced mirrored]. intros Hl. f_equal.
    induction IH as [|[k x] l Hx _ IHl]; [done|].
    cbn [forallb] in Hl. apply andb_true_iff in Hl as [Hxn Hl].
    cbn [flat_map]. rewrite <- IHl by done. f_equal.
    cbn [snd] in *. specialize (Hx Hxn).
    unfold field_replaced. cbn [fst snd].
    destruct x as [| | | |s| |]; try done; by rewrite Hx.
Qed.

Lemma dict_set_elem (k : string) (v : json) (d : dict) (kv : string * json) :
  kv ∈ dict_set k v d → kv = (k, v) ∨ kv ∈ d.
Proof.
  induction d as [|[k' v'] d IH]; cbn [dict_set].
  - intros ->%list_elem_of_singleton. by left.
  - destruct (Str.eqb k' k) eqn:E.
    + apply eqb_true in E as ->.
      intros [->|?]%elem_of_cons; [by left|right; by right].
    + intros [->|H]%elem_of_cons; [right; by left|].
      destruct (IH H) as [->|?]; [by left|right; by right].
Qed.

Lemma no_null_item_pruned (manifest : dict) :
  no_null_item (JObj manifest) = true →
  no_null_item (JObj (pruned manifest)) = true.
Proof.
  cbn [no_null_item]. rewrite !forallb_forall. intros H [k v] Hkv.
  apply list_elem_of_In, dict_set_elem in Hkv as [[= -> ->]|Hkv].
  - cbn [snd no_null_item]. apply forallb_forall. intros x Hx.
    apply list_elem_of_In, list_elem_of_filter in Hx as [_ Hx].
    unfold resources_of in Hx.
    destruct (dict_get "resources" manifest) as [[| | | | |rs|]|] eqn:E;
      try by apply elem_of_nil in Hx.
    apply dict_get_Some in E as (pre & post & -> & _).
    specialize (H ("resources", JArr rs)). cbn [snd no_null_item] in H.
    rewrite forallb_forall in H. apply H; [|by apply list_elem_of_In].
    apply in_or_app. right. by left.
  - apply H. by apply list_elem_of_In.
Qed.

(** The frame of the rewrite.  On a well-formed manifest whose [resources]
    is a list or absent, that holds no [null] in a sequence and no [null]
    href under the known arrays, the rewritten manifest is the input,
    pruned of the [resources] elements whose href is blocked and given a
    [resources] list if it had none, with every reference in scope
    replaced by its href, every blocked reference removed from the object
    or sequence holding it, and every other value and every key left in
    place. *)
Theorem rewrite_manifest_frame (manifest m' : dict)
    (c : list (string * string * string)) (r : list string) :
  wf (JObj manifest) → list_or_absent "resources" manifest →
  no_null_item (JObj manifest) = true → no_null_href manifest = true →
  rewrite_manifest out_root manifest = Ok (m', c, r) →
  JObj m' = mirrored out_root (JObj (pruned manifest)).
Proof.
  intros Hwf Hres Hnull Hhref Hrw.
  rewrite (rewrite_manifest_rep _ _ _ _ Hwf Hres Hhref Hrw).
  by apply replaced_mirrored, no_null_item_pruned.
Qed.
End FrameWhole.

Example rewrite_manifest_frame_known :
  JObj [("links", JArr [JObj [("href", JStr "/good.com/a__q_7caf6056.html");
                              ("rel", JStr "self")]]);
        ("metadata", JObj [("title", JNull); ("pages", JInt 3)]);
        ("resources",
         JArr [JObj [("href", JStr "cover.jpg"); ("alt", JArr [JBool true])]])] =
  mirrored (Pathlib.parse "./local_www")
    (JObj (pruned
       [("links", JArr [JObj [("href", JStr "https://good.com/a?x=1");
                              ("rel", JStr "self")]]);
        ("metadata", JObj [("identifier", JStr "https://connect.facebook.net/id");
                           ("title", JNull); ("pages", JInt 3)]);
        ("resources",
         JArr [JObj [("href", JStr "https://googletagmanager.com/gtm.js")];
               JObj [("href", JStr "cover.jpg");
                     ("alt", JArr [JStr "https://analytics.example.com/p";
                                   JBool true])]])])).
Proof.
  apply (rewrite_manifest_frame (Pathlib.parse "./local_www") _ _
    [("https://good.com/a?x=1", "/good.com/a__q_7caf6056.html",
      "local_www/good.com/a__q_7caf6056.html")]
    ["https://googletagmanager.com/gtm.js"; "https://connect.facebook.net/id";
     "https://analytics.example.com/p"]).
  - apply wfb_wf. reflexivity.
  - right. eexists. reflexivity.
  - reflexivity.
  - reflexivity.
  - vm_compute. reflexivity.
Qed.

(** The [resources] loop drops the whole element of a blocked href, its
    other fields with it. *)
Example resources_element_dropped :
  let manifest : dict :=
    [("resources",
      JArr [JObj [("href", JStr "https://googletagmanager.com/gtm.js");
                  ("type", JStr "text/javascript")]])] in
  rewrite_manifest (Pathlib.parse "./local_www") manifest =
    Ok ([("resources", JArr [])], [], ["https://googletagmanager.com/gtm.js"]).
Proof. vm_compute. reflexivity. Qed.

(** C4: the code at the failing input.  The claim keeps the [null]
    elements a sequence already held; the filter that closes the loop over
    a sequence, commented [remove None introduced], removes every [None]:
    the manifest [{"pages": [null, 1]}], which holds no reference at all,
    comes back as [{"pages": [1], "resources": []}], where the result the
    claim describes keeps the [null].  The loop over the known arrays has
    the same slip: it pops an [href] that was [null] before, where the
    [resources] and [metadata] paths test [isinstance(.., str)] first. *)
Theorem C4_preexisting_null_removed (out_root : Pathlib.Path) :
  let manifest : dict := [("pages", JArr [JNull; JInt 1])] in
  in_scope_urls (JObj manifest) = [] ∧ blocked_urls (JObj manifest) = [] ∧
  mirrored out_root (JObj manifest) = JObj manifest ∧
  rewrite_manifest out_root manifest =
    Ok ([("pages", JArr [JInt 1]); ("resources", JArr [])], [], []) ∧
  rewrite_manifest out_root
    [("links", JArr [JObj [("href", JNull); ("rel", JStr "self")]])] =
    Ok ([("links", JArr [JObj [("rel", JStr "self")]]); ("resources", JArr [])],
        [], []).
Proof. cbv zeta. repeat split. Qed.

(** The scenario of the specification, end to end. *)
Example scenario :
  let manifest : dict :=
    [("links", JArr [JObj [("href", JStr "https://good.com/a?x=1")]]);
     ("resources",
      JArr [JObj [("href", JStr "https://googletagmanager.com/gtm.js")]])] in
  rewrite_manifest (Pathlib.parse "./local_www") manifest =
    Ok ([("links", JArr [JObj [("href", JStr "/good.com/a__q_7caf6056.html")]]);
         ("resources", JArr [])],
        [("https://good.com/a?x=1", "/good.com/a__q_7caf6056.html",
          "local_www/good.com/a__q_7caf6056.html")],
        ["https://googletagmanager.com/gtm.js"]) ∧
  verify_summary (λ _ _, Response 200 ["body"]) (λ _, None)
                 (Pathlib.parse "./local_www") manifest false =
    Ok {| found_urls_count := 1;
          downloads_total_bytes := 4;
          download_failures := [];
          rewritten_count := 1;
          removed_blocked := 1 |}.
Proof. cbv zeta. split; vm_compute; reflexivity. Qed.

(** * The fetcher in general *)

Section FetchOne.
Variable net : string → nat → attempt.

Lemma body_length_from (chunks : list string) (total : Z) :
  fold_left (λ total chunk,
               if Str.eqb chunk EmptyString then total
               else (total + Z.of_nat (String.length chunk))%Z)
            chunks total = (total + content_length chunks)%Z.
Proof.
  unfold content_length. revert total.
  induction chunks as [|c chunks IH]; intros total; cbn [fold_left map].
  - cbn. lia.
  - rewrite IH. change (sum_list (String.length c :: map String.length chunks)) with (String.length c + sum_list (map String.length chunks)). unfold Str.eqb.
    destruct c; [rewrite bool_decide_eq_true_2 by done|
                 rewrite bool_decide_eq_false_2 by done];
      cbn [String.length]; lia.
Qed.

Lemma body_length_content (chunks : list string) :
  body_length chunks = content_length chunks.
Proof. unfold body_length. by rewrite body_length_from. Qed.

Lemma content_length_nonneg (chunks : list string) :
  (0 ≤ content_length chunks)%Z.
Proof. unfold content_length. lia. Qed.

(** [j] passes that meet a transport fault leave the loop where it was,
    [j] tries later. *)
Lemma download_loop_retried (url : string) (j fuel tries : nat)
    (last_exc : option exn) (trace : list event) :
  (∀ i, tries < i ≤ tries + j → ∃ resp, net url i = Fault (RequestException resp)) →
  download_loop net url (j + fuel) tries last_exc trace =
  download_loop net url fuel (tries + j)
    (match j with
     | O => last_exc
     | S _ => match net url (tries + j) with
              | Fault e => Some e
              | Response _ _ => None
              end
     end)
    (trace ++ flat_map (λ i, [Attempt i; Sleep (backoff i)]) (seq (S tries) j)).
Proof.
  revert tries last_exc trace.
  induction j as [|j IH]; intros tries last_exc trace Hnet.
  - cbn [plus seq flat_map]. by rewrite Nat.add_0_r, List.app_nil_r.
  - cbn [plus download_loop seq flat_map].
    destruct (Hnet (S tries)) as [resp Hresp]; [lia|]. rewrite Hresp.
    rewrite IH by (intros i Hi; apply Hnet; lia).
    replace (S tries + j) with (tries + S j) by lia.
    rewrite <- !List.app_assoc. cbn [app]. f_equal.
    destruct j; [|done]. by rewrite Nat.add_1_r, Hresp.
Qed.

Lemma attempts_app (t1 t2 : list event) :
  attempts (t1 ++ t2) = attempts t1 + attempts t2.
Proof. unfold attempts. by rewrite filter_app, length_app. Qed.

Lemma attempts_request (t : list event) (k : nat) :
  attempts (t ++ [Attempt k]) = S (attempts t).
Proof. rewrite attempts_app. change (attempts [Attempt k]) with 1. lia. Qed.

Lemma attempts_sleep (t : list event) (seconds : QArith_base.Q) :
  attempts (t ++ [Sleep seconds]) = attempts t.
Proof. rewrite attempts_app. change (attempts [Sleep seconds]) with 0. lia. Qed.

Lemma attempts_retried_from (start k : nat) :
  attempts (flat_map (λ i, [Attempt i; Sleep (backoff i)]) (seq start k)) = k.
Proof.
  revert start. induction k as [|k IH]; intros start; [done|].
  cbn [seq flat_map]. change (?a :: ?b :: ?l) with ([a; b] ++ l) at 1.
  rewrite attempts_app, IH. done.
Qed.

(** What one run of the loop can do, whatever the network does. *)
Lemma download_loop_inv (url : string) (fuel tries : nat)
    (last_exc : option exn) (trace : list event)
    (r : res (bool * option Z * Z)) (trace' : list event) :
  download_loop net url fuel tries last_exc trace = (r, trace') →
  attempts trace = tries →
  tries ≤ attempts trace' ≤ tries + fuel ∧
  match r with
  | Ok (true, st, b) =>
      tries < attempts trace' ∧ st = Some 200%Z ∧
      ∃ chunks, net url (attempts trace') = Response 200 chunks ∧
                b = content_length chunks
  | Ok (false, st, b) =>
      b = 0%Z ∧
      ((∃ s chunks, tries < attempts trace' ∧
                    net url (attempts trace') = Response s chunks ∧
                    s ≠ 200%Z ∧ st = Some s) ∨
       (attempts trace' = tries + fuel ∧
        match fuel with
        | O => ∃ e, last_exc = Some e ∧ st = last_status e
        | S _ => ∃ resp, net url (tries + fuel) = Fault (RequestException resp) ∧
                         st = last_status (RequestException resp)
        end))
  | Raise e =>
      (fuel = 0 ∧ last_exc = None ∧ e = UnboundLocalError) ∨
      (tries < attempts trace' ∧ net url (attempts trace') = Fault e ∧
       ∀ resp, e ≠ RequestException resp)
  end.
Proof.
  revert tries last_exc trace.
  induction fuel as [|fuel IH]; intros tries last_exc trace Hrun Htr.
  - cbn [download_loop] in Hrun.
    destruct last_exc as [e|]; simplify_eq; (split; [lia|]).
    + split; [done|]. right. split; [lia|]. by eexists.
    + by left.
  - cbn [download_loop] in Hrun.
    assert (attempts (trace ++ [Attempt (S tries)]) = S tries) as Htr'.
    { by rewrite attempts_request, Htr. }
    destruct (net url (S tries)) as [e|s chunks] eqn:Hnet.
    + destruct e as [| | | |resp];
        try (simplify_eq; rewrite Htr'; split; [lia|]; right;
             split; [lia|]; split; [done|]; by intros).
      apply IH in Hrun as [Hle Hr].
      2:{ by rewrite attempts_sleep. }
      split; [lia|]. destruct r as [[[[] st] b]|e].
      * destruct Hr as (? & ? & ?). split; [lia|done].
      * destruct Hr as [-> Hr]. split; [done|].
        destruct Hr as [(s & chunks & ? & ? & ? & ?)|[Hall Hlast]].
        -- left. exists s, chunks. split; [lia|done].
        -- right. split; [lia|]. destruct fuel as [|fuel].
           ++ destruct Hlast as (e & [= <-] & ->). exists resp.
              by rewrite Nat.add_1_r.
           ++ by replace (tries + S (S fuel)) with (S tries + S fuel) by lia.
      * destruct Hr as [(? & ? & ?)|(? & ? & ?)]; [done|].
        right. split; [lia|done].
    + destruct (negb (s =? 200)%Z) eqn:Hs; simplify_eq; rewrite Htr'.
      * split; [lia|]. split; [done|]. left. exists s, chunks.
        apply negb_true_iff, Z.eqb_neq in Hs. split; [lia|done].
      * apply negb_false_iff, Z.eqb_eq in Hs as ->.
        split; [lia|]. split; [lia|]. split; [done|].
        exists chunks. by rewrite body_length_content.
Qed.

Lemma last_status_reported (resp : option Z) :
  last_status (RequestException resp) = reported_status resp.
Proof.
  unfold last_status, reported_status, response_ok.
  destruct resp as [s|]; [|done].
  case_decide as H.
  - destruct H as [[? ?]| ->]; [|done].
    replace (400 <=? s)%Z with true by (symmetry; by apply Z.leb_le).
    replace (s <? 600)%Z with true by (symmetry; by apply Z.ltb_lt). done.
  - destruct (400 <=? s)%Z eqn:E1, (s <? 600)%Z eqn:E2, (s =? 0)%Z eqn:E3;
      try done; exfalso; apply H.
    + left. split; [by apply Z.leb_le|by apply Z.ltb_lt].
    + left. split; [by apply Z.leb_le|by apply Z.ltb_lt].
    + right. by apply Z.eqb_eq.
    + right. by apply Z.eqb_eq.
    + right. by apply Z.eqb_eq.
Qed.

(** X1: A response at pass [k], after [k - 1] transport faults, ends the
    loop whatever its status: with status 200 the body is stored and its
    length reported, the empty chunks the loop skips adding nothing; with
    any other status the URL has failed at once, the retries left are not
    used.  The trace holds the [k] requests and the sleeps of [i] times
    the base delay after the failed ones. *)
Theorem download_one_answered (url : string) (max_retries k : nat)
    (status_code : Z) (chunks : list string) :
  1 ≤ k ≤ max_retries →
  (∀ i, 1 ≤ i < k → ∃ resp, net url i = Fault (RequestException resp)) →
  net url k = Response status_code chunks →
  download_one net url max_retries =
    (Ok (if decide (status_code = 200%Z)
         then (true, Some 200%Z, content_length chunks)
         else (false, Some status_code, 0%Z)),
     retried (k - 1) ++ [Attempt k]).
Proof.
  intros [Hk Hmax] Hfaults Hresp. unfold download_one.
  replace max_retries with ((k - 1) + S (max_retries - k)) by lia.
  rewrite download_loop_retried by (intros i Hi; apply Hfaults; lia).
  cbn [download_loop plus app].
  replace (S (k - 1)) with k by lia. rewrite Hresp.
  case_decide as Hs.
  - subst. change (negb (200 =? 200)%Z) with false. cbv iota.
    by rewrite body_length_content.
  - apply Z.eqb_neq in Hs. by rewrite Hs.
Qed.

(** X2: When every pass meets a transport fault, the URL has failed after
    [max_retries] requests, and the status reported is the one of the last
    exception only: an exception without a response, or whose response is
    a 4xx or a 5xx (a falsy [Response]) or has status 0, reports no
    status. *)
Theorem download_one_exhausted (url : string) (max_retries : nat)
    (resp : nat → option Z) :
  1 ≤ max_retries →
  (∀ i, 1 ≤ i ≤ max_retries → net url i = Fault (RequestException (resp i))) →
  download_one net url max_retries =
    (Ok (false, reported_status (resp max_retries), 0%Z),
     retried max_retries).
Proof.
  intros Hmax Hfaults. unfold download_one.
  replace max_retries with (max_retries + 0) at 1 by lia.
  rewrite download_loop_retried
    by (intros i Hi; eexists; apply Hfaults; lia).
  cbn [download_loop plus app]. rewrite Hfaults by lia.
  destruct max_retries as [|n]; [lia|].
  by rewrite last_status_reported.
Qed.

(** X3: Whatever the network does, [download_one] sends at most [max_retries]
    requests; it reports success only for a 200 response, with the length
    of that response's body; a failure reports no bytes; and it raises
    only what the last pass raised that was not a [RequestException], or,
    with [max_retries = 0], [UnboundLocalError] for the variable it never
    assigned. *)
Theorem download_one_bounded (url : string) (max_retries : nat)
    (r : res (bool * option Z * Z)) (trace : list event) :
  download_one net url max_retries = (r, trace) →
  attempts trace ≤ max_retries ∧
  match r with
  | Ok (ok, status, bts) =>
      1 ≤ attempts trace ∧
      (ok = true →
         status = Some 200%Z ∧
         ∃ chunks, net url (attempts trace) = Response 200 chunks ∧
                   bts = content_length chunks) ∧
      (ok = false → bts = 0%Z)
  | Raise e =>
      (max_retries = 0 ∧ e = UnboundLocalError) ∨
      (net url (attempts trace) = Fault e ∧ ∀ resp, e ≠ RequestException resp)
  end.
Proof.
  unfold download_one. intros Hrun.
  apply download_loop_inv in Hrun as [Hle Hr]; [|done].
  split; [lia|]. destruct r as [[[[] st] b]|e].
  - destruct Hr as (? & ? & ?). split; [lia|]. split; [done|]. by intros.
  - destruct Hr as [-> Hr]. split; [|by split].
    destruct Hr as [(? & ? & ? & _)|[-> Hlast]]; [lia|].
    destruct max_retries; [|lia]. by destruct Hlast as (? & ? & _).
  - destruct Hr as [(? & _ & ?)|(_ & ? & ?)]; [by left|by right].
Qed.

End FetchOne.

Lemma download_one_answered_witness :
  download_one flaky "http://a/x" 3 =
    (Ok (true, Some 200%Z, 5%Z),
     [Attempt 1; Sleep (backoff 1); Attempt 2; Sleep (backoff 2); Attempt 3]).
Proof.
  apply (download_one_answered flaky "http://a/x" 3 3 200
           ["ab"; EmptyString; "cde"]).
  - lia.
  - intros i Hi. exists (Some 503%Z).
    destruct i as [|[|[|i]]]; [lia|done|done|lia].
  - reflexivity.
Defined.

Lemma download_one_exhausted_witness :
  download_one flaky "http://a/x" 2 =
    (Ok (false, None, 0%Z),
     [Attempt 1; Sleep (backoff 1); Attempt 2; Sleep (backoff 2)]).
Proof.
  apply (download_one_exhausted flaky "http://a/x" 2 (λ _, Some 503%Z)).
  - lia.
  - intros i Hi. destruct i as [|[|[|i]]]; [lia|done|done|lia].
Defined.

Lemma download_one_bounded_witness :
  attempts [Attempt 1; Sleep (backoff 1); Attempt 2; Sleep (backoff 2);
            Attempt 3] ≤ 3 ∧
  1 ≤ 3 ∧
  (true = true →
   Some 200%Z = Some 200%Z ∧
   ∃ chunks, flaky "http://a/x" 3 = Response 200 chunks ∧
             5%Z = content_length chunks) ∧
  (true = false → 5%Z = 0%Z).
Proof.
  apply (download_one_bounded flaky "http://a/x" 3 (Ok (true, Some 200%Z, 5%Z))).
  reflexivity.
Defined.

Section FetchAll.
Variable net : string → nat → attempt.
Variable file_size : Pathlib.Path → option Z.
Variable out_root : Pathlib.Path.

Lemma failed_urls_snoc (rs : list (string * outcome)) (u : string) (o : outcome) :
  failed_urls (rs ++ [(u, o)]) = failed_urls rs ++ (if ok o then [] else [u]).
Proof.
  unfold failed_urls. rewrite filter_app, map_app. f_equal.
  destruct (ok o) eqn:E.
  - by rewrite filter_cons_False by (cbn; by rewrite E).
  - by rewrite filter_cons_True by done.
Qed.

Lemma fetched_bytes_snoc (rs : list (string * outcome)) (u : string) (o : outcome) :
  fetched_bytes (rs ++ [(u, o)]) =
  (fetched_bytes rs + (if ok o then bytes o else 0))%Z.
Proof.
  unfold fetched_bytes. induction rs as [|r rs IH]; cbn [app foldr snd].
  - destruct (ok o); lia.
  - rewrite IH. destruct (ok r.2), (ok o); lia.
Qed.

Lemma settled_record (u : string) (o : outcome) (acc : fetched) :
  settled acc → settled (record_outcome u o acc).
Proof.
  intros [Hf Hb]. split; cbn [record_outcome failed total_bytes results].
  - rewrite failed_urls_snoc, Hf. destruct (ok o); [by rewrite List.app_nil_r|done].
  - rewrite fetched_bytes_snoc, Hb. destruct (ok o); lia.
Qed.

(** the first loop: every URL is mapped, then recorded or submitted *)
Lemma submit_spec (urls : list string) (skip_existing : bool) (acc acc' : fetched)
    (futures futures' : list (string * Pathlib.Path * string)) :
  submit file_size out_root urls skip_existing acc futures = Ok (acc', futures') →
  ∃ present pending,
    results acc' = results acc ++ present ∧
    futures' = futures ++ pending ∧
    (settled acc → settled acc') ∧
    present.*1 ++ pending.*1.*1 ≡ₚ urls ∧
    Forall (λ r, ∃ lp h size,
              url_to_local_path r.1 out_root = Ok (lp, h) ∧
              skip_existing = true ∧ file_size lp = Some size ∧
              r.2 = {| ok := true; status := Some 200%Z; bytes := size;
                       local := Pathlib.to_str lp; href := h |}) present ∧
    Forall (λ f, url_to_local_path f.1.1 out_root = Ok (f.1.2, f.2) ∧
                 (if skip_existing then file_size f.1.2 else None) = None)
           pending.
Proof.
  revert acc futures. induction urls as [|u urls IH]; intros acc futures.
  - intros [= <- <-]. exists [], []. by rewrite !List.app_nil_r.
  - cbn [submit].
    destruct (url_to_local_path u out_root) as [[lp h]|e] eqn:Hu; [|done].
    unbind.
    destruct (if skip_existing then file_size lp else None) as [size|] eqn:Hfs.
    + intros (present & pending & Hres & -> & Hset & Hperm & Hpres & Hpend)%IH.
      cbn [record_outcome results] in Hres.
      eexists (_ :: present), pending. rewrite Hres, <- List.app_assoc.
      split; [done|]. split; [done|].
      split; [intros ?; by apply Hset, settled_record|].
      split; [cbn; by rewrite Hperm|]. split; [|done].
      constructor; [|done]. exists lp, h, size. cbn [fst snd].
      destruct skip_existing; done.
    + intros (present & pending & Hres & -> & Hset & Hperm & Hpres & Hpend)%IH.
      exists present, ((u, lp, h) :: pending). rewrite <- List.app_assoc.
      split; [done|]. split; [done|]. split; [done|].
      split; [cbn; by rewrite <- Permutation_middle, Hperm|]. split; [done|].
      by constructor.
Qed.

(** the second loop: one outcome per future *)
Lemma completed_all (futures : list (string * Pathlib.Path * string))
    (acc : fetched) :
  let acc' :=
    fold_left (λ acc future, record_outcome future.1.1 (completed net future) acc)
              futures acc in
  results acc' = results acc ++ map (λ f, (f.1.1, completed net f)) futures ∧
  (settled acc → settled acc').
Proof.
  cbv zeta. revert acc. induction futures as [|f futures IH]; intros acc.
  - cbn. by rewrite List.app_nil_r.
  - cbn [fold_left map]. destruct (IH (record_outcome f.1.1 (completed net f) acc))
      as [-> Hset].
    cbn [record_outcome results]. rewrite <- List.app_assoc. split; [done|].
    intros ?. by apply Hset, settled_record.
Qed.

Lemma download_urls_spec (urls : list string) (skip_existing : bool) (f : fetched) :
  download_urls net file_size out_root urls skip_existing = Ok f →
  settled f ∧
  ∃ present pending,
    results f = present ++ map (λ f, (f.1.1, completed net f)) pending ∧
    present.*1 ++ pending.*1.*1 ≡ₚ urls ∧
    Forall (λ r, ∃ lp h size,
              url_to_local_path r.1 out_root = Ok (lp, h) ∧
              skip_existing = true ∧ file_size lp = Some size ∧
              r.2 = {| ok := true; status := Some 200%Z; bytes := size;
                       local := Pathlib.to_str lp; href := h |}) present ∧
    Forall (λ f, url_to_local_path f.1.1 out_root = Ok (f.1.2, f.2) ∧
                 (if skip_existing then file_size f.1.2 else None) = None)
           pending.
Proof.
  unfold download_urls.
  destruct (submit _ _ _ _ _ _) as [[acc futures]|e] eqn:Hsub; [|done].
  unbind. intros [= <-].
  apply submit_spec in Hsub
    as (present & pending & Hres & -> & Hset & Hperm & Hpres & Hpend).
  destruct (completed_all pending acc) as [Hres' Hset'].
  split; [by apply Hset', Hset|].
  exists present, pending. cbn [app]. by rewrite Hres', Hres.
Qed.

Lemma completed_ok (future : string * Pathlib.Path * string) :
  ok (completed net future) = true → status (completed net future) = Some 200%Z.
Proof.
  destruct future as [[u lp] h]. unfold completed, fut_result.
  destruct (download_one net u 3) as [r trace] eqn:Hrun. cbn [fst].
  apply download_loop_inv in Hrun as [_ Hr]; [|done].
  destruct r as [[[[] st] b]|e]; cbn [ok status]; [|done|done].
  by destruct Hr as (_ & -> & _).
Qed.

(** X4: [download_urls] records one outcome for every URL it is given, and the
    outcome of a URL depends on nothing but that URL: when [skip_existing]
    is set and the file the mapper names exists, a success with status
    200 and the size of that file, whatever the network would answer;
    otherwise what [download_one] returns in three tries, an exception it
    raises being recorded as a failure without status.  Either way the
    outcome carries the mapper's path and link. *)
Theorem download_urls_outcomes (urls : list string) (skip_existing : bool)
    (f : fetched) :
  NoDup urls →
  download_urls net file_size out_root urls skip_existing = Ok f →
  (results f).*1 ≡ₚ urls ∧
  ∀ u o, (u, o) ∈ results f ↔
         u ∈ urls ∧
         ∃ local_path manifest_href,
           url_to_local_path u out_root = Ok (local_path, manifest_href) ∧
           o = recorded net file_size skip_existing u local_path manifest_href.
Proof.
  intros _.
  intros (_ & present & pending & Hres & Hperm & Hpres & Hpend)%download_urls_spec.
  split.
  { rewrite Hres, fmap_app, <- Hperm. f_equal.
    rewrite <- !list_fmap_compose. done. }
  assert (∀ u, u ∈ urls ↔ u ∈ present.*1 ∨ u ∈ pending.*1.*1) as Hin.
  { intros u. by rewrite <- Hperm, elem_of_app. }
  intros u o. rewrite Hres, elem_of_app, Hin. split.
  - intros [Hu|Hu].
    + split; [left; by apply (list_elem_of_fmap_2 fst _ (u, o))|].
      rewrite Forall_forall in Hpres.
      destruct (Hpres _ Hu) as (lp & h & size & Hmap & -> & Hfs & Ho).
      exists lp, h. split; [done|]. unfold recorded. by rewrite Hfs.
    + apply list_elem_of_fmap in Hu as ([[u' lp] h] & [= -> ->] & Hf).
      split.
      { right. apply list_elem_of_fmap. exists (u', lp). split; [done|].
        apply list_elem_of_fmap. by exists (u', lp, h). }
      rewrite Forall_forall in Hpend. destruct (Hpend _ Hf) as [Hmap Hfs].
      exists lp, h. split; [done|]. unfold recorded.
      cbn [fst snd] in Hfs. by rewrite Hfs.
  - intros [[Hu|Hu] (lp & h & Hmap & ->)].
    + left. apply list_elem_of_fmap in Hu as ([u' o'] & -> & Hr).
      rewrite Forall_forall in Hpres.
      destruct (Hpres _ Hr) as (lp' & h' & size & Hmap' & -> & Hfs & Ho).
      cbn [fst snd] in *. rewrite Hmap in Hmap'. simplify_eq.
      unfold recorded. by rewrite Hfs.
    + right. apply list_elem_of_fmap in Hu as ([u' lp'] & -> & Hr).
      apply list_elem_of_fmap in Hr as ([[u'' lp''] h'] & [= -> ->] & Hf).
      rewrite Forall_forall in Hpend. destruct (Hpend _ Hf) as [Hmap' Hfs].
      cbn [fst snd] in *. rewrite Hmap in Hmap'. simplify_eq.
      unfold recorded. rewrite Hfs.
      apply list_elem_of_fmap. by exists (u'', lp'', h').
Qed.

(** X5: The totals [download_urls] returns agree with the outcomes it
    returns: the failures are the URLs whose outcome is not a success, in
    the order of the outcomes; the byte count is the sum over the
    successes; and a success always carries status 200. *)
Theorem download_urls_totals (urls : list string) (skip_existing : bool)
    (f : fetched) :
  NoDup urls →
  download_urls net file_size out_root urls skip_existing = Ok f →
  failed f = failed_urls (results f) ∧
  total_bytes f = fetched_bytes (results f) ∧
  Forall (λ r, ok r.2 = true → status r.2 = Some 200%Z) (results f).
Proof.
  intros _.
  intros ([Hf Hb] & present & pending & Hres & _ & Hpres & _)%download_urls_spec.
  split; [done|]. split; [done|].
  rewrite Hres. apply Forall_app. split.
  - eapply Forall_impl; [apply Hpres|]. cbn beta.
    intros r (lp & h & size & _ & _ & _ & ->). done.
  - apply Forall_fmap, Forall_forall. intros fut _. exact (completed_ok fut).
Qed.

Lemma submit_refused (urls : list string) (skip_existing : bool)
    (acc : fetched) (futures : list (string * Pathlib.Path * string))
    (u : string) :
  u ∈ urls → accepted u = false →
  submit file_size out_root urls skip_existing acc futures = Raise ValueError.
Proof.
  intros Hin Hu. revert acc futures.
  induction urls as [|u' urls IH]; intros acc futures.
  - by apply elem_of_nil in Hin.
  - cbn [submit]. destruct (accepted u') eqn:Hu'.
    + destruct (accepted_mapped out_root u' Hu') as (lp & h & -> & _).
      unbind. apply elem_of_cons in Hin as [->|Hin]; [congruence|].
      destruct (if skip_existing then file_size lp else None); by apply IH.
    + by rewrite url_to_local_path_Raise.
Qed.

(** X6: [download_urls] maps every URL in its first loop, outside every
    [try]: when [urlparse] refuses one of the URLs, the call does not
    return, whatever the other URLs are and whether or not their files
    are there already, so that no outcome is reported for any of them. *)
Theorem download_urls_refused (urls : list string) (skip_existing : bool)
    (u : string) :
  u ∈ urls → accepted u = false →
  ∀ f, download_urls net file_size out_root urls skip_existing ≠ Ok f.
Proof.
  intros Hin Hu f. unfold download_urls.
  by rewrite (submit_refused _ _ _ _ u Hin Hu).
Qed.

End FetchAll.

Lemma download_urls_outcomes_witness :
  ∃ f, download_urls flaky (λ _, Some 7%Z) (Pathlib.parse "out")
         ["http://a/x"; "http://b/y?z"] true = Ok f ∧
       (results f).*1 ≡ₚ ["http://a/x"; "http://b/y?z"].
Proof.
  eexists. split; [vm_compute; reflexivity|].
  apply (download_urls_outcomes flaky (λ _, Some 7%Z) (Pathlib.parse "out")
           ["http://a/x"; "http://b/y?z"] true).
  - apply (bool_decide_unpack _). reflexivity.
  - vm_compute. reflexivity.
Defined.

Lemma download_urls_refused_witness :
  accepted "http://a/x" = true ∧ accepted "http://[bad/y" = false ∧
  ∀ f, download_urls flaky (λ _, Some 7%Z) (Pathlib.parse "out")
         ["http://a/x"; "http://[bad/y"] true ≠ Ok f.
Proof.
  split; [reflexivity|]. split; [reflexivity|].
  apply (download_urls_refused flaky (λ _, Some 7%Z) (Pathlib.parse "out")
           ["http://a/x"; "http://[bad/y"] true "http://[bad/y").
  - apply (bool_decide_unpack _). reflexivity.
  - reflexivity.
Defined.

Lemma download_urls_totals_witness :
  ∃ f, download_urls flaky (λ _, None) (Pathlib.parse "out")
         ["http://a/x"; "http://b/y?z"] true = Ok f ∧
       failed f = failed_urls (results f) ∧
       total_bytes f = fetched_bytes (results f) ∧
       Forall (λ r, ok r.2 = true → status r.2 = Some 200%Z) (results f).
Proof.
  eexists. split; [vm_compute; reflexivity|].
  apply (download_urls_totals flaky (λ _, None) (Pathlib.parse "out")
           ["http://a/x"; "http://b/y?z"] true).
  - apply (bool_decide_unpack _). reflexivity.
  - vm_compute. reflexivity.
Defined.

(** * The path mapper: links and paths *)

Lemma split_nonempty (c : ascii) (s : string) : Str.split c s ≠ [].
Proof.
  destruct s as [|b s]; [done|]. cbn [Str.split].
  destruct (Ascii.eqb b c); [done|]. by destruct (Str.split c s).
Qed.

Lemma split_app_sep (c : ascii) (a b : string) :
  Str.split c (a +:+ String c b) = Str.split c a ++ Str.split c b.
Proof.
  induction a as [|x a IH].
  - rewrite str_app_nil_l. cbn [Str.split]. by rewrite Ascii.eqb_refl.
  - rewrite str_app_cons. cbn [Str.split]. rewrite IH.
    destruct (Ascii.eqb x c); [done|].
    pose proof (split_nonempty c a). by destruct (Str.split c a).
Qed.

(** ["/".join(s.split("/")) == s] *)
Lemma join_split (c : ascii) (s : string) :
  Str.join (String c EmptyString) (Str.split c s) = s.
Proof.
  induction s as [|b s IH]; [done|]. cbn [Str.split].
  pose proof (split_nonempty c s) as Hne.
  destruct (Ascii.eqb_spec b c) as [->|Hbc].
  - destruct (Str.split c s) as [|f fs] eqn:E; [done|].
    change (Str.join (String c EmptyString) (EmptyString :: f :: fs))
      with (EmptyString +:+ String c EmptyString +:+
            Str.join (String c EmptyString) (f :: fs)).
    by rewrite IH.
  - destruct (Str.split c s) as [|f fs] eqn:E; [done|].
    destruct fs as [|g fs]; cbn [Str.join] in *; [by rewrite IH|].
    by rewrite str_app_cons, IH.
Qed.

Lemma split_fields_no_sep (c : ascii) (s : string) :
  Forall (λ x, Str.mem c x = false) (Str.split c s).
Proof.
  induction s as [|b s IH]; [by repeat constructor|]. cbn [Str.split].
  destruct (Ascii.eqb_spec b c) as [->|Hbc]; [by constructor|].
  pose proof (split_nonempty c s) as Hne.
  destruct (Str.split c s) as [|f fs]; [done|].
  apply Forall_cons in IH as [Hf Hfs]. constructor; [|done].
  cbn [Str.mem]. rewrite Hf, orb_false_r.
  destruct (Ascii.eqb_spec c b); [congruence|done].
Qed.

Lemma split_join (c : ascii) (l : list string) :
  l ≠ [] → Forall (λ x, Str.mem c x = false) l →
  Str.split c (Str.join (String c EmptyString) l) = l.
Proof.
  induction l as [|x l IH]; [done|]. intros _ [Hx Hl]%Forall_cons.
  destruct l as [|y l]; [by apply split_no_sep|].
  change (Str.join (String c EmptyString) (x :: y :: l))
    with (x +:+ String c EmptyString +:+ Str.join (String c EmptyString) (y :: l)).
  change (String c EmptyString +:+ ?t) with (String c t).
  rewrite split_app_sep, IH, split_no_sep by done. done.
Qed.

Lemma lstrip_id (s : string) :
  Str.startswith s "/" = false → Str.lstrip Pathlib.is_sep s = s.
Proof.
  destruct s as [|a s]; [done|]. cbn [Str.startswith Str.lstrip].
  unfold Pathlib.is_sep. rewrite Ascii.eqb_sym. intros H.
  apply andb_false_iff in H as [->|H]; [done|]. by destruct s.
Qed.

Lemma filter_keep_lstrip (s : string) :
  filter (λ x, Pathlib.keep_part x = true)
         (Str.split "/" (Str.lstrip Pathlib.is_sep s)) =
  filter (λ x, Pathlib.keep_part x = true) (Str.split "/" s).
Proof.
  induction s as [|a s IH]; [done|]. cbn [Str.lstrip].
  destruct (Pathlib.is_sep a) eqn:E; [|done].
  unfold Pathlib.is_sep in E. apply Ascii.eqb_eq in E as ->.
  cbn [Str.split]. rewrite Ascii.eqb_refl.
  by rewrite filter_cons_False by done.
Qed.

Lemma normal_parse (s : string) : normal (Pathlib.parse s).
Proof.
  unfold normal, Pathlib.parse, Pathlib.splitroot.
  destruct (Str.startswith s "/");
    [destruct (_ =? 2)%nat|]; cbn [Pathlib.root Pathlib.parts];
    (split; [set_solver|]);
    apply Forall_forall; intros x [Hk Hx]%list_elem_of_filter;
    (split; [done|]);
    by eapply (proj1 (Forall_forall _ _) (split_fields_no_sep "/" _)).
Qed.

Lemma normal_joinpath (p : Pathlib.Path) (s : string) :
  normal p → normal (p // s).
Proof.
  intros [Hr Hp]. unfold Pathlib.joinpath.
  pose proof (normal_parse s) as [Hr' Hp'].
  destruct (Str.eqb _ _); [|done].
  split; [done|]. cbn [Pathlib.parts]. by apply Forall_app.
Qed.

Lemma join_normal_parts (ps : list string) :
  ps ≠ [] →
  Forall (λ x, Pathlib.keep_part x = true ∧ Str.mem "/" x = false) ps →
  Str.startswith (Str.join "/" ps) "/" = false ∧
  Str.join "/" ps ≠ EmptyString ∧
  filter (λ x, Pathlib.keep_part x = true) (Str.split "/" (Str.join "/" ps)) = ps.
Proof.
  intros Hne Hps. split; [|split].
  - destruct ps as [|x ps]; [done|]. apply Forall_cons in Hps as [[Hk Hx] _].
    destruct x as [|a x]; [done|].
    cbn [Str.mem] in Hx. apply orb_false_iff in Hx as [Ha _].
    destruct ps; cbn [Str.join]; rewrite ?str_app_cons;
      cbn [Str.startswith]; by rewrite Ha.
  - destruct ps as [|x ps]; [done|]. apply Forall_cons in Hps as [[Hk Hx] _].
    destruct x as [|a x]; [done|]. by destruct ps.
  - rewrite split_join; [|done|by eapply Forall_impl; [done|]; intros ? [_ ?]].
    apply filter_all. by eapply Forall_impl; [done|]; intros ? [? _].
Qed.

(** [PurePosixPath(str(p)) == p] *)
Lemma parse_to_str (p : Pathlib.Path) :
  normal p → Pathlib.parse (Pathlib.to_str p) = p.
Proof.
  destruct p as [r ps]. intros [Hr Hps]. cbn [Pathlib.root Pathlib.parts] in *.
  unfold Pathlib.to_str. cbn [Pathlib.root Pathlib.parts].
  destruct ps as [|x ps].
  - assert (r = EmptyString ∨ r = "/" ∨ r = "//") as [->|[->| ->]]
      by set_solver; done.
  - destruct (join_normal_parts (x :: ps)) as (Hsw & Hnil & Hsplit); [done..|].
    set (j := Str.join "/" (x :: ps)) in *.
    assert (r = EmptyString ∨ r = "/" ∨ r = "//") as [->|[->| ->]]
      by set_solver.
    + rewrite str_app_nil_l. unfold Str.eqb.
      rewrite bool_decide_eq_false_2 by done.
      unfold Pathlib.parse, Pathlib.splitroot. by rewrite Hsw, Hsplit.
    + change ("/" +:+ j) with (String "/" j). unfold Str.eqb.
      rewrite bool_decide_eq_false_2 by done.
      unfold Pathlib.parse, Pathlib.splitroot.
      change (Str.startswith (String "/" j) "/") with true. cbv iota.
      change (Str.lstrip Pathlib.is_sep (String "/" j))
        with (Str.lstrip Pathlib.is_sep j).
      rewrite lstrip_id by done. cbn [String.length].
      replace (S (String.length j) - String.length j =? 2) with false
        by (symmetry; apply Nat.eqb_neq; lia).
      by rewrite Hsplit.
    + change ("//" +:+ j) with (String "/" (String "/" j)). unfold Str.eqb.
      rewrite bool_decide_eq_false_2 by done.
      unfold Pathlib.parse, Pathlib.splitroot.
      change (Str.startswith (String "/" (String "/" j)) "/") with true.
      cbv iota.
      change (Str.lstrip Pathlib.is_sep (String "/" (String "/" j)))
        with (Str.lstrip Pathlib.is_sep j).
      rewrite lstrip_id by done. cbn [String.length].
      replace (S (S (String.length j)) - String.length j =? 2) with true
        by (symmetry; apply Nat.eqb_eq; lia).
      by rewrite Hsplit.
Qed.

(** X7: The link [url_to_local_path] returns is a slash, the network
    location, a slash and the relative path without its leading slashes;
    the file it returns is what that link names under the output root,
    the link's leading slashes taken off: a server rooted at the output
    root finds the download where the rewritten manifest points. *)
Theorem url_to_local_path_link (url : string) (out_root local_path : Pathlib.Path)
    (manifest_href : string) :
  url_to_local_path url out_root = Ok (local_path, manifest_href) →
  ∃ p, Urllib.urlparse url = Ok p ∧
       manifest_href = "/" +:+ Urllib.netloc p +:+ "/" +:+
                       Str.lstrip Pathlib.is_sep (local_rel p) ∧
       local_path = out_root // Str.lstrip Pathlib.is_sep manifest_href.
Proof.
  destruct (Urllib.urlparse url) as [p|e] eqn:Hp.
  2:{ rewrite url_to_local_path_unfold, Hp. done. }
  rewrite (url_to_local_path_accepted _ _ _ Hp).
  set (norm := Str.lstrip Pathlib.is_sep (local_rel p)).
  assert (Str.join "/" (Urllib.netloc p :: Str.split "/" norm) =
          Urllib.netloc p +:+ "/" +:+ norm) as ->.
  { pose proof (split_nonempty "/" norm) as Hne.
    pose proof (join_split "/" norm) as Hjs.
    destruct (Str.split "/" norm) as [|f fs]; [done|].
    change (Str.join "/" (Urllib.netloc p :: f :: fs))
      with (Urllib.netloc p +:+ "/" +:+ Str.join "/" (f :: fs)).
    by rewrite Hjs. }
  intros [= <- <-]. exists p. split; [done|]. split; [done|].
  rewrite joinpath_relative by apply lstrip_not_startswith.
  rewrite filter_keep_lstrip. f_equal. f_equal.
  change ("/" +:+ ?t) with (String "/" t) at 1.
  cbn [Str.split]. rewrite Ascii.eqb_refl.
  rewrite filter_cons_False by done.
  change ("/" +:+ norm) with (String "/" norm).
  rewrite split_app_sep, filter_app. done.
Qed.

(** X8: The path the fetcher stores a file at and the text of that path kept
    in the results and in the change log name the same path: [main]'s
    [Path(local_path)] is the path [url_to_local_path] returned. *)
Theorem local_path_round_trip (url out_root : string)
    (local_path : Pathlib.Path) (manifest_href : string) :
  url_to_local_path url (Pathlib.parse out_root) = Ok (local_path, manifest_href) →
  Pathlib.parse (Pathlib.to_str local_path) = local_path.
Proof.
  rewrite url_to_local_path_unfold.
  destruct (Urllib.urlparse url) as [p|e]; [|done]. unbind. cbv zeta.
  intros [= <- _]. apply parse_to_str.
  by apply normal_joinpath, normal_joinpath, normal_parse.
Qed.

Lemma url_to_local_path_link_witness :
  ∃ p, Urllib.urlparse "https://cdn.example.org/a%20b/c.png?v=2" = Ok p ∧
       "/cdn.example.org/a b/c__q_f67bbdbf.png" =
         "/" +:+ Urllib.netloc p +:+ "/" +:+
         Str.lstrip Pathlib.is_sep (local_rel p) ∧
       {| Pathlib.root := EmptyString;
          Pathlib.parts := ["local_www"; "cdn.example.org"; "a b";
                            "c__q_f67bbdbf.png"] |} =
         Pathlib.parse "./local_www" //
           Str.lstrip Pathlib.is_sep "/cdn.example.org/a b/c__q_f67bbdbf.png".
Proof.
  apply (url_to_local_path_link "https://cdn.example.org/a%20b/c.png?v=2"
           (Pathlib.parse "./local_www")).
  vm_compute. reflexivity.
Defined.

Lemma local_path_round_trip_witness :
  let local_path :=
    {| Pathlib.root := EmptyString;
       Pathlib.parts := ["local_www"; "cdn.example.org"; "a b";
                         "c__q_f67bbdbf.png"] |} in
  Pathlib.to_str local_path = "local_www/cdn.example.org/a b/c__q_f67bbdbf.png" ∧
  Pathlib.parse (Pathlib.to_str local_path) = local_path.
Proof.
  split; [reflexivity|].
  apply (local_path_round_trip "https://cdn.example.org/a%20b/c.png?v=2"
           "./local_www" _ "/cdn.example.org/a b/c__q_f67bbdbf.png").
  vm_compute. reflexivity.
Defined.

(** * The rewrite: its log, its failures, its result *)

(** ** What the log holds *)

Section Sound.
Variable out_root : Pathlib.Path.

Lemma sound_rewrite_string (s : json) (st : log) (new : json) (st' : log) :
  sound out_root st → rewrite_string out_root s st = Ok (new, st') →
  sound out_root st'.
Proof.
  intros [Hc Hr]. unfold rewrite_string.
  destruct s as [| | | |u| |]; try (by intros [= _ <-]).
  destruct (is_http u) eqn:Hu; [|by intros [= _ <-]].
  destruct (is_blocked (JStr u)) eqn:Hb.
  - intros [= _ <-]. split; [done|]. cbn [log_removed removed].
    apply Forall_app. split; [done|]. by constructor.
  - destruct (url_to_local_path u out_root) as [[lp h]|e] eqn:E; [|done].
    unbind. intros [= _ <-]. split; [|done]. cbn [log_changed changed].
    apply Forall_app. split; [done|]. constructor; [|done]. split.
    + unfold in_scope, original. cbn [fst]. by rewrite Hu, Hb.
    + by exists lp.
Qed.

Lemma sound_rewrite_item (it : json) (st : log) (it' : json) (st' : log) :
  sound out_root st → rewrite_item out_root it st = Ok (it', st') →
  sound out_root st'.
Proof.
  intros Hst. unfold rewrite_item.
  destruct it as [| | | | | |d]; try (by intros [= _ <-]).
  destruct (dict_get "href" d) as [href|]; [|by intros [= _ <-]].
  destruct (rewrite_string out_root href st) as [[new st1]|e] eqn:E1; [|done].
  unbind. apply (sound_rewrite_string _ _ _ _ Hst) in E1.
  by destruct (is_none new); intros [= _ <-].
Qed.

Lemma sound_rewrite_items (items : list json) (st : log)
    (items' : list json) (st' : log) :
  sound out_root st → rewrite_items out_root items st = Ok (items', st') →
  sound out_root st'.
Proof.
  revert st items'. induction items as [|it items IH]; intros st items' Hst.
  - by intros [= _ <-].
  - cbn [rewrite_items].
    destruct (rewrite_item out_root it st) as [[it1 st1]|e] eqn:E1; [|done].
    unbind.
    destruct (rewrite_items out_root items st1) as [[items1 st2]|e] eqn:E2;
      [|done].
    unbind. intros [= _ <-].
    eapply IH; [|done]. by eapply sound_rewrite_item.
Qed.

Lemma sound_rewrite_known (key : string) (manifest : dict) (st : log)
    (m' : dict) (st' : log) :
  sound out_root st → rewrite_known out_root key (manifest, st) = Ok (m', st') →
  sound out_root st'.
Proof.
  intros Hst. unfold rewrite_known.
  destruct (dict_get key manifest) as [[| | | | |items|]|];
    try (by intros [= _ <-]).
  destruct (rewrite_items out_root items st) as [[items' st1]|e] eqn:E1; [|done].
  unbind. intros [= _ <-]. by eapply sound_rewrite_items.
Qed.

Lemma sound_rewrite_known_arrays (keys : list string) (manifest : dict)
    (st : log) (m' : dict) (st' : log) :
  sound out_root st →
  rewrite_known_arrays out_root keys (manifest, st) = Ok (m', st') →
  sound out_root st'.
Proof.
  revert manifest st. induction keys as [|key keys IH]; intros m st Hst.
  - by intros [= _ <-].
  - cbn [rewrite_known_arrays].
    destruct (rewrite_known out_root key (m, st)) as [[m1 st1]|e] eqn:E1; [|done].
    unbind. apply IH. by eapply sound_rewrite_known.
Qed.

Lemma sound_rewrite_resource (r : json) (st : log) (kept : option json)
    (st' : log) :
  sound out_root st → rewrite_resource out_root r st = Ok (kept, st') →
  sound out_root st'.
Proof.
  intros Hst. unfold rewrite_resource.
  destruct r as [| | | | | |d]; try (by intros [= _ <-]).
  destruct (dict_get_none "href" d) as [| | | |h| |];
    try (by intros [= _ <-]).
  destruct (is_blocked (JStr h)) eqn:Hb.
  - intros [= _ <-]. destruct Hst as [Hc Hr]. split; [done|].
    cbn [log_removed removed]. apply Forall_app. split; [done|].
    by constructor.
  - destruct (rewrite_string out_root (JStr h) st) as [[new st1]|e] eqn:E1;
      [|done].
    unbind. apply (sound_rewrite_string _ _ _ _ Hst) in E1.
    by destruct (is_none new); intros [= _ <-].
Qed.

Lemma sound_rewrite_resources (rs acc : list json) (st : log)
    (new_resources : list json) (st' : log) :
  sound out_root st →
  rewrite_resources out_root rs acc st = Ok (new_resources, st') →
  sound out_root st'.
Proof.
  revert acc st. induction rs as [|r rs IH]; intros acc st Hst.
  - by intros [= _ <-].
  - cbn [rewrite_resources].
    destruct (rewrite_resource out_root r st) as [[kept st1]|e] eqn:E1; [|done].
    unbind. apply IH. by eapply sound_rewrite_resource.
Qed.

Lemma sound_rewrite_metadata (manifest : dict) (st : log) (m' : dict)
    (st' : log) :
  sound out_root st → rewrite_metadata out_root (manifest, st) = Ok (m', st') →
  sound out_root st'.
Proof.
  intros Hst. unfold rewrite_metadata.
  destruct (dict_get_none "metadata" manifest) as [| | | | | |md];
    try (by intros [= _ <-]).
  destruct (dict_get_none "identifier" md) as [| | | |ident| |];
    try (by intros [= _ <-]).
  destruct (rewrite_string out_root (JStr ident) st) as [[new st1]|e] eqn:E1;
    [|done].
  unbind. intros [= _ <-]. by eapply sound_rewrite_string.
Qed.

Lemma sound_replace_fields (rec : json → log → res (json * log))
    (snapshot o : dict) (st : log) (o' : dict) (st' : log) :
  Forall (λ kv, ∀ st v' st', sound out_root st → rec kv.2 st = Ok (v', st') →
                             sound out_root st') snapshot →
  sound out_root st →
  replace_fields out_root rec snapshot o st = Ok (o', st') →
  sound out_root st'.
Proof.
  revert o st. induction snapshot as [|[k v] snapshot IH]; intros o st Hrec Hst.
  - by intros [= _ <-].
  - apply Forall_cons in Hrec as [Hv Hrec]. cbn [replace_fields].
    assert (∀ o, (v' ← rec v st; let '(v', st) := v' in
                  replace_fields out_root rec snapshot (dict_set k v' o) st)
                 = Ok (o', st') → sound out_root st') as Hother.
    { intros o1. destruct (rec v st) as [[v' st1]|e] eqn:E1; [|done].
      unbind. apply IH; [done|]. by eapply (Hv st). }
    destruct v as [| | | |s| |]; try apply Hother.
    destruct (is_http s); [|by apply IH].
    destruct (rewrite_string out_root (JStr s) st) as [[new st1]|e] eqn:E1;
      [|done].
    unbind. apply (sound_rewrite_string _ _ _ _ Hst) in E1.
    destruct (is_none new); by apply IH.
Qed.

Lemma sound_replace_items (rec : json → log → res (json * log))
    (snapshot : list json) (idx : nat) (o : list json) (st : log)
    (o' : list json) (st' : log) :
  Forall (λ x, ∀ st v' st', sound out_root st → rec x st = Ok (v', st') →
                            sound out_root st') snapshot →
  sound out_root st →
  replace_items out_root rec snapshot idx o st = Ok (o', st') →
  sound out_root st'.
Proof.
  revert idx o st.
  induction snapshot as [|x snapshot IH]; intros idx o st Hrec Hst.
  - by intros [= _ <-].
  - apply Forall_cons in Hrec as [Hx Hrec]. cbn [replace_items].
    assert (∀ o, (v' ← rec x st; let '(v', st) := v' in
                  replace_items out_root rec snapshot (S idx)
                                (<[idx := v']> o) st)
                 = Ok (o', st') → sound out_root st') as Hother.
    { intros o1. destruct (rec x st) as [[v' st1]|e] eqn:E1; [|done].
      unbind. apply IH; [done|]. by eapply (Hx st). }
    destruct x as [| | | |s| |]; try apply Hother.
    destruct (is_http s); [|by apply IH].
    destruct (rewrite_string out_root (JStr s) st) as [[new st1]|e] eqn:E1;
      [|done].
    unbind. apply (sound_rewrite_string _ _ _ _ Hst) in E1.
    destruct (is_none new); by apply IH.
Qed.

Lemma sound_deep_replace (v : json) (st : log) (v' : json) (st' : log) :
  sound out_root st → deep_replace out_root v st = Ok (v', st') →
  sound out_root st'.
Proof.
  revert st v' st'.
  induction v as [| b | n | m e | s | l IH | kvs IH] using json_induction;
    intros st v' st' Hst; try (by intros [= _ <-]).
  - cbn [deep_replace].
    destruct (replace_items _ _ _ _ _ _) as [[l' st1]|e] eqn:E1; [|done].
    unbind. intros [= _ <-]. by eapply sound_replace_items.
  - cbn [deep_replace].
    destruct (replace_fields _ _ _ _ _) as [[d st1]|e] eqn:E1; [|done].
    unbind. intros [= _ <-]. by eapply sound_replace_fields.
Qed.

Lemma sound_rewrite_manifest (manifest m' : dict)
    (c : list (string * string * string)) (r : list string) :
  rewrite_manifest out_root manifest = Ok (m', c, r) →
  sound out_root {| changed := c; removed := r |}.
Proof.
  unfold rewrite_manifest.
  destruct (rewrite_known_arrays _ _ _) as [[m1 st1]|e] eqn:E1; [|done].
  unbind.
  destruct (iterate _) as [rs|e]; [|done]. unbind.
  destruct (rewrite_resources _ _ _ _) as [[new st2]|e] eqn:E2; [|done].
  unbind.
  destruct (rewrite_metadata _ _) as [[m3 st3]|e] eqn:E3; [|done]. unbind.
  destruct (deep_replace _ _ _) as [[o st4]|e] eqn:E4; [|done]. unbind.
  intros [= _ <- <-].
  apply sound_rewrite_known_arrays in E1; [|by split].
  apply (sound_rewrite_resources _ _ _ _ _ E1) in E2.
  apply (sound_rewrite_metadata _ _ _ _ E2) in E3.
  apply (sound_deep_replace _ _ _ _ E3) in E4. by destruct st4.
Qed.

(** X9: Whatever the manifest, the change log the rewrite returns holds only
    references in scope, each with the link and the path
    [url_to_local_path] gives for it under the same output root: the
    log names the files the fetcher stores.  What it returns as removed
    are blocked strings only. *)
Theorem rewrite_manifest_log (manifest m' : dict)
    (c : list (string * string * string)) (r : list string) :
  rewrite_manifest out_root manifest = Ok (m', c, r) →
  Forall (λ e, in_scope (original e) = true ∧
               ∃ local_path,
                 url_to_local_path (original e) out_root =
                   Ok (local_path, e.1.2) ∧
                 e.2 = Pathlib.to_str local_path) c ∧
  Forall (λ u, is_blocked (JStr u) = true) r.
Proof. intros H. exact (sound_rewrite_manifest _ _ _ _ H). Qed.

End Sound.

(** ** Discovery on fields that count as empty *)

Lemma collect_keys_within (manifest : dict) (keys : list string)
    (urls : gset string) :
  Forall (λ key, list_or_absent key manifest ∨
                 truthy (dict_get_default key (JArr []) manifest) = false)
         keys →
  urls ⊆ list_to_set (in_scope_urls (JObj manifest)) →
  ∃ urls', collect_keys manifest keys urls = Ok urls' ∧
           urls' ⊆ list_to_set (in_scope_urls (JObj manifest)).
Proof.
  intros Hkeys. revert urls.
  induction Hkeys as [|key keys Hkey _ IH]; intros urls Hurls.
  - by exists urls.
  - cbn [collect_keys]. destruct Hkey as [Hkey|Hkey].
    + destruct (collect_key_sub manifest key urls Hkey) as (u1 & -> & ? & ?).
      unbind. apply IH. set_solver.
    + unfold collect_key. rewrite Hkey. cbn [iterate fold_left]. unbind.
      by apply IH.
Qed.

Lemma add_identifier_within (manifest : dict) (urls : gset string) :
  urls ⊆ list_to_set (in_scope_urls (JObj manifest)) →
  match dict_get_default "metadata" (JObj []) manifest with
  | JObj md => add_if_http (dict_get_none "identifier" md) urls
  | _ => urls
  end ⊆ list_to_set (in_scope_urls (JObj manifest)).
Proof.
  intros Hsub. unfold dict_get_default.
  destruct (dict_get "metadata" manifest) as [[| | | | | |md]|] eqn:Hmd;
    try done.
  unfold dict_get_none, dict_get_default.
  destruct (dict_get "identifier" md) as [[| | | |ident| |]|] eqn:Hident;
    cbn [add_if_http]; try done.
  fold (in_scope ident). destruct (in_scope ident) eqn:Hin; [|done].
  assert (ident ∈ in_scope_urls (JObj manifest)); [|set_solver].
  apply elem_of_in_scope_urls. split; [done|].
  eapply strings_of_dict_get; [done|].
  eapply strings_of_dict_get; [done|]. cbn [strings_of]. by left.
Qed.

(** Discovery when every recognised field is a list, absent or falsy. *)
Lemma collect_urls_within (manifest : dict) :
  Forall (λ key, list_or_absent key manifest ∨
                 truthy (dict_get_default key (JArr []) manifest) = false)
         ["links"; "images"; "readingOrder"; "resources"] →
  collect_urls_from_manifest manifest =
  Ok (list_to_set (in_scope_urls (JObj manifest))).
Proof.
  intros Hkeys. unfold collect_urls_from_manifest.
  destruct (collect_keys_within manifest _ ∅ Hkeys) as (urls & -> & Hsub);
    [set_solver|].
  unbind. f_equal. rewrite deep_spec.
  pose proof (add_identifier_within manifest urls Hsub). set_solver.
Qed.

(** ** When the rewrite returns *)

Section Returns.
Variable out_root : Pathlib.Path.

Lemma mapper_accepted (u : string) (lp : Pathlib.Path) (h : string) :
  url_to_local_path u out_root = Ok (lp, h) → accepted u = true.
Proof.
  unfold accepted. rewrite url_to_local_path_unfold.
  by destruct (Urllib.urlparse u).
Qed.

(** X10: On a well-formed manifest whose [resources] is a list or absent, the
    rewrite returns exactly when [urlparse] accepts every reference in
    scope outside the [resources] elements that are dropped; otherwise it
    raises [ValueError], and nothing else.  A reference [urlparse]
    refuses inside a dropped element does no harm. *)
Theorem rewrite_manifest_returns (manifest : dict) :
  wf (JObj manifest) → list_or_absent "resources" manifest →
  match rewrite_manifest out_root manifest with
  | Ok _ => mappable (JObj (pruned manifest)) = true
  | Raise e => e = ValueError ∧ mappable (JObj (pruned manifest)) = false
  end.
Proof.
  intros Hwf Hres.
  pose proof (rewrite_manifest_summary out_root manifest Hwf Hres) as H.
  destruct (rewrite_manifest out_root manifest) as [[[m' c] r]|e] eqn:E;
    [|done].
  destruct H as (Hc & _). apply sound_rewrite_manifest in E as [Hmapped _].
  cbn [changed] in Hmapped. apply mappable_spec. intros u Hu.
  rewrite <- Hc in Hu. apply list_elem_of_fmap in Hu as (e & -> & He).
  rewrite Forall_forall in Hmapped.
  destruct (Hmapped e He) as (_ & lp & Hlp & _). by eapply mapper_accepted.
Qed.

(** X11: A [resources] value that cannot be iterated ([null], a boolean, a
    number) makes the rewrite raise: [TypeError], unless [ValueError] came
    first from a reference [urlparse] refuses.  Discovery reads the same
    field through [or []]: when the value is falsy and the other
    recognised fields are lists it returns the references in scope as if
    [resources] were empty, so that [main] fetches everything and then
    fails in the rewrite. *)
Theorem resources_not_iterable (manifest : dict) (v : json) :
  dict_get "resources" manifest = Some v →
  iterate v = Raise TypeError →
  match rewrite_manifest out_root manifest with
  | Ok _ => False
  | Raise e => e = TypeError ∨ e = ValueError ∧ mappable (JObj manifest) = false
  end ∧
  (truthy v = false →
   Forall (λ key, list_or_absent key manifest)
          ["links"; "images"; "readingOrder"] →
   collect_urls_from_manifest manifest =
     Ok (list_to_set (in_scope_urls (JObj manifest)))).
Proof.
  intros Hget Hiter. split.
  - unfold rewrite_manifest.
    pose proof (rewrite_known_arrays_acc out_root
                  ["links"; "images"; "readingOrder"] manifest
                  {| changed := []; removed := [] |}) as H1.
    destruct (rewrite_known_arrays _ _ _) as [[m1 st1]|e] eqn:E1; unbind.
    + apply rewrite_known_arrays_get_ne with (k' := "resources") in E1;
        [|set_solver].
      unfold dict_get_default. rewrite E1, Hget, Hiter. unbind. by left.
    + right. by destruct H1.
  - intros Hfalsy Hlists.
    apply collect_urls_within.
    apply Forall_app with (l1 := ["links"; "images"; "readingOrder"])
                          (l2 := ["resources"]).
    split.
    + eapply Forall_impl; [exact Hlists|]. by left.
    + constructor; [|done]. right. unfold dict_get_default. by rewrite Hget.
Qed.

End Returns.

Lemma rewrite_manifest_log_witness :
  Forall (λ e, in_scope (original e) = true ∧
               ∃ local_path,
                 url_to_local_path (original e) (Pathlib.parse "./local_www") =
                   Ok (local_path, e.1.2) ∧
                 e.2 = Pathlib.to_str local_path)
         [("https://good.com/a?x=1", "/good.com/a__q_7caf6056.html",
           "local_www/good.com/a__q_7caf6056.html")] ∧
  Forall (λ u, is_blocked (JStr u) = true)
         ["/js/analytics.js"; "https://googletagmanager.com/gtm.js"].
Proof.
  eapply (rewrite_manifest_log (Pathlib.parse "./local_www")
            [("resources", JArr [JObj [("href", JStr "/js/analytics.js")]]);
             ("cover", JStr "https://good.com/a?x=1");
             ("tag", JStr "https://googletagmanager.com/gtm.js")]).
  vm_compute. reflexivity.
Defined.

Lemma rewrite_manifest_returns_witness :
  let manifest : dict :=
    [("resources",
      JArr [JObj [("href", JStr "https://googletagmanager.com/gtm.js");
                  ("alt", JStr "http://[bad/x")]]);
     ("cover", JStr "https://good.com/a")] in
  mappable (JObj manifest) = false ∧
  match rewrite_manifest (Pathlib.parse "./local_www") manifest with
  | Ok _ => mappable (JObj (pruned manifest)) = true
  | Raise e => e = ValueError ∧ mappable (JObj (pruned manifest)) = false
  end.
Proof.
  cbv zeta. split; [vm_compute; reflexivity|].
  apply (rewrite_manifest_returns (Pathlib.parse "./local_www")).
  - apply wfb_wf. reflexivity.
  - right. eexists. reflexivity.
Defined.

Lemma resources_not_iterable_witness :
  let manifest : dict :=
    [("resources", JNull);
     ("links", JArr [JObj [("href", JStr "https://good.com/a")]])] in
  match rewrite_manifest (Pathlib.parse "./local_www") manifest with
  | Ok _ => False
  | Raise e => e = TypeError ∨ e = ValueError ∧ mappable (JObj manifest) = false
  end ∧
  collect_urls_from_manifest manifest =
    Ok (list_to_set (in_scope_urls (JObj manifest))).
Proof.
  cbv zeta.
  destruct (resources_not_iterable (Pathlib.parse "./local_www")
              [("resources", JNull);
               ("links", JArr [JObj [("href", JStr "https://good.com/a")]])]
              JNull) as [Hrw Hcollect]; [reflexivity..|].
  split; [exact Hrw|]. apply Hcollect; [reflexivity|].
  constructor; [right; by eexists|].
  constructor; [by left|]. constructor; [by left|]. constructor.
Defined.

(** ** The shape of the rewritten manifest *)

Section Shape.
Variable out_root : Pathlib.Path.

Lemma no_http_in_scope (v : json) :
  no_http_value v → in_scope_urls v = [].
Proof.
  unfold no_http_value, in_scope_urls.
  induction 1 as [|s l Hs _ IH]; [done|].
  rewrite filter_cons_False; [done|]. unfold in_scope. by rewrite Hs.
Qed.

Lemma field_replaced_cases (rec : json → json) (k : string) (v : json) :
  field_replaced out_root rec (k, v) = [] ∨
  ∃ w, field_replaced out_root rec (k, v) = [(k, w)] ∧
       ((∃ s, w = JStr s) ∨ isinstance_str v = false ∧ w = rec v).
Proof.
  unfold field_replaced. cbn [fst snd].
  destruct v as [| | | |s| |]; try (right; eexists; split; [done|by right]).
  destruct (is_http s); [destruct (is_blocked (JStr s))|];
    [by left|right; eexists; split; [done|left; by eexists]..].
Qed.

Lemma replaced_keys_sublist (rec : json → json) (kvs : dict) :
  (flat_map (field_replaced out_root rec) kvs).*1 `sublist_of` kvs.*1.
Proof.
  induction kvs as [|[k v] kvs IH]; [done|]. cbn [flat_map].
  rewrite fmap_app, fmap_cons. cbn [fst].
  destruct (field_replaced_cases rec k v) as [->|(w & -> & _)].
  - by apply sublist_cons.
  - by apply sublist_skip.
Qed.

Lemma wf_replaced (x : json) : wf x → wf (replaced out_root x).
Proof.
  induction x as [| b | n | m e | s | l IH | kvs IH] using json_induction;
    try done.
  - rewrite wf_arr. intros Hl. cbn [replaced]. apply wf_arr.
    apply Forall_forall. intros y [_ Hy]%list_elem_of_filter.
    apply list_elem_of_fmap in Hy as (x & -> & Hx).
    rewrite Forall_forall in IH, Hl. unfold item_replaced.
    destruct x as [| | | |s| |]; try (apply IH; [done|by apply Hl]).
    by destruct (is_http s); [destruct (is_blocked (JStr s))|].
  - rewrite wf_obj. intros [Hnd Hkvs]. cbn [replaced]. apply wf_obj. split.
    + eapply sublist_NoDup; [done|apply replaced_keys_sublist].
    + clear Hnd. induction kvs as [|[k v] kvs IHk]; [done|].
      apply Forall_cons in IH as [Hv IH], Hkvs as [Hwv Hkvs].
      cbn [flat_map]. apply Forall_app. split; [|by apply IHk].
      destruct (field_replaced_cases (replaced out_root) k v)
        as [->|(w & -> & [[s ->]|[_ ->]])]; [done|by repeat constructor|].
      constructor; [|done]. by apply Hv.
Qed.

(** a list-valued field of a well-formed object is list-valued afterwards *)
Lemma dict_get_replaced (key : string) (kvs : dict) :
  NoDup kvs.*1 →
  dict_get key (flat_map (field_replaced out_root (replaced out_root)) kvs) =
  match dict_get key kvs with
  | Some v => dict_get key (field_replaced out_root (replaced out_root) (key, v))
  | None => None
  end.
Proof.
  induction kvs as [|[k v] kvs IH]; [done|].
  rewrite fmap_cons. cbn [fst]. intros [Hk Hnd]%NoDup_cons.
  cbn [flat_map dict_get]. destruct (Str.eqb k key) eqn:E.
  - apply eqb_true in E as ->.
    destruct (field_replaced_cases (replaced out_root) key v)
      as [->|(w & -> & _)].
    + cbn [app dict_get]. apply dict_get_None. intros Hin. apply Hk.
      eapply elem_of_sublist; [done|apply replaced_keys_sublist].
    + cbn [app dict_get]. by rewrite (proj2 (eqb_true key key)).
  - rewrite <- IH by done.
    destruct (field_replaced_cases (replaced out_root) k v)
      as [->|(w & -> & _)]; [done|].
    cbn [app dict_get]. by rewrite E.
Qed.

Lemma list_or_absent_replaced (key : string) (d : dict) :
  wf (JObj d) → list_or_absent key d →
  list_or_absent key (as_dict (replaced out_root (JObj d))).
Proof.
  rewrite wf_obj. intros [Hnd _] Hkey. unfold list_or_absent.
  cbn [replaced as_dict]. rewrite dict_get_replaced by done.
  destruct Hkey as [->|[l ->]]; [by left|]. right.
  unfold field_replaced. cbn [fst snd replaced dict_get].
  rewrite (proj2 (eqb_true key key)) by done. by eexists.
Qed.

Lemma list_or_absent_set (key k : string) (l : list json) (d : dict) :
  list_or_absent key d → list_or_absent key (dict_set k (JArr l) d).
Proof.
  intros H. unfold list_or_absent. destruct (decide (k = key)) as [->|Hne].
  - rewrite dict_get_set_eq. right. by eexists.
  - by rewrite dict_get_set_ne.
Qed.

Lemma list_or_absent_rewrite_known (key k : string) (manifest : dict)
    (st : log) (m' : dict) (st' : log) :
  rewrite_known out_root k (manifest, st) = Ok (m', st') →
  list_or_absent key manifest → list_or_absent key m'.
Proof.
  unfold rewrite_known.
  destruct (dict_get k manifest) as [[| | | | |items|]|];
    try (by intros [= <- _]).
  destruct (rewrite_items out_root items st) as [[items' st1]|e]; [|done].
  unbind. intros [= <- _]. apply list_or_absent_set.
Qed.

Lemma list_or_absent_rewrite_known_arrays (key : string) (keys : list string)
    (manifest : dict) (st : log) (m' : dict) (st' : log) :
  rewrite_known_arrays out_root keys (manifest, st) = Ok (m', st') →
  list_or_absent key manifest → list_or_absent key m'.
Proof.
  revert manifest st. induction keys as [|k keys IH]; intros m st.
  - by intros [= <- _].
  - cbn [rewrite_known_arrays].
    destruct (rewrite_known out_root k (m, st)) as [[m1 st1]|e] eqn:E1; [|done].
    unbind. intros H Hkey. eapply IH; [done|].
    by eapply list_or_absent_rewrite_known.
Qed.

Lemma list_or_absent_rewrite_metadata (key : string) (manifest : dict)
    (st : log) (m' : dict) (st' : log) :
  key ≠ "metadata" →
  rewrite_metadata out_root (manifest, st) = Ok (m', st') →
  list_or_absent key manifest → list_or_absent key m'.
Proof.
  intros Hne. unfold rewrite_metadata.
  destruct (dict_get_none "metadata" manifest) as [| | | | | |md];
    try (by intros [= <- _]).
  destruct (dict_get_none "identifier" md) as [| | | |ident| |];
    try (by intros [= <- _]).
  destruct (rewrite_string out_root (JStr ident) st) as [[new st1]|e]; [|done].
  unbind. intros [= <- _]. unfold list_or_absent.
  by rewrite dict_get_set_ne.
Qed.

(** The rewritten manifest of a well-formed one: well-formed, with a
    [resources] list, and with a list wherever the input had one under a
    top-level key other than [metadata]. *)
Lemma rewrite_manifest_shape (manifest m' : dict)
    (c : list (string * string * string)) (r : list string) :
  wf (JObj manifest) →
  rewrite_manifest out_root manifest = Ok (m', c, r) →
  wf (JObj m') ∧ no_http_value (JObj m') ∧
  (∃ l, dict_get "resources" m' = Some (JArr l)) ∧
  ∀ key, key ≠ "metadata" → list_or_absent key manifest →
         list_or_absent key m'.
Proof.
  intros Hwf Hrw.
  destruct (rewrite_manifest_deep out_root _ _ _ _ Hwf Hrw)
    as (m3' & _ & Hwf3' & _ & Hm' & _).
  assert (m' = as_dict (replaced out_root (JObj m3'))) as Heq
    by (by rewrite <- Hm').
  split; [rewrite Hm'; by apply wf_replaced|].
  split; [rewrite Hm'; by apply replaced_no_http|].
  clear m3' Hwf3' Hm' Heq. revert Hrw. unfold rewrite_manifest.
  destruct (rewrite_known_arrays _ _ _) as [[m1 st1]|e] eqn:E1; [|done].
  unbind.
  destruct (iterate _) as [rs|e] eqn:Ers; [|done]. unbind.
  destruct (rewrite_resources _ _ _ _) as [[new st2]|e] eqn:E2; [|done].
  unbind.
  destruct (rewrite_metadata _ _) as [[m3 st3]|e] eqn:E3; [|done]. unbind.
  destruct (deep_replace _ _ _) as [[o st4]|e] eqn:E4; [|done]. unbind.
  intros [= <- _ _].
  assert (wf (JObj m1)) as Hwf1 by (by eapply wf_rewrite_known_arrays).
  assert (wf (JObj m3)) as Hwf3.
  { eapply wf_rewrite_metadata; [|exact E3]. apply wf_dict_set; [done|].
    apply wf_arr. eapply wf_rewrite_resources; [|done|exact E2].
    eapply wf_iterate; [|exact Ers]. by apply wf_dict_get_default. }
  rewrite deep_replace_spec in E4 by done.
  destruct (mappable (JObj m3)); [|done]. injection E4 as <- _.
  assert (∀ key, key ≠ "metadata" → list_or_absent key manifest →
                 list_or_absent key m3) as Hkeep.
  { intros key Hne Hkey.
    eapply list_or_absent_rewrite_metadata; [done..|].
    apply list_or_absent_set.
    by eapply list_or_absent_rewrite_known_arrays. }
  split.
  - assert (list_or_absent "resources" m3) as Hres.
    { eapply list_or_absent_rewrite_metadata; [done..|].
      right. rewrite dict_get_set_eq. by eexists. }
    assert (dict_get "resources" m3 ≠ None) as Hsome.
    { revert E3. unfold rewrite_metadata.
      destruct (dict_get_none "metadata" _) as [| | | | | |md];
        try (by intros [= <- _]; rewrite dict_get_set_eq).
      destruct (dict_get_none "identifier" md) as [| | | |ident| |];
        try (by intros [= <- _]; rewrite dict_get_set_eq).
      destruct (rewrite_string out_root (JStr ident) st2) as [[? ?]|?]; [|done].
      unbind. intros [= <- _].
      by rewrite dict_get_set_ne, dict_get_set_eq. }
    destruct Hres as [?|[l Hl]]; [done|].
    destruct (list_or_absent_replaced "resources" m3 Hwf3) as [Hn|Hl'];
      [right; by eexists| |done].
    cbn [replaced as_dict] in Hn.
    rewrite dict_get_replaced, Hl in Hn by (by apply wf_obj in Hwf3 as [? _]).
    unfold field_replaced in Hn. cbn [fst snd dict_get] in Hn.
    by rewrite (proj2 (eqb_true "resources" "resources")) in Hn.
  - intros key Hne Hkey. apply list_or_absent_replaced; [done|].
    by apply Hkeep.
Qed.

(** X12: A second run has nothing to fetch.  On the manifest the rewrite
    returns for a well-formed manifest whose [links], [images] and
    [readingOrder] are lists or absent, discovery finds no URL at all. *)
Theorem rewrite_then_discover (manifest m' : dict)
    (c : list (string * string * string)) (r : list string) :
  wf (JObj manifest) →
  Forall (λ key, list_or_absent key manifest)
         ["links"; "images"; "readingOrder"] →
  rewrite_manifest out_root manifest = Ok (m', c, r) →
  collect_urls_from_manifest m' = Ok ∅.
Proof.
  intros Hwf Hlists Hrw.
  destruct (rewrite_manifest_shape _ _ _ _ Hwf Hrw)
    as (Hwf' & Hhttp & [l Hres] & Hkeep).
  assert (list_or_absent "resources" m') as Hres' by (right; by eexists).
  rewrite collect_urls_spec, (no_http_in_scope _ Hhttp); [done|].
  rewrite Forall_forall in Hlists. apply Forall_forall. intros key Hkey.
  destruct (decide (key = "resources")) as [->|Hne]; [done|].
  apply Hkeep; [set_solver|]. apply Hlists. set_solver.
Qed.

End Shape.

Lemma rewrite_then_discover_witness :
  let m' : dict :=
    [("links", JArr [JObj [("href", JStr "/good.com/a__q_7caf6056.html")]]);
     ("cover", JStr "/good.com/c.png");
     ("resources", JArr [])] in
  collect_urls_from_manifest m' = Ok ∅.
Proof.
  cbv zeta.
  eapply (rewrite_then_discover (Pathlib.parse "./local_www")
            [("links", JArr [JObj [("href", JStr "https://good.com/a?x=1")]]);
             ("cover", JStr "https://good.com/c.png");
             ("tag", JStr "https://googletagmanager.com/gtm.js")]).
  - apply wfb_wf. reflexivity.
  - constructor; [right; by eexists|].
    constructor; [by left|]. constructor; [by left|]. constructor.
  - vm_compute. reflexivity.
Defined.

(** * Saving the result *)

Lemma cut_join (name : string) :
  (PurePath.cut name).1 +:+ (PurePath.cut name).2 = name.
Proof.
  unfold PurePath.cut.
  destruct (Str.rpartition "." name) as [[x y]|] eqn:E;
    [|by rewrite str_app_nil_r].
  destruct (_ || _); [by rewrite str_app_nil_r|].
  by apply rpartition_Some in E as [-> _].
Qed.

Lemma length_str_app (s t : string) :
  String.length (s +:+ t) = String.length s + String.length t.
Proof.
  induction s as [|a s IH]; [done|]. rewrite str_app_cons. cbn. by rewrite IH.
Qed.

Lemma name_no_sep (s : string) :
  Str.mem "/" (PurePath.name (Pathlib.parse s)) = false.
Proof.
  destruct (normal_parse s) as [_ Hparts]. unfold PurePath.name.
  destruct (last (Pathlib.parts (Pathlib.parse s))) as [x|] eqn:E; [|done].
  apply last_Some_elem_of in E. rewrite Forall_forall in Hparts.
  by apply Hparts.
Qed.

(** X13: The rewritten manifest is written under [rewritten-manifests] in the
    output root, as one file named after the source: the source's name
    with [_local] put before its suffix, stem and suffix making up the
    name again.  The directory is made first.  The file written is never
    the source manifest itself, wherever the source lies. *)
Theorem save_rewritten_manifest_path (manifest : json)
    (out_root : Pathlib.Path) (source : string) :
  let source_manifest_path := Pathlib.parse source in
  let out_name :=
    PurePath.stem source_manifest_path +:+ "_local" +:+
    PurePath.suffix source_manifest_path in
  let out_path :=
    {| Pathlib.root := Pathlib.root out_root;
       Pathlib.parts := Pathlib.parts out_root ++
                        ["rewritten-manifests"; out_name] |} in
  PurePath.stem source_manifest_path +:+ PurePath.suffix source_manifest_path =
    PurePath.name source_manifest_path ∧
  save_rewritten_manifest manifest out_root source_manifest_path =
    (out_path,
     [Mkdir {| Pathlib.root := Pathlib.root out_root;
               Pathlib.parts := Pathlib.parts out_root ++
                                ["rewritten-manifests"] |};
      Dump out_path manifest]) ∧
  out_path ≠ source_manifest_path.
Proof.
  cbv zeta. set (p := Pathlib.parse source).
  pose proof (cut_join (PurePath.name p)) as Hjoin.
  fold (PurePath.stem p) (PurePath.suffix p) in Hjoin.
  set (out_name := PurePath.stem p +:+ "_local" +:+ PurePath.suffix p).
  assert (Str.mem "/" out_name = false) as Hsep.
  { pose proof (name_no_sep source) as Hname. fold p in Hname.
    rewrite <- Hjoin, mem_app in Hname.
    apply orb_false_iff in Hname as [H1 H2].
    unfold out_name. by rewrite !mem_app, H1, H2. }
  assert (String.length out_name = String.length (PurePath.name p) + 6)
    as Hlen.
  { unfold out_name. rewrite <- Hjoin, !length_str_app. cbn. lia. }
  split; [done|]. split.
  - unfold save_rewritten_manifest. fold out_name.
    rewrite (joinpath_relative out_root "rewritten-manifests") by done.
    rewrite joinpath_relative by (by apply startswith_sep_mem).
    cbn [Pathlib.root Pathlib.parts].
    rewrite (keep_part_single out_name)
      by (try done; apply keep_part_long; lia).
    change (filter _ (Str.split "/" "rewritten-manifests"))
      with ["rewritten-manifests"].
    by rewrite <- !List.app_assoc.
  - intros Heq. apply (f_equal PurePath.name) in Heq. revert Heq.
    unfold PurePath.name at 1. cbn [Pathlib.parts].
    change ["rewritten-manifests"; out_name]
      with (["rewritten-manifests"] ++ [out_name]).
    rewrite List.app_assoc, last_snoc. cbn [default].
    unfold id. intros Heq. rewrite Heq in Hlen. lia.
Qed.

(** * The phases of [main] together *)

Section Phases.
Variable net : string → nat → attempt.
Variable file_size : Pathlib.Path → option Z.
Variable out_root : Pathlib.Path.

Lemma completed_placed (u : string) (lp : Pathlib.Path) (h : string) :
  href (completed net (u, lp, h)) = h ∧
  local (completed net (u, lp, h)) = Pathlib.to_str lp.
Proof.
  unfold completed, fut_result. cbn [fst].
  by destruct (download_one net u 3).1 as [[[? ?] ?]|?].
Qed.

Lemma download_urls_placed (urls : list string) (skip_existing : bool)
    (f : fetched) :
  download_urls net file_size out_root urls skip_existing = Ok f →
  (results f).*1 ≡ₚ urls ∧ Forall (placed out_root) (results f) ∧
  settled f.
Proof.
  intros (Hset & present & pending & Hres & Hperm & Hpres & Hpend)%download_urls_spec.
  split; [|split; [|done]].
  - rewrite Hres, fmap_app, <- Hperm. f_equal.
    by rewrite <- !list_fmap_compose.
  - rewrite Hres. apply Forall_app. split.
    + eapply Forall_impl; [exact Hpres|]. cbn beta.
      intros [u o] (lp & h & size & Hmap & _ & _ & Ho). cbn [fst snd] in *.
      exists lp. subst o. by split.
    + apply Forall_fmap. eapply Forall_impl; [exact Hpend|]. cbn beta.
      intros [[u lp] h] [Hmap _]. cbn [fst snd] in *.
      destruct (completed_placed u lp h) as [Hh Hl].
      exists lp. cbn [fst snd]. by rewrite Hh, Hl.
Qed.

(** X14: The two halves of [main] agree.  On a well-formed manifest whose
    recognised fields are lists, every link the rewrite writes was given
    to the fetcher, whose result for that URL carries the same link and
    the same local path; and the rewrite does not look at what the
    fetcher achieved: when no [resources] element is dropped, every URL
    whose download failed is linked in the rewritten manifest all the
    same. *)
Theorem main_links_fetched (manifest_path : Pathlib.Path) (manifest : dict)
    (skip_existing : bool) (r : run) :
  wf (JObj manifest) → recognised_lists manifest →
  main net file_size out_root manifest_path manifest skip_existing =
    Ok r →
  Forall (λ e, ∃ o, (original e, o) ∈ results (fetch r) ∧
                    href o = e.1.2 ∧ local o = e.2) (changes r) ∧
  (Forall (λ x, dropped x = false) (resources_of manifest) →
   ∀ u, u ∈ failed (fetch r) → u ∈ map original (changes r)).
Proof.
  intros Hwf Hrec. unfold main.
  rewrite collect_urls_spec by done. unbind.
  destruct (download_urls _ _ _ _ _) as [f|e] eqn:Hf; [|done]. unbind.
  pose proof (rewrite_manifest_summary out_root manifest Hwf
                (recognised_resources _ Hrec)) as Hsum.
  destruct (rewrite_manifest out_root manifest) as [[[m' c] rm]|e] eqn:Hrw;
    [|done].
  unbind. cbn [save_rewritten_manifest]. intros [= <-].
  cbn [changes fetch]. destruct Hsum as (Hc & _).
  apply download_urls_placed in Hf as (Hkeys & Hplaced & [Hfailed _]).
  apply sound_rewrite_manifest in Hrw as [Hmapped _]. cbn [changed] in Hmapped.
  assert (∀ u, u ∈ (results f).*1 ↔ u ∈ in_scope_urls (JObj manifest)) as Hin.
  { intros u. by rewrite Hkeys, elem_of_elements, elem_of_list_to_set. }
  split.
  - rewrite Forall_forall in Hmapped. rewrite Forall_forall in Hplaced.
    apply Forall_forall.
    intros e He. destruct (Hmapped e He) as (_ & lp & Hlp & Hlocal).
    assert (original e ∈ (results f).*1) as Hu.
    { apply Hin. apply (list_elem_of_fmap_2 original) in He.
      rewrite Hc in He. apply elem_of_in_scope_urls in He as [? He].
      apply elem_of_in_scope_urls. split; [done|].
      eapply elem_of_sublist; [done|apply pruned_strings_sublist]. }
    apply list_elem_of_fmap in Hu as ([u o] & Hu & Ho). cbn [fst] in Hu.
    subst u. exists o. split; [done|].
    destruct (Hplaced _ Ho) as (lp' & Hlp' & Hlocal'). cbn [fst snd] in *.
    rewrite Hlp in Hlp'. injection Hlp' as <- Hh.
    by rewrite <- Hh, Hlocal, Hlocal'.
  - intros Hkeep u Hu. rewrite Hc.
    destruct (pruned_nothing_dropped manifest
                (recognised_resources _ Hrec) Hkeep) as [Hstr _].
    unfold in_scope_urls. rewrite Hstr. apply Hin.
    rewrite Hfailed in Hu. unfold failed_urls in Hu.
    apply list_elem_of_fmap in Hu as (x & -> & [_ Hx]%list_elem_of_filter).
    by apply list_elem_of_fmap_2.
Qed.

End Phases.

Lemma main_links_fetched_witness :
  ∃ r, main (λ _ _, Response 404 []) (λ _, None)
         (Pathlib.parse "./local_www") (Pathlib.parse "in/m.json")
         [("links", JArr [JObj [("href", JStr "https://good.com/a?x=1")]])]
         false = Ok r ∧
       failed (fetch r) = ["https://good.com/a?x=1"] ∧
       rewritten r =
         [("links", JArr [JObj [("href", JStr "/good.com/a__q_7caf6056.html")]]);
          ("resources", JArr [])] ∧
       Forall (λ e, ∃ o, (original e, o) ∈ results (fetch r) ∧
                         href o = e.1.2 ∧ local o = e.2) (changes r).
Proof.
  eexists. split; [vm_compute; reflexivity|].
  split; [reflexivity|]. split; [reflexivity|].
  eapply (main_links_fetched (λ _ _, Response 404 []) (λ _, None)
            (Pathlib.parse "./local_www") (Pathlib.parse "in/m.json")
            [("links", JArr [JObj [("href", JStr "https://good.com/a?x=1")]])]
            false).
  - apply wfb_wf. reflexivity.
  - apply recognised_listsb_spec. reflexivity.
  - vm_compute. reflexivity.
Defined.

(** * The filter under extension *)

(** X15: The filter looks for its fragments anywhere in the string: a string
    that holds a blocked string is blocked, whatever is put before or
    after it, so a denylisted fragment in the path or in the query blocks
    a URL as it does in the host; and a blocklist extended by further
    fragments blocks whatever the shorter one blocks. *)
Theorem is_blocked_extends (blocklist more : list string) (s pre post : string) :
  is_blocked_with blocklist (JStr s) = true →
  is_blocked_with (blocklist ++ more) (JStr (pre +:+ s +:+ post)) = true.
Proof.
  unfold is_blocked_with. cbn [truthy isinstance_str negb orb].
  destruct (Str.eqb s EmptyString) eqn:Hs; cbn [negb orb]; [done|].
  apply eqb_false in Hs.
  assert (Str.eqb (pre +:+ s +:+ post) EmptyString = false) as ->.
  { apply eqb_false. intros H. apply Hs.
    destruct pre; [|by rewrite str_app_cons in H].
    rewrite str_app_nil_l in H. by destruct s. }
  cbn [negb orb]. rewrite !existsb_exists. intros (bad & Hbad & Hc).
  exists bad. split; [apply in_or_app; by left|].
  apply contains_spec in Hc as (p & q & ->). apply contains_spec.
  exists (pre +:+ p), (q +:+ post). by rewrite !str_app_assoc.
Qed.

Lemma is_blocked_extends_witness :
  is_blocked_with (ANALYTICS_BLOCKLIST ++ ["ads."])
    (JStr ("https://cdn.example.org/r?to=" +:+ "analytics." +:+ "js")) = true.
Proof.
  apply (is_blocked_extends ANALYTICS_BLOCKLIST ["ads."] "analytics."
           "https://cdn.example.org/r?to=" "js").
  reflexivity.
Defined.

(** * Discovery on any manifest *)

Lemma chars_go_short (s cur : string) (need : nat) :
  String.length cur + need ≤ 4 →
  Forall (λ c, String.length c ≤ 4) (Str.chars_go s cur need).
Proof.
  revert cur need. induction s as [|b s IH]; intros cur need Hlen.
  - cbn [Str.chars_go]. destruct cur; [done|]. constructor; [lia|done].
  - cbn [Str.chars_go]. destruct need as [|n].
    + assert (Forall (λ c, String.length c ≤ 4)
                (Str.chars_go s (String b EmptyString) (Str.utf8_trail b))) as H.
      { apply IH. cbn [String.length]. unfold Str.utf8_trail.
        repeat case_match; lia. }
      destruct cur; [done|]. constructor; [lia|done].
    + apply IH. rewrite length_str_app. cbn [String.length]. lia.
Qed.

Lemma is_http_long (s : string) : is_http s = true → 7 ≤ String.length s.
Proof.
  unfold is_http. intros [H|H]%orb_true_iff;
    apply startswith_spec in H as [t ->]; rewrite length_str_app; cbn; lia.
Qed.

(** iterating a string yields nothing discovery keeps *)
Lemma collect_chars (s : string) (urls : gset string) :
  fold_left (λ urls item, collect_item item urls) (map JStr (Str.chars s)) urls =
  urls.
Proof.
  unfold Str.chars.
  pose proof (chars_go_short s EmptyString 0 ltac:(cbn; lia)) as H.
  revert urls. induction H as [|c l Hc _ IH]; intros urls; [done|].
  cbn [map fold_left collect_item]. rewrite add_if_http_str.
  assert (in_scope c = false) as ->; [|apply IH].
  unfold in_scope. destruct (is_http c) eqn:E; [|done].
  apply is_http_long in E. lia.
Qed.

(** iterating an object yields its keys, as strings *)
Lemma collect_field_keys (ks : list string) (urls : gset string) :
  fold_left (λ urls item, collect_item item urls) (map JStr ks) urls =
  urls ∪ list_to_set (filter (λ k, in_scope k = true) ks).
Proof.
  revert urls. induction ks as [|k ks IH]; intros urls.
  - cbn. set_solver.
  - cbn [map fold_left collect_item]. rewrite IH, add_if_http_str.
    destruct (in_scope k) eqn:E.
    + rewrite filter_cons_True by done. set_solver.
    + rewrite filter_cons_False by (by rewrite E). done.
Qed.

Lemma collect_key_general (manifest : dict) (key : string) (urls : gset string) :
  match collect_key manifest key urls with
  | Ok urls' =>
      ¬ not_iterable manifest key ∧
      ∃ items : list string,
        urls' = urls ∪ list_to_set items ∧
        Forall (λ u, in_scope u = true ∧
                     (u ∈ strings_of (JObj manifest) ∨
                      u ∈ iterated_keys manifest [key])) items ∧
        filter (λ k, in_scope k = true) (iterated_keys manifest [key]) ⊆ items
  | Raise e => e = TypeError ∧ not_iterable manifest key
  end.
Proof.
  unfold collect_key, dict_get_default, iterated_keys, not_iterable.
  cbn [flat_map]. rewrite List.app_nil_r.
  destruct (dict_get key manifest) as [v|] eqn:Hget.
  2:{ cbn. split; [by intros (? & ? & _)|].
      exists []. split; [set_solver|]. by split. }
  destruct (truthy v) eqn:Htruthy.
  2:{ cbn [iterate fold_left]. unbind.
      split; [intros (? & [= <-] & ? & _); congruence|]. exists [].
      split; [set_solver|]. split; [done|].
      destruct v as [| | | | | |kvs]; try done. by destruct kvs. }
  destruct v as [|b|n|m e|s|l|kvs]; try done;
    try (split; [done|]; eexists; by split).
  - cbn [iterate]. unbind. split; [by intros (? & [= <-] & _ & ?)|].
    rewrite collect_chars. exists [].
    split; [set_solver|]. by split.
  - cbn [iterate]. unbind. split; [by intros (? & [= <-] & _ & ?)|].
    destruct (collect_items_sub l l urls) as [H1 H2]; [done|].
    exists (elements (fold_left (λ urls item, collect_item item urls) l urls ∖ urls)).
    split.
    { apply set_eq. intros u.
      rewrite elem_of_union, elem_of_list_to_set, elem_of_elements,
        elem_of_difference.
      destruct (decide (u ∈ urls)); set_solver. }
    split; [|by rewrite filter_nil; intros ? ?%elem_of_nil].
    apply Forall_forall. intros u.
    rewrite elem_of_elements, elem_of_difference. intros [Hu Hn].
    apply H2 in Hu. apply elem_of_union in Hu as [?|Hu]; [done|].
    apply elem_of_list_to_set, elem_of_in_scope_urls in Hu as [? Hu].
    split; [done|]. left. by eapply strings_of_dict_get.
  - cbn [iterate]. unbind. split; [by intros (? & [= <-] & _ & ?)|].
    assert (map (λ kv : string * json, JStr kv.1) kvs = map JStr kvs.*1) as ->.
    { clear. induction kvs as [|kv kvs IHk]; [done|].
      simpl. by f_equal. }
    rewrite collect_field_keys.
    exists (filter (λ k, in_scope k = true) kvs.*1).
    split; [done|]. split; [|done].
    apply Forall_forall. intros u [? ?]%list_elem_of_filter. split; [done|].
    by right.
Qed.

Lemma iterated_keys_cons (manifest : dict) (key : string) (keys : list string) :
  iterated_keys manifest (key :: keys) =
  iterated_keys manifest [key] ++ iterated_keys manifest keys.
Proof. unfold iterated_keys. cbn [flat_map]. by rewrite List.app_nil_r. Qed.

Lemma collect_keys_general (manifest : dict) (keys : list string)
    (urls : gset string) :
  match collect_keys manifest keys urls with
  | Ok urls' =>
      Forall (λ key, ¬ not_iterable manifest key) keys ∧
      ∃ items : list string,
        urls' = urls ∪ list_to_set items ∧
        Forall (λ u, in_scope u = true ∧
                     (u ∈ strings_of (JObj manifest) ∨
                      u ∈ iterated_keys manifest keys)) items ∧
        filter (λ k, in_scope k = true) (iterated_keys manifest keys) ⊆ items
  | Raise e => e = TypeError ∧ Exists (not_iterable manifest) keys
  end.
Proof.
  revert urls. induction keys as [|key keys IH]; intros urls.
  - split; [done|]. exists []. cbn. split; [set_solver|]. by split.
  - cbn [collect_keys].
    pose proof (collect_key_general manifest key urls) as H1.
    destruct (collect_key manifest key urls) as [u1|e]; unbind.
    2:{ destruct H1 as [-> H1]. split; [done|]. by left. }
    destruct H1 as (Hit1 & i1 & -> & Hi1 & Hk1).
    specialize (IH (urls ∪ list_to_set i1)).
    destruct (collect_keys manifest keys _) as [u2|e].
    2:{ destruct IH as [-> IH]. split; [done|]. by right. }
    destruct IH as (Hit2 & i2 & -> & Hi2 & Hk2).
    split; [by constructor|].
    exists (i1 ++ i2). rewrite iterated_keys_cons.
    split; [rewrite list_to_set_app_L; set_solver|]. split.
    + apply Forall_app. split.
      * eapply Forall_impl; [exact Hi1|]. cbn beta.
        intros u [? [?|?]]; (split; [done|]); [by left|right].
        apply elem_of_app. by left.
      * eapply Forall_impl; [exact Hi2|]. cbn beta.
        intros u [? [?|?]]; (split; [done|]); [by left|right].
        apply elem_of_app. by right.
    + rewrite filter_app. intros u [Hu|Hu]%elem_of_app; apply elem_of_app.
      * left. by apply Hk1.
      * right. by apply Hk2.
Qed.

(** X16: Discovery on any manifest.  It raises, [TypeError], exactly when one
    of [links], [images], [readingOrder] and [resources] holds a value
    that is truthy and cannot be iterated ([true], a number other than
    zero); a falsy value counts as an empty list, and the characters of a
    string add nothing.  Otherwise it returns the references in scope
    among the string values of the manifest, and, where one of those four
    fields holds an object, the references in scope among the keys of
    that object, which are iterated as items. *)
Theorem collect_urls_general (manifest : dict) :
  let keys := ["links"; "images"; "readingOrder"; "resources"] in
  match collect_urls_from_manifest manifest with
  | Ok urls =>
      Forall (λ key, ¬ not_iterable manifest key) keys ∧
      ∀ u, u ∈ urls ↔
           in_scope u = true ∧
           (u ∈ strings_of (JObj manifest) ∨ u ∈ iterated_keys manifest keys)
  | Raise e => e = TypeError ∧ Exists (not_iterable manifest) keys
  end.
Proof.
  cbv zeta. unfold collect_urls_from_manifest.
  pose proof (collect_keys_general manifest
                ["links"; "images"; "readingOrder"; "resources"] ∅) as H.
  destruct (collect_keys manifest _ ∅) as [urls|e]; unbind; [|done].
  destruct H as (Hiter & items & -> & Hitems & Hkeys). split; [done|].
  rewrite Forall_forall in Hitems.
  intros u. rewrite deep_spec, elem_of_union, elem_of_list_to_set,
    elem_of_in_scope_urls.
  pose proof (add_identifier_within manifest ∅) as Hmeta.
  set (meta := dict_get_default "metadata" (JObj []) manifest) in *.
  assert (∀ urls : gset string,
            match meta with
            | JObj md => add_if_http (dict_get_none "identifier" md) urls
            | _ => urls
            end =
            urls ∪ match meta with
                   | JObj md => add_if_http (dict_get_none "identifier" md) ∅
                   | _ => ∅
                   end) as Hadd.
  { intros urls. destruct meta as [| | | | | |md]; try set_solver.
    destruct (dict_get_none "identifier" md) as [| | | |ident| |];
      cbn [add_if_http]; try set_solver.
    destruct (_ && _); set_solver. }
  rewrite Hadd, !elem_of_union, elem_of_list_to_set. split.
  - intros [[[Hu|Hu]|Hu]|Hu].
    + set_solver.
    + by apply Hitems.
    + apply Hmeta in Hu; [|set_solver].
      apply elem_of_list_to_set, elem_of_in_scope_urls in Hu as [? ?]. auto.
    + destruct Hu. auto.
  - intros [Hin [Hu|Hu]]; [by right|]. left. left. right.
    apply Hkeys. by apply list_elem_of_filter.
Qed.

(** * Running the rewrite again *)

Section Again.
Variable out_root : Pathlib.Path.

Lemma dict_get_pop_eq (k : string) (d : dict) :
  NoDup d.*1 → dict_get k (dict_pop k d) = None.
Proof.
  intros Hnd. destruct (dict_get k d) as [v|] eqn:E.
  - apply dict_get_Some in E as (pre & post & -> & Hpre).
    rewrite dict_pop_app by done. apply dict_get_None.
    rewrite fmap_app, fmap_cons in Hnd. cbn [fst] in Hnd.
    apply NoDup_app in Hnd as (_ & Hdisj & [Hpost _]%NoDup_cons).
    rewrite fmap_app. by intros [?|?]%elem_of_app.
  - apply dict_get_None in E. apply dict_get_None. intros Hin. apply E.
    eapply elem_of_sublist; [done|]. apply fmap_sublist, dict_pop_sublist.
Qed.

Lemma rewrite_string_none (s : json) (st : log) (new : json) (st' : log) :
  rewrite_string out_root s st = Ok (new, st') → is_none new = false →
  new ≠ JNull.
Proof. intros _ H ->. done. Qed.

Lemma rewrite_item_href (it : json) (st : log) (it' : json) (st' : log) :
  wf it → rewrite_item out_root it st = Ok (it', st') → null_href it' = false.
Proof.
  intros Hwf. unfold rewrite_item.
  destruct it as [| | | | | |d]; try (by intros [= <- _]).
  destruct (dict_get "href" d) as [href|] eqn:E.
  2:{ intros [= <- _]. cbn [null_href]. by rewrite E. }
  destruct (rewrite_string out_root href st) as [[new st1]|e]; [|done].
  unbind. destruct (is_none new) eqn:Hn; intros [= <- _]; cbn [null_href].
  - rewrite dict_get_pop_eq; [done|]. by apply wf_obj in Hwf as [? _].
  - rewrite dict_get_set_eq. by destruct new.
Qed.

Lemma rewrite_items_href (items : list json) (st : log)
    (items' : list json) (st' : log) :
  Forall wf items → rewrite_items out_root items st = Ok (items', st') →
  forallb (λ it, negb (null_href it)) items' = true.
Proof.
  revert st items'. induction items as [|it items IH]; intros st items' Hwf.
  - by intros [= <- _].
  - apply Forall_cons in Hwf as [Hit Hwf]. cbn [rewrite_items].
    destruct (rewrite_item out_root it st) as [[it1 st1]|e] eqn:E1; [|done].
    unbind.
    destruct (rewrite_items out_root items st1) as [[items1 st2]|e] eqn:E2;
      [|done].
    unbind. intros [= <- <-]. cbn [forallb].
    rewrite (rewrite_item_href _ _ _ _ Hit E1). cbn [negb andb]. by eapply IH.
Qed.

Lemma rewrite_known_href (key k : string) (manifest : dict) (st : log)
    (m' : dict) (st' : log) :
  wf (JObj manifest) →
  rewrite_known out_root key (manifest, st) = Ok (m', st') →
  k = key ∨ no_null_href_under k manifest = true →
  no_null_href_under k m' = true.
Proof.
  intros Hwf Hrw Hk. unfold no_null_href_under.
  destruct (decide (k = key)) as [->|Hne].
  - revert Hrw. unfold rewrite_known.
    destruct (dict_get key manifest) as [[| | | | |items|]|] eqn:E;
      try (by intros [= <- _]; rewrite E).
    destruct (rewrite_items out_root items st) as [[items' st1]|e] eqn:E1;
      [|done].
    unbind. intros [= <- _]. rewrite dict_get_set_eq.
    eapply rewrite_items_href; [|done]. by eapply wf_arr, wf_dict_get.
  - rewrite (rewrite_known_get_ne out_root key k _ _ _ _ (not_eq_sym Hne) Hrw).
    by destruct Hk.
Qed.

Lemma rewrite_known_arrays_href (keys : list string) (k : string)
    (manifest : dict) (st : log) (m' : dict) (st' : log) :
  wf (JObj manifest) →
  rewrite_known_arrays out_root keys (manifest, st) = Ok (m', st') →
  k ∈ keys ∨ no_null_href_under k manifest = true →
  no_null_href_under k m' = true.
Proof.
  revert manifest st. induction keys as [|key keys IH]; intros m st Hwf.
  - intros [= <- _] [?%elem_of_nil|?]; done.
  - cbn [rewrite_known_arrays].
    destruct (rewrite_known out_root key (m, st)) as [[m1 st1]|e] eqn:E1; [|done].
    unbind. intros Hrw Hk.
    eapply IH; [by eapply wf_rewrite_known|done|].
    destruct (decide (k = key)) as [->|Hne].
    + right. eapply rewrite_known_href; [done..|by left].
    + destruct Hk as [Hk|Hk].
      * left. by apply elem_of_cons in Hk as [?|?].
      * right. eapply rewrite_known_href; [done..|by right].
Qed.

Lemma dropped_href_kept (rs : list json) :
  Forall (λ r, dropped r = false) rs → flat_map dropped_href rs = [].
Proof.
  induction 1 as [|x rs Hx _ IH]; [done|]. cbn [flat_map]. rewrite IH.
  rewrite List.app_nil_r. unfold dropped, dropped_href in *.
  destruct x as [| | | | | |d]; try done.
  destruct (dict_get_none "href" d) as [| | | |h| |]; try done.
  by rewrite Hx.
Qed.

Lemma replaced_null (v : json) : replaced out_root v = JNull → v = JNull.
Proof. by destruct v. Qed.

Lemma null_href_replaced (x : json) :
  wf x → null_href x = false →
  null_href (item_replaced out_root (replaced out_root) x) = false.
Proof.
  intros Hwf Hx. unfold item_replaced.
  destruct x as [| | | |s| |d]; try done.
  - by destruct (is_http s); [destruct (is_blocked (JStr s))|].
  - cbn [replaced null_href] in *.
    rewrite dict_get_replaced by (by apply wf_obj in Hwf as [? _]).
    destruct (dict_get "href" d) as [v|]; [|done].
    destruct (field_replaced_cases out_root (replaced out_root) "href" v)
      as [->|(w & -> & Hw)]; [done|].
    cbn [dict_get]. rewrite (proj2 (eqb_true "href" "href")) by done.
    destruct Hw as [[s ->]|[_ ->]]; [done|].
    destruct (replaced out_root v) eqn:E; try done.
    apply replaced_null in E as ->. done.
Qed.

Lemma no_null_href_replaced (key : string) (d : dict) :
  wf (JObj d) → no_null_href_under key d = true →
  no_null_href_under key (as_dict (replaced out_root (JObj d))) = true.
Proof.
  intros Hwf. unfold no_null_href_under. cbn [replaced as_dict].
  rewrite dict_get_replaced by (by apply wf_obj in Hwf as [? _]).
  destruct (dict_get key d) as [v|] eqn:E; [|done].
  pose proof (wf_dict_get _ _ _ Hwf E) as Hv.
  destruct (field_replaced_cases out_root (replaced out_root) key v)
    as [->|(w & -> & Hw)]; [done|].
  cbn [dict_get]. rewrite (proj2 (eqb_true key key)) by done.
  destruct Hw as [[s ->]|[Hstr ->]]; [done|].
  destruct v as [| | | | |items|]; try done.
  cbn [replaced]. rewrite !forallb_forall. intros Hitems y Hy.
  apply list_elem_of_In, list_elem_of_filter in Hy as [_ Hy].
  apply list_elem_of_fmap in Hy as (x & -> & Hx).
  rewrite null_href_replaced; [done| |].
  - rewrite wf_arr, Forall_forall in Hv. by apply Hv.
  - apply negb_true_iff, Hitems. by apply list_elem_of_In.
Qed.

Lemma no_http_value_arr (x : json) (l : list json) :
  no_http_value (JArr (x :: l)) ↔ no_http_value x ∧ no_http_value (JArr l).
Proof.
  unfold no_http_value. rewrite strings_of_arr_cons. apply Forall_app.
Qed.

Lemma no_http_value_obj (k : string) (v : json) (d : dict) :
  no_http_value (JObj ((k, v) :: d)) ↔ no_http_value v ∧ no_http_value (JObj d).
Proof.
  unfold no_http_value. rewrite strings_of_obj_cons. apply Forall_app.
Qed.

(** the deep pass leaves alone what holds no URL and no [null] item *)
Lemma replaced_id (x : json) :
  no_http_value x → no_null_item x = true → replaced out_root x = x.
Proof.
  induction x as [| b | n | m e | s | l IH | kvs IH] using json_induction;
    try done.
  - intros Hh Hn. cbn [replaced]. f_equal.
    induction IH as [|x l Hx _ IHl]; [done|].
    apply no_http_value_arr in Hh as [Hhx Hhl].
    cbn [no_null_item forallb] in Hn.
    apply andb_true_iff in Hn as [[Hnx Hnn]%andb_true_iff Hnl].
    cbn [map].
    assert (item_replaced out_root (replaced out_root) x = x) as ->.
    { unfold item_replaced. destruct x as [| | | |s| |]; try by apply Hx.
      unfold no_http_value in Hhx. cbn [strings_of] in Hhx.
      apply Forall_cons in Hhx as [-> _]. done. }
    rewrite filter_cons_True by (by apply negb_true_iff in Hnx).
    f_equal. by apply IHl.
  - intros Hh Hn. cbn [replaced]. f_equal.
    induction IH as [|[k v] kvs Hv _ IHk]; [done|].
    apply no_http_value_obj in Hh as [Hhv Hhk].
    cbn [no_null_item forallb snd] in Hn.
    apply andb_true_iff in Hn as [Hnv Hnk].
    cbn [flat_map].
    assert (field_replaced out_root (replaced out_root) (k, v) = [(k, v)]) as ->.
    { unfold field_replaced. cbn [fst snd] in *.
      destruct v as [| | | |s| |]; try (by rewrite Hv).
      unfold no_http_value in Hhv. cbn [strings_of] in Hhv.
      apply Forall_cons in Hhv as [-> _]. done. }
    cbn [app]. f_equal. by apply IHk.
Qed.

(** a rewritten manifest holds no [null] href under the known arrays *)
Lemma rewrite_manifest_href (manifest m' : dict)
    (c : list (string * string * string)) (r : list string) :
  wf (JObj manifest) →
  rewrite_manifest out_root manifest = Ok (m', c, r) →
  no_null_href m' = true.
Proof.
  intros Hwf. unfold rewrite_manifest.
  destruct (rewrite_known_arrays _ _ _) as [[m1 st1]|e] eqn:E1; [|done].
  unbind.
  destruct (iterate _) as [rs|e] eqn:Ers; [|done]. unbind.
  destruct (rewrite_resources _ _ _ _) as [[new st2]|e] eqn:E2; [|done].
  unbind.
  destruct (rewrite_metadata _ _) as [[m3 st3]|e] eqn:E3; [|done]. unbind.
  assert (wf (JObj m1)) as Hwf1 by (by eapply wf_rewrite_known_arrays).
  assert (wf (JObj m3)) as Hwf3.
  { eapply wf_rewrite_metadata; [|exact E3]. apply wf_dict_set; [done|].
    apply wf_arr. eapply wf_rewrite_resources; [|done|exact E2].
    eapply wf_iterate; [|exact Ers]. by apply wf_dict_get_default. }
  rewrite deep_replace_spec by done.
  destruct (mappable (JObj m3)); [|done]. unbind. intros [= <- _ _].
  unfold no_null_href. apply forallb_forall. intros key Hkey%list_elem_of_In.
  apply no_null_href_replaced; [done|].
  assert (key ≠ "resources" ∧ key ≠ "metadata") as [Hr Hm] by set_solver.
  assert (no_null_href_under key m1 = true) as H1
    by (apply (rewrite_known_arrays_href _ _ _ _ _ _ Hwf E1); by left).
  assert (dict_get key m3 = dict_get key m1) as Hget.
  { revert E3. unfold rewrite_metadata.
    destruct (dict_get_none "metadata" _) as [| | | | | |md];
      try (by intros [= <- _]; rewrite dict_get_set_ne).
    destruct (dict_get_none "identifier" md) as [| | | |ident| |];
      try (by intros [= <- _]; rewrite dict_get_set_ne).
    destruct (rewrite_string out_root (JStr ident) st2) as [[? ?]|?]; [|done].
    unbind. intros [= <- _]. by rewrite !dict_get_set_ne. }
  unfold no_null_href_under in *. by rewrite Hget.
Qed.

(** X17: Running the rewrite on its own result only prunes.  On the manifest
    the rewrite returns for a well-formed manifest, a second rewrite
    returns with an empty change log; all it does is to drop the
    [resources] elements whose link, as rewritten by the first run, hits
    the denylist, and to report those links as removed.  When there is
    no such element the second run returns the manifest as it is, with
    nothing changed and nothing removed. *)
Theorem rewrite_again (manifest m' : dict)
    (c : list (string * string * string)) (r : list string) :
  wf (JObj manifest) →
  rewrite_manifest out_root manifest = Ok (m', c, r) →
  ∃ r', rewrite_manifest out_root m' = Ok (pruned m', [], r') ∧
        r' ≡ₚ flat_map dropped_href (resources_of m') ∧
        (Forall (λ x, dropped x = false) (resources_of m') →
         pruned m' = m' ∧ r' = []).
Proof.
  intros Hwf Hrw.
  destruct (rewrite_manifest_shape _ _ _ _ _ Hwf Hrw)
    as (Hwf' & Hhttp & [l Hres] & _).
  pose proof (rewrite_manifest_href _ _ _ _ Hwf Hrw) as Hhref.
  assert (no_null_item (JObj m') = true) as Hnull.
  { destruct (rewrite_manifest_deep out_root _ _ _ _ Hwf Hrw)
      as (m3 & _ & _ & _ & -> & _).
    apply replaced_no_null_item. }
  assert (list_or_absent "resources" m') as Hres' by (right; by eexists).
  assert (no_http_value (JObj (pruned m'))) as Hhttp'.
  { apply Forall_forall. intros s Hs.
    unfold no_http_value in Hhttp. rewrite Forall_forall in Hhttp.
    apply Hhttp. eapply elem_of_sublist; [done|apply pruned_strings_sublist]. }
  pose proof (rewrite_manifest_summary out_root m' Hwf' Hres') as Hsum.
  destruct (rewrite_manifest out_root m') as [[[m'' c'] r']|e] eqn:Hrw'.
  2:{ destruct Hsum as [_ H]. unfold mappable in H.
      by rewrite (no_http_in_scope _ Hhttp') in H. }
  destruct Hsum as (Hc & Hr & _).
  rewrite (no_http_in_scope _ Hhttp') in Hc.
  apply Permutation_nil_r, fmap_nil_inv in Hc as ->.
  assert (blocked_urls (JObj (pruned m')) = []) as Hbl.
  { unfold blocked_urls. unfold no_http_value in Hhttp'.
    induction Hhttp' as [|s ss Hs _ IH]; [done|].
    rewrite filter_cons_False; [done|]. unfold blocked_url. by rewrite Hs. }
  rewrite Hbl, List.app_nil_r in Hr.
  pose proof (rewrite_manifest_rep out_root _ _ _ _ Hwf' Hres' Hhref Hrw') as Hm.
  rewrite replaced_id in Hm by (by try apply no_null_item_pruned).
  injection Hm as ->. exists r'. split; [done|]. split; [done|].
  intros Hkeep. split.
  - unfold pruned. rewrite (filter_all _ _ Hkeep).
    apply dict_set_same. unfold resources_of. by rewrite Hres.
  - rewrite (dropped_href_kept _ Hkeep) in Hr. by apply Permutation_nil_r in Hr.
Qed.

End Again.

Lemma rewrite_again_witness :
  let m' : dict :=
    [("resources",
      JArr [JObj [("href", JStr "/cdn.example.org/analytics.js")];
            JObj [("href", JStr "/good.com/a")]])] in
  pruned m' = [("resources", JArr [JObj [("href", JStr "/good.com/a")]])] ∧
  ∃ r', rewrite_manifest (Pathlib.parse "./local_www") m' =
          Ok (pruned m', [], r') ∧
        r' ≡ₚ ["/cdn.example.org/analytics.js"] ∧
        (Forall (λ x, dropped x = false) (resources_of m') →
         pruned m' = m' ∧ r' = []).
Proof.
  cbv zeta. split; [reflexivity|].
  eapply (rewrite_again (Pathlib.parse "./local_www")
            [("resources",
              JArr [JObj [("href", JStr "https://cdn.example.org/analytics%2Ejs")];
                    JObj [("href", JStr "https://good.com/a")]])]).
  - apply wfb_wf. reflexivity.
  - vm_compute. reflexivity.
Defined.

(** * Where the files go *)

Lemma all_dots_dotdot : all_dots ".." = true.
Proof. reflexivity. Qed.

(** [splitext] puts no [..] segment into the base *)
Lemma splitext_dotdot (p : string) :
  ".." ∈ Str.split "/" (splitext p).1 → ".." ∈ Str.split "/" p.
Proof.
  unfold splitext.
  destruct (Str.rpartition "/" p) as [[d f]|] eqn:Ed.
  - apply rpartition_Some in Ed as [-> Hf].
    destruct (Str.rpartition "." f) as [[stem e]|] eqn:Ef; [|done].
    destruct (all_dots stem) eqn:Hdots; [done|]. cbn [fst].
    apply rpartition_Some in Ef as [-> _].
    rewrite mem_app in Hf. apply orb_false_iff in Hf as [Hstem _].
    rewrite str_app_assoc. change ("/" +:+ ?t) with (String "/" t).
    rewrite !split_app_sep, (split_no_sep _ stem) by done.
    rewrite !elem_of_app. intros [?|Hs]; [by left|].
    apply list_elem_of_singleton in Hs as <-. done.
  - destruct (Str.rpartition "." p) as [[stem e]|] eqn:Ef; [|done].
    destruct (all_dots stem) eqn:Hdots; [done|]. cbn [fst].
    apply rpartition_None in Ed. apply rpartition_Some in Ef as [-> _].
    rewrite mem_app in Ed. apply orb_false_iff in Ed as [Hstem _].
    rewrite str_app_nil_l, (split_no_sep _ stem) by done.
    intros Hs. apply list_elem_of_singleton in Hs as <-. done.
Qed.

Lemma parse_parts_split (s : string) :
  Pathlib.parts (Pathlib.parse s) =
  filter (λ x, Pathlib.keep_part x = true) (Str.split "/" s).
Proof.
  unfold Pathlib.parse, Pathlib.splitroot.
  destruct (Str.startswith s "/"); [|done].
  destruct (_ =? 2); cbn [Pathlib.parts]; apply filter_keep_lstrip.
Qed.

Lemma to_str_parse_split (s : string) :
  filter (λ x, Pathlib.keep_part x = true)
         (Str.split "/" (Pathlib.to_str (Pathlib.parse s))) =
  filter (λ x, Pathlib.keep_part x = true) (Str.split "/" s).
Proof.
  rewrite <- !parse_parts_split. by rewrite parse_to_str by apply normal_parse.
Qed.

Lemma mapped_parts_dotdot (p : Urllib.ParseResult) :
  Str.mem "/" (Urllib.netloc p) = false →
  (".." ∈ mapped_parts p →
   Urllib.netloc p = ".." ∨ ".." ∈ Str.split "/" (decoded_path p)) ∧
  (Urllib.query p = EmptyString →
   Urllib.netloc p = ".." ∨ ".." ∈ Str.split "/" (decoded_path p) →
   ".." ∈ mapped_parts p).
Proof.
  intros Hnet. unfold mapped_parts.
  rewrite (split_no_sep _ _ Hnet). split.
  - rewrite elem_of_app. intros [[_ Hn]%list_elem_of_filter|Hrel].
    { left. by apply list_elem_of_singleton in Hn. }
    right. unfold local_rel in Hrel.
    destruct (Str.eqb (Urllib.query p) EmptyString); cbn [negb] in Hrel.
    { rewrite filter_keep_lstrip in Hrel.
      by apply list_elem_of_filter in Hrel as [_ ?]. }
    destruct (splitext (decoded_path p)) as [base ext] eqn:Hsplit.
    set (ext' := if Str.eqb ext EmptyString then ".html" else ext) in *.
    assert (Str.mem "/" ext' = false) as Hext.
    { unfold ext'. destruct (Str.eqb ext EmptyString); [done|].
      pose proof (splitext_ext_no_sep (decoded_path p)) as H.
      by rewrite Hsplit in H. }
    destruct (query_parts (Pathlib.to_str (Pathlib.parse base))
                (fingerprint (Urllib.query p)) ext')
      as (fs & f & Hfs & Heq); [|done|].
    { apply mem_take, hexdigest_no_sep. }
    rewrite Heq in Hrel. apply elem_of_app in Hrel as [Hin|Hlast].
    + apply splitext_dotdot. rewrite Hsplit. cbn [fst].
      assert (".." ∈ filter (λ x, Pathlib.keep_part x = true)
                       (Str.split "/" base)) as H.
      { rewrite <- to_str_parse_split, <- filter_keep_lstrip, Hfs, filter_app.
        apply elem_of_app. by left. }
      by apply list_elem_of_filter in H as [_ ?].
    + apply list_elem_of_singleton in Hlast.
      apply (f_equal String.length) in Hlast.
      rewrite !length_str_app in Hlast. cbn in Hlast. lia.
  - intros Hq Hdd. unfold local_rel. rewrite Hq. cbn [negb].
    change (Str.eqb EmptyString EmptyString) with true. cbn [negb].
    rewrite filter_keep_lstrip, elem_of_app, !list_elem_of_filter.
    destruct Hdd as [->|Hdd]; [left|right]; (split; [done|]); [|done].
    by apply list_elem_of_singleton.
Qed.

(** X18: The file of a URL lies, as a path, under the output root: the root's
    parts followed by parts made from the URL, however many slashes the
    URL's path begins with.  Among those parts [..] occurs only when the
    network location is [..] or the percent-decoded path has a [..]
    segment; and for a URL without query it does occur then: the mapper
    takes no dot segment out of the path. *)
Theorem url_to_local_path_under_root (url : string)
    (out_root local_path : Pathlib.Path) (manifest_href : string) :
  url_to_local_path url out_root = Ok (local_path, manifest_href) →
  ∃ p sub,
    Urllib.urlparse url = Ok p ∧
    local_path = {| Pathlib.root := Pathlib.root out_root;
                    Pathlib.parts := Pathlib.parts out_root ++ sub |} ∧
    (".." ∈ sub →
     Urllib.netloc p = ".." ∨ ".." ∈ Str.split "/" (decoded_path p)) ∧
    (Urllib.query p = EmptyString →
     Urllib.netloc p = ".." ∨ ".." ∈ Str.split "/" (decoded_path p) →
     ".." ∈ sub).
Proof.
  destruct (Urllib.urlparse url) as [p|e] eqn:Hp.
  2:{ rewrite url_to_local_path_unfold, Hp. done. }
  rewrite (url_to_local_path_accepted _ _ _ Hp). intros [= <- _].
  exists p, (mapped_parts p). split; [done|]. split; [done|].
  apply mapped_parts_dotdot. by eapply netloc_no_sep.
Qed.

Lemma url_to_local_path_under_root_witness :
  ∃ p sub,
    Urllib.urlparse "https://good.com/a/%2e%2e/../x.png" = Ok p ∧
    {| Pathlib.root := EmptyString;
       Pathlib.parts := ["local_www"; "good.com"; "a"; ".."; ".."; "x.png"] |} =
    {| Pathlib.root := Pathlib.root (Pathlib.parse "./local_www");
       Pathlib.parts := Pathlib.parts (Pathlib.parse "./local_www") ++ sub |} ∧
    (".." ∈ sub →
     Urllib.netloc p = ".." ∨ ".." ∈ Str.split "/" (decoded_path p)) ∧
    (Urllib.query p = EmptyString →
     Urllib.netloc p = ".." ∨ ".." ∈ Str.split "/" (decoded_path p) →
     ".." ∈ sub).
Proof.
  apply (url_to_local_path_under_root "https://good.com/a/%2e%2e/../x.png"
           (Pathlib.parse "./local_www") _
           "/good.com/a/../../x.png").
  vm_compute. reflexivity.
Defined.

(** * The HAR tool *)

Section HarTool.
Variable guess_type : string → option string.

Tactic Notation "unhar" := cbn [mbind Har.result_mbind].

Lemma guessed_truthy (u : string) : truthy (JStr (Har.guessed guess_type u)) = true.
Proof.
  unfold Har.guessed. destruct (guess_type u) as [t|]; [|done].
  destruct (Str.eqb t EmptyString) eqn:E; [done|]. cbn [truthy]. by rewrite E.
Qed.

Lemma extract_entry_spec (entry : json) :
  match Har.extract_entry guess_type entry with
  | Har.Return (Some r) =>
      har_resource r ∧ Some <$> resource_href r = Some (entry_url entry)
  | Har.Return None => entry_url entry = None
  | Har.Throw e => e = Har.AttributeError ∧ entry_shaped entry = false
  end.
Proof.
  unfold Har.extract_entry, entry_url, entry_shaped.
  destruct entry as [| | | | | |e]; try done. cbn [Har.get]. unhar.
  destruct (dict_get_default "request" (JObj []) e) as [| | | | | |request];
    try done.
  cbn [Har.get]. unhar.
  destruct (dict_get_default "url" JNull request) as [| | | |u| |] eqn:Hurl;
    try done;
    try (destruct (truthy _); cbn [negb]; [|done]; split; [done|];
         by destruct (dict_get_default "response" _ e)).
  destruct (truthy (JStr u)) eqn:Htruthy; cbn [negb].
  2:{ cbn [truthy] in Htruthy.
      by apply negb_false_iff, eqb_true in Htruthy as ->. }
  destruct (Str.startswith u "http") eqn:Hhttp; cbn [negb]; [|done].
  destruct (dict_get_default "response" (JObj []) e) as [| | | | | |response];
    try done.
  cbn [Har.get]. unhar.
  destruct (dict_get_default "content" (JObj []) response)
    as [| | | | | |content]; try done.
  cbn [Har.get]. unhar.
  split; [|cbn; by rewrite (proj2 (eqb_true "href" "href"))].
  eexists u, _. split; [done|]. split; [done|].
  destruct (truthy (dict_get_default "mimeType" (JStr EmptyString) content))
    eqn:E; cbn [negb]; [done|apply guessed_truthy].
Qed.

Lemma extract_entries_spec (entries acc : list json) :
  match Har.extract_entries guess_type entries acc with
  | Har.Return rs =>
      ∃ new, rs = acc ++ new ∧ Forall har_resource new ∧
             omap resource_href new = omap entry_url entries
  | Har.Throw e =>
      e = Har.AttributeError ∧ forallb entry_shaped entries = false
  end.
Proof.
  revert acc. induction entries as [|entry entries IH]; intros acc.
  - exists []. by rewrite List.app_nil_r.
  - cbn [Har.extract_entries forallb].
    pose proof (extract_entry_spec entry) as H1.
    destruct (Har.extract_entry guess_type entry) as [[r|]|e]; unhar.
    + destruct H1 as [Hr Hhref].
      specialize (IH (acc ++ [r])).
      destruct (Har.extract_entries guess_type entries (acc ++ [r])) as [rs|e].
      * destruct IH as (new & -> & Hnew & Hmap). exists (r :: new).
        rewrite <- List.app_assoc. split; [done|]. split; [by constructor|].
        cbn [omap list_omap]. rewrite <- Hmap.
        destruct (resource_href r) as [u|], (entry_url entry) as [u'|];
          by simplify_eq/=.
      * destruct IH as [-> ->]. by rewrite andb_false_r.
    + specialize (IH acc).
      destruct (Har.extract_entries guess_type entries acc) as [rs|e].
      * destruct IH as (new & -> & Hnew & Hmap). exists new.
        split; [done|]. split; [done|]. cbn [omap list_omap]. by rewrite H1.
      * destruct IH as [-> ->]. by rewrite andb_false_r.
    + destruct H1 as [-> ->]. done.
Qed.

(** X19: What the HAR tool extracts.  When it returns, every resource is an
    object of exactly an [href], a string that starts with [http], and a
    [type] that is truthy (the recorded MIME type, or the one guessed from
    the URL, or [application/octet-stream]); the hrefs are, in order, the
    request URLs of the entries that are strings starting with [http],
    every other entry being skipped.  It never raises on a log whose
    entries are a list of entries of the expected shape. *)
Theorem extract_resources_from_har_spec (har_data log : dict)
    (entries : list json) :
  dict_get_default "log" (JObj []) har_data = JObj log →
  dict_get_default "entries" (JArr []) log = JArr entries →
  match Har.extract_resources_from_har guess_type (JObj har_data) with
  | Har.Return rs =>
      Forall har_resource rs ∧
      omap resource_href rs = omap entry_url entries
  | Har.Throw e =>
      e = Har.AttributeError ∧ forallb entry_shaped entries = false
  end.
Proof.
  intros Hlog Hentries. unfold Har.extract_resources_from_har.
  cbn [Har.get]. unhar. rewrite Hlog. cbn [Har.get]. unhar.
  rewrite Hentries. cbn [iterate].
  pose proof (extract_entries_spec entries []) as H.
  destruct (Har.extract_entries guess_type entries []) as [rs|e]; [|done].
  by destruct H as (new & -> & ? & ?).
Qed.

Lemma extract_resources_sound (har_data : json) (rs : list json) :
  Har.extract_resources_from_har guess_type har_data = Har.Return rs →
  Forall har_resource rs.
Proof.
  unfold Har.extract_resources_from_har.
  destruct (Har.get har_data "log" (JObj [])) as [log|e]; [|done]. unhar.
  destruct (Har.get log "entries" (JArr [])) as [entries|e]; [|done]. unhar.
  destruct (iterate entries) as [es|e]; [|done].
  pose proof (extract_entries_spec es []) as H.
  destruct (Har.extract_entries guess_type es []) as [rs'|e]; [|done].
  intros [= <-]. by destruct H as (new & -> & ? & ?).
Qed.

(** X20: The manifest the HAR tool writes is one the downloader takes.
    [update_resources] sets [resources] to the list extracted from the
    HAR, whatever was there before, and leaves every other field as it
    was; the file written is the output file when one is given and the
    manifest read otherwise.  When the manifest's [links], [images] and
    [readingOrder] are lists or absent, discovery on the result returns,
    and it finds every extracted URL that is an http(s) URL and not
    blocked. *)
Theorem update_resources_then_collect (data : dict) (har_data : json)
    (existing_json : string) (output_file : option string)
    (out_file : string) (data' : json) :
  Forall (λ key, list_or_absent key data) ["links"; "images"; "readingOrder"] →
  Har.update_resources guess_type (JObj data) har_data existing_json output_file =
    Har.Return (out_file, data') →
  ∃ rs urls,
    Har.extract_resources_from_har guess_type har_data = Har.Return rs ∧
    data' = JObj (dict_set "resources" (JArr rs) data) ∧
    out_file = default existing_json
                 (output_file ≫= λ f, if Str.eqb f EmptyString then None
                                      else Some f) ∧
    (∀ k, k ≠ "resources" →
          dict_get k (dict_set "resources" (JArr rs) data) = dict_get k data) ∧
    collect_urls_from_manifest (dict_set "resources" (JArr rs) data) = Ok urls ∧
    ∀ r u, r ∈ rs → resource_href r = Some u → in_scope u = true → u ∈ urls.
Proof.
  intros Hlists. unfold Har.update_resources.
  destruct (Har.extract_resources_from_har guess_type har_data) as [rs|e] eqn:E;
    [|done].
  unhar. intros [= <- <-].
  exists rs, (list_to_set (in_scope_urls
                (JObj (dict_set "resources" (JArr rs) data)))).
  split; [done|]. split; [done|].
  split; [by destruct output_file as [f|]; [cbn; destruct (Str.eqb f _)|]|].
  split; [intros k Hk; by apply dict_get_set_ne|]. split.
  - apply collect_urls_spec. rewrite Forall_forall in Hlists.
    apply Forall_forall. intros key Hkey. unfold list_or_absent.
    destruct (decide (key = "resources")) as [->|Hne].
    + rewrite dict_get_set_eq. right. by eexists.
    + rewrite dict_get_set_ne by done. apply Hlists. set_solver.
  - intros r u Hr Hhref Hin. apply elem_of_list_to_set, elem_of_in_scope_urls.
    split; [done|].
    eapply strings_of_dict_get; [apply dict_get_set_eq|].
    eapply strings_of_item; [done|].
    unfold resource_href in Hhref. destruct r as [| | | | | |d]; try done.
    destruct (dict_get "href" d) as [[| | | |u'| |]|] eqn:Hd; try done.
    injection Hhref as ->.
    eapply strings_of_dict_get; [done|]. cbn [strings_of]. by left.
Qed.

End HarTool.

Lemma extract_resources_from_har_spec_witness :
  let entries :=
    [JObj [("request", JObj [("url", JStr "https://good.com/a.png")]);
           ("response", JObj [("content", JObj [("mimeType", JStr "image/png")])])];
     JObj [("request", JObj [("url", JStr "data:text/plain,x")]);
           ("response", JNull)];
     JObj [("request", JObj [("url", JStr "httpx://odd/b")])]] in
  match Har.extract_resources_from_har (λ _, None)
          (JObj [("log", JObj [("entries", JArr entries)])]) with
  | Har.Return rs =>
      Forall har_resource rs ∧
      omap resource_href rs = ["https://good.com/a.png"; "httpx://odd/b"]
  | Har.Throw e =>
      e = Har.AttributeError ∧ forallb entry_shaped entries = false
  end.
Proof.
  intros entries.
  exact (extract_resources_from_har_spec (λ _, None)
           [("log", JObj [("entries", JArr entries)])]
           [("entries", JArr entries)] entries eq_refl eq_refl).
Defined.

Lemma update_resources_then_collect_witness :
  let data : dict :=
    [("metadata", JObj [("title", JStr "t")]);
     ("resources", JArr [JObj [("href", JStr "https://old.example/x")]])] in
  let har_data :=
    JObj [("log", JObj [("entries",
      JArr [JObj [("request", JObj [("url", JStr "https://good.com/a.png")])];
            JObj [("request", JObj [("url", JStr "httpx://odd/b")])]])])] in
  ∃ rs urls,
    Har.extract_resources_from_har (λ _, None) har_data = Har.Return rs ∧
    JObj [("metadata", JObj [("title", JStr "t")]);
          ("resources",
           JArr [JObj [("href", JStr "https://good.com/a.png");
                       ("type", JStr "application/octet-stream")];
                 JObj [("href", JStr "httpx://odd/b");
                       ("type", JStr "application/octet-stream")]])] =
      JObj (dict_set "resources" (JArr rs) data) ∧
    "m.json" = default "m.json"
                 (Some EmptyString ≫= λ f, if Str.eqb f EmptyString then None
                                           else Some f) ∧
    (∀ k, k ≠ "resources" →
          dict_get k (dict_set "resources" (JArr rs) data) = dict_get k data) ∧
    collect_urls_from_manifest (dict_set "resources" (JArr rs) data) = Ok urls ∧
    ∀ r u, r ∈ rs → resource_href r = Some u → in_scope u = true → u ∈ urls.
Proof.
  intros data har_data.
  apply (update_resources_then_collect (λ _, None) data har_data "m.json"
           (Some EmptyString)).
  - constructor; [by left|]. constructor; [by left|].
    constructor; [by left|]. constructor.
  - reflexivity.
Defined.

(** * The summary *)

Lemma failed_urls_sublist (rs : list (string * outcome)) :
  failed_urls rs `sublist_of` rs.*1.
Proof. unfold failed_urls. apply fmap_sublist, sublist_filter. Qed.

(** X21: The summary [main] writes is consistent in itself: the failures it
    lists are URLs that were found, each listed once, so that they are
    never more than [found_urls_count]; and the bytes it reports are
    those of the downloads that did not fail. *)
Theorem verify_summary_failures (net : string → nat → attempt)
    (file_size : Pathlib.Path → option Z) (out_root : Pathlib.Path)
    (manifest : dict) (skip_existing : bool) (v : verify) :
  verify_summary net file_size out_root manifest skip_existing = Ok v →
  ∃ urls f,
    collect_urls_from_manifest manifest = Ok urls ∧
    download_urls net file_size out_root (elements urls) skip_existing = Ok f ∧
    found_urls_count v = size urls ∧
    downloads_total_bytes v = fetched_bytes (results f) ∧
    download_failures v = failed_urls (results f) ∧
    NoDup (download_failures v) ∧
    (∀ u, u ∈ download_failures v → u ∈ urls) ∧
    length (download_failures v) ≤ found_urls_count v.
Proof.
  unfold verify_summary.
  destruct (collect_urls_from_manifest manifest) as [urls|e]; [|done]. unbind.
  destruct (download_urls _ _ _ _ _) as [f|e] eqn:Hf; [|done]. unbind.
  destruct (rewrite_manifest out_root manifest) as [[[m' c] r]|e]; [|done].
  unbind. intros [= <-].
  cbn [found_urls_count downloads_total_bytes download_failures].
  exists urls, f.
  destruct (download_urls_placed _ _ _ _ _ _ Hf) as (Hkeys & _ & [Hfailed Hbytes]).
  pose proof (failed_urls_sublist (results f)) as Hsub.
  rewrite <- Hfailed in Hsub.
  split_and!; try done.
  - eapply sublist_NoDup; [|done]. rewrite Hkeys. apply NoDup_elements.
  - intros u Hu. apply elem_of_elements. rewrite <- Hkeys.
    by eapply elem_of_sublist.
  - apply sublist_length in Hsub. rewrite Hsub, Hkeys. done.
Qed.

Lemma verify_summary_failures_witness :
  ∃ urls f,
    collect_urls_from_manifest
      [("cover", JStr "https://good.com/a"); ("icon", JStr "https://good.com/b")] =
      Ok urls ∧
    download_urls (λ u _, if Str.eqb u "https://good.com/a"
                          then Response 200 ["abc"] else Response 404 [])
      (λ _, None) (Pathlib.parse "./local_www") (elements urls) false = Ok f ∧
    2 = size urls ∧
    3%Z = fetched_bytes (results f) ∧
    ["https://good.com/b"] = failed_urls (results f) ∧
    NoDup ["https://good.com/b"] ∧
    (∀ u, u ∈ ["https://good.com/b"] → u ∈ urls) ∧
    length ["https://good.com/b"] ≤ 2.
Proof.
  apply (verify_summary_failures
           (λ u _, if Str.eqb u "https://good.com/a"
                   then Response 200 ["abc"] else Response 404 [])
           (λ _, None) (Pathlib.parse "./local_www")
           [("cover", JStr "https://good.com/a"); ("icon", JStr "https://good.com/b")]
           false
           {| found_urls_count := 2; downloads_total_bytes := 3;
              download_failures := ["https://good.com/b"];
              rewritten_count := 2; removed_blocked := 0 |}).
  vm_compute. reflexivity.
Defined.

(** * Which URLs share a file *)

Lemma walk_no_dotdot (rooted : bool) (m stack : list string) :
  ".." ∉ m → fold_left (walk rooted) m stack = rev m ++ stack.
Proof.
  revert stack. induction m as [|x m IH]; intros stack Hm; [done|].
  apply not_elem_of_cons in Hm as [Hx Hm]. cbn [fold_left rev].
  rewrite IH by done. unfold walk, Str.eqb.
  rewrite bool_decide_eq_false_2 by done. by rewrite <- List.app_assoc.
Qed.

(** Under one root, two paths whose own parts have no [..] name one file
    only when they are one path. *)
Lemma file_of_inj (out_root : Pathlib.Path) (a b : list string) :
  ".." ∉ a → ".." ∉ b →
  file_of {| Pathlib.root := Pathlib.root out_root;
             Pathlib.parts := Pathlib.parts out_root ++ a |} =
  file_of {| Pathlib.root := Pathlib.root out_root;
             Pathlib.parts := Pathlib.parts out_root ++ b |} → a = b.
Proof.
  intros Ha Hb. unfold file_of. cbn [Pathlib.root Pathlib.parts].
  rewrite !fold_left_app, (walk_no_dotdot _ a), (walk_no_dotdot _ b) by done.
  rewrite !rev_app_distr, !rev_involutive. intros [= H].
  by apply app_inv_head in H.
Qed.

(** A plain path is mapped segment by segment. *)
Lemma plain_path (p : Urllib.ParseResult) :
  plain (Urllib.path p) = true →
  ∃ rest, Urllib.path p = String "/" rest ∧
          path_segments p = Str.split "/" rest.
Proof.
  unfold plain. intros [[Hpc Hend]%andb_true_iff Hsegs]%andb_true_iff.
  apply negb_true_iff in Hpc, Hend.
  destruct (Urllib.path p) as [|c rest] eqn:Hpath; [done|].
  destruct (Ascii.eqb_spec c "/") as [->|Hc].
  2:{ exfalso. revert Hsegs. clear -Hc.
      destruct c as [[] [] [] [] [] [] [] []]; try done. }
  exists rest. split; [done|].
  unfold path_segments, decoded_path. rewrite Hpath.
  rewrite (proj2 (eqb_false (String "/" rest) EmptyString)) by done.
  unfold Urllib.unquote. rewrite Hpc, Hend.
  rewrite (proj2 (eqb_false (String "/" rest) EmptyString)) by done.
  cbn [Str.split]. rewrite Ascii.eqb_refl.
  rewrite filter_cons_False by (by vm_compute).
  apply forallb_forall in Hsegs || idtac.
  induction (Str.split "/" rest) as [|x l IH]; [done|].
  cbn [forallb] in Hsegs. apply andb_true_iff in Hsegs as [Hx Hl].
  rewrite filter_cons_True by done. by rewrite IH.
Qed.

(** C7, as the code has it.  The local path depends on the netloc, the
    path and the query of the URL only, so two URLs that agree on them
    (differing in scheme, params or fragment) get the same local path; two
    URLs whose hosts differ get different ones.  In general two accepted
    URLs get the same local path exactly when the parts made from them are
    the same.  On one host and without query that is when the decoded
    paths have the same kept segments, so plain paths that differ get
    different local paths; with one path and two queries it is when the
    fingerprints of the queries agree.  And when no netloc is [..] and no
    decoded path has a [..] segment, two local paths name one file only
    when they are one path. *)
Theorem C7_local_path_collisions (out_root : Pathlib.Path) (u1 u2 : string)
    (p1 p2 : Urllib.ParseResult) :
  Urllib.urlparse u1 = Ok p1 → Urllib.urlparse u2 = Ok p2 →
  ∃ l1 h1 l2 h2,
    url_to_local_path u1 out_root = Ok (l1, h1) ∧
    url_to_local_path u2 out_root = Ok (l2, h2) ∧
    (Urllib.netloc p1 = Urllib.netloc p2 →
     Urllib.path p1 = Urllib.path p2 →
     Urllib.query p1 = Urllib.query p2 →
     l1 = l2 ∧ h1 = h2) ∧
    (Urllib.netloc p1 ≠ Urllib.netloc p2 →
     Pathlib.keep_part (Urllib.netloc p1) = true →
     Pathlib.keep_part (Urllib.netloc p2) = true →
     l1 ≠ l2) ∧
    (l1 = l2 ↔ mapped_parts p1 = mapped_parts p2) ∧
    (Urllib.netloc p1 = Urllib.netloc p2 →
     Urllib.query p1 = EmptyString → Urllib.query p2 = EmptyString →
     (l1 = l2 ↔ path_segments p1 = path_segments p2) ∧
     (plain (Urllib.path p1) = true → plain (Urllib.path p2) = true →
      Urllib.path p1 ≠ Urllib.path p2 → l1 ≠ l2)) ∧
    (Urllib.netloc p1 = Urllib.netloc p2 →
     Urllib.path p1 = Urllib.path p2 →
     Urllib.query p1 ≠ EmptyString → Urllib.query p2 ≠ EmptyString →
     (l1 = l2 ↔
      fingerprint (Urllib.query p1) = fingerprint (Urllib.query p2))) ∧
    (Urllib.netloc p1 ≠ ".." → Urllib.netloc p2 ≠ ".." →
     ".." ∉ Str.split "/" (decoded_path p1) →
     ".." ∉ Str.split "/" (decoded_path p2) →
     (file_of l1 = file_of l2 ↔ l1 = l2)).
Proof.
  intros Hp1 Hp2.
  pose proof (query_fingerprint_decides out_root u1 u2 p1 p2 Hp1 Hp2) as Hq.
  rewrite (url_to_local_path_accepted u1 out_root p1 Hp1) in *.
  rewrite (url_to_local_path_accepted u2 out_root p2 Hp2) in *.
  do 4 eexists. split; [done|]. split; [done|].
  assert (Hparts : ∀ a b : list string,
            {| Pathlib.root := Pathlib.root out_root;
               Pathlib.parts := Pathlib.parts out_root ++ a |} =
            {| Pathlib.root := Pathlib.root out_root;
               Pathlib.parts := Pathlib.parts out_root ++ b |} ↔ a = b).
  { intros a b. split; [|by intros ->]. intros [= H]. by apply app_inv_head in H. }
  assert (Hnoq : ∀ p, Urllib.query p = EmptyString →
            mapped_parts p =
            filter (λ x, Pathlib.keep_part x = true)
                   (Str.split "/" (Urllib.netloc p)) ++ path_segments p).
  { intros p Hq0. unfold mapped_parts, local_rel, path_segments.
    rewrite Hq0. change (Str.eqb EmptyString EmptyString) with true.
    cbn [negb]. by rewrite filter_keep_lstrip. }
  split_and!.
  - intros Hn Hp Hq0. unfold mapped_parts, local_rel, decoded_path.
    by rewrite Hn, Hp, Hq0.
  - intros Hne K1 K2 [= H]. apply app_inv_head in H. unfold mapped_parts in H.
    rewrite (keep_part_single (Urllib.netloc p1)) in H
      by (done || eapply netloc_no_sep, Hp1).
    rewrite (keep_part_single (Urllib.netloc p2)) in H
      by (done || eapply netloc_no_sep, Hp2).
    simpl in H. injection H as H _. done.
  - apply Hparts.
  - intros Hn Hq1 Hq2.
    assert (Hiff : {| Pathlib.root := Pathlib.root out_root;
                      Pathlib.parts := Pathlib.parts out_root ++ mapped_parts p1 |} =
                   {| Pathlib.root := Pathlib.root out_root;
                      Pathlib.parts := Pathlib.parts out_root ++ mapped_parts p2 |} ↔
                   path_segments p1 = path_segments p2).
    { rewrite Hparts, !Hnoq, Hn by done. split; [|by intros ->].
      by intros H%app_inv_head. }
    split; [done|]. intros Hpl1 Hpl2 Hne Heq. apply Hne.
    apply Hiff in Heq.
    destruct (plain_path p1 Hpl1) as (r1 & -> & E1).
    destruct (plain_path p2 Hpl2) as (r2 & -> & E2).
    rewrite E1, E2 in Heq. f_equal.
    by rewrite <- (join_split "/" r1), <- (join_split "/" r2), Heq.
  - intros Hn Hp Hq1 Hq2.
    destruct (Hq Hn Hp Hq1 Hq2) as (l1 & h1 & l2 & h2 & [= <- _] & [= <- _] & Hiff).
    split.
    + intros Heq.
      destruct (decide (fingerprint (Urllib.query p1) =
                        fingerprint (Urllib.query p2))) as [|Hne]; [done|].
      by apply Hiff in Hne.
    + intros Heq. apply Hparts.
      destruct (decide (mapped_parts p1 = mapped_parts p2)) as [|Hne]; [done|].
      exfalso. rewrite <- Hparts in Hne. by apply Hiff in Hne.
  - intros Hn1 Hn2 Hd1 Hd2.
    assert (Hm : ∀ u p, Urllib.urlparse u = Ok p → Urllib.netloc p ≠ ".." →
              ".." ∉ Str.split "/" (decoded_path p) → ".." ∉ mapped_parts p).
    { intros u p Hp Hn Hd Hin.
      destruct (mapped_parts_dotdot p (netloc_no_sep _ _ Hp)) as [H _].
      by destruct (H Hin). }
    split; [|by intros ->]. intros H. apply Hparts.
    apply (file_of_inj out_root); [by eapply Hm..|done].
Qed.

Lemma C7_witness :
  (∃ l h,
     url_to_local_path "http://a.com/x#top" (Pathlib.parse "./local_www") = Ok (l, h) ∧
     url_to_local_path "https://a.com/x" (Pathlib.parse "./local_www") = Ok (l, h)) ∧
  (∃ l1 h1 l2 h2,
     url_to_local_path "https://a.com/x" (Pathlib.parse "./local_www") = Ok (l1, h1) ∧
     url_to_local_path "https://b.com/x" (Pathlib.parse "./local_www") = Ok (l2, h2) ∧
     l1 ≠ l2 ∧ file_of l1 ≠ file_of l2) ∧
  (∃ l1 h1 l2 h2,
     url_to_local_path "https://a.com/x/y" (Pathlib.parse "./local_www") = Ok (l1, h1) ∧
     url_to_local_path "https://a.com/x/z" (Pathlib.parse "./local_www") = Ok (l2, h2) ∧
     l1 ≠ l2 ∧ file_of l1 ≠ file_of l2) ∧
  (∃ l1 h1 l2 h2,
     url_to_local_path "https://a.com/x?v=1" (Pathlib.parse "./local_www") = Ok (l1, h1) ∧
     url_to_local_path "https://a.com/x?v=2" (Pathlib.parse "./local_www") = Ok (l2, h2) ∧
     l1 ≠ l2).
Proof.
  split_and!.
  - edestruct (C7_local_path_collisions (Pathlib.parse "./local_www")
           "http://a.com/x#top" "https://a.com/x"
           {| Urllib.scheme := "http"; Urllib.netloc := "a.com";
              Urllib.path := "/x"; Urllib.params := EmptyString;
              Urllib.query := EmptyString; Urllib.fragment := "top" |}
           {| Urllib.scheme := "https"; Urllib.netloc := "a.com";
              Urllib.path := "/x"; Urllib.params := EmptyString;
              Urllib.query := EmptyString; Urllib.fragment := EmptyString |})
      as (l1 & h1 & l2 & h2 & E1 & E2 & Hsame & _); [reflexivity..|].
    destruct (Hsame eq_refl eq_refl eq_refl) as [-> ->]. by exists l2, h2.
  - edestruct (C7_local_path_collisions (Pathlib.parse "./local_www")
           "https://a.com/x" "https://b.com/x"
           {| Urllib.scheme := "https"; Urllib.netloc := "a.com";
              Urllib.path := "/x"; Urllib.params := EmptyString;
              Urllib.query := EmptyString; Urllib.fragment := EmptyString |}
           {| Urllib.scheme := "https"; Urllib.netloc := "b.com";
              Urllib.path := "/x"; Urllib.params := EmptyString;
              Urllib.query := EmptyString; Urllib.fragment := EmptyString |})
      as (l1 & h1 & l2 & h2 & E1 & E2 & _ & Hhost & _ & _ & _ & Hfile);
      [reflexivity..|].
    exists l1, h1, l2, h2. split; [done|]. split; [done|].
    assert (l1 ≠ l2) as Hne by (by apply Hhost).
    split; [done|]. intros Hf. apply Hne, Hfile; try done;
      apply (bool_decide_unpack _); vm_compute; exact I.
  - edestruct (C7_local_path_collisions (Pathlib.parse "./local_www")
           "https://a.com/x/y" "https://a.com/x/z"
           {| Urllib.scheme := "https"; Urllib.netloc := "a.com";
              Urllib.path := "/x/y"; Urllib.params := EmptyString;
              Urllib.query := EmptyString; Urllib.fragment := EmptyString |}
           {| Urllib.scheme := "https"; Urllib.netloc := "a.com";
              Urllib.path := "/x/z"; Urllib.params := EmptyString;
              Urllib.query := EmptyString; Urllib.fragment := EmptyString |})
      as (l1 & h1 & l2 & h2 & E1 & E2 & _ & _ & _ & Hpath & _ & Hfile);
      [reflexivity..|].
    exists l1, h1, l2, h2. split; [done|]. split; [done|].
    destruct (Hpath eq_refl eq_refl eq_refl) as [_ Hplain].
    assert (l1 ≠ l2) as Hne by (by apply Hplain).
    split; [done|]. intros Hf. apply Hne, Hfile; try done;
      apply (bool_decide_unpack _); vm_compute; exact I.
  - edestruct (C7_local_path_collisions (Pathlib.parse "./local_www")
           "https://a.com/x?v=1" "https://a.com/x?v=2"
           {| Urllib.scheme := "https"; Urllib.netloc := "a.com";
              Urllib.path := "/x"; Urllib.params := EmptyString;
              Urllib.query := "v=1"; Urllib.fragment := EmptyString |}
           {| Urllib.scheme := "https"; Urllib.netloc := "a.com";
              Urllib.path := "/x"; Urllib.params := EmptyString;
              Urllib.query := "v=2"; Urllib.fragment := EmptyString |})
      as (l1 & h1 & l2 & h2 & E1 & E2 & _ & _ & _ & _ & Hquery & _);
      [reflexivity..|].
    exists l1, h1, l2, h2. split; [done|]. split; [done|].
    intros Heq. apply (Hquery eq_refl eq_refl) in Heq; [|done..].
    revert Heq. vm_compute. discriminate.
Defined.

(** C7 as stated fails: these two members of one discovered set are
    distinct URLs with one local path. *)
Lemma C7_counterexample :
  let m : dict := [("links", JArr [JObj [("href", JStr "http://a.com/x")];
                                   JObj [("href", JStr "https://a.com/x")]])] in
  ∃ urls l h, collect_urls_from_manifest m = Ok urls ∧
    "http://a.com/x" ∈ urls ∧ "https://a.com/x" ∈ urls ∧
    "http://a.com/x" ≠ "https://a.com/x" ∧
    url_to_local_path "http://a.com/x" (Pathlib.parse "./local_www") =
      Ok (l, h) ∧
    url_to_local_path "https://a.com/x" (Pathlib.parse "./local_www") =
      Ok (l, h).
Proof.
  do 3 eexists. split; [reflexivity|].
  split; [by vm_compute|]. split; [by vm_compute|].
  split; [discriminate|]. split; reflexivity.
Qed.

(** With a [..] segment two different local paths can name one file. *)
Example dotdot_shares_file :
  ∃ l1 h1 l2 h2,
    url_to_local_path "https://a.com/../b.com/x" (Pathlib.parse "./local_www") = Ok (l1, h1) ∧
    url_to_local_path "https://b.com/x" (Pathlib.parse "./local_www") = Ok (l2, h2) ∧
    Pathlib.parts l1 = ["local_www"; "a.com"; ".."; "b.com"; "x"] ∧
    Pathlib.parts l2 = ["local_www"; "b.com"; "x"] ∧
    file_of l1 = file_of l2.
Proof. do 4 eexists. vm_compute. repeat split. Qed.
